(* ===== verification/_CoqProject ===== *)
-Q . S2P
Prelude.v
GoString.v
GoIO.v
Regexp.v
NetUrl.v
GoTime.v
NetHttp.v
GoFlag.v
ConfigNode.v
ConfigTelemetry.v
ErrorLog.v
Setup.v
Observer.v
AuditLog.v
Operation.v
Config.v
Swarm.v
EqualGenerated.v
EqualSpec.v
Generator.v
GeneratorSpec.v
GeneratorNames.v
GeneratorCorrect.v
GeneratorTyped.v
SpecJson.v
Identity.v
DockerApi.v
Mutation.v
Policy.v
Authz.v
Privacy.v
Transport.v
ServeUnix.v
PkiBundle.v
Pki.v
Cli.v
Main.v
