(* ===== verification/Prelude.v ===== *)
(** * dockauthz: a verification development

    dockauthz is an authorization plugin for Docker Engine.  For every request the daemon
    sends an envelope to the plugin; the plugin identifies the client by its certificate,
    resolves the request to an operation, looks up the client's permissions in an
    administrative policy, inspects the current state of the resource where a permission
    constrains it, and answers allow or deny.  This library models that path, from the
    HTTP call to the answer, and proves what the answer depends on.

    ** The parts and the files that model them

    A file models one package (the Go sources are under src/internal):

    - [Operation]: operation/operation.go.  [Resolve] turns a request line into an
      operation; [Route] is the table of supported requests.
    - [SpecJson]: specjson/decode.go.  [Decode] reads exactly one JSON object; what
      encoding/json does with a Docker type is the class [JsonTarget].
    - [Swarm], [EqualGenerated], [EqualSpec]: mutation/equal_generated.go (and the code
      templates of mutation/generate/main.go).  One record per Docker struct, one
      definition per generated function; [EqualSpec] proves each of them decides equality
      through the class [Decides], one instance per function.
    - [Generator], [GeneratorSpec], [GeneratorCorrect], [GeneratorNames], [GeneratorTyped]:
      mutation/generate/main.go, the program that writes those functions.  The first has
      the traversal of the type graph ([equal], with its memo, import names and schema
      guards) and the printed source; the others a semantics of the source ([run],
      specification [DeepEqual]), the invariant of the traversal, the names of the imports,
      and the typing of the finished file.
    - [Mutation]: mutation/mutation.go.  [Validate]; its specification [ChangesWithin]
      erases the permitted subtrees on both sides.
    - [ConfigNode], [ConfigTelemetry], [Config]: config/config.go.  The checks of the YAML
      nodes, the telemetry section, and the policy with [Config_Validate], [Parse] and
      [Load]; specifications [Plain], [Typed], [ValidTelemetry], [ValidConfig],
      [ParsesTo].
    - [Identity]: identity/identity.go.  [CommonName].
    - [Observer]: telemetry/observer.go.  The monad [M] of everything that observes or
      talks to Docker: it threads the world and collects the calls to the tracer, the
      meters and the logger as a trace of events.
    - [DockerApi]: dockerapi/token.go and client.go.  The internal token, the HTTP client
      that [New] builds, and [Client_Inspect] against an arbitrary daemon (class
      [RoundTripper]); class [Reader] is the interface Reader of the sources, class
      [QuietReader] the law that audit relies on.
    - [Policy]: policy/policy.go.  [permission] and [Evaluate] against [Reader];
      specification [Grants].
    - [Authz]: authz/plugin.go and context.go.  [New] and [Authorize] with its deferred
      report; specifications [Authorized] and, on the policy document itself,
      [ConfigAllows].  [Privacy] follows the metrics along the whole path.
    - [Transport], [ServeUnix]: transport/server.go.  The HTTP handler; and the start-up and
      shutdown of the server, as the steps of the program, of its timers and of its
      environment, with a record of what it did ([event]) and how that determines its
      result ([Outcome]).
    - [PkiBundle], [Pki]: pki/pki.go, the tool that issues certificates.  The first holds a
      directory in which any system call may fail (class [Host]) and [writeBundle]; the
      second the options, the requested certificate, [loadCA] and [Generate] over the
      crypto packages (class [Crypto]).  Specifications [DNSName], [ValidOptions],
      [SigningCA], [Issued].  [Cli]: pki/cli.go and cmd/dockauthz-cert/main.go.
    - [Setup], [ErrorLog]: telemetry/setup.go.  What is configured from the telemetry
      section and how it is flushed; and the handler of export errors, a step relation on
      any number of concurrent calls.  [AuditLog]: audit/audit.go.
    - [Main]: cmd/dockauthz/main.go.  [run] composes [Load], [Setup], [NewToken] and the two
      constructors, and says what is served, with which client, and what is released.

    The standard library that these use is modelled by [GoString] (strings, strconv,
    unicode), [GoIO] (bounded reading), [Regexp], [NetUrl] (net/url), [NetHttp] (the HTTP
    client and its redirects), [GoTime] (durations, floats, host:port) and [GoFlag]
    (package flag); this file holds results, guards, loops and maps.

    ** Conventions

    A Go error is its message; [result] and [option error] are the two shapes of fallible
    calls.  Strings and byte slices are byte strings; runes matter only where a check
    looks outside ASCII.  A method that assigns through its receiver returns the receiver
    afterwards.  A loop over a map runs over [range m] for an arbitrary instance of
    [MapRange]: every theorem holds for every order in which Go may enumerate a map.
    A deferred call is run where Go runs it, after the value to return is fixed.  Machine
    integers are [Z] with the wrap-around of strconv and time written out; float64 and
    float32 are binary floats of the Standard Library.

    ** What the theorems show

    - The whole path: [run_serves_policy] (from the file that the arguments name to the
      answer of an HTTP call, through the client's inspections), [run_spec], [Plugin_refines_policy] (the
      plugin built from a policy allows exactly what the document says), [Authorize_spec],
      [New_spec], [ServeHTTP_spec] and [ServeHTTP_inert] (the HTTP adapter fails closed).
    - Evaluation: [Evaluate_spec] (one permission must grant alone), [Evaluate_set],
      [Evaluate_least_privilege].
    - Mutations: [equalSpec_spec] (the generated comparison misses no field),
      [Validate_spec], [Validate_least_privilege]; besides, [Validate_permutation].
    - The generator: [generate_correct] (on every graph of types that it accepts, the
      functions it writes decide deep equality), [generate_terminates], [generate_typed]
      (where the types can be named at all, [Nameable], the file is well typed and no two
      imports have one name; every named struct has a guard on its fields).
    - Requests: [Resolve_spec], [Resolve_canonical], [CommonName_spec].
    - The plugin's own requests: [inspect_request_spec], [Client_Inspect_spec] (one round
      trip over the socket, no redirect), [Authorize_internal] and
      [Authorize_own_inspection] (inspections do not recurse); besides,
      [Check_headers_spec] and [NewToken_spec].
    - Reporting: [Authorize_reported], [Authorize_metrics_bounded] (no path, body or ID in a
      metric), [Setup_spec], [error_log_rate] (the admitted errors are a minute apart, and
      so are prompt lines but for their delay; [late_line] is a call that is held up);
      besides, [Client_Inspect_observed] and [audit_correlates].
    - The policy document: [Load_spec], [Config_Validate_spec], [Parse_total],
      [validate_document_spec]; besides, [Telemetry_Validate_spec] and [Load_revalidates]
      (a loaded policy passes validation again, unchanged).
    - Starting and stopping: [ServeUnix_safe] (the plugin shuts down the server that it
      started and drains it, and what it did determines its result: a failed start, a
      helper that fails and a drain that times out are errors), [shutdown_returns] (a
      cancelled plugin exits on every fair run, whatever the environment does, and without
      an error when the requests are answered in time).
    - Certificates: [Generate_spec] and [Generate_preserves], [writeBundle_atomic]
      (whatever system calls fail), [loadCA_spec], [Generate_loadCA] (a generated CA is
      read back as it was requested), [validDNS_spec], [Run_spec] (the command line is read back as it was meant).

    ** Parameters, bounds and fuel

    Third-party code and decoders driven by reflection are class parameters: [Otel],
    [Exporters], [SlogHandler] and [SpanIDs], [RoundTripper] (the daemon), [DockerJson] and
    [JsonTarget], [Yaml], [Wire], [Crypto], [Host]; the graph that go/types builds is an
    argument of the generator.  Theorems assume nothing of them beyond their types and the
    laws that their classes state, with exceptions stated as hypotheses: the crypto
    packages decode what they encode of an authority with a valid key ([CryptoLaws], for
    [Generate_loadCA] only), the YAML
    decoder alternates keys and values ([Parse_total]), the trace propagator leaves the
    internal header alone ([Authorize_own_inspection]), a resource that does not change
    between two looks answers alike ([stable]), and, for the file to be well typed, the types
    of a graph can be named in another package ([Nameable], of [generate_typed]).
    Sizes are the sources' constants: 1 MiB of policy, 8 MiB of inspect response, 16 MiB of
    envelope, 16 certificates, and net/url's 10000 query parameters.
    Fuel occurs in four places.  ParseDuration in [GoTime] has one unit per byte of input,
    which is enough because each component consumes at least one byte
    ([parseComponents_fuel]).  The generator has one unit per type of the graph and one
    more, which is enough because each call that recurses names a new type
    ([generate_terminates]); the functions that it writes have the depth of the value and
    one more ([generate_correct] says that they return).  http.Client.Do has eleven round
    trips, the default policy's ten and one; the client of [DockerApi.New] makes one
    ([Do_refuses]).

    ** Not modelled

    What package flag prints, the loading of packages and the formatting of source by the
    generator's main, the generated test doubles and the end-to-end tests.  Other processes
    that write the output directory of Generate at the same time, and whether that directory
    had to be created.  Values that contain themselves, and maps whose keys are not strings,
    in the semantics of the generated functions; the other files of their package.  Measured durations are
    left out of the events.  Cancellation and timeouts of a request's context appear only
    as failed calls to the daemon. *)
From stdpp Require Export base tactics option list gmap strings fin_maps.
From Stdlib Require Export ZArith Lia.

(** ** Go results

    A Go function of type [(T, error)] returns [result T]; a function of type
    [error] alone returns [option error], [None] being [nil].  An error is its
    message. *)
Abbreviation error := string (only parsing).

Inductive result (A : Type) : Type :=
| Ok (a : A)
| Err (e : error).
Arguments Ok {A} a.
Arguments Err {A} e.

Definition result_bind {A B : Type} (r : result A) (k : A → result B) : result B :=
  match r with Ok a => k a | Err e => Err e end.

Definition result_error {A : Type} (r : result A) : option error :=
  match r with Ok _ => None | Err e => Some e end.

(** [err1 ;? err2]: the chain [if err := e1; err != nil { return err }; e2]. *)
Definition err_seq (e1 e2 : option error) : option error :=
  match e1 with Some e => Some e | None => e2 end.

(** [each f l]: the loop [for _, x := range l { if err := f(x); err != nil { return err } }]. *)
Definition each {A : Type} (f : A → option error) : list A → option error :=
  fix go l := match l with [] => None | x :: l' => err_seq (f x) (go l') end.

Declare Scope go_scope.
Delimit Scope go_scope with go.
Notation "'try' x ':=' e 'in' k" := (result_bind e (λ x, k))
  (at level 10, x name, e at level 100, k at level 200) : go_scope.
Notation "e1 ';?' e2" := (err_seq e1 e2) (at level 95, right associativity) : go_scope.
(** [fail_if b "msg"]: the guard [if b { return errors.New("msg") }]. *)
Definition fail_if (b : bool) (e : error) : option error := if b then Some e else None.
Notation "a '==' b" := (bool_decide (a = b)) (at level 70, no associativity) : go_scope.
Notation "a '!=' b" := (negb (bool_decide (a = b))) (at level 70, no associativity) : go_scope.
Open Scope go_scope.

(** ** Panics: indexing past the end of a slice, or reading through a nil pointer. *)
Inductive outcome (A : Type) := Return (a : A) | Panic.
Arguments Return {A} a.
Arguments Panic {A}.

(** ** Pointers, slices and maps

    A pointer whose target nothing else aliases is an [option]; a slice is an
    [option] of its elements, [None] being [nil], which Go code can tell from an
    empty slice; a map is an [option] of a finite map in the same way where the
    code compares it to [nil], and a plain finite map where it only reads it. *)
Abbreviation ptr A := (option A) (only parsing).
Abbreviation slice A := (option (list A)) (only parsing).
Abbreviation gomap V := (option (gmap string V)) (only parsing).

(** Go leaves the order of [range] over a map unspecified.  A loop over a map runs
    over [range m], for an arbitrary enumeration [range] of the entries: a theorem
    about every instance of this class holds for every order. *)
Class MapRange := {
  range : ∀ {V : Type}, gmap string V → list (string * V);
  range_perm : ∀ {V : Type} (m : gmap string V), range m ≡ₚ map_to_list m
}.

Definition sorted_range : MapRange :=
  {| range := λ V m, map_to_list m; range_perm := λ V m, reflexivity _ |}.
Definition reversed_range : MapRange :=
  {| range := λ V m, rev (map_to_list m); range_perm := λ V m, symmetry (Permutation_rev _) |}.

Section range.
Context `{!MapRange}.

Lemma elem_of_range {V} (m : gmap string V) k v : (k, v) ∈ range m ↔ m !! k = Some v.
Proof. by rewrite (range_perm m), elem_of_map_to_list. Qed.

Lemma range_NoDup_fst {V} (m : gmap string V) : NoDup (range m).*1.
Proof. rewrite (range_perm m). apply NoDup_fst_map_to_list. Qed.
End range.

(** ** Machine integers: the int64 that a sum or a product wraps around to. *)
Definition wrap64 (z : Z) : Z := ((z + 2 ^ 63) mod 2 ^ 64 - 2 ^ 63)%Z.
Lemma wrap64_id z : (- 2 ^ 63 <= z < 2 ^ 63)%Z → wrap64 z = z.
Proof. intros Hz. unfold wrap64. rewrite Z.mod_small; lia. Qed.

(** ** Boolean tests and guards *)
Lemma fail_if_None b e : fail_if b e = None ↔ b = false.
Proof. by destruct b. Qed.

Lemma err_seq_None e1 e2 : (e1 ;? e2) = None ↔ e1 = None ∧ e2 = None.
Proof. destruct e1; naive_solver. Qed.

Lemma each_None {A} (f : A → option error) l : each f l = None ↔ ∀ x, x ∈ l → f x = None.
Proof.
  induction l as [|x l IH].
  { split; [|done]. intros _ ? []%not_elem_of_nil. }
  change (each f (x :: l)) with (f x ;? each f l). rewrite err_seq_None, IH.
  setoid_rewrite elem_of_cons. naive_solver.
Qed.

Lemma result_bind_Ok {A B} (r : result A) (k : A → result B) b :
  result_bind r k = Ok b ↔ ∃ a, r = Ok a ∧ k a = Ok b.
Proof. destruct r; naive_solver. Qed.

Lemma forallb_elem_of {A} (f : A → bool) l : forallb f l = true ↔ ∀ x, x ∈ l → f x = true.
Proof. rewrite forallb_forall. split; intros H x Hx; apply H; by apply list_elem_of_In. Qed.

Lemma existsb_elem_of {A} (f : A → bool) l : existsb f l = true ↔ ∃ x, x ∈ l ∧ f x = true.
Proof.
  rewrite existsb_exists.
  split; intros (x & Hx & Hf); exists x; split; try done; by apply list_elem_of_In.
Qed.

Lemma forallb_range `{!MapRange} {V} (f : string * V → bool) (m : gmap string V) :
  forallb f (range m) = true ↔ ∀ k v, m !! k = Some v → f (k, v) = true.
Proof.
  rewrite forallb_elem_of. split.
  - intros Hall k v Hk. by apply Hall, elem_of_range.
  - intros Hall [k v] Hk. by apply Hall, elem_of_range.
Qed.

Lemma existsb_range `{!MapRange} {V} (f : string * V → bool) (m : gmap string V) :
  existsb f (range m) = true ↔ ∃ k v, m !! k = Some v ∧ f (k, v) = true.
Proof.
  rewrite existsb_elem_of. split.
  - intros [[k v] [?%elem_of_range Hf]]. eauto.
  - intros (k & v & ?%elem_of_range & Hf). eauto.
Qed.

Lemma each_range `{!MapRange} {V} (f : string * V → option error) (m : gmap string V) :
  each f (range m) = None ↔ ∀ k v, m !! k = Some v → f (k, v) = None.
Proof.
  rewrite each_None. split.
  - intros Hall k v Hk. by apply Hall, elem_of_range.
  - intros Hall [k v] Hk. by apply Hall, elem_of_range.
Qed.

(** A function of the values has no duplicates over the entries of a map exactly when it
    tells the keys apart. *)
Lemma NoDup_values {V A} (f : V → A) (l : list (string * V)) :
  NoDup l.*1 →
  NoDup (f <$> l.*2) ↔
  ∀ k1 k2 v1 v2, (k1, v1) ∈ l → (k2, v2) ∈ l → f v1 = f v2 → k1 = k2.
Proof.
  induction l as [|[k v] l IH]; cbn [fmap list_fmap fst snd].
  { split; [|constructor]. intros _ ? ? ? ? []%not_elem_of_nil. }
  intros [Hk Hnd]%NoDup_cons. rewrite NoDup_cons, (IH Hnd). split.
  - assert (Hin : ∀ n w, (n, w) ∈ l → f w ∈ f <$> l.*2).
    { intros n w Hw. apply list_elem_of_fmap_2, list_elem_of_fmap. by exists (n, w). }
    intros [Hfresh Hinj] k1 k2 v1 v2 [[= -> ->]|H1]%elem_of_cons [[= -> ->]|H2]%elem_of_cons Hf.
    + done.
    + destruct Hfresh. rewrite Hf. eauto.
    + destruct Hfresh. rewrite <- Hf. eauto.
    + eauto.
  - intros Hinj. split; [|intros k1 k2 v1 v2 H1 H2; apply Hinj; by right].
    intros (? & Hf & ([n w] & -> & Hin)%list_elem_of_fmap)%list_elem_of_fmap.
    destruct Hk. rewrite (Hinj k n v w); [|left|by right|done].
    apply list_elem_of_fmap. by exists (n, w).
Qed.

Lemma NoDup_fmap_eq {A B} (f : A → B) (l : list A) x y :
  NoDup (f <$> l) → x ∈ l → y ∈ l → f x = f y → x = y.
Proof.
  induction l as [|z l IH]; [by intros _ []%not_elem_of_nil|]. cbn [fmap list_fmap].
  intros [Hz Hnd]%NoDup_cons [->|Hx]%elem_of_cons [->|Hy]%elem_of_cons Heq; [done|..|by apply IH];
    destruct Hz; [rewrite Heq|rewrite <- Heq]; by apply list_elem_of_fmap_2.
Qed.

Lemma range_NoDup_values `{!MapRange} {V A} (f : V → A) (m : gmap string V) :
  NoDup (f <$> (range m).*2) ↔
  ∀ k1 k2 v1 v2, m !! k1 = Some v1 → m !! k2 = Some v2 → f v1 = f v2 → k1 = k2.
Proof.
  rewrite NoDup_values by apply range_NoDup_fst. by setoid_rewrite elem_of_range.
Qed.

(** The boolean connectives of guards, as propositions. *)
Create Rewrite HintDb guards.
#[export] Hint Rewrite andb_true_iff orb_false_iff orb_true_iff andb_false_iff
  negb_true_iff negb_false_iff fail_if_None err_seq_None
  @bool_decide_eq_true @bool_decide_eq_false : guards.
Ltac guards := autorewrite with guards in *.

(** Case analysis on the guards of a definition, left to right. *)
Ltac guard_cases :=
  repeat match goal with
  | |- context [if ?b then _ else _] => destruct b eqn:?
  | |- context [match ?e with _ => _ end] => destruct e eqn:?
  end.
