(* ===== verification/GoString.v ===== *)
(** * Go strings: the functions of the standard library the sources call

    A Go [string] (and a [[]byte] whose nil-ness does not matter) is a sequence of
    bytes: a [string] of [ascii] here.  Nothing in this file models code under
    src/: it states what packages strings, bytes, strconv and unicode do on the
    arguments the sources pass, so that the components read like the code. *)
From S2P Require Import Prelude.
From Stdlib Require Export Ascii.

(** ** Bytes *)
Abbreviation code := N_of_ascii.
Definition byte (n : N) : ascii := ascii_of_N n.
Definition in_range (lo hi c : ascii) : bool :=
  ((code lo <=? code c) && (code c <=? code hi))%N.
Definition is_digit : ascii → bool := in_range "0" "9".
Definition is_lower : ascii → bool := in_range "a" "z".
Definition is_upper : ascii → bool := in_range "A" "Z".
Definition is_alpha (c : ascii) : bool := is_lower c || is_upper c.
Definition is_alnum (c : ascii) : bool := is_alpha c || is_digit c.
(** The ASCII lower-case letter of a byte; other bytes are unchanged. *)
Definition lower (c : ascii) : ascii := if is_upper c then byte (code c + 32) else c.
Definition upper (c : ascii) : ascii := if is_lower c then byte (code c - 32) else c.

(** ** Searching *)
Fixpoint str_all (p : ascii → bool) (s : string) : bool :=
  match s with "" => true | String c s' => p c && str_all p s' end.
Fixpoint str_any (p : ascii → bool) (s : string) : bool :=
  match s with "" => false | String c s' => p c || str_any p s' end.
Definition contains_byte (c : ascii) (s : string) : bool := str_any (Ascii.eqb c) s.
(** strings.ContainsAny for a set of ASCII characters. *)
Definition ContainsAny (s chars : string) : bool :=
  str_any (λ c, contains_byte c chars) s.
Fixpoint Count (c : ascii) (s : string) : nat :=
  match s with "" => 0 | String d s' => (if Ascii.eqb c d then 1 else 0) + Count c s' end.
Definition HasPrefix (s prefix : string) : bool := String.prefix prefix s.

(** ** Cutting *)
Fixpoint str_drop (n : nat) (s : string) : string :=
  match n, s with S n', String _ s' => str_drop n' s' | _, _ => s end.
Fixpoint str_take (n : nat) (s : string) : string :=
  match n, s with S n', String c s' => String c (str_take n' s') | _, _ => "" end.
Definition TrimPrefix (s prefix : string) : string :=
  if HasPrefix s prefix then str_drop (String.length prefix) s else s.
(** strings.Cut at a one-byte separator: (before, after, found). *)
Fixpoint Cut (sep : ascii) (s : string) : string * string * bool :=
  match s with
  | "" => ("", "", false)
  | String c s' =>
      if Ascii.eqb c sep then ("", s', true)
      else let '(before, after, found) := Cut sep s' in (String c before, after, found)
  end.
(** strings.Split at a one-byte separator. *)
Fixpoint Split (sep : ascii) (s : string) : list string :=
  match s with
  | "" => [""]
  | String c s' =>
      if Ascii.eqb c sep then "" :: Split sep s'
      else match Split sep s' with
           | part :: parts => String c part :: parts
           | [] => [String c ""]
           end
  end.
(** The inverse of [Split]: strings.Join with a one-byte separator. *)
Fixpoint Join (sep : ascii) (parts : list string) : string :=
  match parts with
  | [] => ""
  | [part] => part
  | part :: parts' => part +:+ String sep (Join sep parts')
  end.

(** ** Case folding

    strings.EqualFold(s, t) for a [t] of ASCII letters and punctuation.  Unicode's
    simple folding relates two characters outside ASCII to ASCII letters: U+017F
    (bytes C5 BF) to s and U+212A (bytes E2 84 AA) to k. *)
Fixpoint EqualFold (s t : string) : bool :=
  match s, t with
  | "", "" => true
  | String c s1, String d t' =>
      if Ascii.eqb (lower c) (lower d) then EqualFold s1 t'
      else match s1 with
           | String c2 s2 =>
               if (Ascii.eqb c (byte 0xC5) && Ascii.eqb c2 (byte 0xBF)
                   && Ascii.eqb (lower d) "s")%char
               then EqualFold s2 t'
               else match s2 with
                    | String c3 s3 =>
                        if (Ascii.eqb c (byte 0xE2) && Ascii.eqb c2 (byte 0x84)
                            && Ascii.eqb c3 (byte 0xAA) && Ascii.eqb (lower d) "k")%char
                        then EqualFold s3 t' else false
                    | "" => false
                    end
           | "" => false
           end
  | _, _ => false
  end.

(** ** White space

    unicode.IsSpace on the UTF-8 encodings of one, two and three bytes. *)
Definition is_space1 (a : ascii) : bool := in_range (byte 9) (byte 13) a || Ascii.eqb a " ".
Definition is_space2 (a b : ascii) : bool :=
  Ascii.eqb a (byte 0xC2) && (Ascii.eqb b (byte 0x85) || Ascii.eqb b (byte 0xA0)).
Definition is_space3 (a b c : ascii) : bool :=
  let at3 x y := Ascii.eqb a (byte x) && Ascii.eqb b (byte y) in
  at3 0xE1%N 0x9A%N && Ascii.eqb c (byte 0x80)
  || at3 0xE2%N 0x80%N && (in_range (byte 0x80) (byte 0x8A) c || Ascii.eqb c (byte 0xA8)
                           || Ascii.eqb c (byte 0xA9) || Ascii.eqb c (byte 0xAF))
  || at3 0xE2%N 0x81%N && Ascii.eqb c (byte 0x9F)
  || at3 0xE3%N 0x80%N && Ascii.eqb c (byte 0x80).
Fixpoint trim_left (sp2 : ascii → ascii → bool) (sp3 : ascii → ascii → ascii → bool)
    (s : string) : string :=
  match s with
  | "" => ""
  | String a s1 =>
      if is_space1 a then trim_left sp2 sp3 s1
      else match s1 with
           | "" => s
           | String b s2 =>
               if sp2 a b then trim_left sp2 sp3 s2
               else match s2 with
                    | "" => s
                    | String c s3 => if sp3 a b c then trim_left sp2 sp3 s3 else s
                    end
           end
  end.
(** strings.TrimSpace and bytes.TrimSpace. *)
Definition TrimSpace (s : string) : string :=
  let s := trim_left is_space2 is_space3 s in
  String.rev (trim_left (λ a b, is_space2 b a) (λ a b c, is_space3 c b a) (String.rev s)).

(** ** Unsigned integers: strconv.ParseUint(s, 10, 64) *)
Definition uint64_max : Z := 2 ^ 64 - 1.
Definition digit_value (c : ascii) : Z := Z.of_N (code c) - 48.
Definition parse_cutoff : Z := uint64_max / 10 + 1.
Fixpoint parse_uint_loop (n : Z) (s : string) : option Z :=
  match s with
  | "" => Some n
  | String c s' =>
      if negb (is_digit c) then None
      else if (parse_cutoff <=? n)%Z then None
      else
        let n := ((n * 10) mod 2 ^ 64)%Z in
        let n1 := ((n + digit_value c) mod 2 ^ 64)%Z in
        if ((n1 <? n) || (uint64_max <? n1))%Z then None else parse_uint_loop n1 s'
  end.
Definition ParseUint (s : string) : option Z :=
  match s with "" => None | _ => parse_uint_loop 0 s end.

(** ** Facts *)
Section strings.
Implicit Types (s t : string) (c : ascii).

Lemma str_app_nil_r s : s +:+ "" = s.
Proof. induction s as [|c s IH]; [done|]. change (String c (s +:+ "") = String c s). by rewrite IH. Qed.

Lemma str_app_cons c s t : String c s +:+ t = String c (s +:+ t).
Proof. done. Qed.

Lemma str_app_assoc s t u : (s +:+ t) +:+ u = s +:+ (t +:+ u).
Proof. induction s as [|c s IH]; [done|]. by rewrite !str_app_cons, IH. Qed.

Lemma str_all_app p s t : str_all p (s +:+ t) = str_all p s && str_all p t.
Proof. induction s as [|c s IH]; [done|]. rewrite str_app_cons; simpl. by rewrite IH, andb_assoc. Qed.

Lemma str_any_app p s t : str_any p (s +:+ t) = str_any p s || str_any p t.
Proof. induction s as [|c s IH]; [done|]. rewrite str_app_cons; simpl. by rewrite IH, orb_assoc. Qed.

Lemma contains_byte_app c s t : contains_byte c (s +:+ t) = contains_byte c s || contains_byte c t.
Proof. apply str_any_app. Qed.

(** Two predicates that no byte satisfies together. *)
Lemma str_all_any p q s :
  (∀ c, p c = true → q c = false) → str_all p s = true → str_any q s = false.
Proof.
  intros Hpq. induction s as [|c s IH]; simpl; [done|].
  intros [Hc Hs]%andb_true_iff. by rewrite (Hpq c), IH.
Qed.

Lemma str_all_impl p q s :
  (∀ c, p c = true → q c = true) → str_all p s = true → str_all q s = true.
Proof.
  intros Hpq. induction s as [|c s IH]; simpl; [done|].
  intros [Hc Hs]%andb_true_iff. by rewrite (Hpq c), IH.
Qed.

Lemma HasPrefix_spec s prefix : HasPrefix s prefix = true ↔ ∃ rest, s = prefix +:+ rest.
Proof.
  unfold HasPrefix. revert s. induction prefix as [|c prefix IH]; intros s; simpl.
  { destruct s; split; eauto. }
  destruct s as [|d s]; simpl.
  - split; [done|]. by intros [rest ?].
  - destruct (ascii_dec c d) as [->|Hne].
    + rewrite IH. split; intros [rest Hrest]; exists rest.
      * by rewrite Hrest.
      * rewrite str_app_cons in Hrest. by injection Hrest.
    + split; [done|]. intros [rest Hrest]. rewrite str_app_cons in Hrest. congruence.
Qed.

Lemma str_drop_app s t : str_drop (String.length s) (s +:+ t) = t.
Proof. induction s as [|c s IH]; [done|]. apply IH. Qed.

Lemma str_length_app s t : String.length (s +:+ t) = (String.length s + String.length t)%nat.
Proof. induction s as [|c s IH]; [done|]. rewrite str_app_cons. simpl. by rewrite IH. Qed.

Lemma str_take_length n s : String.length (str_take n s) = Nat.min n (String.length s).
Proof. revert s. induction n as [|n IH]; intros [|c s]; cbn; auto. Qed.

Lemma str_any_false p s : str_any p s = false ↔ str_all (λ c, negb (p c)) s = true.
Proof.
  induction s as [|c s IH]; simpl; [done|].
  by rewrite orb_false_iff, andb_true_iff, negb_true_iff, IH.
Qed.

Lemma str_any_negb p s : str_any (λ c, negb (p c)) s = false ↔ str_all p s = true.
Proof.
  induction s as [|c s IH]; simpl; [done|].
  by rewrite orb_false_iff, andb_true_iff, negb_false_iff, IH.
Qed.

Lemma str_take_drop n s : str_take n s +:+ str_drop n s = s.
Proof.
  revert s. induction n as [|n IH]; intros [|c s]; try done.
  cbn [str_take str_drop]. by rewrite str_app_cons, IH.
Qed.

Lemma str_take_app s t : str_take (String.length s) (s +:+ t) = s.
Proof. induction s as [|c s IH]; [by destruct t|]. rewrite str_app_cons. cbn. by rewrite IH. Qed.

Lemma TrimPrefix_app s t : TrimPrefix (s +:+ t) s = t.
Proof.
  unfold TrimPrefix. destruct (HasPrefix (s +:+ t) s) eqn:H; [apply str_drop_app|].
  apply not_true_iff_false in H. destruct H. apply HasPrefix_spec. eauto.
Qed.

(** *** Cut and Split *)
Lemma Cut_found sep before after :
  contains_byte sep before = false →
  Cut sep (before +:+ String sep after) = (before, after, true).
Proof.
  induction before as [|c s IH].
  { intros _. simpl. by rewrite Ascii.eqb_refl. }
  unfold contains_byte; simpl. intros [Hc Hs]%orb_false_iff.
  rewrite Ascii.eqb_sym, Hc. by rewrite (IH Hs).
Qed.

Lemma Cut_absent sep s : contains_byte sep s = false → Cut sep s = (s, "", false).
Proof.
  induction s as [|c s IH]; [done|].
  unfold contains_byte; simpl. intros [Hc Hs]%orb_false_iff.
  rewrite Ascii.eqb_sym, Hc. by rewrite (IH Hs).
Qed.

Lemma Cut_spec sep s before after found :
  Cut sep s = (before, after, found) →
  contains_byte sep before = false ∧
  s = before +:+ (if found then String sep after else "") ∧ (found = false → after = "").
Proof.
  revert before after found. induction s as [|c s IH]; intros before after found; simpl.
  { intros [= <- <- <-]. done. }
  destruct (Ascii.eqb c sep) eqn:Hc.
  { apply Ascii.eqb_eq in Hc as ->. by intros [= <- <- <-]. }
  destruct (Cut sep s) as [[b a] f] eqn:Hcut. intros [= <- <- <-].
  destruct (IH _ _ _ eq_refl) as (Hb & -> & Hf). split_and!; [|done|done].
  unfold contains_byte; simpl. by rewrite Ascii.eqb_sym, Hc.
Qed.

Lemma Split_ne_nil sep s : Split sep s ≠ [].
Proof. destruct s as [|c s]; simpl; [done|]. by repeat case_match. Qed.

Lemma Join_cons sep part parts :
  parts ≠ [] → Join sep (part :: parts) = part +:+ String sep (Join sep parts).
Proof. by destruct parts. Qed.

Lemma Join_Split sep s : Join sep (Split sep s) = s.
Proof.
  induction s as [|c s IH]; [done|]. simpl. pose proof (Split_ne_nil sep s) as Hne.
  destruct (Ascii.eqb c sep) eqn:Hc.
  - apply Ascii.eqb_eq in Hc as ->. by rewrite Join_cons, IH.
  - destruct (Split sep s) as [|part parts]; [done|].
    destruct parts; simpl in *; by rewrite <- IH.
Qed.

Lemma Split_no_sep sep s : Forall (λ part, contains_byte sep part = false) (Split sep s).
Proof.
  induction s as [|c s IH]; simpl; [by repeat constructor|].
  destruct (Ascii.eqb c sep) eqn:Hc; [by constructor|].
  pose proof (Split_ne_nil sep s). destruct (Split sep s) as [|part parts]; [done|].
  inversion_clear IH. constructor; [|done].
  unfold contains_byte; simpl. rewrite Ascii.eqb_sym, Hc. done.
Qed.

Lemma Split_absent sep s : contains_byte sep s = false → Split sep s = [s].
Proof.
  induction s as [|c s IH]; [done|]. unfold contains_byte; simpl.
  intros [Hc Hs]%orb_false_iff. by rewrite Ascii.eqb_sym, Hc, (IH Hs).
Qed.

Lemma Split_app sep part s :
  contains_byte sep part = false → Split sep (part +:+ String sep s) = part :: Split sep s.
Proof.
  induction part as [|c part IH].
  { intros _. simpl. by rewrite Ascii.eqb_refl. }
  unfold contains_byte; simpl. intros [Hc Hs]%orb_false_iff.
  by rewrite Ascii.eqb_sym, Hc, (IH Hs).
Qed.

Lemma Split_Join sep parts :
  parts ≠ [] → Forall (λ part, contains_byte sep part = false) parts →
  Split sep (Join sep parts) = parts.
Proof.
  induction parts as [|part parts IH]; [done|]. intros _ [Hpart Hparts]%Forall_cons.
  destruct (decide (parts = [])) as [->|Hne]; [by apply Split_absent|].
  by rewrite Join_cons, Split_app, IH.
Qed.
End strings.

(** *** ParseUint reads exactly the nonempty decimal numerals below 2^64 *)
Fixpoint decimal_value (n : Z) (s : string) : Z :=
  match s with "" => n | String c s' => decimal_value (n * 10 + digit_value c)%Z s' end.

Section parse_uint.
Local Open Scope Z_scope.

Lemma digit_value_bounds c : is_digit c = true → 0 ≤ digit_value c ≤ 9.
Proof.
  unfold is_digit, in_range, digit_value. rewrite andb_true_iff, !N.leb_le.
  change (code "0") with 48%N. change (code "9") with 57%N. lia.
Qed.

Lemma decimal_value_ge n s : 0 ≤ n → str_all is_digit s = true → n ≤ decimal_value n s.
Proof.
  revert n. induction s as [|c s IH]; intros n Hn; simpl; [lia|].
  intros [Hc%digit_value_bounds Hs]%andb_true_iff.
  transitivity (n * 10 + digit_value c); [lia|]. apply IH; [lia|done].
Qed.

Lemma parse_uint_loop_spec n s v :
  0 ≤ n ≤ uint64_max →
  parse_uint_loop n s = Some v ↔
  str_all is_digit s = true ∧ decimal_value n s = v ∧ v ≤ uint64_max.
Proof.
  unfold uint64_max. revert n. induction s as [|c s IH]; intros n Hn; simpl.
  { split; [intros [= <-]; lia | by intros (_ & <- & _)]. }
  destruct (is_digit c) eqn:Hc; simpl; [|by split; [|intros [? _]]].
  pose proof (digit_value_bounds c Hc) as Hd.
  assert (Hbig : 2 ^ 64 - 1 < n * 10 + digit_value c →
    str_all is_digit s = true → 2 ^ 64 - 1 < decimal_value (n * 10 + digit_value c) s).
  { intros ? Hs. pose proof (decimal_value_ge (n * 10 + digit_value c) s ltac:(lia) Hs). lia. }
  unfold parse_cutoff, uint64_max in *.
  change ((2 ^ 64 - 1) / 10 + 1) with 1844674407370955162 in *.
  change (2 ^ 64) with 18446744073709551616 in *.
  destruct (Z.leb_spec 1844674407370955162 n) as [Hcut|Hcut].
  { split; [done|]. intros (Hs & <- & Hv). specialize (Hbig ltac:(lia) Hs). lia. }
  rewrite (Z.mod_small (n * 10)) by lia.
  destruct (Z.lt_ge_cases (n * 10 + digit_value c) 18446744073709551616) as [Hlt|Hge].
  - rewrite Z.mod_small by lia.
    destruct (Z.ltb_spec (n * 10 + digit_value c) (n * 10)); [lia|].
    destruct (Z.ltb_spec (18446744073709551616 - 1) (n * 10 + digit_value c)); [lia|].
    cbn [orb]. apply IH. lia.
  - assert ((n * 10 + digit_value c) mod 18446744073709551616
            = n * 10 + digit_value c - 18446744073709551616) as ->.
    { symmetry. apply (Z.mod_unique_pos _ _ 1); lia. }
    destruct (Z.ltb_spec (n * 10 + digit_value c - 18446744073709551616) (n * 10)); [|lia].
    cbn [orb]. split; [done|]. intros (Hs & <- & Hv). specialize (Hbig ltac:(lia) Hs). lia.
Qed.

Lemma ParseUint_spec s v :
  ParseUint s = Some v ↔
  s ≠ "" ∧ str_all is_digit s = true ∧ decimal_value 0 s = v ∧ v ≤ uint64_max.
Proof.
  unfold ParseUint. destruct s as [|c s]; [naive_solver|].
  rewrite parse_uint_loop_spec by (unfold uint64_max; lia). naive_solver.
Qed.
End parse_uint.
