(* ===== verification/GoIO.v ===== *)
(** * Package io: bounded reading

    The one way the program reads untrusted streams: io.ReadAll over an io.LimitReader one
    byte longer than the size it accepts. *)
From S2P Require Import Prelude GoString.

(** An io.Reader: the bytes it delivers and whether it then fails or ends. *)
Record io_reader := mkReader { reader_data : string; reader_fails : bool }.
Definition byte_length (s : string) : Z := Z.of_nat (String.length s).

(** io.ReadAll(io.LimitReader(r, limit)): the limit hides everything after it. *)
Definition ReadAllLimited (r : io_reader) (limit : Z) : option string :=
  if (byte_length (reader_data r) <? limit)%Z
  then if reader_fails r then None else Some (reader_data r)
  else Some (str_take (Z.to_nat limit) (reader_data r)).

Lemma ReadAllLimited_Some r limit data :
  ReadAllLimited r (limit + 1) = Some data ∧ (byte_length data <= limit)%Z ↔
  reader_fails r = false ∧ data = reader_data r ∧ (byte_length data <= limit)%Z.
Proof.
  unfold ReadAllLimited. destruct (Z.ltb_spec (byte_length (reader_data r)) (limit + 1)).
  - destruct (reader_fails r); naive_solver.
  - split.
    + intros [[= <-] Hlen]. unfold byte_length in *. rewrite str_take_length in Hlen. lia.
    + intros (_ & -> & ?). lia.
Qed.
