(* ===== verification/Regexp.v ===== *)
(** * Go regular expressions: anchored patterns and regexp.MatchString

    The fragment of package regexp the sources use: character classes,
    concatenation and repetition, anchored at both ends ([^...$]).  [MatchString]
    runs by derivatives; [MatchString_lang] says that it decides the language the
    pattern denotes, so a component can reason about [lang]. *)
From S2P Require Import Prelude GoString.

Inductive re : Type :=
| Void
| Eps
| Class (p : ascii → bool)
| Cat (r1 r2 : re)
| Alt (r1 r2 : re)
| Star (r : re).
Definition Lit (c : ascii) : re := Class (Ascii.eqb c).
Definition Plus (r : re) : re := Cat r (Star r).

Fixpoint nullable (r : re) : bool :=
  match r with
  | Void | Class _ => false
  | Eps | Star _ => true
  | Cat r1 r2 => nullable r1 && nullable r2
  | Alt r1 r2 => nullable r1 || nullable r2
  end.

Fixpoint deriv (c : ascii) (r : re) : re :=
  match r with
  | Void | Eps => Void
  | Class p => if p c then Eps else Void
  | Cat r1 r2 =>
      let left := Cat (deriv c r1) r2 in
      if nullable r1 then Alt left (deriv c r2) else left
  | Alt r1 r2 => Alt (deriv c r1) (deriv c r2)
  | Star r => Cat (deriv c r) (Star r)
  end.

Fixpoint MatchString (r : re) (s : string) : bool :=
  match s with "" => nullable r | String c s' => MatchString (deriv c r) s' end.

(** The language a pattern denotes. *)
Inductive lang : re → string → Prop :=
| lang_eps : lang Eps ""
| lang_class p c : p c = true → lang (Class p) (String c "")
| lang_cat r1 r2 s t : lang r1 s → lang r2 t → lang (Cat r1 r2) (s +:+ t)
| lang_alt_l r1 r2 s : lang r1 s → lang (Alt r1 r2) s
| lang_alt_r r1 r2 s : lang r2 s → lang (Alt r1 r2) s
| lang_star_nil r : lang (Star r) ""
| lang_star_cons r s t : lang r s → lang (Star r) t → lang (Star r) (s +:+ t).

Create HintDb regexp.
#[export] Hint Constructors lang : regexp.

Lemma lang_cat_inv r1 r2 s :
  lang (Cat r1 r2) s ↔ ∃ s1 s2, s = s1 +:+ s2 ∧ lang r1 s1 ∧ lang r2 s2.
Proof.
  split; [inversion_clear 1; eauto|]. intros (s1 & s2 & -> & ? & ?). eauto with regexp.
Qed.

Lemma lang_class_inv p s : lang (Class p) s ↔ ∃ c, s = String c "" ∧ p c = true.
Proof.
  split; [inversion_clear 1; eauto|]. intros (c & -> & ?). eauto with regexp.
Qed.

Lemma nullable_lang r : nullable r = true ↔ lang r "".
Proof.
  induction r as [| |p|r1 IH1 r2 IH2|r1 IH1 r2 IH2|r IH]; simpl.
  - by split; [|inversion 1].
  - split; [constructor|done].
  - by split; [|inversion 1].
  - rewrite andb_true_iff, IH1, IH2, lang_cat_inv. split.
    + intros []. exists "", "". done.
    + intros ([|] & [|] & Happ & ? & ?); done.
  - rewrite orb_true_iff, IH1, IH2. split.
    + intros []; eauto with regexp.
    + inversion_clear 1; eauto.
  - split; [constructor|done].
Qed.

(** A nonempty word of a repetition starts with a nonempty word of the body. *)
Lemma lang_star_cons_inv r c s :
  lang (Star r) (String c s) → ∃ s1 s2, s = s1 +:+ s2 ∧ lang r (String c s1) ∧ lang (Star r) s2.
Proof.
  intros H. remember (Star r) as r' eqn:Hr. remember (String c s) as w eqn:Hw.
  revert Hr s Hw. induction H as [| | | | | |r' s1 s2 H1 _ H2 IH]; intros Hr w Hw; try done.
  injection Hr as ->. destruct s1 as [|d s1]; [by apply IH|].
  rewrite str_app_cons in Hw. injection Hw as -> <-. eauto.
Qed.

Lemma deriv_lang c r s : lang (deriv c r) s ↔ lang r (String c s).
Proof.
  revert s. induction r as [| |p|r1 IH1 r2 IH2|r1 IH1 r2 IH2|r IH]; intros s; simpl.
  - split; inversion 1.
  - split; inversion 1.
  - rewrite lang_class_inv. destruct (p c) eqn:Hp.
    + split; [inversion_clear 1; eauto|]. intros (d & [= <- ->] & _). constructor.
    + split; [inversion 1|]. intros (d & [= -> ->] & ?). congruence.
  - assert (Hleft : lang (Cat (deriv c r1) r2) s ↔
      ∃ s1 s2, s = s1 +:+ s2 ∧ lang r1 (String c s1) ∧ lang r2 s2).
    { rewrite lang_cat_inv. by setoid_rewrite IH1. }
    assert (Hsplit : lang (Cat r1 r2) (String c s) ↔
      (∃ s1 s2, s = s1 +:+ s2 ∧ lang r1 (String c s1) ∧ lang r2 s2)
      ∨ lang r1 "" ∧ lang r2 (String c s)).
    { rewrite lang_cat_inv. split.
      - intros ([|d s1] & s2 & Happ & H1 & H2).
        { right. change (String c s = s2) in Happ. by subst. }
        rewrite str_app_cons in Happ. injection Happ as -> ->. left; eauto 6.
      - intros [(s1 & s2 & -> & ? & ?)|[? ?]]; [by exists (String c s1), s2|].
        by exists "", (String c s). }
    rewrite Hsplit, <- Hleft, <- nullable_lang. destruct (nullable r1); [|naive_solver].
    rewrite <- IH2. split.
    + inversion_clear 1; naive_solver.
    + intros [?|[_ ?]]; eauto with regexp.
  - split; inversion_clear 1; [apply lang_alt_l|apply lang_alt_r|apply lang_alt_l|apply lang_alt_r];
      first [by apply IH1|by apply IH2].
  - rewrite lang_cat_inv. setoid_rewrite IH. split.
    + intros (s1 & s2 & -> & ? & ?). rewrite <- str_app_cons. eauto with regexp.
    + apply lang_star_cons_inv.
Qed.

Theorem MatchString_lang r s : MatchString r s = true ↔ lang r s.
Proof.
  revert r. induction s as [|c s IH]; intros r; simpl; [apply nullable_lang|].
  by rewrite IH, deriv_lang.
Qed.

(** Runs of one character class. *)
Lemma lang_star_class p s : lang (Star (Class p)) s ↔ str_all p s = true.
Proof.
  induction s as [|c s IH]; simpl; [split; [done|constructor]|].
  rewrite andb_true_iff, <- IH. split.
  - intros (s1 & s2 & -> & (d & [= -> ->] & ?)%lang_class_inv & ?)%lang_star_cons_inv. done.
  - intros [Hc ?]. apply (lang_star_cons _ (String c "") s); eauto with regexp.
Qed.

Lemma lang_plus_class p s : lang (Plus (Class p)) s ↔ s ≠ "" ∧ str_all p s = true.
Proof.
  unfold Plus. rewrite lang_cat_inv. split.
  - intros (s1 & s2 & -> & (d & -> & Hd)%lang_class_inv & Hs%lang_star_class).
    split; [done|]. simpl. by rewrite Hd.
  - destruct s as [|c s]; [naive_solver|]. simpl. intros [_ [Hc Hs]%andb_true_iff].
    exists (String c ""), s. split_and!; [done| |by apply lang_star_class]. by constructor.
Qed.
