(* ===== verification/NetUrl.v ===== *)
(** * Package net/url: request targets and query strings

    What operation.Resolve relies on in the standard library: url.ParseRequestURI
    for request targets in origin form, URL.EscapedPath, and url.ParseQuery.
    Nothing here models code under src/. *)
From S2P Require Import Prelude GoString.

(** ** Percent encoding *)
Definition ishex (c : ascii) : bool := is_digit c || in_range "a" "f" c || in_range "A" "F" c.
Definition unhex (c : ascii) : N :=
  if is_digit c then code c - 48
  else if in_range "a" "f" c then code c - 97 + 10
  else code c - 65 + 10.
(** unescape(s, mode): [plus] is encodeQueryComponent, otherwise encodePath. *)
Fixpoint unescape (plus : bool) (s : string) : option string :=
  match s with
  | "" => Some ""
  | String c s1 =>
      if Ascii.eqb c "%" then
        match s1 with
        | String h (String l s2) =>
            if ishex h && ishex l
            then String (byte (unhex h * 16 + unhex l)) <$> unescape plus s2
            else None
        | _ => None
        end
      else String (if plus && Ascii.eqb c "+" then " "%char else c) <$> unescape plus s1
  end.
(** shouldEscape(c, encodePath) *)
Definition shouldEscape (c : ascii) : bool :=
  negb (is_alnum c || contains_byte c "-_.~$&+,/:;=@").
Definition upperhex (n : N) : ascii :=
  if (n <? 10)%N then byte (48 + n) else byte (55 + n).
Fixpoint escape (s : string) : string :=
  match s with
  | "" => ""
  | String c s' =>
      if shouldEscape c
      then String "%" (String (upperhex (code c / 16)) (String (upperhex (code c mod 16)) (escape s')))
      else String c (escape s')
  end.
(** One byte of validEncoded(s, encodePath) *)
Definition validEncodedByte (c : ascii) : bool :=
  contains_byte c "!$&'()*+,;=:@[]%" || negb (shouldEscape c).
Definition validEncoded : string → bool := str_all validEncodedByte.

(** ** URLs *)
Record URL := mkURL {
  URL_Scheme : string;
  URL_Host : string;
  URL_Path : string;
  URL_RawPath : string;
  URL_RawQuery : string;
  URL_Fragment : string
}.

Definition IsAbs (u : URL) : bool := negb (bool_decide (URL_Scheme u = "")).

Definition EscapedPath (u : URL) : string :=
  if negb (bool_decide (URL_RawPath u = "")) && validEncoded (URL_RawPath u)
     && bool_decide (unescape false (URL_RawPath u) = Some (URL_Path u))
  then URL_RawPath u
  else if bool_decide (URL_Path u = "*") then "*"
  else escape (URL_Path u).

(** stringContainsCTLByte *)
Definition isCTL (c : ascii) : bool := (code c <? 32)%N || (code c =? 127)%N.

(** ParseRequestURI on a target with a leading slash: no scheme can be read, an
    authority needs a scheme, and a fragment is not split off.  Targets in other
    forms (absolute URIs, [*]) are outside the model, which answers an error: the
    only caller rejects them whatever the parser says. *)
Definition ParseRequestURI (rawURL : string) : option URL :=
  if str_any isCTL rawURL || negb (HasPrefix rawURL "/") then None
  else
    let '(rest, rawQuery, _) := Cut "?" rawURL in
    path ← unescape false rest;
    Some {| URL_Scheme := ""; URL_Host := ""; URL_Path := path;
            URL_RawPath := if bool_decide (rest = escape path) then "" else rest;
            URL_RawQuery := rawQuery; URL_Fragment := "" |}.

(** ** Query strings

    url.Values maps a key to its values in order.  A pair with a semicolon or a
    malformed escape makes ParseQuery return an error, and so does a query of more
    pairs than GODEBUG urlmaxqueryparams's default. *)
Abbreviation Values := (gmap string (list string)).
Definition maxQueryParams : N := 10000.

Definition parsePair (m : option Values) (pair : string) : option Values :=
  if contains_byte ";" pair then None
  else if bool_decide (pair = "") then m
  else
    let '(rawKey, rawValue, _) := Cut "=" pair in
    match unescape true rawKey, unescape true rawValue with
    | Some key, Some value =>
        m ← m; Some (<[key := default [] (m !! key) ++ [value]]> m)
    | _, _ => None
    end.
Definition ParseQuery (query : string) : option Values :=
  if (maxQueryParams <? N.of_nat (Count "&" query) + 1)%N then None
  else foldl parsePair (Some ∅) (Split "&" query).
Definition Values_Get (v : Values) (key : string) : string :=
  match v !! key with Some (value :: _) => value | _ => "" end.

(** ** Facts *)
Lemma str_ind2 (P : string → Prop) :
  (∀ s, (∀ t, String.length t < String.length s → P t) → P s) → ∀ s, P s.
Proof. intros IH. apply (well_founded_induction (well_founded_ltof _ String.length)), IH. Qed.

Lemma unescape_id s : contains_byte "%" s = false → unescape false s = Some s.
Proof.
  induction s as [|c s IH]; [done|]. unfold contains_byte; cbn [str_any unescape].
  rewrite Ascii.eqb_sym. intros [Hc Hs]%orb_false_iff. rewrite Hc. cbn [andb].
  by rewrite (IH Hs).
Qed.

(** Bytes that are not part of an escape survive [unescape]. *)
Lemma unescape_any p s t :
  (∀ c, p c = true → is_alnum c = false ∧ c ≠ "%"%char) →
  unescape false s = Some t → str_any p s = true → str_any p t = true.
Proof.
  intros Hp. revert t. induction s as [s IH] using str_ind2; intros t.
  destruct s as [|c s]; [done|]. cbn [unescape str_any].
  destruct (Ascii.eqb_spec c "%") as [->|Hc].
  - destruct (p "%"%char) eqn:Hpp; [by apply Hp in Hpp as [_ ?]|]. cbn [orb].
    destruct s as [|h [|l s]]; [done..|].
    destruct (ishex h && ishex l) eqn:Hhex; [|done].
    intros (t' & Hs & ->)%fmap_Some. cbn [str_any].
    assert (Hno : ∀ d, ishex d = true → p d = false).
    { intros d Hd. destruct (p d) eqn:Hpd; [|done]. apply Hp in Hpd as [Hpd _].
      unfold is_alnum, is_alpha, is_lower, is_upper, ishex, in_range in *.
      guards. rewrite !N.leb_le, ?N.leb_gt in *. change (code "a") with 97%N in *.
      change (code "f") with 102%N in *. change (code "A") with 65%N in *.
      change (code "F") with 70%N in *. change (code "z") with 122%N in *.
      change (code "Z") with 90%N in *. destruct Hpd as [[Hl Hu] Hd'].
      destruct Hd as [[Hd|Hd]|Hd]; [congruence|exfalso..].
      - destruct Hl as [Hl|Hl]; lia.
      - destruct Hu as [Hu|Hu]; lia. }
    apply andb_true_iff in Hhex as [Hh Hl]. rewrite (Hno h Hh), (Hno l Hl). cbn [orb].
    intros Hany. rewrite (IH s ltac:(simpl; lia) t' Hs Hany). by rewrite orb_true_r.
  - intros (t' & Hs & ->)%fmap_Some. cbn [andb str_any].
    intros [->|Hany]%orb_true_iff; [done|].
    rewrite (IH s ltac:(simpl; lia) t' Hs Hany). by rewrite orb_true_r.
Qed.

Lemma escape_percent s : contains_byte "%" (escape s) = str_any shouldEscape s.
Proof.
  induction s as [|c s IH]; [done|]. cbn [escape str_any].
  destruct (shouldEscape c) eqn:Hc; [done|]. unfold contains_byte; cbn [str_any].
  destruct (Ascii.eqb_spec "%" c) as [<-|]; [done|]. apply IH.
Qed.

Lemma escape_id s : str_any shouldEscape s = false → escape s = s.
Proof.
  induction s as [|c s IH]; [done|]. cbn [escape str_any].
  intros [-> Hs]%orb_false_iff. by rewrite (IH Hs).
Qed.

(** The parsed form of a path, as ParseRequestURI builds it. *)
Definition path_url (rest path rawQuery : string) : URL :=
  {| URL_Scheme := ""; URL_Host := ""; URL_Path := path;
     URL_RawPath := if bool_decide (rest = escape path) then "" else rest;
     URL_RawQuery := rawQuery; URL_Fragment := "" |}.

Lemma ParseRequestURI_Some uri u :
  ParseRequestURI uri = Some u ↔
  str_any isCTL uri = false ∧ HasPrefix uri "/" = true ∧
  ∃ rest rawQuery found path, Cut "?" uri = (rest, rawQuery, found) ∧
    unescape false rest = Some path ∧ u = path_url rest path rawQuery.
Proof.
  unfold ParseRequestURI. destruct (str_any isCTL uri); [naive_solver|]. cbn [orb].
  destruct (HasPrefix uri "/"); [|naive_solver]. cbn [negb].
  destruct (Cut "?" uri) as [[rest rawQuery] found].
  destruct (unescape false rest) as [path|] eqn:Hpath; simpl; [|naive_solver].
  split; [intros [= <-]; eauto 10|]. intros (_ & _ & ? & ? & ? & ? & Hcut & Hunesc & ->).
  by simplify_eq.
Qed.

Lemma unescape_slash rest path :
  HasPrefix rest "/" = true → unescape false rest = Some path → path ≠ "*".
Proof.
  rewrite HasPrefix_spec. intros [rest' ->]. cbn. intros (path' & _ & ->)%fmap_Some. done.
Qed.

Lemma shouldEscape_alnum c : shouldEscape c = true → is_alnum c = false.
Proof. unfold shouldEscape. guards. naive_solver. Qed.

(** A path is accepted without a percent sign in its escaped form only when it is
    written without one, and then it is its own decoding. *)
Lemma EscapedPath_plain rest path rawQuery :
  HasPrefix rest "/" = true → unescape false rest = Some path →
  contains_byte "%" (EscapedPath (path_url rest path rawQuery)) = false →
  contains_byte "%" rest = false ∧ path = rest.
Proof.
  intros Hslash Hpath Hplain.
  assert (Hrest : contains_byte "%" rest = false).
  { unfold EscapedPath, path_url in Hplain; simpl in Hplain.
    rewrite (bool_decide_eq_false_2 (path = "*")) in Hplain by eauto using unescape_slash.
    destruct (decide (rest = escape path)) as [Hesc|Hesc].
    { rewrite (bool_decide_eq_true_2 (rest = escape path)) in Hplain by done.
      simpl in Hplain. congruence. }
    rewrite (bool_decide_eq_false_2 (rest = escape path)) in Hplain by done.
    rewrite (bool_decide_eq_true_2 (unescape false rest = Some path)) in Hplain by done.
    rewrite andb_true_r in Hplain.
    destruct (negb (bool_decide (rest = ""))) eqn:Hne; [|by destruct rest].
    destruct (validEncoded rest) eqn:Hvalid; [done|]. cbn [andb] in Hplain.
    rewrite escape_percent in Hplain.
    set (p c := shouldEscape c && negb (Ascii.eqb c "%")).
    assert (Hany : str_any p rest = true).
    { apply not_false_iff_true. rewrite str_any_false. intros Hall.
      apply not_true_iff_false in Hvalid. apply Hvalid. revert Hall. apply str_all_impl.
      intros c. unfold p, validEncodedByte. destruct (shouldEscape c); [|by rewrite orb_true_r].
      cbn [andb negb]. rewrite negb_involutive, orb_false_r.
      intros ->%Ascii.eqb_eq. done. }
    eapply unescape_any in Hany; [|intros c|exact Hpath].
    - apply not_true_iff_false in Hplain. destruct Hplain. revert Hany. clear.
      induction path as [|c path IH]; simpl; [done|].
      unfold p. rewrite !orb_true_iff, andb_true_iff. naive_solver.
    - unfold p. rewrite andb_true_iff, negb_true_iff, Ascii.eqb_neq.
      intros [?%shouldEscape_alnum ?]. done. }
  split; [done|]. rewrite unescape_id in Hpath by done. by injection Hpath.
Qed.

(** A path of unreserved bytes is accepted. *)
Lemma EscapedPath_unreserved rest rawQuery :
  str_any shouldEscape rest = false →
  unescape false rest = Some rest ∧ EscapedPath (path_url rest rest rawQuery) = rest.
Proof.
  intros Hrest.
  assert (Hplain : contains_byte "%" rest = false).
  { rewrite <- (escape_id rest Hrest), escape_percent. by rewrite Hrest. }
  split; [by apply unescape_id|]. unfold EscapedPath, path_url; simpl.
  rewrite (escape_id rest Hrest), (bool_decide_eq_true_2 (rest = rest)) by done. cbn.
  rewrite (bool_decide_eq_true_2 ("" = "")) by done. cbn. case_bool_decide; congruence.
Qed.
