(* ===== verification/GoTime.v ===== *)
(** * Standard-library parsers the telemetry settings go through

    time.ParseDuration, strconv.Atoi and net.SplitHostPort.  Nothing here models code
    under src/.  Durations are int64 nanoseconds; the fraction of a duration goes through
    float64 arithmetic, as in Go, with IEEE binary64 rounding. *)
From S2P Require Import Prelude GoString.
From Stdlib Require Import SpecFloat.
Export SpecFloat.
Local Open Scope Z_scope.

(** ** float64 *)
Abbreviation float64 := spec_float (only parsing).
Definition float64_of_Z (z : Z) : float64 := binary_normalize 53 1024 z 0 false.
Definition float64_mul : float64 → float64 → float64 := SFmul 53 1024.
Definition float64_div : float64 → float64 → float64 := SFdiv 53 1024.
(** uint64(f) for a nonnegative finite f: truncation. *)
Definition float64_trunc (f : float64) : Z :=
  match f with
  | S754_finite false m e => if 0 <=? e then Z.pos m * 2 ^ e else Z.pos m / 2 ^ (- e)
  | _ => 0
  end.
Definition isNaN (f : float64) : bool := match f with S754_nan => true | _ => false end.
Definition isInf (f : float64) : bool := match f with S754_infinity _ => true | _ => false end.

(** ** time.ParseDuration *)
Definition max_abs_duration : Z := 2 ^ 63.

(** leadingInt: the value of the leading digits and the rest. *)
Fixpoint leadingInt (x : Z) (s : string) : option (Z * string) :=
  match s with
  | "" => Some (x, "")
  | String c s' =>
      if negb (is_digit c) then Some (x, s)
      else if max_abs_duration / 10 <? x then None
      else
        let x := x * 10 + digit_value c in
        if max_abs_duration <? x then None else leadingInt x s'
  end.

(** leadingFraction: the digits that fit, the power of ten they are out of, the rest. *)
Fixpoint leadingFraction (x : Z) (scale : float64) (overflow : bool) (s : string)
    : Z * float64 * string :=
  match s with
  | "" => (x, scale, "")
  | String c s' =>
      if negb (is_digit c) then (x, scale, s)
      else if overflow then leadingFraction x scale true s'
      else if (max_abs_duration - 1) / 10 <? x then leadingFraction x scale true s'
      else
        let y := x * 10 + digit_value c in
        if max_abs_duration <? y then leadingFraction x scale true s'
        else leadingFraction y (float64_mul scale (float64_of_Z 10)) false s'
  end.

(** The longest prefix without a dot or a digit, and the rest. *)
Fixpoint leadingUnit (s : string) : string * string :=
  match s with
  | "" => ("", "")
  | String c s' =>
      if Ascii.eqb c "." || is_digit c then ("", s)
      else let '(u, rest) := leadingUnit s' in (String c u, rest)
  end.

Definition micro_sign : string := String (byte 0xC2) (String (byte 0xB5) "s").
Definition greek_mu : string := String (byte 0xCE) (String (byte 0xBC) "s").
Definition unitMap (u : string) : option Z :=
  if u == "ns" then Some 1
  else if (u == "us") || (u == micro_sign) || (u == greek_mu) then Some 1000
  else if u == "ms" then Some 1000000
  else if u == "s" then Some 1000000000
  else if u == "m" then Some 60000000000
  else if u == "h" then Some 3600000000000
  else None.

(** One number with its unit: its value in nanoseconds and the rest. *)
Definition parseComponent (s : string) : option (Z * string) :=
  match s with
  | String c _ =>
      if negb (Ascii.eqb c "." || is_digit c) then None
      else
        '(v, s1) ← leadingInt 0 s;
        let pre := s1 != s in
        let '(f, scale, s2, post) :=
          match s1 with
          | String "." s1' =>
              let '(f, scale, s2) := leadingFraction 0 (float64_of_Z 1) false s1' in
              (f, scale, s2, s2 != s1')
          | _ => (0, float64_of_Z 1, s1, false)
          end in
        if negb pre && negb post then None
        else
          let '(u, s3) := leadingUnit s2 in
          if u == "" then None
          else
            unit ← unitMap u;
            if max_abs_duration / unit <? v then None
            else
              let v := v * unit in
              let v := if 0 <? f
                       then v + float64_trunc (float64_mul (float64_of_Z f)
                                                 (float64_div (float64_of_Z unit) scale))
                       else v in
              if (0 <? f) && (max_abs_duration <? v) then None else Some (v, s3)
  | "" => None
  end.

(** The loop over the components; each consumes a byte, so the length of the string is
    enough fuel. *)
Fixpoint parseComponents (fuel : nat) (d : Z) (s : string) : option Z :=
  match s, fuel with
  | "", _ => Some d
  | _, O => None
  | _, S fuel =>
      '(v, s') ← parseComponent s;
      let d := (d + v) mod 2 ^ 64 in
      if max_abs_duration <? d then None else parseComponents fuel d s'
  end.

Definition ParseDuration (s : string) : option Z :=
  let '(neg, s) := match s with
                   | String "-" s' => (true, s')
                   | String "+" s' => (false, s')
                   | _ => (false, s)
                   end in
  if s == "0" then Some 0
  else if s == "" then None
  else
    d ← parseComponents (String.length s) 0 s;
    if (neg : bool) then Some (- d)
    else if max_abs_duration - 1 <? d then None
    else Some d.

(** ** strconv.Atoi *)
Definition atoi_digits (s : string) : option Z :=
  match s with
  | "" => None
  | _ => if str_all is_digit s then Some (decimal_value 0 s) else None
  end.
Definition Atoi (s : string) : option Z :=
  match s with
  | String "-" s' => n ← atoi_digits s'; if 2 ^ 63 <? n then None else Some (- n)
  | String "+" s' => n ← atoi_digits s'; if 2 ^ 63 - 1 <? n then None else Some n
  | _ => n ← atoi_digits s; if 2 ^ 63 - 1 <? n then None else Some n
  end.

(** ** net.SplitHostPort *)

(** The part before the last colon and the part after it. *)
Fixpoint cut_last (c : ascii) (s : string) : option (string * string) :=
  match s with
  | "" => None
  | String d s' =>
      match cut_last c s' with
      | Some (before, after) => Some (String d before, after)
      | None => if Ascii.eqb d c then Some ("", s') else None
      end
  end.

Definition SplitHostPort (hostport : string) : option (string * string) :=
  '(before, port) ← cut_last ":" hostport;
  match before with
  | String "[" inner =>
      (* the first closing bracket must be just before the last colon *)
      let '(host, rest, found) := Cut "]" inner in
      if found && (rest == "") && negb (contains_byte "[" host)
         && negb (contains_byte "[" port) && negb (contains_byte "]" port)
      then Some (host, port) else None
  | _ =>
      if contains_byte ":" before || contains_byte "[" hostport || contains_byte "]" hostport
      then None else Some (before, port)
  end.

(** ** Every component consumes input: the fuel is enough *)
Lemma leadingInt_length x s v rest :
  leadingInt x s = Some (v, rest) → (String.length rest ≤ String.length s)%nat.
Proof.
  revert x. induction s as [|c s IH]; intros x; cbn [leadingInt String.length]; [naive_solver|].
  repeat case_match; try (intros [= _ <-]); simpl; try lia; try done.
  intros Hs. apply IH in Hs. lia.
Qed.

Lemma leadingFraction_length x scale o s v sc rest :
  leadingFraction x scale o s = (v, sc, rest) → (String.length rest ≤ String.length s)%nat.
Proof.
  revert x scale o. induction s as [|c s IH]; intros x scale o; cbn [leadingFraction String.length].
  { by intros [= _ _ <-]. }
  destruct (negb (is_digit c)); [intros [= _ _ <-]; simpl; lia|].
  repeat case_match; intros Hs; apply IH in Hs; lia.
Qed.

Lemma leadingUnit_app s u rest : leadingUnit s = (u, rest) → s = u +:+ rest.
Proof.
  revert u. induction s as [|c s IH]; intros u; cbn [leadingUnit]; [by intros [= <- <-]|].
  destruct (_ || _); [by intros [= <- <-]|].
  destruct (leadingUnit s) as [u' rest'] eqn:Hs. intros [= <- <-].
  by rewrite str_app_cons, <- (IH u').
Qed.

Lemma parseComponent_length s v rest :
  parseComponent s = Some (v, rest) → (String.length rest < String.length s)%nat.
Proof.
  unfold parseComponent. destruct s as [|c s]; [done|]. destruct (negb _); [done|].
  destruct (leadingInt 0 (String c s)) as [[v1 s1]|] eqn:Hint; [|done]. cbn [mbind option_bind].
  apply leadingInt_length in Hint.
  destruct (match s1 with String "." s1' => _ | _ => _ end) as [[[f scale] s2] post] eqn:Hfrac.
  assert (String.length s2 ≤ String.length s1)%nat as Hs2.
  { repeat (case_match; simplify_eq; try lia). simpl.
    match goal with H : leadingFraction _ _ _ _ = _ |- _ => apply leadingFraction_length in H end. lia. }
  destruct (_ && _); [done|]. destruct (leadingUnit s2) as [u s3] eqn:Hunit.
  apply leadingUnit_app in Hunit. case_bool_decide as Hu; [done|].
  destruct (unitMap u); [|done]. cbn. repeat case_match; intros; simplify_eq.
  all: rewrite str_length_app in Hs2; destruct u; [done|]; simpl in *; lia.
Qed.

Lemma parseComponents_fuel fuel fuel' d s :
  (String.length s ≤ fuel)%nat → (String.length s ≤ fuel')%nat →
  parseComponents fuel d s = parseComponents fuel' d s.
Proof.
  revert fuel' d s. induction fuel as [|fuel IH]; intros fuel' d s Hf Hf'.
  { destruct s; simpl in Hf; [by destruct fuel'|lia]. }
  destruct s as [|c s]; [by destruct fuel'|]. destruct fuel' as [|fuel']; [simpl in Hf'; lia|].
  cbn [parseComponents]. destruct (parseComponent (String c s)) as [[v s']|] eqn:Hc; [|done].
  apply parseComponent_length in Hc. cbn [mbind option_bind].
  case_match; [done|]. apply IH; simpl in *; lia.
Qed.
