(* ===== verification/NetHttp.v ===== *)
(** * Package net/http: the client

    http.Client.Do with its redirect policy, over a transport that reaches one address.
    Nothing here models code under src/; what answers behind the address is the class
    [RoundTripper]. *)
From S2P Require Import Prelude GoIO.

(** A request without a body, and what is read of a response. *)
Record HttpRequest := mkHttpRequest {
  Http_Method : string;
  Http_URL : string;
  Http_Header : gmap string string
}.
Record HttpResponse := mkHttpResponse {
  Http_StatusCode : Z;
  Http_Location : string;
  Http_Body : io_reader
}.

(** http.Transport: where it dials, and its limits; times are in nanoseconds. *)
Record Transport := mkTransport {
  Transport_Network : string;
  Transport_Address : string;
  Transport_DialTimeout : Z;
  Transport_MaxIdleConns : Z;
  Transport_MaxIdleConnsPerHost : Z;
  Transport_IdleConnTimeout : Z;
  Transport_ResponseHeaderTimeout : Z
}.
(** http.Client; a CheckRedirect of [None] is the default policy. *)
Record HttpClient := mkHttpClient {
  HttpClient_Transport : Transport;
  HttpClient_Timeout : Z;
  HttpClient_CheckRedirect : option (HttpRequest → list HttpRequest → option error)
}.

(** What is at the other end, in a world of type [W]: a round trip fails or is answered.
    [Redirected req location] is the request that a redirect leads to, [None] when the
    location does not parse. *)
Class RoundTripper (W : Type) := {
  RoundTrip : Transport → HttpRequest → W → option HttpResponse * W;
  Redirected : HttpRequest → string → option HttpRequest
}.

Definition ErrUseLastResponse : error := "net/http: use last response".
Definition defaultCheckRedirect (req : HttpRequest) (via : list HttpRequest) : option error :=
  if (10 <=? length via)%nat then Some "stopped after 10 redirects" else None.
Definition checkRedirect (c : HttpClient) : HttpRequest → list HttpRequest → option error :=
  default defaultCheckRedirect (HttpClient_CheckRedirect c).

(** redirectBehavior, for a request without a body. *)
Definition shouldRedirect (response : HttpResponse) : bool :=
  bool_decide (Http_StatusCode response ∈ [301; 302; 303; 307; 308]%Z).

Section Do.
Context {W : Type} `{!RoundTripper W} (c : HttpClient).

(** The loop of Do, with the requests sent so far; [None] is an error. *)
Fixpoint do_loop (fuel : nat) (via : list HttpRequest) (req : HttpRequest) (w : W) : option HttpResponse * W :=
  match fuel with
  | 0 => (None, w)
  | S fuel =>
      match RoundTrip (HttpClient_Transport c) req w with
      | (None, w) => (None, w)
      | (Some response, w) =>
          if negb (shouldRedirect response) || (Http_Location response == "") then (Some response, w)
          else match Redirected req (Http_Location response) with
          | None => (None, w)
          | Some next =>
              match checkRedirect c next (via ++ [req]) with
              | Some e => if e == ErrUseLastResponse then (Some response, w) else (None, w)
              | None => do_loop fuel (via ++ [req]) next w
              end
          end
      end
  end.
(** The default policy allows ten requests; the fuel counts one more. *)
Definition Do : HttpRequest → W → option HttpResponse * W := do_loop 11 [].

(** A client that refuses every redirect: one round trip, and a redirect is an error. *)
Definition refuses : Prop := ∀ next via, ∃ e, checkRedirect c next via = Some e ∧ e ≠ ErrUseLastResponse.
Lemma Do_refuses req w :
  refuses →
  Do req w =
  (let '(answer, w') := RoundTrip (HttpClient_Transport c) req w in
   (response ← answer;
    if shouldRedirect response && negb (Http_Location response == "") then None else Some response, w')).
Proof.
  intros Hrefuses. unfold Do. cbn [do_loop]. destruct (RoundTrip _ req w) as [[response|] w']; [|done].
  cbn [mbind option_bind]. destruct (shouldRedirect response); [|done].
  case_bool_decide; cbn [negb orb andb]; [done|].
  destruct (Redirected _ _) as [next|]; [|done].
  destruct (Hrefuses next ([] ++ [req])) as (e & -> & He). by rewrite bool_decide_eq_false_2.
Qed.
End Do.
