(* ===== verification/GoFlag.v ===== *)
(** * Package flag, and the integers it reads

    flag.FlagSet.Parse with flag.ContinueOnError, strconv.ParseBool, and strconv.ParseInt
    in base 0.  Nothing here models code under src/. *)
From S2P Require Import Prelude GoString.

(** ** strconv.ParseBool *)
Definition ParseBool (s : string) : option bool :=
  if bool_decide (s ∈ ["1"; "t"; "T"; "TRUE"; "true"; "True"]) then Some true
  else if bool_decide (s ∈ ["0"; "f"; "F"; "FALSE"; "false"; "False"]) then Some false
  else None.

(** ** strconv.ParseInt(s, 0, 64) *)
Definition base_digit (c : ascii) : option Z :=
  if is_digit c then Some (digit_value c)
  else if is_lower (lower c) then Some (Z.of_N (code (lower c)) - 87)%Z else None.
(** The digits of a base, and whether there were underscores. *)
Fixpoint base_loop (base n : Z) (underscores : bool) (s : string) : option (Z * bool) :=
  match s with
  | "" => Some (n, underscores)
  | String c s' =>
      if Ascii.eqb c "_" then base_loop base n true s'
      else
        d ← base_digit c;
        if (base <=? d)%Z then None
        else if (uint64_max / base + 1 <=? n)%Z then None
        else
          let n := ((n * base) mod 2 ^ 64)%Z in
          let n1 := ((n + d) mod 2 ^ 64)%Z in
          if ((n1 <? n) || (uint64_max <? n1))%Z then None else base_loop base n1 underscores s'
  end.
(** The base that a prefix announces, and the digits. *)
Definition base_prefix (s : string) : Z * string :=
  match s with
  | String "0" (String c (String d s')) =>
      if Ascii.eqb (lower c) "b" then (2%Z, String d s')
      else if Ascii.eqb (lower c) "o" then (8%Z, String d s')
      else if Ascii.eqb (lower c) "x" then (16%Z, String d s')
      else (8%Z, String c (String d s'))
  | String "0" s' => (8%Z, s')
  | _ => (10%Z, s)
  end.
(** underscoreOK: underscores only between digits, or after the prefix. *)
Inductive saw := SawStart | SawDigit | SawUnderscore | SawOther.
Fixpoint underscore_loop (hex : bool) (i : saw) (s : string) : bool :=
  match s with
  | "" => match i with SawUnderscore => false | _ => true end
  | String c s' =>
      if is_digit c || hex && in_range "a" "f" (lower c) then underscore_loop hex SawDigit s'
      else if Ascii.eqb c "_" then
        match i with SawDigit => underscore_loop hex SawUnderscore s' | _ => false end
      else match i with SawUnderscore => false | _ => underscore_loop hex SawOther s' end
  end.
Definition underscoreOK (s : string) : bool :=
  let s := match s with
           | String c s' => if Ascii.eqb c "-" || Ascii.eqb c "+" then s' else s | "" => s end in
  match s with
  | String "0" (String c s') =>
      if Ascii.eqb (lower c) "b" || Ascii.eqb (lower c) "o" || Ascii.eqb (lower c) "x"
      then underscore_loop (Ascii.eqb (lower c) "x") SawDigit s'
      else underscore_loop false SawStart s
  | _ => underscore_loop false SawStart s
  end.
Definition ParseUint0 (s : string) : option Z :=
  match s with
  | "" => None
  | _ =>
      let '(base, digits) := base_prefix s in
      '(n, underscores) ← base_loop base 0 false digits;
      if (underscores : bool) && negb (underscoreOK s) then None else Some n
  end.
Definition ParseInt (s : string) : option Z :=
  match s with
  | String "-" s' => n ← ParseUint0 s'; if (2 ^ 63 <? n)%Z then None else Some (- n)%Z
  | String "+" s' => n ← ParseUint0 s'; if (2 ^ 63 <=? n)%Z then None else Some n
  | _ => n ← ParseUint0 s; if (2 ^ 63 <=? n)%Z then None else Some n
  end.

(** ** flag.FlagSet *)
Definition ErrHelp : error := "flag: help requested".

(** What an argument looks like. *)
Inductive argument :=
| Positional
| Terminator
| BadSyntax
| Flag (name : string) (value : option string).
Definition scan_name (name : string) : argument :=
  match name with
  | "" => BadSyntax
  | String c rest =>
      if Ascii.eqb c "-" || Ascii.eqb c "=" then BadSyntax
      else let '(before, after, found) := Cut "=" rest in
           Flag (String c before) (if found then Some after else None)
  end.
Definition scan (s : string) : argument :=
  match s with
  | String "-" "" => Positional
  | String "-" (String "-" "") => Terminator
  | String "-" (String "-" name) => scan_name name
  | String "-" name => scan_name name
  | _ => Positional
  end.

Section FlagSet.
(** The variables that the flags assign to. *)
Context {O : Type}.

(** A flag with IsBoolFlag, or one that takes a value; each with its Set. *)
Inductive flag := BoolFlag (set : string → O → option O) | ValueFlag (set : string → O → option O).
Definition flag_set (f : flag) : string → O → option O :=
  match f with BoolFlag set | ValueFlag set => set end.

Context (formal : string → option flag).

(** Parse: the variables afterwards, and the arguments that remain. *)
Fixpoint Parse (args : list string) (o : O) : result (O * list string) :=
  match args with
  | [] => Ok (o, [])
  | s :: rest =>
      match scan s with
      | Positional => Ok (o, s :: rest)
      | Terminator => Ok (o, rest)
      | BadSyntax => Err ("bad flag syntax: " +:+ s)
      | Flag name value =>
          match formal name with
          | None =>
              if (name == "help") || (name == "h") then Err ErrHelp
              else Err ("flag provided but not defined: -" +:+ name)
          | Some (BoolFlag set) =>
              match set (default "true" value) o with
              | None => Err ("invalid boolean value for -" +:+ name)
              | Some o => Parse rest o
              end
          | Some (ValueFlag set) =>
              match value, rest with
              | Some v, _ =>
                  match set v o with
                  | None => Err ("invalid value for flag -" +:+ name) | Some o => Parse rest o end
              | None, v :: rest' =>
                  match set v o with
                  | None => Err ("invalid value for flag -" +:+ name) | Some o => Parse rest' o end
              | None, [] => Err ("flag needs an argument: -" +:+ name)
              end
          end
      end
  end.

(** ** Specification *)

(** The spellings of a list of assignments: -name=value or --name=value; -name value for
    a flag with a value; -name alone for a boolean one. *)
Definition flag_name (name : string) : Prop :=
  name ≠ "" ∧ HasPrefix name "-" = false ∧ contains_byte "=" name = false.
Definition dashes : list string := ["-"; "--"].
Inductive Spells : list (string * string) → list string → Prop :=
| spells_nil : Spells [] []
| spells_equals d name value f assigns args :
    d ∈ dashes → flag_name name → formal name = Some f → Spells assigns args →
    Spells ((name, value) :: assigns) ((d +:+ name +:+ "=" +:+ value) :: args)
| spells_next d name value set assigns args :
    d ∈ dashes → flag_name name → formal name = Some (ValueFlag set) → Spells assigns args →
    Spells ((name, value) :: assigns) ((d +:+ name) :: value :: args)
| spells_bool d name set assigns args :
    d ∈ dashes → flag_name name → formal name = Some (BoolFlag set) → Spells assigns args →
    Spells ((name, "true") :: assigns) ((d +:+ name) :: args).

(** The assignments, in order. *)
Fixpoint assign (assigns : list (string * string)) (o : O) : option O :=
  match assigns with
  | [] => Some o
  | (name, value) :: assigns => f ← formal name; o ← flag_set f value o; assign assigns o
  end.

(** ** Lemmas *)
Lemma scan_name_spec s name value :
  scan_name s = Flag name value ↔
  flag_name name ∧ s = name +:+ (match value with Some v => "=" +:+ v | None => "" end).
Proof.
  unfold scan_name, flag_name. destruct s as [|c rest].
  { split; [done|]. intros [[? _] Hs]. by destruct name, value. }
  split.
  - destruct (Ascii.eqb_spec c "-") as [->|Hdash]; [done|].
    destruct (Ascii.eqb_spec c "=") as [->|Heq]; [done|]. cbn [orb].
    destruct (Cut "=" rest) as [[before after] found] eqn:Hcut.
    apply Cut_spec in Hcut as (Hno & Hrest & _). intros [= <- <-]. split_and!; [done| | |].
    + apply not_true_iff_false. intros [r Hr]%HasPrefix_spec. by injection Hr as ->.
    + unfold contains_byte in *. cbn [str_any]. rewrite Hno, orb_false_r.
      apply Ascii.eqb_neq. congruence.
    + rewrite str_app_cons, Hrest. by destruct found.
  - intros [(Hne & Hprefix & Hno) Hs]. destruct name as [|c' name]; [done|].
    rewrite str_app_cons in Hs. injection Hs as <- Hrest.
    unfold contains_byte in Hno. cbn [str_any] in Hno. apply orb_false_iff in Hno as [Heq Hno].
    rewrite (Ascii.eqb_sym c "="), Heq, orb_false_r.
    destruct (Ascii.eqb_spec c "-") as [->|Hdash]; [by destruct name|].
    destruct value as [v|]; subst rest.
    + change ("=" +:+ v) with (String "=" v). by rewrite (Cut_found "=" name v Hno).
    + by rewrite str_app_nil_r, (Cut_absent "=" name Hno).
Qed.

Lemma scan_Flag s name value :
  scan s = Flag name value ↔
  flag_name name ∧ ∃ d, d ∈ dashes ∧ s = d +:+ name +:+ (match value with Some v => "=" +:+ v | None => "" end).
Proof.
  split.
  - intros Hs. assert (Hcases : ∃ d rest, d ∈ dashes ∧ s = d +:+ rest ∧ scan_name rest = Flag name value).
    { destruct s as [|c s]; [done|]. destruct (decide (c = "-"%char)) as [->|Hc].
      2: { by destruct c as [[] [] [] [] [] [] [] []]. }
      destruct s as [|c2 s]; [done|]. destruct (decide (c2 = "-"%char)) as [->|Hc2].
      - destruct s as [|c3 s]; [done|]. exists "--", (String c3 s). split_and!; [right; left|done|done].
      - exists "-", (String c2 s). split_and!; [left|done|].
        by destruct c2 as [[] [] [] [] [] [] [] []]. }
    destruct Hcases as (d & rest & Hd & -> & [Hname ->]%scan_name_spec). split; [done|]. by exists d.
  - intros [Hname (d & Hd & ->)]. pose proof Hname as (Hne & Hprefix & _).
    destruct name as [|c name]; [done|]. set (tail := match value with Some v => _ | None => _ end).
    assert (Hscan : scan_name (String c (name +:+ tail)) = Flag (String c name) value).
    { by apply scan_name_spec. }
    assert (Hc : c ≠ "-"%char) by (intros ->; by destruct name).
    apply elem_of_cons in Hd as [->|[->|[]%not_elem_of_nil]%elem_of_cons]; rewrite <- Hscan; [|done].
    by destruct c as [[] [] [] [] [] [] [] []].
Qed.

(** Where Parse stops: at the end, after "--", or before a positional argument. *)
Definition stops (tail rest : list string) : Prop :=
  tail = [] ∧ rest = [] ∨ tail = "--" :: rest ∨ ∃ s args, tail = s :: args ∧ scan s = Positional ∧ rest = tail.

Lemma scan_Terminator s : scan s = Terminator ↔ s = "--".
Proof.
  split; [|by intros ->]. destruct s as [|c s]; [done|].
  assert (Hname : ∀ n, scan_name n ≠ Terminator).
  { intros [|c' n]; [done|]. cbn. destruct (_ || _); [done|]. by destruct (Cut _ _) as [[? ?] ?]. }
  destruct (decide (c = "-"%char)) as [->|Hc]; [|by destruct c as [[] [] [] [] [] [] [] []]].
  destruct s as [|c2 s]; [done|]. destruct (decide (c2 = "-"%char)) as [->|Hc2].
  - destruct s as [|c3 s]; [done|]. intros Hs. by destruct (Hname (String c3 s)).
  - intros Hs. destruct (Hname (String c2 s)).
    by destruct c2 as [[] [] [] [] [] [] [] []].
Qed.

(** Parse accepts exactly the spellings of assignments that can be made. *)
Lemma parse_Ok args o o' rest :
  Parse args o = Ok (o', rest) ↔
  ∃ assigns flags tail, args = flags ++ tail ∧ Spells assigns flags ∧ assign assigns o = Some o' ∧
    stops tail rest.
Proof.
  split.
  - revert o. induction args as [args IH] using (induction_ltof1 _ (@length string)). intros o.
    destruct args as [|s args]; cbn [Parse].
    { intros [= <- <-]. exists [], [], []. split_and!; [done|constructor|done|by left]. }
    assert (Hnext : ∀ args' assigns1 o1, length args' ≤ length args →
      Parse args' o1 = Ok (o', rest) →
      (∀ assigns flags, Spells assigns flags → ∃ flags', Spells (assigns1 ++ assigns) flags' ∧
         ∀ tail, args' = flags ++ tail → s :: args = flags' ++ tail) →
      (∀ assigns o2, assign assigns o1 = Some o2 → assign (assigns1 ++ assigns) o = Some o2) →
      ∃ assigns flags tail, s :: args = flags ++ tail ∧ Spells assigns flags ∧ assign assigns o = Some o' ∧
        stops tail rest).
    { intros args' assigns1 o1 Hlen Hparse Hflags Hassign.
      destruct (IH args') with (o := o1) as (assigns & flags & tail & Hargs & Hspells & Ho' & Hstops);
        [unfold ltof; cbn; lia|done|].
      destruct (Hflags assigns flags Hspells) as (flags' & Hspells' & Heq).
      exists (assigns1 ++ assigns), flags', tail. split_and!; auto. }
    destruct (scan s) as [| | |name value] eqn:Hscan.
    + intros [= <- <-]. exists [], [], (s :: args). split_and!; [done|constructor|done|].
      right; right. by exists s, args.
    + intros [= <- <-]. apply scan_Terminator in Hscan as ->. exists [], [], ("--" :: args).
      split_and!; [done|constructor|done|by right; left].
    + done.
    + apply scan_Flag in Hscan as [Hname (d & Hd & ->)].
      destruct (formal name) as [[set|set]|] eqn:Hf; [| |by destruct (_ || _)].
      * destruct (set (default "true" value) o) as [o1|] eqn:Hset; [|done]. intros Hparse.
        apply (Hnext args [(name, default "true" value)] o1); [done|done|..]; cbn.
        -- intros assigns flags Hspells. destruct value as [v|]; cbn.
           ++ eexists. split; [by eapply spells_equals|]. by intros tail ->.
           ++ eexists. split; [by eapply spells_bool|]. intros tail ->. by rewrite str_app_nil_r.
        -- intros assigns o2 Ho2. rewrite Hf; cbn. by rewrite Hset.
      * destruct value as [v|]; [|destruct args as [|v args']; [done|]];
          (destruct (set v o) as [o1|] eqn:Hset; [|done]); intros Hparse.
        -- apply (Hnext args [(name, v)] o1); [done|done|..]; cbn.
           ++ intros assigns flags Hspells. eexists. split; [by eapply spells_equals|]. by intros tail ->.
           ++ intros assigns o2 Ho2. rewrite Hf; cbn. by rewrite Hset.
        -- apply (Hnext args' [(name, v)] o1); [cbn; lia|done|..]; cbn.
           ++ intros assigns flags Hspells. eexists. split; [by eapply spells_next|].
              intros tail ->. by rewrite str_app_nil_r.
           ++ intros assigns o2 Ho2. rewrite Hf; cbn. by rewrite Hset.
  - intros (assigns & flags & tail & -> & Hspells & Hassign & Hstops).
    revert o Hassign. induction Hspells as [|d name value f assigns flags Hd Hname Hf _ IHs|
      d name value set assigns flags Hd Hname Hf _ IHs|d name set assigns flags Hd Hname Hf _ IHs];
      intros o Hassign; cbn [assign] in Hassign; cbn [app].
    + injection Hassign as <-.
      destruct Hstops as [[-> ->]|[->|(s & args & -> & Hs & ->)]]; [done|done|]. cbn. by rewrite Hs.
    + rewrite Hf in Hassign; cbn in Hassign. destruct (flag_set f value o) as [o1|] eqn:Hset; [|done].
      cbn [Parse]. assert (Hscan : scan (d +:+ name +:+ "=" +:+ value) = Flag name (Some value)).
      { apply scan_Flag. split; [done|]. by exists d. }
      rewrite Hscan, Hf. destruct f; cbn in Hset |- *; rewrite Hset; by apply IHs.
    + rewrite Hf in Hassign; cbn in Hassign. destruct (set value o) as [o1|] eqn:Hset; [|done].
      cbn [Parse]. assert (Hscan : scan (d +:+ name) = Flag name None).
      { apply scan_Flag. split; [done|]. exists d. by rewrite str_app_nil_r. }
      rewrite Hscan, Hf, Hset. by apply IHs.
    + rewrite Hf in Hassign; cbn in Hassign. destruct (set "true" o) as [o1|] eqn:Hset; [|done].
      cbn [Parse]. assert (Hscan : scan (d +:+ name) = Flag name None).
      { apply scan_Flag. split; [done|]. exists d. by rewrite str_app_nil_r. }
      rewrite Hscan, Hf. cbn. rewrite Hset. by apply IHs.
Qed.
End FlagSet.
