(* ===== verification/ConfigNode.v ===== *)
(** * Package config: the YAML node checks

    internal/config/config.go, validateNode and validateScalarTypes, which run over the
    untyped document before it is decoded into a Config.  The node type is
    gopkg.in/yaml.v3's; its fields are those the checks read. *)
From S2P Require Import Prelude GoString.
#[local] Set Warnings "-register-all".

(** ** Data *)
Inductive Kind := DocumentNode | SequenceNode | MappingNode | ScalarNode | AliasNode.
#[export] Instance Kind_eq_dec : EqDecision Kind.
Proof. solve_decision. Defined.

(** Style is a bit set; its first bit marks an explicit tag. *)
Definition TaggedStyle : N := 1.

Inductive Node := mkNode {
  Node_Kind : Kind;
  Node_Style : N;
  Node_Tag : string;
  Node_Value : string;
  Node_Anchor : string;
  Node_Content : list Node
}.

(** ** validateNode *)
Definition forbidden_node (n : Node) : bool :=
  (Node_Anchor n != "") || (Node_Kind n == AliasNode)
  || (N.land (Node_Style n) TaggedStyle != 0%N).

(** The elements at the even indices: [for i := 0; i < len(l); i += 2]. *)
Fixpoint evens {A} (l : list A) : list A :=
  match l with x :: _ :: l' => x :: evens l' | _ => l end.

Fixpoint validateNode (n : Node) : option error :=
  let 'mkNode kind _ tag _ _ content := n in
  fail_if (forbidden_node n) "YAML anchors, aliases and explicit tags are forbidden" ;?
  fail_if (tag == "!!null") "null configuration values are forbidden; use explicit mappings" ;?
  (if kind == MappingNode then
     each (λ key, fail_if (Node_Tag key != "!!str") "configuration keys must be strings")
       (evens content)
   else None) ;?
  each validateNode content.

(** ** validateScalarTypes *)
Definition childPath (path key : string) : string :=
  if path != "" then path +:+ "." +:+ key else key.

Definition wrong_type : option error := Some "configuration scalar has the wrong YAML type".

Definition validateScalar (tag path : string) : option error :=
  if bool_decide (path ∈ ["telemetry.otlp.insecure"; "telemetry.traces.enabled";
                          "telemetry.metrics.enabled"])
  then fail_if (tag != "!!bool") "configuration scalar has the wrong YAML type"
  else if path == "telemetry.traces.sampleRatio" then
    if (tag == "!!float") || (tag == "!!int") then None
    else fail_if (tag != "!!float") "configuration scalar has the wrong YAML type"
  else fail_if (tag != "!!str") "configuration scalar has the wrong YAML type".

(** [continue r next]: the loop goes on when the body returned no error. *)
Definition continue (r next : outcome (option error)) : outcome (option error) :=
  match r with Return None => next | _ => r end.

Fixpoint validateScalarTypes (n : Node) (path : string) : outcome (option error) :=
  let 'mkNode kind _ tag _ _ content := n in
  match kind with
  | DocumentNode | SequenceNode =>
      (fix go l := match l with
       | [] => Return None
       | child :: l' => continue (validateScalarTypes child path) (go l')
       end) content
  | MappingNode =>
      (fix go l := match l with
       | [] => Return None
       | [_] => Panic
       | key :: value :: l' =>
           continue (validateScalarTypes value (childPath path (Node_Value key))) (go l')
       end) content
  | ScalarNode => Return (validateScalar tag path)
  | AliasNode => Return (Some "YAML anchors, aliases and explicit tags are forbidden")
  end.

(** ** Specification

    [Plain]: no anchor, alias, explicit tag or null anywhere, and string keys only.
    [Typed path n]: every scalar under [n] has the documented type at its dotted path. *)
Definition pairs {A} (entries : list (A * A)) : list A := entries ≫= λ '(k, v), [k; v].

Inductive Plain : Node → Prop :=
| plain_node kind style tag value content :
    kind ≠ AliasNode → N.land style TaggedStyle = 0%N → tag ≠ "!!null" →
    (kind = MappingNode → Forall (λ key, Node_Tag key = "!!str") (evens content)) →
    Forall Plain content →
    Plain (mkNode kind style tag value "" content).

Definition scalar_tags (path : string) : list string :=
  if bool_decide (path ∈ ["telemetry.otlp.insecure"; "telemetry.traces.enabled";
                          "telemetry.metrics.enabled"]) then ["!!bool"]
  else if path == "telemetry.traces.sampleRatio" then ["!!float"; "!!int"]
  else ["!!str"].

Inductive Typed : string → Node → Prop :=
| typed_items path kind style tag value anchor content :
    kind = DocumentNode ∨ kind = SequenceNode →
    Forall (Typed path) content →
    Typed path (mkNode kind style tag value anchor content)
| typed_mapping path style tag value anchor entries :
    Forall (λ entry, Typed (childPath path (Node_Value entry.1)) entry.2) entries →
    Typed path (mkNode MappingNode style tag value anchor (pairs entries))
| typed_scalar path style tag value anchor content :
    tag ∈ scalar_tags path →
    Typed path (mkNode ScalarNode style tag value anchor content).

(** Mappings as gopkg.in/yaml.v3 builds them: keys and values alternate. *)
Inductive Paired : Node → Prop :=
| paired_node kind style tag value anchor content :
    (kind = MappingNode → ∃ entries, content = pairs entries) →
    Forall Paired content →
    Paired (mkNode kind style tag value anchor content).

(** ** Induction *)
Lemma Node_ind' (P : Node → Prop) :
  (∀ kind style tag value anchor content, Forall P content →
     P (mkNode kind style tag value anchor content)) →
  ∀ n, P n.
Proof.
  intros Hnode. fix IH 1. intros [kind style tag value anchor content]. apply Hnode.
  induction content as [|n content IHc]; constructor; [apply IH|exact IHc].
Qed.

Lemma continue_None r next : continue r next = Return None ↔ r = Return None ∧ next = Return None.
Proof. destruct r as [[?|]|]; naive_solver. Qed.

(** ** Lemmas *)
Lemma forbidden_node_spec kind style tag value anchor content :
  forbidden_node (mkNode kind style tag value anchor content) = false ↔
  anchor = "" ∧ kind ≠ AliasNode ∧ N.land style TaggedStyle = 0%N.
Proof.
  unfold forbidden_node; cbn [Node_Anchor Node_Kind Node_Style].
  rewrite !orb_false_iff, !negb_false_iff, !bool_decide_eq_true, bool_decide_eq_false. tauto.
Qed.

Lemma validateNode_Plain n : validateNode n = None ↔ Plain n.
Proof.
  induction n as [kind style tag value anchor content IH] using Node_ind'.
  cbn [validateNode]. rewrite !err_seq_None, !fail_if_None, forbidden_node_spec, !each_None,
    bool_decide_eq_false.
  assert (Hkeys : (if kind == MappingNode then
     each (λ key, fail_if (Node_Tag key != "!!str") "configuration keys must be strings")
       (evens content) else None) = None ↔
    (kind = MappingNode → Forall (λ key, Node_Tag key = "!!str") (evens content))).
  { case_bool_decide; [|naive_solver]. rewrite each_None, Forall_forall.
    setoid_rewrite fail_if_None. setoid_rewrite negb_false_iff. setoid_rewrite bool_decide_eq_true.
    naive_solver. }
  rewrite Hkeys. rewrite Forall_forall in IH. split.
  - intros ((-> & ? & ?) & ? & ? & Hall). constructor; try done.
    apply Forall_forall. intros m Hm. by apply IH, Hall.
  - intros Hplain. inversion Hplain as [? ? ? ? ? ? ? ? ? Hall]; subst. rewrite Forall_forall in Hall.
    split_and!; try done. intros m Hm. by apply IH, Hall.
Qed.

Lemma validateScalar_spec tag path : validateScalar tag path = None ↔ tag ∈ scalar_tags path.
Proof.
  unfold validateScalar, scalar_tags. repeat case_bool_decide; simpl;
    rewrite ?list_elem_of_singleton; set_solver.
Qed.

(** Scalars below [content] are typed, in each of the two shapes of content. *)
Lemma validate_items content path :
  Forall (λ n, ∀ path, validateScalarTypes n path = Return None ↔ Typed path n) content →
  (fix go l := match l with
   | [] => Return None
   | child :: l' => continue (validateScalarTypes child path) (go l')
   end) content = Return None ↔ Forall (Typed path) content.
Proof.
  induction 1 as [|n content Hn _ IH]; [done|].
  rewrite continue_None, Hn, IH, Forall_cons. done.
Qed.

Lemma pairs_cons {A} (k v : A) entries : pairs ((k, v) :: entries) = k :: v :: pairs entries.
Proof. done. Qed.

Lemma pairs_inj {A} (l l' : list (A * A)) : pairs l = pairs l' → l = l'.
Proof.
  revert l'. induction l as [|[k v] l IH]; intros [|[k' v'] l']; rewrite ?pairs_cons; try done.
  intros [= -> -> Hl]. by rewrite (IH l').
Qed.

(** Induction on a list of nodes two at a time. *)
Lemma list_ind2 {A} (P : list A → Prop) :
  P [] → (∀ x, P [x]) → (∀ x y l, P l → P (x :: y :: l)) → ∀ l, P l.
Proof.
  intros H0 H1 H2. fix IH 1. intros [|x [|y l]]; [apply H0|apply H1|apply H2, IH].
Qed.

Lemma validate_entries content path :
  Forall (λ n, ∀ path, validateScalarTypes n path = Return None ↔ Typed path n) content →
  (fix go l := match l with
   | [] => Return None
   | [_] => Panic
   | key :: value :: l' =>
       continue (validateScalarTypes value (childPath path (Node_Value key))) (go l')
   end) content = Return None ↔
  ∃ entries, content = pairs entries ∧
    Forall (λ entry, Typed (childPath path (Node_Value entry.1)) entry.2) entries.
Proof.
  induction content as [|n|k v content IH] using list_ind2; intros Hall.
  - split; [|done]. intros _. by exists [].
  - split; [done|]. intros ([|[? ?] ?] & Heq & _); done.
  - apply Forall_cons in Hall as [_ [Hv Hall]%Forall_cons].
    rewrite continue_None, Hv, (IH Hall). split.
    + intros (Htyped & entries & -> & Hentries). exists ((k, v) :: entries). by auto.
    + intros ([|[k' v'] entries] & Heq & Hentries); [done|].
      rewrite pairs_cons in Heq. injection Heq as <- <- ->.
      apply Forall_cons in Hentries as [? ?]. eauto.
Qed.

Lemma validateScalarTypes_Typed n path : validateScalarTypes n path = Return None ↔ Typed path n.
Proof.
  revert path. induction n as [kind style tag value anchor content IH] using Node_ind'. intros path.
  destruct kind; cbn [validateScalarTypes].
  - rewrite (validate_items _ _ IH). split; [by constructor; auto|]. by inversion 1.
  - rewrite (validate_items _ _ IH). split; [by constructor; auto|]. by inversion 1.
  - rewrite (validate_entries _ _ IH). split.
    + intros (entries & -> & Hall). by apply typed_mapping.
    + inversion 1; subst; [naive_solver|eauto].
  - split.
    + intros [= Hnone]. apply typed_scalar. by apply validateScalar_spec.
    + inversion 1; subst; [naive_solver|]. f_equal. by apply validateScalar_spec.
  - split; [done|]. inversion 1; naive_solver.
Qed.

Lemma validateScalarTypes_Paired n path : Paired n → validateScalarTypes n path ≠ Panic.
Proof.
  assert (Hcontinue : ∀ r next, r ≠ Panic → next ≠ Panic → continue r next ≠ Panic).
  { intros [[?|]|] ?; naive_solver. }
  revert path. induction n as [kind style tag value anchor content IH] using Node_ind'.
  intros path Hpaired. inversion Hpaired as [? ? ? ? ? ? Hentries Hall]; subst.
  destruct kind; cbn [validateScalarTypes]; try done.
  1,2: clear Hentries Hpaired; induction content as [|n content IHc]; [done|];
    apply Forall_cons in IH as [? ?], Hall as [? ?]; apply Hcontinue; auto.
  destruct (Hentries eq_refl) as [entries ->]. clear Hentries Hpaired.
  induction entries as [|[k v] entries IHe]; [done|].
  rewrite pairs_cons in *. apply Forall_cons in IH as [_ [? ?]%Forall_cons].
  apply Forall_cons in Hall as [_ [? ?]%Forall_cons]. apply Hcontinue; auto.
Qed.

(** C29. The untyped document checks accept exactly the documents without anchors,
    aliases, tags, nulls or non-string keys whose scalars have the documented types. *)
Theorem validate_document_spec n :
  validateNode n = None ∧ validateScalarTypes n "" = Return None ↔ Plain n ∧ Typed "" n.
Proof. by rewrite validateNode_Plain, validateScalarTypes_Typed. Qed.
