(* ===== verification/ConfigTelemetry.v ===== *)
(** * Package config: the telemetry section

    internal/config/config.go, type Telemetry and its Validate, which fills the three
    documented defaults before it checks the settings. *)
From S2P Require Import Prelude GoString GoTime.

(** ** Data *)
Record OTLP := mkOTLP {
  OTLP_Endpoint : string;
  OTLP_Protocol : string;
  OTLP_Insecure : bool;
  OTLP_Headers : gmap string string
}.
Record Traces := mkTraces { Traces_Enabled : bool; Traces_SampleRatio : ptr float64 }.
Record Metrics := mkMetrics { Metrics_Enabled : bool; Metrics_ExportInterval : string }.
Record Telemetry := mkTelemetry {
  Telemetry_ServiceName : string;
  Telemetry_Resource : gmap string string;
  Telemetry_OTLP : OTLP;
  Telemetry_Traces : Traces;
  Telemetry_Metrics : Metrics
}.

(** The assignments of Validate through its pointer receiver. *)
Definition set_ServiceName (name : string) (t : Telemetry) : Telemetry :=
  mkTelemetry name (Telemetry_Resource t) (Telemetry_OTLP t) (Telemetry_Traces t) (Telemetry_Metrics t).
Definition set_SampleRatio (ratio : float64) (t : Telemetry) : Telemetry :=
  mkTelemetry (Telemetry_ServiceName t) (Telemetry_Resource t) (Telemetry_OTLP t)
    (mkTraces (Traces_Enabled (Telemetry_Traces t)) (Some ratio)) (Telemetry_Metrics t).
Definition set_ExportInterval (interval : string) (t : Telemetry) : Telemetry :=
  mkTelemetry (Telemetry_ServiceName t) (Telemetry_Resource t) (Telemetry_OTLP t)
    (Telemetry_Traces t) (mkMetrics (Metrics_Enabled (Telemetry_Metrics t)) interval).

(** ** Validate *)
Definition float64_zero : float64 := S754_zero false.
Definition float64_one : float64 := float64_of_Z 1.
Definition bad_ratio (ratio : float64) : bool :=
  isNaN ratio || isInf ratio || SFltb ratio float64_zero || SFltb float64_one ratio.

(** The endpoint check: SplitHostPort, Atoi and the range of the port. *)
Definition bad_host_bytes : string :=
  "/@?# " +:+ String (byte 13) (String (byte 10) (String (byte 9) "")).
Definition bad_endpoint (endpoint : string) : bool :=
  match SplitHostPort endpoint with
  | None => true
  | Some (host, port) =>
      match Atoi port with
      | None => true
      | Some n =>
          (host == "") || (n <? 1)%Z || (65535 <? n)%Z || ContainsAny host bad_host_bytes
      end
  end.

(** strings.ToLower on ASCII bytes.  A header name with a byte outside ASCII is rejected
    by the next check whatever its lower case is. *)
Definition ToLower (s : string) : string :=
  (fix go s := match s with "" => "" | String c s' => String (lower c) (go s') end) s.
Definition header_name_bytes : string := "abcdefghijklmnopqrstuvwxyz0123456789-_.".
Definition bad_value_byte (c : ascii) : bool := (code c <? 32)%N || (126 <? code c)%N.
Definition validateHeader (key value : string) : option error :=
  fail_if ((key == "") || (ToLower key != key)) "OTLP header names must be lowercase" ;?
  fail_if (str_any (λ c, negb (contains_byte c header_name_bytes)) key)
    "invalid OTLP header name" ;?
  fail_if (str_any bad_value_byte value) "invalid OTLP header value".
Definition validateHeaders : list (string * string) → option error :=
  each (λ '(key, value), validateHeader key value).

(** (t *Telemetry) Validate: the receiver afterwards and the error. *)
Definition Telemetry_Validate `{!MapRange} (t : Telemetry) : Telemetry * option error :=
  let t := if Telemetry_ServiceName t == "" then set_ServiceName "dockauthz" t else t in
  if bool_decide (is_Some (Telemetry_Resource t !! "service.name"))
  then (t, Some "telemetry.resource cannot override service.name")
  else if bool_decide (is_Some (Telemetry_Resource t !! "service.version"))
  then (t, Some "telemetry.resource cannot override service.version")
  else
    let t := match Traces_SampleRatio (Telemetry_Traces t) with
             | None => set_SampleRatio float64_one t | Some _ => t end in
    if bad_ratio (default float64_one (Traces_SampleRatio (Telemetry_Traces t)))
    then (t, Some "telemetry sampleRatio must be between 0 and 1")
    else
      let t := if Metrics_ExportInterval (Telemetry_Metrics t) == ""
               then set_ExportInterval "30s" t else t in
      let otlp := Telemetry_OTLP t in
      (t,
       match ParseDuration (Metrics_ExportInterval (Telemetry_Metrics t)) with
       | None => Some "telemetry exportInterval must be a positive duration"
       | Some interval =>
           fail_if (interval <=? 0)%Z "telemetry exportInterval must be a positive duration" ;?
           fail_if ((OTLP_Protocol otlp != "") && (OTLP_Protocol otlp != "grpc")
                    && (OTLP_Protocol otlp != "http")) "telemetry protocol must be grpc or http" ;?
           fail_if ((Traces_Enabled (Telemetry_Traces t) || Metrics_Enabled (Telemetry_Metrics t))
                    && ((OTLP_Endpoint otlp == "") || (OTLP_Protocol otlp == "")))
             "enabled telemetry requires explicit OTLP endpoint and protocol" ;?
           fail_if ((OTLP_Endpoint otlp != "") && bad_endpoint (OTLP_Endpoint otlp))
             "telemetry endpoint must be host:port" ;?
           validateHeaders (range (OTLP_Headers otlp))
       end).

(** ** Specification *)
Definition Telemetry_defaults (t : Telemetry) : Telemetry :=
  mkTelemetry
    (if Telemetry_ServiceName t == "" then "dockauthz" else Telemetry_ServiceName t)
    (Telemetry_Resource t) (Telemetry_OTLP t)
    (mkTraces (Traces_Enabled (Telemetry_Traces t))
       (Some (default float64_one (Traces_SampleRatio (Telemetry_Traces t)))))
    (mkMetrics (Metrics_Enabled (Telemetry_Metrics t))
       (if Metrics_ExportInterval (Telemetry_Metrics t) == "" then "30s"
        else Metrics_ExportInterval (Telemetry_Metrics t))).

Definition unit_interval (ratio : float64) : Prop :=
  SFleb float64_zero ratio = true ∧ SFleb ratio float64_one = true.
Definition ValidEndpoint (endpoint : string) : Prop :=
  ∃ host port n, SplitHostPort endpoint = Some (host, port) ∧ Atoi port = Some n ∧
    (1 ≤ n ≤ 65535)%Z ∧ host ≠ "" ∧ ContainsAny host bad_host_bytes = false.
Definition header_name_byte (c : ascii) : bool := contains_byte c header_name_bytes.
Definition printable (c : ascii) : bool := (32 <=? code c)%N && (code c <=? 126)%N.

Record ValidTelemetry (t : Telemetry) : Prop := {
  telemetry_name : Telemetry_Resource t !! "service.name" = None;
  telemetry_version : Telemetry_Resource t !! "service.version" = None;
  telemetry_ratio : ∃ ratio, Traces_SampleRatio (Telemetry_Traces t) = Some ratio ∧ unit_interval ratio;
  telemetry_interval : ∃ d, ParseDuration (Metrics_ExportInterval (Telemetry_Metrics t)) = Some d ∧ (0 < d)%Z;
  telemetry_protocol : OTLP_Protocol (Telemetry_OTLP t) ∈ [""; "grpc"; "http"];
  telemetry_enabled :
    Traces_Enabled (Telemetry_Traces t) = true ∨ Metrics_Enabled (Telemetry_Metrics t) = true →
    OTLP_Endpoint (Telemetry_OTLP t) ≠ "" ∧ OTLP_Protocol (Telemetry_OTLP t) ≠ "";
  telemetry_endpoint :
    OTLP_Endpoint (Telemetry_OTLP t) ≠ "" → ValidEndpoint (OTLP_Endpoint (Telemetry_OTLP t));
  telemetry_headers : ∀ key value, OTLP_Headers (Telemetry_OTLP t) !! key = Some value →
    key ≠ "" ∧ str_all header_name_byte key = true ∧ str_all printable value = true
}.

(** ** Lemmas *)
Lemma SFcompare_flip a b : SFcompare b a = CompOpp <$> SFcompare a b.
Proof.
  destruct a as [sa|sa| |sa ma ea], b as [sb|sb| |sb mb eb]; simpl;
    try destruct sa; try destruct sb; try done; f_equal;
    rewrite (Z.compare_antisym ea eb : Z.compare eb ea = _); destruct (Z.compare ea eb); try done;
    change (PosDef.Pos.compare_cont Eq) with Pos.compare;
    rewrite (Pos.compare_antisym ma mb); by destruct (Pos.compare ma mb).
Qed.

Lemma bad_ratio_spec ratio : bad_ratio ratio = false ↔ unit_interval ratio.
Proof.
  unfold bad_ratio, unit_interval, SFltb, SFleb. rewrite (SFcompare_flip float64_zero ratio).
  rewrite (SFcompare_flip float64_one ratio).
  assert (Hsome : ∀ x, x ≠ S754_nan → ratio ≠ S754_nan → is_Some (SFcompare x ratio)).
  { intros x. by destruct x, ratio; eauto. }
  destruct (decide (isNaN ratio = true)) as [Hnan|Hnan].
  { destruct ratio; try done. split; [done|]. by intros [? _]. }
  destruct (Hsome float64_zero) as [c0 H0]; [done|by intros ->|].
  destruct (Hsome float64_one) as [c1 H1]; [done|by intros ->|].
  assert (Hinf : isInf ratio = true → c0 = Gt ∨ c1 = Lt).
  { destruct ratio as [|[]| |]; try done; vm_compute in H0, H1; intros _; [left|right]; congruence. }
  apply not_true_iff_false in Hnan. rewrite Hnan, H0, H1. cbn.
  destruct c0, c1, (isInf ratio); simpl; try (by destruct (Hinf eq_refl)); naive_solver.
Qed.

Lemma bad_endpoint_spec endpoint : bad_endpoint endpoint = false ↔ ValidEndpoint endpoint.
Proof.
  unfold bad_endpoint, ValidEndpoint.
  destruct (SplitHostPort endpoint) as [[host port]|]; [|by split; [|intros (? & ? & ? & ? & _)]].
  destruct (Atoi port) as [n|] eqn:Hport.
  - rewrite !orb_false_iff, bool_decide_eq_false, !Z.ltb_ge. split.
    + intros [[[? ?] ?] ?]. by exists host, port, n.
    + intros (h & p & m & ? & ? & [? ?] & ? & ?). simplify_eq. done.
  - split; [done|]. intros (h & p & m & ? & ? & _). simplify_eq.
Qed.

(** strconv.Atoi reads a sign: the port of this endpoint is not a decimal number. *)
Lemma signed_port_accepted : bad_endpoint "collector:+4317" = false.
Proof. vm_compute. reflexivity. Qed.

Lemma header_name_lower c : header_name_byte c = true → lower c = c.
Proof. destruct c as [[] [] [] [] [] [] [] []]; vm_compute; congruence. Qed.

Lemma ToLower_id s : str_all header_name_byte s = true → ToLower s = s.
Proof.
  induction s as [|c s IH]; [done|]. cbn. intros [Hc Hs]%andb_true_iff.
  rewrite (header_name_lower c Hc). f_equal. by apply IH.
Qed.

Lemma validateHeader_spec key value :
  validateHeader key value = None ↔
  key ≠ "" ∧ str_all header_name_byte key = true ∧ str_all printable value = true.
Proof.
  unfold validateHeader. rewrite !err_seq_None, !fail_if_None, orb_false_iff.
  rewrite (str_any_negb header_name_byte).
  assert (Hval : str_any bad_value_byte value = false ↔ str_all printable value = true).
  { rewrite <- str_any_negb. f_equiv. induction value as [|c s IH]; [done|]. simpl. rewrite IH.
    f_equal. unfold bad_value_byte, printable. rewrite negb_andb, !N.leb_antisym, !negb_involutive. done. }
  rewrite Hval, bool_decide_eq_false, negb_false_iff, bool_decide_eq_true.
  split; [naive_solver|]. intros (? & Hname & ?). split_and!; try done. by apply ToLower_id.
Qed.

Lemma validateHeaders_spec headers :
  validateHeaders headers = None ↔ ∀ key value, (key, value) ∈ headers → validateHeader key value = None.
Proof.
  unfold validateHeaders. rewrite each_None. split.
  - intros Hall key value. apply (Hall (key, value)).
  - intros Hall [key value]. apply Hall.
Qed.

Section validate.
Context `{!MapRange}.

(** The checks of Validate on settings whose defaults are filled in. *)
Definition telemetry_checks (t : Telemetry) (ratio : float64) (interval : Z) : option error :=
  let otlp := Telemetry_OTLP t in
  fail_if (interval <=? 0)%Z "telemetry exportInterval must be a positive duration" ;?
  fail_if ((OTLP_Protocol otlp != "") && (OTLP_Protocol otlp != "grpc")
           && (OTLP_Protocol otlp != "http")) "telemetry protocol must be grpc or http" ;?
  fail_if ((Traces_Enabled (Telemetry_Traces t) || Metrics_Enabled (Telemetry_Metrics t))
           && ((OTLP_Endpoint otlp == "") || (OTLP_Protocol otlp == "")))
    "enabled telemetry requires explicit OTLP endpoint and protocol" ;?
  fail_if ((OTLP_Endpoint otlp != "") && bad_endpoint (OTLP_Endpoint otlp))
    "telemetry endpoint must be host:port" ;?
  validateHeaders (range (OTLP_Headers otlp)).

Lemma telemetry_checks_spec t ratio interval :
  Telemetry_Resource t !! "service.name" = None →
  Telemetry_Resource t !! "service.version" = None →
  Traces_SampleRatio (Telemetry_Traces t) = Some ratio → unit_interval ratio →
  ParseDuration (Metrics_ExportInterval (Telemetry_Metrics t)) = Some interval →
  telemetry_checks t ratio interval = None ↔ ValidTelemetry t.
Proof.
  intros Hname Hversion Hratio Hunit Hinterval. unfold telemetry_checks.
  rewrite !err_seq_None, !fail_if_None, validateHeaders_spec.
  rewrite !andb_false_iff, !negb_false_iff, !orb_false_iff, bad_endpoint_spec,
    !bool_decide_eq_true, !bool_decide_eq_false.
  split.
  - intros (Hpos & Hprotocol & Henabled & Hendpoint & Hheaders). split; try done.
    + by exists ratio.
    + exists interval. split; [done|]. lia.
    + set_solver.
    + intros [He|He]; destruct Henabled as [[? ?]|?]; congruence || done.
    + intros ?. by destruct Hendpoint.
    + intros key value Hk. apply validateHeader_spec, Hheaders. by apply elem_of_range.
  - intros [_ _ _ (d & Hd & Hpos) Hprotocol Henabled Hendpoint Hheaders].
    assert (d = interval) as -> by congruence. split_and!.
    + lia.
    + set_solver.
    + destruct (Traces_Enabled _); [right; apply Henabled; by left|].
      destruct (Metrics_Enabled _); [right; apply Henabled; by right|by left].
    + destruct (decide (OTLP_Endpoint (Telemetry_OTLP t) = "")); auto.
    + intros key value Hk%elem_of_range. apply validateHeader_spec. eauto.
Qed.

Lemma Telemetry_Validate_eq t :
  Telemetry_Validate t =
  let named := if Telemetry_ServiceName t == "" then set_ServiceName "dockauthz" t else t in
  if bool_decide (is_Some (Telemetry_Resource t !! "service.name"))
  then (named, Some "telemetry.resource cannot override service.name")
  else if bool_decide (is_Some (Telemetry_Resource t !! "service.version"))
  then (named, Some "telemetry.resource cannot override service.version")
  else
    let ratio := default float64_one (Traces_SampleRatio (Telemetry_Traces t)) in
    if bad_ratio ratio
    then (set_SampleRatio ratio named, Some "telemetry sampleRatio must be between 0 and 1")
    else
      let t' := Telemetry_defaults t in
      (t', match ParseDuration (Metrics_ExportInterval (Telemetry_Metrics t')) with
           | None => Some "telemetry exportInterval must be a positive duration"
           | Some interval => telemetry_checks t' ratio interval
           end).
Proof.
  destruct t as [name res otlp [en [ratio|]] [men interval]].
  all: unfold Telemetry_Validate, Telemetry_defaults, telemetry_checks; cbv zeta; cbn.
  all: destruct (bool_decide (name = "")); cbn.
  all: destruct (bool_decide (interval = "")); reflexivity.
Qed.

Lemma Telemetry_Validate_None t t' :
  Telemetry_Validate t = (t', None) ↔ t' = Telemetry_defaults t ∧ ValidTelemetry t'.
Proof.
  rewrite Telemetry_Validate_eq. cbv zeta.
  set (ratio := default float64_one (Traces_SampleRatio (Telemetry_Traces t))).
  assert (Hratio : Traces_SampleRatio (Telemetry_Traces (Telemetry_defaults t)) = Some ratio) by done.
  assert (Hres : Telemetry_Resource (Telemetry_defaults t) = Telemetry_Resource t) by done.
  case_bool_decide as Hname.
  { split; [done|]. intros [-> Hvalid]. apply telemetry_name in Hvalid. rewrite Hres in Hvalid.
    rewrite Hvalid in Hname. by destruct Hname. }
  case_bool_decide as Hversion.
  { split; [done|]. intros [-> Hvalid]. apply telemetry_version in Hvalid. rewrite Hres in Hvalid.
    rewrite Hvalid in Hversion. by destruct Hversion. }
  rewrite <- eq_None_not_Some, <- Hres in Hname, Hversion.
  destruct (bad_ratio ratio) eqn:Hbad.
  { split; [done|]. intros [-> Hvalid]. apply telemetry_ratio in Hvalid as (r & Hr & Hunit).
    apply bad_ratio_spec in Hunit. congruence. }
  apply bad_ratio_spec in Hbad.
  destruct (ParseDuration _) as [interval|] eqn:Hinterval.
  - pose proof (telemetry_checks_spec _ _ _ Hname Hversion Hratio Hbad Hinterval) as Hchecks.
    split.
    + intros [= <- Hnone]. by rewrite <- Hchecks.
    + intros [-> Hvalid]. by rewrite (proj2 Hchecks Hvalid).
  - split; [done|]. intros [-> Hvalid]. apply telemetry_interval in Hvalid as (d & Hd & _). congruence.
Qed.

Lemma Telemetry_defaults_idem t : Telemetry_defaults (Telemetry_defaults t) = Telemetry_defaults t.
Proof.
  destruct t as [name res otlp [en ratio] [men interval]]. unfold Telemetry_defaults; simpl.
  destruct (decide (name = "")), (decide (interval = "")); subst; simpl;
    rewrite ?(bool_decide_eq_false_2 (name = "")), ?(bool_decide_eq_false_2 (interval = "")) by done;
    done.
Qed.

(** Telemetry validation fills in exactly the documented defaults (service name
    dockauthz, sample ratio 1, export interval 30s) and accepts exactly the documented
    settings, in whatever order Go enumerates the headers. *)
Theorem Telemetry_Validate_spec t t' :
  Telemetry_Validate t = (t', None) ↔ t' = Telemetry_defaults t ∧ ValidTelemetry t'.
Proof. apply Telemetry_Validate_None. Qed.
End validate.
