(* ===== verification/ErrorLog.v ===== *)
(** * Package telemetry: the handler of export errors

    internal/telemetry/setup.go, the handler that [Setup] installs with
    otel.SetErrorHandler.  Exporters call it from any number of goroutines; it reads the
    clock and an atomic integer, and admits at most one line a minute.  Each call advances
    by one atomic action at a time, interleaved with the others in any order; the logger
    reads the clock again when it writes the line. *)
From stdpp Require Import relations.
From S2P Require Import Prelude.

(** ** Data *)
Definition otelErrorLogInterval : Z := 60.

(** Where a call of the handler stands, with its local variables. *)
Inductive call :=
| Called
| Clocked (now : Z)                  (* after time.Now().Unix() *)
| Loaded (now previous : Z)          (* after last.Load() *)
| Due (now previous : Z)             (* after the first half of the condition *)
| Won (now : Z)                      (* after the CompareAndSwap *)
| Returned.

(** A line of the log: when it was written, and the [now] of the call that wrote it, which
    the line does not show. *)
Record line := mkLine { line_time : Z; line_now : Z }.

(** The atomic integer [last], the calls so far, and the lines that were logged. *)
Record State := mkState { st_last : Z; st_calls : list call; st_logged : list line }.
Definition initial : State := mkState 0 [] [].

(** ** Steps *)

(** The next action of a call, when the clock shows [clock]: the new value of [last], what
    becomes of the call, and what it logs. *)
Definition advance (clock last : Z) (c : call) : Z * call * list line :=
  match c with
  | Called => (last, Clocked clock, [])
  | Clocked now => (last, Loaded now last, [])
  | Loaded now previous =>
      (last, if (otelErrorLogInterval <=? wrap64 (now - previous))%Z then Due now previous else Returned, [])
  | Due now previous => if last == previous then (now, Won now, []) else (last, Returned, [])
  | Won now => (last, Returned, [mkLine clock now])
  | Returned => (last, Returned, [])
  end.

(** The clock may jump either way, but shows a Unix time between 1970 and the far future. *)
Definition clock_range (clock : Z) : Prop := (0 <= clock < 2 ^ 62)%Z.

Inductive step : State → State → Prop :=
| step_call last calls logged :
    step (mkState last calls logged) (mkState last (calls ++ [Called]) logged)
| step_advance i c clock last calls logged last' c' out :
    calls !! i = Some c → clock_range clock → advance clock last c = (last', c', out) →
    step (mkState last calls logged) (mkState last' (<[i := c']> calls) (logged ++ out)).

Definition reachable : State → Prop := rtc step initial.

(** ** The invariant *)

(** The readings of the clock with which calls were admitted: those of the lines, and those
    of calls that have yet to write theirs. *)
Definition pending (c : call) : list Z := match c with Won now => [now] | _ => [] end.
Definition winners (st : State) : list Z := (line_now <$> st_logged st) ++ (st_calls st ≫= pending).

(** Times that are an interval apart. *)
Definition Spread (times : list Z) : Prop :=
  NoDup times ∧ ∀ t t', t ∈ times → t' ∈ times → t ≠ t' → (otelErrorLogInterval <= Z.abs (t - t'))%Z.

(** What the local variables of a call tell about [last]. *)
Definition call_ok (last : Z) (c : call) : Prop :=
  match c with
  | Called | Won _ | Returned => True
  | Clocked now => clock_range now
  | Loaded now previous => clock_range now ∧ (0 <= previous <= last)%Z
  | Due now previous => (now < 2 ^ 62)%Z ∧ (0 <= previous <= last)%Z ∧ (previous + otelErrorLogInterval <= now)%Z
  end.

Record Inv (st : State) : Prop := {
  inv_range : clock_range (st_last st);
  inv_spread : Spread (winners st);
  inv_latest : ∀ t, t ∈ winners st → (t <= st_last st)%Z;
  inv_last : st_last st = 0%Z ∨ st_last st ∈ winners st;
  inv_calls : ∀ i c, st_calls st !! i = Some c → call_ok (st_last st) c
}.

#[export] Instance Spread_proper : Proper ((≡ₚ) ==> iff) Spread.
Proof.
  intros l k Hperm. unfold Spread. rewrite Hperm. by setoid_rewrite Hperm.
Qed.

(** A later time may join. *)
Lemma Spread_cons now last times :
  Spread times → (∀ t, t ∈ times → (t <= last)%Z) → (last + otelErrorLogInterval <= now)%Z →
  Spread (now :: times).
Proof.
  unfold otelErrorLogInterval. intros [Hnd Hgap] Hlatest Hnow. split.
  - apply NoDup_cons. split; [|done]. intros Hin%Hlatest. lia.
  - intros t t' Ht Ht' Hne. apply elem_of_cons in Ht as [->|Ht], Ht' as [->|Ht'].
    + done.
    + apply Hlatest in Ht'. unfold otelErrorLogInterval. lia.
    + apply Hlatest in Ht. unfold otelErrorLogInterval. lia.
    + by apply Hgap.
Qed.

Lemma call_ok_mono last last' c : (last <= last')%Z → call_ok last c → call_ok last' c.
Proof. intros Hle. destruct c; cbn; intuition lia. Qed.

(** What an action does to the winners. *)
Lemma winners_advance last last' calls logged i c c' out :
  calls !! i = Some c →
  winners (mkState last' (<[i := c']> calls) (logged ++ out)) ++ pending c ≡ₚ
  ((line_now <$> out) ++ pending c') ++ winners (mkState last calls logged).
Proof.
  intros Hi. unfold winners; cbn [st_logged st_calls]. rewrite fmap_app.
  rewrite <- (take_drop_middle _ _ _ Hi) at 2.
  rewrite insert_take_drop by (by eapply lookup_lt_Some).
  rewrite !bind_app, !bind_cons, <- !app_assoc. solve_Permutation.
Qed.

Lemma log_initial : Inv initial.
Proof.
  split; cbn; [unfold clock_range; lia| |by intros ? ?%not_elem_of_nil|by left|done].
  split; [constructor|]. by intros ? ? ?%not_elem_of_nil.
Qed.

(** A call that changes nothing but its own variables, or logs what it had won. *)
Lemma Inv_local last calls logged i c c' out :
  Inv (mkState last calls logged) → calls !! i = Some c → pending c = (line_now <$> out) ++ pending c' →
  call_ok last c' → Inv (mkState last (<[i := c']> calls) (logged ++ out)).
Proof.
  intros [Hrange Hspread Hlatest Hlast Hcalls] Hi Hout Hok.
  assert (Hperm : winners (mkState last (<[i := c']> calls) (logged ++ out)) ≡ₚ
    winners (mkState last calls logged)).
  { apply (Permutation_app_inv_l (pending c)). rewrite Permutation_app_comm.
    rewrite (winners_advance last last calls logged i c c' out Hi). by rewrite Hout. }
  split; cbn [st_last st_calls].
  - done.
  - by rewrite Hperm.
  - intros t. rewrite Hperm. apply Hlatest.
  - by rewrite Hperm.
  - intros j d [(<- & <- & _)|[_ Hd]]%list_lookup_insert_Some; [done|]. by eapply Hcalls.
Qed.

Lemma log_step st st' : Inv st → step st st' → Inv st'.
Proof.
  intros Hinv Hstep. destruct Hstep as [last calls logged|i c clock last calls logged last' c' out Hi Hclock Hadv].
  - destruct Hinv as [Hrange Hspread Hlatest Hlast Hcalls].
    assert (Hw : winners (mkState last (calls ++ [Called]) logged) = winners (mkState last calls logged)).
    { unfold winners; cbn. rewrite bind_app; cbn. by rewrite app_nil_r. }
    split; cbn [st_last st_calls]; rewrite ?Hw; [done..|].
    intros i c [Hc|[_ [_ <-]%list_lookup_singleton_Some]]%lookup_app_Some; [by eapply Hcalls|done].
  - pose proof (inv_calls _ Hinv _ _ Hi) as Hok. pose proof (inv_range _ Hinv) as Hrange.
    cbn in Hok, Hrange. destruct c as [|now|now previous|now previous|now|]; cbn in Hadv.
    + injection Hadv as <- <- <-. by eapply Inv_local.
    + injection Hadv as <- <- <-. eapply Inv_local; [done..|]. cbn. cbn in Hok. unfold clock_range in *. lia.
    + injection Hadv as <- <- <-. cbn in Hok. unfold clock_range in *.
      rewrite wrap64_id by lia. destruct (Z.leb_spec otelErrorLogInterval (now - previous));
        eapply Inv_local; try done. cbn. lia.
    + case_bool_decide as Hlast; injection Hadv as <- <- <-; [|by eapply Inv_local].
      cbn in Hok. subst previous. destruct Hinv as [_ Hspread Hlatest _ Hcalls].
      pose proof (winners_advance last now calls logged i _ (Won now) [] Hi) as Hperm.
      cbn [pending app fmap list_fmap] in Hperm. rewrite app_nil_r in Hperm.
      assert (Hle : (last <= now)%Z) by (unfold otelErrorLogInterval in Hok; lia).
      split; cbn [st_last st_calls].
      * unfold clock_range. lia.
      * rewrite Hperm. apply (Spread_cons now last); [done..|lia].
      * intros t. rewrite Hperm. intros [->|Ht%Hlatest]%elem_of_cons; [lia|cbn in Ht; lia].
      * right. rewrite Hperm. left.
      * intros j d [(<- & <- & _)|[_ Hd]]%list_lookup_insert_Some; [done|].
        eapply call_ok_mono; [exact Hle|]. by eapply Hcalls.
    + injection Hadv as <- <- <-. by eapply Inv_local.
    + injection Hadv as <- <- <-. by eapply Inv_local.
Qed.

Lemma log_reachable st : reachable st → Inv st.
Proof.
  unfold reachable. intros Hsteps. pose proof log_initial as Hinv. revert Hinv.
  induction Hsteps as [|x y z Hstep _ IH]; [done|]. intros Hinv. by eapply IH, log_step.
Qed.

(** Written within [delay] seconds of the reading that admitted it. *)
Definition prompt (delay : Z) (l : line) : Prop := (line_now l <= line_time l <= line_now l + delay)%Z.

(** The calls that write the lines were admitted a minute apart. *)
Lemma lines_spread st : reachable st → Spread (line_now <$> st_logged st).
Proof.
  intros [_ [Hnd Hgap] _ _ _]%log_reachable. unfold winners in Hnd, Hgap. split.
  - by apply NoDup_app in Hnd as [? _].
  - intros t t' Ht Ht'. apply Hgap; apply elem_of_app; by left.
Qed.


(** ** Example: two errors at once, of which one is logged *)
Definition run_step (st : State) (choice : nat * Z) : State :=
  match st_calls st !! choice.1 with
  | None => st
  | Some c => let '(last, c, out) := advance choice.2 (st_last st) c in
              mkState last (<[choice.1 := c]> (st_calls st)) (st_logged st ++ out)
  end.
Definition two_calls : State := mkState 0 [Called; Called] [].
Definition raced : State :=
  foldl run_step two_calls [(0, 1000%Z); (1, 1000%Z); (0, 1000%Z); (1, 1000%Z); (0, 1000%Z); (1, 1000%Z); (0, 1000%Z);
    (1, 1000%Z); (0, 1001%Z)].
(** The first call wins at 1000 and is held up until 1060, when the second one wins too. *)
Definition held_up : State :=
  foldl run_step two_calls [(0, 1000%Z); (0, 1000%Z); (0, 1000%Z); (0, 1000%Z);
    (1, 1060%Z); (1, 1060%Z); (1, 1060%Z); (1, 1060%Z); (1, 1060%Z); (0, 1060%Z)].

Lemma run_reachable st choices :
  reachable st → Forall (λ choice, clock_range choice.2) choices → reachable (foldl run_step st choices).
Proof.
  intros Hst Hall. revert st Hst. induction Hall as [|[i clock] choices Hclock _ IH]; intros st Hst; [done|].
  cbn [foldl]. apply IH. unfold run_step; cbn [fst snd].
  destruct (st_calls st !! i) as [c|] eqn:Hi; [|done].
  destruct (advance clock (st_last st) c) as [[last c'] out] eqn:Hadv.
  eapply rtc_r; [exact Hst|]. destruct st. by eapply step_advance.
Defined.

Lemma two_calls_reachable : reachable two_calls.
Proof. eapply rtc_l; [apply step_call|]. eapply rtc_l; [apply step_call|apply rtc_refl]. Defined.
Lemma raced_reachable : reachable raced.
Proof. apply run_reachable; [exact two_calls_reachable|]. repeat constructor; vm_compute; congruence. Defined.
Lemma held_up_reachable : reachable held_up.
Proof. apply run_reachable; [exact two_calls_reachable|]. repeat constructor; vm_compute; congruence. Defined.

(** The limit is on the readings: two lines can be written at one time. *)
Lemma late_line : reachable held_up ∧ st_logged held_up = [mkLine 1060 1060; mkLine 1060 1000].
Proof. split; [exact held_up_reachable|vm_compute; reflexivity]. Qed.

