(* ===== verification/Setup.v ===== *)
(** * Package telemetry: set-up and shutdown

    internal/telemetry/setup.go: what [Setup] configures from the telemetry section of the
    policy, and [Runtime.Shutdown].  The OTLP exporters are the class [Exporters]; the
    error handler that Setup installs is in [ErrorLog]. *)
From S2P Require Import Prelude GoString GoTime ConfigNode ConfigTelemetry.

(** ** Data *)
Inductive credentials := TLS (min_version : Z) | Insecure.
(** The options of the exporter packages; of two of a kind the later one counts. *)
Inductive option_ :=
| WithEndpoint (endpoint : string)
| WithEndpointURL (url : string)
| WithHeaders (headers : gmap string string)
| WithTimeout (timeout : Z)
| WithTLSCredentials (creds : credentials)
| WithTLSClientConfig (min_version : Z).
Definition VersionTLS12 : Z := 0x0303.
Definition exportTimeout : Z := 3 * 1000000000.

(** The constructors of otlptracegrpc, otlptracehttp, otlpmetricgrpc and otlpmetrichttp. *)
Class Exporters := {
  SpanExporter : Type;
  MetricExporter : Type;
  tg_New : list option_ → option SpanExporter;
  th_New : list option_ → option SpanExporter;
  mg_New : list option_ → option MetricExporter;
  mh_New : list option_ → option MetricExporter
}.

Section Setup.
Context `{!MapRange, !Exporters}.

Record TracerProvider := mkTracerProvider {
  tracer_resource : list (string * string);
  tracer_ratio : float64;
  tracer_exporter : SpanExporter
}.
Record MeterProvider := mkMeterProvider {
  meter_resource : list (string * string);
  meter_interval : Z;
  meter_exporter : MetricExporter
}.
(** The observer uses the providers, or does nothing where there is none. *)
Record Runtime := mkRuntime {
  Runtime_traces : ptr TracerProvider;
  Runtime_metrics : ptr MeterProvider
}.

(** ** Exporters *)
Definition grpc_options (c : OTLP) : list option_ :=
  [WithEndpoint (OTLP_Endpoint c); WithHeaders (OTLP_Headers c); WithTimeout exportTimeout;
   WithTLSCredentials (TLS VersionTLS12)]
  ++ (if OTLP_Insecure c then [WithTLSCredentials Insecure] else []).
Definition http_options (c : OTLP) (path : string) : list option_ :=
  let scheme := if OTLP_Insecure c then "http://" else "https://" in
  [WithEndpointURL (scheme +:+ OTLP_Endpoint c +:+ path); WithHeaders (OTLP_Headers c);
   WithTimeout exportTimeout]
  ++ (if negb (OTLP_Insecure c) then [WithTLSClientConfig VersionTLS12] else []).
Definition traceExporter (c : OTLP) : option SpanExporter :=
  if OTLP_Protocol c == "grpc" then tg_New (grpc_options c) else th_New (http_options c "/v1/traces").
Definition metricExporter (c : OTLP) : option MetricExporter :=
  if OTLP_Protocol c == "grpc" then mg_New (grpc_options c) else mh_New (http_options c "/v1/metrics").

(** ** Setup *)
Definition attrs (t : Telemetry) (version : string) : list (string * string) :=
  [("service.name", Telemetry_ServiceName t); ("service.version", version)]
  ++ range (Telemetry_Resource t).

(** The traces provider, and the errors given to otel.Handle; the sample ratio is read
    through its pointer. *)
Definition setup_traces (t : Telemetry) (res : list (string * string)) :
    outcome (ptr TracerProvider * list error) :=
  if Traces_Enabled (Telemetry_Traces t) then
    match traceExporter (Telemetry_OTLP t) with
    | None => Return (None, ["trace exporter initialization failed"])
    | Some exporter =>
        match Traces_SampleRatio (Telemetry_Traces t) with
        | None => Panic
        | Some ratio => Return (Some (mkTracerProvider res ratio exporter), [])
        end
    end
  else Return (None, []).
Definition setup_metrics (t : Telemetry) (res : list (string * string)) :
    ptr MeterProvider * list error :=
  if Metrics_Enabled (Telemetry_Metrics t) then
    match metricExporter (Telemetry_OTLP t) with
    | None => (None, ["metric exporter initialization failed"])
    | Some exporter =>
        let interval := default 0%Z (ParseDuration (Metrics_ExportInterval (Telemetry_Metrics t))) in
        (Some (mkMeterProvider res interval exporter), [])
    end
  else (None, []).

(** The section afterwards, the errors given to otel.Handle, and the runtime. *)
Definition Setup (cfg : ptr Telemetry) (version : string) :
    outcome (ptr Telemetry * list error * result Runtime) :=
  match cfg with
  | None => Return (None, [], Ok (mkRuntime None None))
  | Some t =>
      match Telemetry_Validate t with
      | (t, Some e) => Return (Some t, [], Err e)
      | (t, None) =>
          let res := attrs t version in
          match setup_traces t res with
          | Panic => Panic
          | Return (traces, handled) =>
              let '(metrics, handled') := setup_metrics t res in
              Return (Some t, handled ++ handled', Ok (mkRuntime traces metrics))
          end
      end
  end.

(** ** Shutdown *)
Definition errors_Join (errs : list error) : option error :=
  match errs with [] => None | _ => Some (Join (byte 10) errs) end.
(** Which providers were flushed, and the error, given whether flushing each one works. *)
Definition Runtime_Shutdown (r : Runtime) (traces_ok metrics_ok : bool) : list string * option error :=
  let errs := match Runtime_traces r with
              | Some _ => if negb traces_ok then ["trace shutdown failed"] else [] | None => [] end in
  let errs := errs ++ match Runtime_metrics r with
              | Some _ => if negb metrics_ok then ["metric shutdown failed"] else [] | None => [] end in
  ((if bool_decide (is_Some (Runtime_traces r)) then ["traces"] else [])
   ++ (if bool_decide (is_Some (Runtime_metrics r)) then ["metrics"] else []), errors_Join errs).

(** ** Specification *)

(** The headers, which carry credentials, leave the host encrypted. *)
Definition Encrypted (opts : list option_) : Prop :=
  (∃ before, opts = before ++ [WithTLSCredentials (TLS VersionTLS12)]) ∨
  (∃ url, WithEndpointURL ("https://" +:+ url) ∈ opts ∧ WithTLSClientConfig VersionTLS12 ∈ opts ∧
     ∀ url', WithEndpointURL url' ∈ opts → url' = "https://" +:+ url).

(** An exporter of [new_grpc] or [new_http], as the section [c] asks for. *)
Definition Exports {E} (new_grpc new_http : list option_ → option E) (c : OTLP) (exporter : E) : Prop :=
  ∃ opts, (OTLP_Protocol c = "grpc" ∧ new_grpc opts = Some exporter ∨
           OTLP_Protocol c = "http" ∧ new_http opts = Some exporter) ∧
    WithHeaders (OTLP_Headers c) ∈ opts ∧ WithTimeout exportTimeout ∈ opts ∧
    (OTLP_Insecure c = false → Encrypted opts).

(** A resource that names the service as configured, once. *)
Definition Identifies (res : list (string * string)) (t : Telemetry) (version : string) : Prop :=
  NoDup res.*1 ∧ ("service.name", Telemetry_ServiceName t) ∈ res ∧ ("service.version", version) ∈ res ∧
  ∀ key value, Telemetry_Resource t !! key = Some value → (key, value) ∈ res.

(** The runtime of a valid section [t]. *)
Record Configures (t : Telemetry) (version : string) (handled : list error) (r : Runtime) : Prop := {
  conf_traces : match Runtime_traces r with
    | Some p => Traces_Enabled (Telemetry_Traces t) = true ∧ Identifies (tracer_resource p) t version ∧
        Traces_SampleRatio (Telemetry_Traces t) = Some (tracer_ratio p) ∧ unit_interval (tracer_ratio p) ∧
        Exports tg_New th_New (Telemetry_OTLP t) (tracer_exporter p)
    | None => Traces_Enabled (Telemetry_Traces t) = true → "trace exporter initialization failed" ∈ handled
    end;
  conf_metrics : match Runtime_metrics r with
    | Some p => Metrics_Enabled (Telemetry_Metrics t) = true ∧ Identifies (meter_resource p) t version ∧
        ParseDuration (Metrics_ExportInterval (Telemetry_Metrics t)) = Some (meter_interval p) ∧
        (0 < meter_interval p)%Z ∧ Exports mg_New mh_New (Telemetry_OTLP t) (meter_exporter p)
    | None => Metrics_Enabled (Telemetry_Metrics t) = true → "metric exporter initialization failed" ∈ handled
    end
}.

(** ** Lemmas *)
Lemma Encrypted_grpc c : OTLP_Insecure c = false → Encrypted (grpc_options c).
Proof.
  intros Hsecure. left. unfold grpc_options. rewrite Hsecure, app_nil_r.
  by exists [WithEndpoint (OTLP_Endpoint c); WithHeaders (OTLP_Headers c); WithTimeout exportTimeout].
Qed.

Lemma Encrypted_http c path : OTLP_Insecure c = false → Encrypted (http_options c path).
Proof.
  intros Hsecure. right. exists (OTLP_Endpoint c +:+ path). unfold http_options. rewrite Hsecure.
  cbn [negb]. split_and!; [left|do 3 right; left|].
  intros url'. rewrite elem_of_app, !elem_of_cons. intros [[[= ->]|[?|[?|[]%not_elem_of_nil]]]|[?|[]%not_elem_of_nil]]; done.
Qed.

Lemma Exports_exporter {E} (new_grpc new_http : list option_ → option E) c path exporter :
  OTLP_Protocol c ∈ [""; "grpc"; "http"] → OTLP_Protocol c ≠ "" →
  (if OTLP_Protocol c == "grpc" then new_grpc (grpc_options c) else new_http (http_options c path))
    = Some exporter →
  Exports new_grpc new_http c exporter.
Proof.
  intros Hprotocol Hne. case_bool_decide as Hgrpc; intros Hnew.
  - exists (grpc_options c). split; [by left|]. split_and!; [right; left|do 2 right; left|apply Encrypted_grpc].
  - exists (http_options c path). split; [right; split; [set_solver|done]|].
    split_and!; [right; left|do 2 right; left|apply Encrypted_http].
Qed.

Lemma Identifies_attrs t version : ValidTelemetry t → Identifies (attrs t version) t version.
Proof.
  intros Hvalid. unfold Identifies, attrs. split_and!; [|left|right; left|].
  - cbn [app fmap list_fmap fst]. apply NoDup_cons. split; [|apply NoDup_cons; split].
    + intros [[=]|Hin]%elem_of_cons. apply list_elem_of_fmap in Hin as ([k v] & Hk & Hin%elem_of_range).
      cbn in Hk; subst k. by rewrite (telemetry_name _ Hvalid) in Hin.
    + intros Hin. apply list_elem_of_fmap in Hin as ([k v] & Hk & Hin%elem_of_range).
      cbn in Hk; subst k. by rewrite (telemetry_version _ Hvalid) in Hin.
    + apply range_NoDup_fst.
  - intros key value Hin%elem_of_range. by do 2 right.
Qed.

Lemma setup_traces_spec t version :
  ValidTelemetry t → ∃ p handled, setup_traces t (attrs t version) = Return (p, handled) ∧
  match p with
  | Some p => Traces_Enabled (Telemetry_Traces t) = true ∧ Identifies (tracer_resource p) t version ∧
      Traces_SampleRatio (Telemetry_Traces t) = Some (tracer_ratio p) ∧ unit_interval (tracer_ratio p) ∧
      Exports tg_New th_New (Telemetry_OTLP t) (tracer_exporter p)
  | None => Traces_Enabled (Telemetry_Traces t) = true → "trace exporter initialization failed" ∈ handled
  end.
Proof.
  intros Hvalid. unfold setup_traces. destruct (Traces_Enabled _) eqn:Henabled; [|by eexists _, _].
  destruct (traceExporter _) as [e|] eqn:Hexporter; [|eexists _, _; split; [done|left]].
  destruct (telemetry_ratio _ Hvalid) as (ratio & Hratio & Hunit). rewrite Hratio.
  destruct (telemetry_enabled _ Hvalid) as [_ Hprotocol]; [by left|].
  eexists _, _. split; [done|]. cbn. split_and!; [done|by apply Identifies_attrs|done|apply Hunit..|].
  eapply Exports_exporter; [apply (telemetry_protocol _ Hvalid)|done|exact Hexporter].
Qed.

Lemma setup_metrics_spec t version :
  ValidTelemetry t → let '(p, handled) := setup_metrics t (attrs t version) in
  match p with
  | Some p => Metrics_Enabled (Telemetry_Metrics t) = true ∧ Identifies (meter_resource p) t version ∧
      ParseDuration (Metrics_ExportInterval (Telemetry_Metrics t)) = Some (meter_interval p) ∧
      (0 < meter_interval p)%Z ∧ Exports mg_New mh_New (Telemetry_OTLP t) (meter_exporter p)
  | None => Metrics_Enabled (Telemetry_Metrics t) = true → "metric exporter initialization failed" ∈ handled
  end.
Proof.
  intros Hvalid. unfold setup_metrics. destruct (Metrics_Enabled _) eqn:Henabled; [|done].
  destruct (metricExporter _) as [e|] eqn:Hexporter; [|intros _; left].
  destruct (telemetry_interval _ Hvalid) as (d & Hd & Hpos). rewrite Hd.
  destruct (telemetry_enabled _ Hvalid) as [_ Hprotocol]; [by right|].
  cbn. split_and!; [done|by apply Identifies_attrs|done|done|].
  eapply Exports_exporter; [apply (telemetry_protocol _ Hvalid)|done|exact Hexporter].
Qed.

Lemma Setup_valid t version :
  ValidTelemetry (Telemetry_defaults t) →
  ∃ handled r, Setup (Some t) version = Return (Some (Telemetry_defaults t), handled, Ok r) ∧
    Configures (Telemetry_defaults t) version handled r.
Proof.
  intros Hvalid. unfold Setup.
  rewrite (proj2 (Telemetry_Validate_None t (Telemetry_defaults t)) (conj eq_refl Hvalid)).
  destruct (setup_traces_spec _ version Hvalid) as (traces & handled & -> & Htraces).
  pose proof (setup_metrics_spec _ version Hvalid) as Hmetrics.
  destruct (setup_metrics _ _) as [metrics handled']. eexists _, _. split; [done|]. split; cbn.
  - destruct traces; [done|]. intros Henabled. apply elem_of_app. left. by apply Htraces.
  - destruct metrics; [done|]. intros Henabled. apply elem_of_app. right. by apply Hmetrics.
Qed.

(** C20. Setting up telemetry never panics, and fails exactly on an invalid section, never
    because of an exporter: otherwise each enabled signal has a provider that names the
    service once, samples or exports at the configured valid rate, and sends its headers
    encrypted unless the section says otherwise; or the failed exporter was reported. *)
Theorem Setup_spec t version :
  let t' := Telemetry_defaults t in
  (∀ e, Telemetry_Validate t = (t', Some e) → Setup (Some t) version = Return (Some t', [], Err e)) ∧
  (ValidTelemetry t' →
    ∃ handled r, Setup (Some t) version = Return (Some t', handled, Ok r) ∧ Configures t' version handled r) ∧
  (∀ t1 handled r, Setup (Some t) version = Return (t1, handled, Ok r) → ValidTelemetry t') ∧
  Setup (Some t) version ≠ Panic.
Proof.
  cbv zeta.
  split_and!; [|apply Setup_valid| |].
  - intros e He. unfold Setup. by rewrite He.
  - intros t1 handled r. unfold Setup. destruct (Telemetry_Validate t) as [t2 [e|]] eqn:Hval; [done|].
    by apply Telemetry_Validate_None in Hval as [-> ?].
  - destruct (Telemetry_Validate t) as [t2 [e|]] eqn:Hval; [unfold Setup; by rewrite Hval|].
    apply Telemetry_Validate_None in Hval as [-> Hvalid].
    destruct (Setup_valid _ version Hvalid) as (? & ? & -> & _). done.
Qed.

Lemma Runtime_Shutdown_spec r traces_ok metrics_ok :
  (Runtime_Shutdown r traces_ok metrics_ok).2 = None ↔
  (is_Some (Runtime_traces r) → traces_ok = true) ∧ (is_Some (Runtime_metrics r) → metrics_ok = true).
Proof.
  unfold Runtime_Shutdown; cbn [snd].
  destruct (Runtime_traces r), (Runtime_metrics r), traces_ok, metrics_ok; cbn; split;
    intuition (try done); try (by destruct H); by unfold is_Some in *; naive_solver.
Qed.
End Setup.
