(* ===== verification/Observer.v ===== *)
(** * Package telemetry: the observer, and effects

    internal/telemetry/observer.go.  Code that observes, logs or talks to Docker is
    written in the state and output monad [M W]: it threads the world [W] (the Docker
    daemon) and collects the calls it makes to the tracer, the meters and the logger.
    OpenTelemetry itself is the class [Otel]. *)
From S2P Require Import Prelude GoString.

(** ** OpenTelemetry and the trace of calls to it *)
Inductive attribute_value := VString (s : string) | VStrings (l : list string).
Abbreviation attributes := (list (string * attribute_value)) (only parsing).

(** Contexts, and how the global propagator and the tracer derive them. *)
Class Otel := {
  Ctx : Type;
  background : Ctx;
  SpanContext_IsValid : Ctx → bool;
  Extract : Ctx → list (string * string) → Ctx;
  Inject : Ctx → gmap string string → gmap string string;
  Tracer_Start : Ctx → string → attributes → Ctx
}.

Inductive event `{!Otel} :=
| SpanStart (ctx : Ctx) (name : string) (attrs : attributes)
| SpanSetAttributes (ctx : Ctx) (attrs : attributes)
| SpanEnd (ctx : Ctx)
| MetricRecord (ctx : Ctx) (instrument : string) (attrs : attributes)
| MetricAdd (ctx : Ctx) (instrument : string) (attrs : attributes)
| LogInfo (ctx : Ctx) (msg : string) (attrs : attributes).

(** ** The monad *)
Definition M `{!Otel} (W A : Type) : Type := W → A * W * list event.
#[export] Instance M_ret `{!Otel} W : MRet (M W) := λ A a w, (a, w, []).
#[export] Instance M_bind `{!Otel} W : MBind (M W) := λ A B k m w,
  let '(a, w1, t1) := m w in let '(b, w2, t2) := k a w1 in (b, w2, t1 ++ t2).
Definition emit `{!Otel} {W} (e : event) : M W () := λ w, ((), w, [e]).
Arguments M_ret {_ _} _ _ _ /.
Arguments M_bind {_ _} _ _ _ _ _ /.

(** [lift f]: a call into the world that makes no calls to the observer. *)
Definition lift `{!Otel} {W A} (f : W → A * W) : M W A := λ w, let '(a, w) := f w in (a, w, []).

(** What a computation returns, leaves behind and does. *)
Definition result_of `{!Otel} {W A} (m : M W A) (w : W) : A := (m w).1.1.
Definition world_of `{!Otel} {W A} (m : M W A) (w : W) : W := (m w).1.2.
Definition trace_of `{!Otel} {W A} (m : M W A) (w : W) : list event := (m w).2.

(** ** Observer *)
Inductive instrument_kind := Int64Counter | Float64Histogram.
Record instrument := mkInstrument {
  instrument_type : instrument_kind;
  instrument_name : string;
  instrument_unit : string
}.
(** The tracer and the meter are known by the name of their scope. *)
Record Observer := mkObserver {
  Observer_tracer : string;
  Observer_decisions : instrument;
  Observer_errors : instrument;
  Observer_duration : instrument;
  Observer_lookupDuration : instrument;
  Observer_lookups : instrument;
  Observer_internal : instrument
}.
Definition NewObserver : Observer :=
  let d := mkInstrument Int64Counter "dockauthz_authorization_decisions_total" "" in
  let e := mkInstrument Int64Counter "dockauthz_authorization_errors_total" "" in
  let t := mkInstrument Float64Histogram "dockauthz_authorization_duration_seconds" "s" in
  let ld := mkInstrument Float64Histogram "dockauthz_docker_lookup_duration_seconds" "s" in
  let l := mkInstrument Int64Counter "dockauthz_docker_lookups_total" "" in
  let i := mkInstrument Int64Counter "dockauthz_internal_requests_total" "" in
  mkObserver "github.com/swarm-deploy/dockauthz" d e t ld l i.

(** The program has one observer; an event names its instrument. *)
Definition durations : string := instrument_name (Observer_duration NewObserver).
Definition decisions : string := instrument_name (Observer_decisions NewObserver).
Definition errors : string := instrument_name (Observer_errors NewObserver).
Definition lookup_durations : string := instrument_name (Observer_lookupDuration NewObserver).
Definition lookups : string := instrument_name (Observer_lookups NewObserver).
Definition internals : string := instrument_name (Observer_internal NewObserver).

(** The names are distinct, so that a report tells the instruments apart, and made of
    lower-case letters and underscores, which every meter accepts: no error is lost. *)
Lemma NewObserver_names :
  NoDup [durations; decisions; errors; lookup_durations; lookups; internals] ∧
  Forall (λ name, (String.length name <= 255)%nat ∧
            str_all (λ c, is_lower c || Ascii.eqb c "_") name = true)
    [durations; decisions; errors; lookup_durations; lookups; internals].
Proof. split; [by apply (bool_decide_unpack _)|]. by apply (bool_decide_unpack _). Qed.

Section Observer.
Context `{!Otel} {W : Type}.

(** ctx, span := o.Start(ctx, name, attrs); defer span.End(); body. *)
Definition with_span {A} (ctx : Ctx) (name : string) (attrs : attributes) (body : Ctx → M W A) : M W A :=
  emit (SpanStart ctx name attrs) ≫= λ _,
  let ctx := Tracer_Start ctx name attrs in
  body ctx ≫= λ a,
  emit (SpanEnd ctx) ≫= λ _,
  mret a.

Definition Observer_Decision (ctx : Ctx) (decision client resource action : string) : M W () :=
  let attrs := [("decision", VString decision); ("resource", VString resource);
                ("action", VString action)] in
  emit (MetricRecord ctx durations attrs) ≫= λ _,
  emit (MetricAdd ctx decisions (attrs ++ [("client", VString client)])).

Definition Observer_Error (ctx : Ctx) (category : string) : M W () :=
  emit (MetricAdd ctx errors [("type", VString category)]).

Definition Observer_Lookup (ctx : Ctx) (resource : string) (err : option error) : M W () :=
  let outcome := match err with Some _ => "error" | None => "success" end in
  emit (MetricRecord ctx lookup_durations [("resource", VString resource)]) ≫= λ _,
  emit (MetricAdd ctx lookups [("resource", VString resource); ("result", VString outcome)]).

Definition Observer_Internal (ctx : Ctx) (decision : string) : M W () :=
  emit (MetricAdd ctx internals [("decision", VString decision)]).
End Observer.

(** ** Laws of the projections *)
Section laws.
Context `{!Otel} {W : Type}.

Lemma result_ret {A} (a : A) w : result_of (mret (M := M W) a) w = a.
Proof. done. Qed.
Lemma world_ret {A} (a : A) w : world_of (mret (M := M W) a) w = w.
Proof. done. Qed.
Lemma trace_ret {A} (a : A) w : trace_of (mret (M := M W) a) w = [].
Proof. done. Qed.
Lemma result_mbind {A B} (m : M W A) (k : A → M W B) w :
  result_of (m ≫= k) w = result_of (k (result_of m w)) (world_of m w).
Proof.
  unfold result_of, world_of, trace_of, mbind, M_bind. destruct (m w) as [[a w1] t1].
  cbn [fst snd]. by destruct (k a w1) as [[b w2] t2].
Qed.
Lemma world_mbind {A B} (m : M W A) (k : A → M W B) w :
  world_of (m ≫= k) w = world_of (k (result_of m w)) (world_of m w).
Proof.
  unfold result_of, world_of, trace_of, mbind, M_bind. destruct (m w) as [[a w1] t1].
  cbn [fst snd]. by destruct (k a w1) as [[b w2] t2].
Qed.
Lemma trace_mbind {A B} (m : M W A) (k : A → M W B) w :
  trace_of (m ≫= k) w = trace_of m w ++ trace_of (k (result_of m w)) (world_of m w).
Proof.
  unfold result_of, world_of, trace_of, mbind, M_bind. destruct (m w) as [[a w1] t1].
  cbn [fst snd]. by destruct (k a w1) as [[b w2] t2].
Qed.
Lemma result_emit e w : result_of (emit (W := W) e) w = ().
Proof. done. Qed.
Lemma world_emit e w : world_of (emit (W := W) e) w = w.
Proof. done. Qed.
Lemma trace_emit e w : trace_of (emit (W := W) e) w = [e].
Proof. done. Qed.
End laws.

(** Running a computation: [run] reduces the projections of its binds. *)
Create Rewrite HintDb run.
#[export] Hint Rewrite @result_ret @world_ret @trace_ret @result_mbind @world_mbind @trace_mbind
  @result_emit @world_emit @trace_emit @app_nil_r : run.
Ltac run := autorewrite with run; cbv zeta beta; autorewrite with run.

Section with_span.
Context `{!Otel} {W A : Type}.
Variables (ctx : Ctx) (name : string) (attrs : attributes) (body : Ctx → M W A).
Let inner := Tracer_Start ctx name attrs.

Lemma result_with_span w : result_of (with_span ctx name attrs body) w = result_of (body inner) w.
Proof. unfold with_span. by run. Qed.
Lemma world_with_span w : world_of (with_span ctx name attrs body) w = world_of (body inner) w.
Proof. unfold with_span. by run. Qed.
Lemma trace_with_span w :
  trace_of (with_span ctx name attrs body) w =
  SpanStart ctx name attrs :: trace_of (body inner) w ++ [SpanEnd inner].
Proof. unfold with_span. by run. Qed.
End with_span.
#[export] Hint Rewrite @result_with_span @world_with_span @trace_with_span : run.

(** ** Reports

    The events that make up the report of an authorization decision: its audit record and
    its samples.  Everything else the program does must leave them alone. *)
Definition reports `{!Otel} (e : event) : bool :=
  match e with
  | LogInfo _ _ _ => true
  | MetricRecord _ instrument _ => instrument == durations
  | MetricAdd _ instrument _ => (instrument == decisions) || (instrument == internals)
  | SpanStart _ _ _ | SpanSetAttributes _ _ | SpanEnd _ => false
  end.
Definition reported `{!Otel} (t : list event) : list event := filter (λ e, reports e = true) t.

(** ** What a computation emits and returns *)
Section emits.
Context `{!Otel} {W : Type}.

(** Every event of every run satisfies [P]. *)
Definition emits (P : event → Prop) {A} (m : M W A) : Prop := ∀ w, Forall P (trace_of m w).
(** Every result satisfies [Q]. *)
Definition returns {A} (Q : A → Prop) (m : M W A) : Prop := ∀ w, Q (result_of m w).
(** A property that is not about spans. *)
Definition span_free (P : event → Prop) : Prop :=
  (∀ ctx name attrs, P (SpanStart ctx name attrs)) ∧ (∀ ctx attrs, P (SpanSetAttributes ctx attrs)) ∧
  (∀ ctx, P (SpanEnd ctx)).

Context (P : event → Prop).
Lemma emits_ret {A} (a : A) : emits P (mret a).
Proof. by constructor. Qed.
Lemma emits_emit e : P e → emits P (emit (W := W) e).
Proof. intros He w. by constructor. Qed.
Lemma emits_bind {A B} (m : M W A) (k : A → M W B) : emits P m → (∀ a, emits P (k a)) → emits P (m ≫= k).
Proof. intros Hm Hk w. rewrite trace_mbind. apply Forall_app. split; [apply Hm|apply Hk]. Qed.
Lemma emits_bind_returns {A B} (Q : A → Prop) (m : M W A) (k : A → M W B) :
  emits P m → returns Q m → (∀ a, Q a → emits P (k a)) → emits P (m ≫= k).
Proof. intros Hm HQ Hk w. rewrite trace_mbind. apply Forall_app. split; [apply Hm|apply Hk, HQ]. Qed.
Lemma emits_lift {A} (f : W → A * W) : emits P (lift f).
Proof. intros w. unfold trace_of, lift. destruct (f w). constructor. Qed.
Lemma emits_span {A} ctx name attrs (body : Ctx → M W A) :
  span_free P → (∀ ctx, emits P (body ctx)) → emits P (with_span ctx name attrs body).
Proof.
  intros (Hstart & _ & Hend) Hbody w. rewrite trace_with_span. constructor; [apply Hstart|].
  apply Forall_app. split; [apply Hbody|]. constructor; [apply Hend|constructor].
Qed.

Lemma returns_ret {A} (Q : A → Prop) a : Q a → returns Q (mret a).
Proof. by intros Ha w. Qed.
Lemma returns_bind {A B} (Q : A → Prop) (R : B → Prop) (m : M W A) (k : A → M W B) :
  returns Q m → (∀ a, Q a → returns R (k a)) → returns R (m ≫= k).
Proof. intros Hm Hk w. rewrite result_mbind. apply Hk, Hm. Qed.
Lemma returns_any {A} (m : M W A) : returns (λ _, True) m.
Proof. done. Qed.
Lemma returns_span {A} (Q : A → Prop) ctx name attrs (body : Ctx → M W A) :
  (∀ ctx, returns Q (body ctx)) → returns Q (with_span ctx name attrs body).
Proof. intros Hbody w. rewrite result_with_span. apply Hbody. Qed.
End emits.

(** Code that reports no decision. *)
Definition unreported `{!Otel} (e : event) : Prop := reports e = false.
Abbreviation quiet := (emits unreported).
Lemma unreported_span_free `{!Otel} : span_free unreported.
Proof. done. Qed.
Lemma reported_app `{!Otel} t1 t2 : reported (t1 ++ t2) = reported t1 ++ reported t2.
Proof. apply filter_app. Qed.
Lemma quiet_reported `{!Otel} {W A} (m : M W A) w : quiet m → reported (trace_of m w) = [].
Proof.
  intros Hm. unfold reported. induction (Hm w) as [|e t He _ IH]; [done|].
  rewrite filter_cons_False; [done|]. unfold unreported in He. by rewrite He.
Qed.
Create HintDb quiet.
#[export] Hint Resolve emits_ret emits_bind emits_span emits_lift unreported_span_free : quiet.

(** ** A concrete tracer, whose contexts are the names of the open spans *)
Module Example.
#[export] Instance otel : Otel := {|
  Ctx := list string;
  background := [];
  SpanContext_IsValid ctx := bool_decide (ctx ≠ []);
  Extract ctx headers :=
    match list_find (λ header, header.1 = "traceparent") headers with
    | Some (_, header) => [header.2] | None => ctx end;
  Inject ctx headers := match ctx with span :: _ => <["Traceparent" := span]> headers | [] => headers end;
  Tracer_Start ctx name attrs := name :: ctx
|}.
End Example.
