(* ===== verification/AuditLog.v ===== *)
(** * Package audit: the logger

    internal/audit/audit.go: a slog handler that adds the IDs of the current span to every
    record.  slog.Handler is the class [SlogHandler], implemented by the handler that is
    wrapped and by the wrapper. *)
From S2P Require Import Prelude Observer.

(** slog.Record, and the methods of slog.Handler for handlers of type [L]. *)
Record record := mkRecord { record_msg : string; record_attrs : list (string * string) }.
Abbreviation level := Z (only parsing).
Class SlogHandler `{!Otel} (L : Type) := {
  Enabled : L → Ctx → level → bool;
  Handle : L → Ctx → record → option error;
  WithAttrs : L → list (string * string) → L;
  WithGroup : L → string → L
}.
(** The IDs of a span context, in hexadecimal. *)
Class SpanIDs `{!Otel} := { TraceID : Ctx → string; SpanID : Ctx → string }.

Record handler (L : Type) := mkHandler { next : L }.
Arguments mkHandler {L} next.
Arguments next {L} h.

Section handler.
Context `{!Otel, !SpanIDs} {L : Type} `{!SlogHandler L}.

Definition AddAttrs (attrs : list (string * string)) (r : record) : record :=
  mkRecord (record_msg r) (record_attrs r ++ attrs).
Definition handler_Enabled (h : handler L) (ctx : Ctx) (l : level) : bool := Enabled (next h) ctx l.
Definition handler_Handle (h : handler L) (ctx : Ctx) (r : record) : option error :=
  let r := if SpanContext_IsValid ctx
           then AddAttrs [("trace_id", TraceID ctx); ("span_id", SpanID ctx)] r else r in
  Handle (next h) ctx r.
Definition handler_WithAttrs (h : handler L) (attrs : list (string * string)) : handler L :=
  mkHandler (WithAttrs (next h) attrs).
Definition handler_WithGroup (h : handler L) (name : string) : handler L :=
  mkHandler (WithGroup (next h) name).
#[export] Instance handler_slog : SlogHandler (handler L) := {|
  Enabled := handler_Enabled;
  Handle := handler_Handle;
  WithAttrs := handler_WithAttrs;
  WithGroup := handler_WithGroup
|}.
(** NewLogger, around a JSON handler. *)
Definition NewLogger (json : L) : handler L := mkHandler json.
End handler.

(** ** Specification *)

(** A logger derived by Logger.With and Logger.WithGroup. *)
Inductive derivation := With (attrs : list (string * string)) | Group (name : string).
Definition derive `{!Otel} {L} `{!SlogHandler L} (h : L) (steps : list derivation) : L :=
  foldl (λ h step, match step with With attrs => WithAttrs h attrs | Group name => WithGroup h name end) h steps.

Section correlation.
Context `{!Otel, !SpanIDs} {L : Type} `{!SlogHandler L}.

Definition correlate (ctx : Ctx) (r : record) : record :=
  if SpanContext_IsValid ctx
  then mkRecord (record_msg r) (record_attrs r ++ [("trace_id", TraceID ctx); ("span_id", SpanID ctx)]) else r.

Lemma derive_next (h : handler L) steps : derive h steps = mkHandler (derive (next h) steps).
Proof.
  revert h. induction steps as [|step steps IH]; intros h; [by destruct h|].
  unfold derive in *. cbn [foldl]. rewrite IH. by destruct step.
Qed.

(** However a logger is derived from the audit logger, it handles the records that the
    JSON handler derived in the same way would, each with the IDs of the current span where
    there is one and otherwise unchanged. *)
Theorem audit_correlates (json : L) steps ctx r l :
  Handle (derive (NewLogger json) steps) ctx r = Handle (derive json steps) ctx (correlate ctx r) ∧
  Enabled (derive (NewLogger json) steps) ctx l = Enabled (derive json steps) ctx l.
Proof.
  rewrite derive_next. split; [|done]. cbn. unfold handler_Handle, correlate, AddAttrs. cbn.
  by destruct (SpanContext_IsValid ctx).
Qed.
End correlation.
