(* ===== verification/Operation.v ===== *)
(** * Package operation: the supported Docker API surface

    internal/operation/operation.go.  [Resolve] maps a request line to a normalized
    operation; [Route] is the table of supported requests it implements, and
    [Resolve_spec] says that the two agree on every method and URI. *)
From S2P Require Import Prelude GoString Regexp NetUrl.

(** ** Data *)
Abbreviation Resource := string (only parsing).
Definition ResourceUnknown : Resource := "unknown".
Definition ResourceService : Resource := "service".
Definition ResourceSecret : Resource := "secret".
Definition ResourceTask : Resource := "task".
Definition ResourceNode : Resource := "node".

Abbreviation Action := string (only parsing).
Definition ActionUnknown : Action := "unknown".
Definition ActionList : Action := "list".
Definition ActionInspect : Action := "inspect".
Definition ActionCreate : Action := "create".
Definition ActionUpdate : Action := "update".
Definition ActionDelete : Action := "delete".

Record Operation := mkOperation {
  Operation_Resource : Resource;
  Operation_Action : Action;
  Operation_ID : string;
  Operation_Version : string;
  Operation_Query : Values
}.

(** ^v[1-9][0-9]*\.[0-9]+$ *)
Definition apiVersion : re :=
  Cat (Lit "v") (Cat (Class (in_range "1" "9")) (Cat (Star (Class is_digit))
    (Cat (Lit ".") (Plus (Class is_digit))))).
(** ^[a-zA-Z0-9][a-zA-Z0-9_.-]*$ *)
Definition identifier_byte (c : ascii) : bool := is_alnum c || contains_byte c "_.-".
Definition identifier : re := Cat (Class is_alnum) (Star (Class identifier_byte)).

(** ** Operations *)
Definition Supports (resource : Resource) (action : Action) : bool :=
  if resource == ResourceService then
    (action == ActionList) || (action == ActionInspect) || (action == ActionCreate)
    || (action == ActionUpdate) || (action == ActionDelete)
  else if resource == ResourceSecret then
    (action == ActionList) || (action == ActionInspect) || (action == ActionCreate)
    || (action == ActionDelete)
  else if (resource == ResourceTask) || (resource == ResourceNode) then
    (action == ActionList) || (action == ActionInspect)
  else false.

(** The characters # \ CR LF TAB and space, which a URI may not contain. *)
Definition forbidden_bytes : string :=
  String "#" (String "\" (String (byte 13) (String (byte 10) (String (byte 9) " ")))).

(** The switch on [parts[0]]. *)
Definition resolve_resource (part : string) : option Resource :=
  if part == "services" then Some ResourceService
  else if part == "secrets" then Some ResourceSecret
  else if part == "tasks" then Some ResourceTask
  else if part == "nodes" then Some ResourceNode
  else None.

(** The switch on the number of parts and the method. *)
Definition resolve_action (method : string) (parts : list string) : option (Action * string) :=
  let part i := nth i parts "" in
  if (length parts == 1) && (method == "GET") then Some (ActionList, "")
  else if (length parts == 2) && (part 1 == "create") && (method == "POST")
  then Some (ActionCreate, "")
  else if (length parts == 2) && (method == "GET") then Some (ActionInspect, part 1)
  else if (length parts == 2) && (method == "DELETE") then Some (ActionDelete, part 1)
  else if (length parts == 3) && (part 2 == "update") && (method == "POST")
  then Some (ActionUpdate, part 1)
  else None.

(** An optional API version in front of the resource. *)
Definition resolve_version (parts : list string) : string * list string :=
  match parts with
  | part :: rest =>
      if MatchString apiVersion part then (str_drop 1 part, rest) else ("", parts)
  | [] => ("", parts)
  end.

Definition bad : result Operation := Err "unknown or invalid Docker operation".

Definition Resolve (method uri : string) : result Operation :=
  match ParseRequestURI uri with
  | None => bad
  | Some u =>
      if negb (HasPrefix uri "/") || HasPrefix uri "//" || IsAbs u
         || (URL_Host u != "") || (URL_Fragment u != "")
         || ContainsAny uri forbidden_bytes || contains_byte "%" (EscapedPath u)
      then bad
      else match ParseQuery (URL_RawQuery u) with
      | None => bad
      | Some query =>
          let parts := Split "/" (TrimPrefix (URL_Path u) "/") in
          let '(version, parts) := resolve_version parts in
          if (length parts <? 1)%nat || (3 <? length parts)%nat then bad
          else match resolve_resource (nth 0 parts "") with
          | None => bad
          | Some resource =>
              match resolve_action method parts with
              | None => bad
              | Some (action, id) =>
                  if negb (Supports resource action)
                     || ((action != ActionList) && (action != ActionCreate)
                         && negb (MatchString identifier id))
                  then bad
                  else Ok {| Operation_Resource := resource; Operation_Action := action;
                             Operation_ID := id; Operation_Version := version;
                             Operation_Query := query |}
              end
          end
      end
  end.

(** ** Specification

    The supported requests, as a table of methods and path segments. *)
Inductive collection : string → Resource → Prop :=
| collection_services : collection "services" ResourceService
| collection_secrets : collection "secrets" ResourceSecret
| collection_tasks : collection "tasks" ResourceTask
| collection_nodes : collection "nodes" ResourceNode.

(** The collections whose members can be created and deleted. *)
Definition writable (r : Resource) : Prop := r = ResourceService ∨ r = ResourceSecret.

Inductive Route : string → list string → Resource → Action → string → Prop :=
| route_list c r : collection c r → Route "GET" [c] r ActionList ""
| route_inspect c r id :
    collection c r → lang identifier id → Route "GET" [c; id] r ActionInspect id
| route_create c r :
    collection c r → writable r → Route "POST" [c; "create"] r ActionCreate ""
| route_delete c r id :
    collection c r → writable r → lang identifier id → Route "DELETE" [c; id] r ActionDelete id
| route_update id :
    lang identifier id → Route "POST" ["services"; id; "update"] ResourceService ActionUpdate id.

Inductive version_prefix : list string → string → Prop :=
| version_none : version_prefix [] ""
| version_some v : lang apiVersion (String "v" v) → version_prefix [String "v" v] v.

(** [uri] is a path with an optional query string. *)
Definition target (uri path rawQuery : string) : Prop :=
  uri = path ∧ rawQuery = "" ∨ uri = path +:+ String "?" rawQuery.
Definition clean_uri (uri : string) : Prop :=
  str_any isCTL uri = false ∧ ContainsAny uri forbidden_bytes = false.

Record ResolveSpec (method uri : string) (op : Operation) (prefix segments : list string)
    (rawQuery : string) : Prop := {
  spec_target : target uri (String "/" (Join "/" (prefix ++ segments))) rawQuery;
  spec_clean : clean_uri uri;
  spec_query : ParseQuery rawQuery = Some (Operation_Query op);
  spec_version : version_prefix prefix (Operation_Version op);
  spec_route : Route method segments (Operation_Resource op) (Operation_Action op) (Operation_ID op)
}.

Create HintDb operation.
#[export] Hint Constructors collection Route version_prefix : operation.

(** *** The regular expressions *)
Definition segment_byte : ascii → bool := identifier_byte.
Definition plain_segment (s : string) : Prop := s ≠ "" ∧ str_all segment_byte s = true.

Lemma identifier_plain s : lang identifier s → plain_segment s.
Proof.
  unfold identifier. rewrite lang_cat_inv.
  intros (s1 & s2 & -> & (c & -> & Hc)%lang_class_inv & Hs%lang_star_class).
  split; [done|]. change (segment_byte c && str_all segment_byte s2 = true).
  apply andb_true_iff. split; [|done]. unfold segment_byte, identifier_byte. by rewrite Hc.
Qed.

Lemma digits_plain s : str_all is_digit s = true → str_all segment_byte s = true.
Proof.
  apply str_all_impl. intros c Hc. unfold segment_byte, identifier_byte, is_alnum.
  rewrite Hc. by rewrite orb_true_r.
Qed.

Lemma apiVersion_shape s :
  lang apiVersion s ↔ ∃ major minor d,
    s = String "v" (String d major +:+ String "." minor) ∧
    in_range "1" "9" d = true ∧ str_all is_digit major = true ∧
    minor ≠ "" ∧ str_all is_digit minor = true.
Proof.
  unfold apiVersion, Lit. split.
  - intros (s1 & s2 & -> & (v & -> & Hv)%lang_class_inv & H)%lang_cat_inv.
    apply lang_cat_inv in H as (s3 & s4 & -> & (d & -> & Hd)%lang_class_inv & H).
    apply lang_cat_inv in H as (major & s5 & -> & Hmajor%lang_star_class & H).
    apply lang_cat_inv in H as (s6 & minor & -> & (dot & -> & Hdot)%lang_class_inv & H).
    apply lang_plus_class in H as [Hne Hminor].
    apply Ascii.eqb_eq in Hv as <-. apply Ascii.eqb_eq in Hdot as <-.
    exists major, minor, d. done.
  - intros (major & minor & d & -> & Hd & Hmajor & Hne & Hminor).
    apply (lang_cat _ _ (String "v" "")); [by constructor|].
    apply (lang_cat _ _ (String d "")); [by constructor|].
    apply lang_cat; [by apply lang_star_class|].
    apply (lang_cat _ _ (String "." "")); [by constructor|].
    by apply lang_plus_class.
Qed.

Lemma apiVersion_plain s : lang apiVersion s → plain_segment s ∧ ∃ v, s = String "v" v.
Proof.
  rewrite apiVersion_shape. intros (major & minor & d & -> & Hd & Hmajor & Hne & Hminor).
  split; [|eauto]. split; [done|].
  assert (Hdd : is_digit d = true).
  { revert Hd. unfold is_digit, in_range. guards. rewrite !N.leb_le.
    change (code "1") with 49%N. change (code "0") with 48%N. lia. }
  assert (Hd' : segment_byte d = true).
  { pose proof (digits_plain (String d "")) as H. simpl in H. rewrite Hdd in H.
    specialize (H eq_refl). by apply andb_true_iff in H as [? _]. }
  rewrite str_app_cons. cbn [str_all]. rewrite Hd', str_all_app. cbn [str_all].
  by rewrite (digits_plain major), (digits_plain minor).
Qed.

Lemma collection_plain c r : collection c r → plain_segment c.
Proof. by destruct 1. Qed.

Lemma collection_not_version c r : collection c r → ¬ lang apiVersion c.
Proof. intros Hc Hv%MatchString_lang. by destruct Hc. Qed.

(** *** Plain segments pass every syntactic check *)
Lemma segment_byte_spec c :
  segment_byte c = true →
  shouldEscape c = false ∧ c ≠ "/"%char ∧ c ≠ "?"%char.
Proof.
  destruct c as [[] [] [] [] [] [] [] []]; vm_compute; intros; repeat split; done.
Qed.

Lemma plain_no_byte b s :
  segment_byte b = false → plain_segment s → contains_byte b s = false.
Proof.
  intros Hb [_ Hs]. revert Hs. apply str_all_any. intros c Hc.
  apply Ascii.eqb_neq. congruence.
Qed.

Lemma plain_no_escape s : plain_segment s → str_any shouldEscape s = false.
Proof. intros [_ Hs]. revert Hs. apply str_all_any. intros c Hc. by apply segment_byte_spec. Qed.

Lemma Join_any p sep parts :
  p sep = false → Forall (λ s, str_any p s = false) parts → str_any p (Join sep parts) = false.
Proof.
  intros Hsep. induction 1 as [|part parts Hpart Hparts IH]; [done|].
  destruct (decide (parts = [])) as [->|Hne]; [done|].
  rewrite Join_cons, str_any_app by done. cbn [str_any]. by rewrite Hpart, Hsep, IH.
Qed.

(** *** Routing *)
Lemma resolve_resource_spec part r : resolve_resource part = Some r ↔ collection part r.
Proof.
  unfold resolve_resource. split.
  - repeat case_bool_decide; intros; simplify_eq; constructor.
  - by destruct 1.
Qed.

Lemma Supports_writable r action :
  action = ActionCreate ∨ action = ActionDelete → Supports r action = true → writable r.
Proof.
  unfold Supports, writable. intros Haction.
  repeat case_bool_decide; naive_solver.
Qed.

Lemma Supports_update r : Supports r ActionUpdate = true ↔ r = ResourceService.
Proof. unfold Supports. split; [repeat case_bool_decide; naive_solver|by intros ->]. Qed.

Lemma collection_supports c r :
  collection c r → Supports r ActionList = true ∧ Supports r ActionInspect = true.
Proof. by destruct 1. Qed.

Lemma writable_supports r :
  writable r → Supports r ActionCreate = true ∧ Supports r ActionDelete = true.
Proof. by destruct 1 as [->| ->]. Qed.

Lemma resolve_action_spec method parts action id :
  resolve_action method parts = Some (action, id) →
  (∃ c, parts = [c] ∧ method = "GET" ∧ action = ActionList ∧ id = "") ∨
  (∃ c, parts = [c; "create"] ∧ method = "POST" ∧ action = ActionCreate ∧ id = "") ∨
  (∃ c, parts = [c; id] ∧ method = "GET" ∧ action = ActionInspect) ∨
  (∃ c, parts = [c; id] ∧ method = "DELETE" ∧ action = ActionDelete) ∨
  (∃ c, parts = [c; id; "update"] ∧ method = "POST" ∧ action = ActionUpdate).
Proof.
  unfold resolve_action. intros H.
  destruct parts as [|c [|p1 [|p2 [|p3 parts]]]]; simpl in H;
    repeat case_bool_decide; simplify_eq/=; eauto 10.
Qed.

Definition identified (action : Action) (id : string) : Prop :=
  action ≠ ActionList → action ≠ ActionCreate → lang identifier id.

Lemma resolve_route method parts r action id :
  (resolve_resource (nth 0 parts "") = Some r ∧ resolve_action method parts = Some (action, id)
   ∧ Supports r action = true ∧ identified action id)
  ↔ Route method parts r action id.
Proof.
  split.
  - intros (Hr%resolve_resource_spec & Ha%resolve_action_spec & Hs & Hid).
    destruct Ha as [(c & -> & -> & -> & ->)|[(c & -> & -> & -> & ->)|[(c & -> & -> & ->)|
      [(c & -> & -> & ->)|(c & -> & -> & ->)]]]]; simpl in Hr.
    + by constructor.
    + constructor; [done|]. eapply Supports_writable; eauto.
    + constructor; [done|]. by apply Hid.
    + constructor; [done|eapply Supports_writable; eauto|]. by apply Hid.
    + apply Supports_update in Hs as ->. inversion Hr; subst. constructor. by apply Hid.
  - intros Hroute. split_and!.
    + destruct Hroute; apply resolve_resource_spec; simpl; eauto with operation.
    + destruct Hroute; unfold resolve_action; simpl; by rewrite ?andb_false_r.
    + destruct Hroute; try done.
      * by eapply collection_supports.
      * by eapply collection_supports.
      * by apply writable_supports.
      * by apply writable_supports.
    + intros ? ?. by destruct Hroute.
Qed.

Lemma Route_plain method segments r action id :
  Route method segments r action id → Forall plain_segment segments ∧ segments ≠ [] ∧ length segments ≤ 3.
Proof.
  intros Hroute. split; [|destruct Hroute; simpl; (split; [done|lia])].
  destruct Hroute; rewrite ?Forall_cons, Forall_nil; split_and!;
    eauto using collection_plain, identifier_plain; done.
Qed.

Lemma version_prefix_plain prefix v : version_prefix prefix v → Forall plain_segment prefix.
Proof. destruct 1 as [|v Hv]; [done|]. apply Forall_singleton. by apply apiVersion_plain. Qed.

Lemma resolve_version_sound parts v segments :
  resolve_version parts = (v, segments) →
  ∃ prefix, parts = prefix ++ segments ∧ version_prefix prefix v.
Proof.
  unfold resolve_version. destruct parts as [|part parts].
  { intros [= <- <-]. exists []. split; [done|constructor]. }
  destruct (MatchString apiVersion part) eqn:Hm.
  - intros [= <- <-]. apply MatchString_lang in Hm.
    pose proof (apiVersion_plain part Hm) as [_ [v ->]].
    exists [String "v" v]. split; [done|]. simpl. by constructor.
  - intros [= <- <-]. exists []. split; [done|constructor].
Qed.

Lemma resolve_version_complete method prefix v segments r action id :
  version_prefix prefix v → Route method segments r action id →
  resolve_version (prefix ++ segments) = (v, segments).
Proof.
  intros Hv Hroute. unfold resolve_version. destruct Hv as [|v Hv]; cbn [app].
  - assert (∃ c rest, segments = c :: rest ∧ collection c r) as (c & rest & -> & Hc).
    { destruct Hroute; eauto with operation. }
    destruct (MatchString apiVersion c) eqn:Hm; [|done].
    apply MatchString_lang in Hm. by destruct (collection_not_version c r).
  - apply MatchString_lang in Hv. by rewrite Hv.
Qed.

(** *** Resolve implements the table *)
Lemma target_cut uri path rawQuery :
  contains_byte "?" path = false →
  target uri path rawQuery ↔ ∃ found, Cut "?" uri = (path, rawQuery, found).
Proof.
  intros Hpath. split.
  - intros [[-> ->]| ->]; [rewrite Cut_absent by done|rewrite Cut_found by done]; eauto.
  - intros [found (_ & Huri & Hf)%Cut_spec]. destruct found; [by right|].
    left. rewrite str_app_nil_r in Huri. auto.
Qed.

Lemma resolve_segments segments :
  Forall plain_segment segments → segments ≠ [] →
  let path := String "/" (Join "/" segments) in
  str_any shouldEscape path = false ∧ contains_byte "?" path = false ∧
  HasPrefix path "//" = false ∧ Split "/" (TrimPrefix path "/") = segments.
Proof.
  intros Hplain Hne path.
  assert (Hj : ∀ p, p "/"%char = false → Forall (λ s, str_any p s = false) segments →
    str_any p path = false).
  { intros p Hp Hall. unfold path; simpl. rewrite Hp. by apply Join_any. }
  split_and!.
  - apply Hj; [done|]. eapply Forall_impl; [done|]. apply plain_no_escape.
  - apply Hj; [done|]. eapply Forall_impl; [done|]. intros s. by apply plain_no_byte.
  - destruct (HasPrefix path "//") eqn:Hpre; [|done]. apply HasPrefix_spec in Hpre as [rest Hrest].
    destruct segments as [|seg segs]; [done|]. apply Forall_cons in Hplain as [[Hseg Hs] _].
    destruct seg as [|c seg]; [done|]. simpl in Hs. apply andb_true_iff in Hs as [Hc _].
    apply segment_byte_spec in Hc as (_ & Hc & _). unfold path in Hrest.
    assert (∃ t, Join "/" (String c seg :: segs) = String c t) as [t Ht].
    { destruct segs; [by exists seg|]. by eexists. }
    rewrite Ht in Hrest. change ("//" +:+ rest) with (String "/" (String "/" rest)) in Hrest.
    congruence.
  - change path with ("/" +:+ Join "/" segments). rewrite TrimPrefix_app.
    apply Split_Join; [done|]. eapply Forall_impl; [done|]. intros s. by apply plain_no_byte.
Qed.

Lemma identified_bool action id :
  (action != ActionList) && (action != ActionCreate) && negb (MatchString identifier id) = false
  ↔ identified action id.
Proof.
  unfold identified. rewrite <- MatchString_lang.
  do 2 case_bool_decide; simpl; rewrite ?negb_false_iff; naive_solver.
Qed.

(** What the body of Resolve after the parsing of the URI computes. *)
Lemma Resolve_Ok method uri op :
  Resolve method uri = Ok op ↔
  clean_uri uri ∧ HasPrefix uri "/" = true ∧ HasPrefix uri "//" = false ∧
  ∃ rest rawQuery found path segments,
    Cut "?" uri = (rest, rawQuery, found) ∧ unescape false rest = Some path ∧
    contains_byte "%" (EscapedPath (path_url rest path rawQuery)) = false ∧
    ParseQuery rawQuery = Some (Operation_Query op) ∧
    resolve_version (Split "/" (TrimPrefix path "/")) = (Operation_Version op, segments) ∧
    1 ≤ length segments ≤ 3 ∧
    Route method segments (Operation_Resource op) (Operation_Action op) (Operation_ID op).
Proof.
  unfold Resolve, clean_uri. setoid_rewrite <- resolve_route. split.
  - destruct (ParseRequestURI uri) as [u|] eqn:Hu; [|done].
    apply ParseRequestURI_Some in Hu as (Hctl & Hslash & rest & rq & found & path & Hcut & Hun & ->).
    destruct (_ || _) eqn:Hg; [done|]. repeat setoid_rewrite orb_false_iff in Hg.
    destruct Hg as ((((((_ & Hss) & _) & _) & _) & Hany) & Hpct).
    destruct (ParseQuery _) as [query|] eqn:Hq; [|done].
    change (URL_Path (path_url rest path rq)) with path.
    destruct (resolve_version _) as [v segs] eqn:Hv.
    destruct ((length segs <? 1)%nat || (3 <? length segs)%nat) eqn:Hlen; [done|].
    destruct (resolve_resource _) as [r|] eqn:Hr; [|done].
    destruct (resolve_action _ _) as [[action id]|] eqn:Ha; [|done].
    destruct (negb _ || _) eqn:Hs; [done|]. intros [= <-]; simpl.
    apply orb_false_iff in Hlen as [?%Nat.ltb_ge ?%Nat.ltb_ge].
    apply orb_false_iff in Hs as [Hs%negb_false_iff Hid%identified_bool].
    split_and!; try done. exists rest, rq, found, path, segs. split_and!; done || lia.
  - intros ([Hctl Hany] & Hslash & Hss & rest & rq & found & path & segs & Hcut & Hun & Hpct & Hq
            & Hv & [Hl1 Hl2] & Hr & Ha & Hs & Hid).
    rewrite (proj2 (ParseRequestURI_Some uri (path_url rest path rq))) by eauto 10.
    rewrite Hslash, Hss, Hany, Hpct.
    destruct (_ || _) eqn:Hg; [by vm_compute in Hg|]. clear Hg.
    change (URL_Path (path_url rest path rq)) with path.
    change (URL_RawQuery (path_url rest path rq)) with rq. rewrite Hq, Hv. rewrite (proj2 (Nat.ltb_ge _ _) Hl1), (proj2 (Nat.ltb_ge _ _) Hl2). cbn [orb].
    rewrite Hr, Ha, Hs, (proj2 (identified_bool _ _) Hid). by destruct op.
Qed.

Lemma Resolve_sound method uri op :
  Resolve method uri = Ok op → ∃ prefix segments rawQuery, ResolveSpec method uri op prefix segments rawQuery.
Proof.
  intros (Hclean & Hslash & Hss & rest & rq & found & path & segs & Hcut & Hun & Hpct & Hq & Hv
          & Hlen & Hroute)%Resolve_Ok.
  destruct (Cut_spec _ _ _ _ _ Hcut) as (Hnoq & Huri & Hf).
  assert (∃ r, rest = String "/" r) as [r ->].
  { apply HasPrefix_spec in Hslash as [t Ht]. rewrite Ht in Huri.
    destruct rest as [|c rest]; [by destruct found|].
    change ("/" +:+ t) with (String "/" t) in Huri. rewrite str_app_cons in Huri.
    injection Huri as <- _. eauto. }
  apply EscapedPath_plain in Hpct as [_ ->]; [|by apply HasPrefix_spec; exists r|done].
  change (String "/" r) with ("/" +:+ r) in Hv. rewrite TrimPrefix_app in Hv.
  apply resolve_version_sound in Hv as (prefix & Hsplit & Hv).
  exists prefix, segs, rq. split; [|done..].
  rewrite <- Hsplit, Join_Split. apply target_cut; eauto.
Qed.

Lemma Resolve_complete method uri op prefix segments rawQuery :
  ResolveSpec method uri op prefix segments rawQuery → Resolve method uri = Ok op.
Proof.
  intros [Htarget Hclean Hquery Hversion Hroute].
  destruct (Route_plain _ _ _ _ _ Hroute) as (Hplain & Hne & Hlen).
  destruct (resolve_segments (prefix ++ segments)) as (Hesc & Hq & Hss & Hsplit).
  { apply Forall_app; eauto using version_prefix_plain. }
  { by intros [_ ?]%app_nil. }
  set (path := String "/" (Join "/" (prefix ++ segments))) in *.
  destruct (EscapedPath_unreserved path rawQuery Hesc) as [Hun Hpath].
  apply Resolve_Ok. split_and!; [done|..].
  - destruct Htarget as [[-> ->]| ->]; apply HasPrefix_spec; by eexists.
  - destruct (HasPrefix uri "//") eqn:Hpre; [|done]. rewrite <- Hss. symmetry.
    apply HasPrefix_spec in Hpre as [t Ht].
    destruct Htarget as [[-> ->]| ->]; apply HasPrefix_spec; [eauto|].
    unfold path in Ht |- *. destruct (Join "/" (prefix ++ segments)) as [|c j]; [done|].
    change ("//" +:+ t) with (String "/" (String "/" t)) in Ht.
    rewrite !str_app_cons in Ht. injection Ht as -> _. by exists j.
  - apply target_cut in Htarget as [found Hcut]; [|done].
    exists path, rawQuery, found, path, segments. rewrite Hpath, Hsplit.
    split_and!; try done.
    + rewrite <- (escape_id path Hesc), escape_percent. done.
    + by eapply resolve_version_complete.
    + destruct segments; [done|simpl; lia].
Qed.

(** ** Properties *)

(** C8. The resolver implements the table of supported requests: a method and a URI
    resolve to an operation exactly when the URI is free of control characters,
    blanks, backslashes and fragments, its path is an optional API version followed
    by the segments of one row of the table, and its query string parses to the
    operation's query.  Encoded, repeated, trailing or dot segments match no row. *)
Theorem Resolve_spec method uri op :
  Resolve method uri = Ok op ↔
  ∃ prefix segments rawQuery, ResolveSpec method uri op prefix segments rawQuery.
Proof.
  split; [apply Resolve_sound|].
  intros (prefix & segments & rawQuery & H). by eapply Resolve_complete.
Qed.

(** The only spelling of an operation: its method and path. *)
Definition collection_of (r : Resource) : string := r +:+ "s".
Definition canonical_method (op : Operation) : string :=
  let action := Operation_Action op in
  if (action == ActionList) || (action == ActionInspect) then "GET"
  else if action == ActionDelete then "DELETE" else "POST".
Definition canonical_segments (op : Operation) : list string :=
  collection_of (Operation_Resource op) ::
  let action := Operation_Action op in
  if action == ActionList then []
  else if action == ActionCreate then ["create"]
  else if action == ActionUpdate then [Operation_ID op; "update"]
  else [Operation_ID op].
Definition canonical_prefix (op : Operation) : list string :=
  if Operation_Version op == "" then [] else [String "v" (Operation_Version op)].
Definition canonical_path (op : Operation) : string :=
  String "/" (Join "/" (canonical_prefix op ++ canonical_segments op)).

Lemma collection_of_spec c r : collection c r → c = collection_of r.
Proof. by destruct 1. Qed.

Lemma version_prefix_canonical prefix v :
  version_prefix prefix v → prefix = (if v == "" then [] else [String "v" v]).
Proof.
  destruct 1 as [|v Hv]; [done|]. case_bool_decide as Hnil; [|done].
  subst. apply MatchString_lang in Hv. by vm_compute in Hv.
Qed.

Lemma Route_canonical method segments op :
  Route method segments (Operation_Resource op) (Operation_Action op) (Operation_ID op) →
  method = canonical_method op ∧ segments = canonical_segments op.
Proof.
  destruct op as [r action id v q]; simpl. unfold canonical_method, canonical_segments; simpl.
  intros Hroute; destruct Hroute; simpl; rewrite <- ?(collection_of_spec c r) by done; done.
Qed.

(** C26. An operation has one spelling: every request that resolves to it uses the same
    method and the same path, and differs at most in how its query string is written. *)
Theorem Resolve_canonical method uri op :
  Resolve method uri = Ok op →
  method = canonical_method op ∧
  ∃ rawQuery, target uri (canonical_path op) rawQuery ∧ ParseQuery rawQuery = Some (Operation_Query op).
Proof.
  intros (prefix & segments & rawQuery & [Htarget _ Hquery Hversion Hroute])%Resolve_sound.
  apply Route_canonical in Hroute as [-> ->]. apply version_prefix_canonical in Hversion as ->.
  split; [done|]. by exists rawQuery.
Qed.

Definition example_update : Operation :=
  {| Operation_Resource := "service"; Operation_Action := "update"; Operation_ID := "abc";
     Operation_Version := "1.53"; Operation_Query := {["version" := ["42"]]} |}.

Lemma Resolve_canonical_witness :
  Resolve "POST" "/v1.53/services/abc/update?version=42" = Ok example_update ∧
  "POST" = canonical_method example_update ∧
  ∃ rawQuery, target "/v1.53/services/abc/update?version=42" (canonical_path example_update) rawQuery ∧
    ParseQuery rawQuery = Some (Operation_Query example_update).
Proof.
  assert (H : Resolve "POST" "/v1.53/services/abc/update?version=42" = Ok example_update)
    by (vm_compute; reflexivity).
  split; [exact H|]. exact (Resolve_canonical _ _ _ H).
Defined.
