(* ===== verification/Config.v ===== *)
(** * Package config: the policy document

    internal/config/config.go: the configuration types, Validate, Parse and Load.
    [ValidConfig] is the documented meaning of an acceptable policy; Validate accepts
    exactly that, whatever order Go enumerates the maps in.  The YAML decoder and the
    file system are the class [Yaml] and the argument [open]. *)
From S2P Require Import Prelude GoString GoIO Regexp NetUrl GoTime ConfigNode ConfigTelemetry Operation.

(** ** Data *)
Record Labels := mkLabels { Labels_Labels : gmap string string }.
Record Mutation := mkMutation { Mutation_Only : list string }.
Record Permission := mkPermission {
  Permission_Selector : ptr Labels;
  Permission_Request : ptr Labels;
  Permission_Mutation : ptr Mutation
}.
Record Certificate := mkCertificate { Certificate_CommonName : string }.
Record Identity := mkIdentity { Identity_Certificate : Certificate }.
Abbreviation PermissionMap := (gmap string (gmap string Permission)) (only parsing).
Record Client := mkClient { Client_Identity : Identity; Client_Permissions : PermissionMap }.
Record Authentication := mkAuthentication { Authentication_Unidentified : string }.
Record Config := mkConfig {
  Config_Authentication : Authentication;
  Config_Telemetry : ptr Telemetry;
  Config_Clients : gmap string Client
}.

Definition client_cn (c : Client) : string :=
  Certificate_CommonName (Identity_Certificate (Client_Identity c)).

(** [p == nil] on a pointer. *)
Definition nil_ptr {A} (p : ptr A) : bool := match p with None => true | Some _ => false end.

Definition Unconditional (p : Permission) : bool :=
  nil_ptr (Permission_Selector p) && nil_ptr (Permission_Request p)
  && nil_ptr (Permission_Mutation p).

Definition actionCreate : string := "create".
Definition actionDelete : string := "delete".
Definition actionInspect : string := "inspect".
Definition actionUpdate : string := "update".

(** ** Validate *)

(** The resources a permission entry stands for. *)
Definition permission_resources (resource action : string) : list string :=
  if resource == "*"
  then filter (λ candidate, Supports candidate action = true) ["service"; "secret"; "task"; "node"]
  else [resource].

(** The body of the loop over those resources. *)
Definition validate_constraints (action : string) (permission : Permission) (actual : string) :
    option error :=
  fail_if (negb (Supports actual action)) "unsupported permission action for resource" ;?
  fail_if (negb (nil_ptr (Permission_Selector permission))
           && (action != actionInspect) && (action != actionUpdate) && (action != actionDelete))
    "selector requires an existing individual resource" ;?
  fail_if (negb (nil_ptr (Permission_Request permission))
           && (action != actionCreate) && (action != actionUpdate))
    "request requires create or update" ;?
  fail_if (negb (nil_ptr (Permission_Mutation permission))
           && ((actual != "service") || (action != actionUpdate)))
    "mutation is supported only for service.update".

Definition validate_labels (labels : ptr Labels) : option error :=
  match labels with
  | None => None
  | Some l => fail_if (size (Labels_Labels l) =? 0)%nat "label constraints must be nonempty"
  end.

Fixpoint validate_fields (seen : gset string) (fields : list string) : option error :=
  match fields with
  | [] => None
  | field :: fields' =>
      if ((field != "container.secrets") && (field != "container.image") && (field != "replicas"))
         || bool_decide (field ∈ seen)
      then Some "unsupported or duplicate mutation field"
      else validate_fields ({[field]} ∪ seen) fields'
  end.
Definition validate_mutation (mutation : ptr Mutation) : option error :=
  match mutation with
  | None => None
  | Some m =>
      fail_if (length (Mutation_Only m) =? 0)%nat "mutation.only must be nonempty" ;?
      validate_fields ∅ (Mutation_Only m)
  end.

Definition validate_permission (resource action : string) (permission : Permission) : option error :=
  if action == "*" then
    fail_if (negb (Unconditional permission)) "wildcard actions cannot have constraints"
  else
    let resources := permission_resources resource action in
    fail_if (length resources =? 0)%nat "unsupported permission action" ;?
    each (validate_constraints action permission) resources ;?
    each validate_labels [Permission_Selector permission; Permission_Request permission] ;?
    validate_mutation (Permission_Mutation permission).

Definition reserved (name : string) : bool :=
  (name == "unknown") || (name == "unidentified") || (name == "internal").

Section Validate.
Context `{!MapRange}.

Definition validate_resource (resource : string) (actions : gmap string Permission) : option error :=
  fail_if ((resource != "*") && negb (Supports resource ActionInspect))
    "unsupported permission resource" ;?
  each (λ '(action, permission), validate_permission resource action permission) (range actions).

(** The loop over the clients, with the common names seen so far. *)
Fixpoint validate_clients (cns : gset string) (clients : list (string * Client)) : option error :=
  match clients with
  | [] => None
  | (name, client) :: clients' =>
      let cn := client_cn client in
      fail_if ((TrimSpace name == "") || (TrimSpace cn == "") || bool_decide (cn ∈ cns))
        "client names and certificate CNs must be nonempty; certificate CNs must be unique" ;?
      fail_if (reserved name) "client name is reserved for audit attribution" ;?
      each (λ '(resource, actions), validate_resource resource actions)
        (range (Client_Permissions client)) ;?
      validate_clients ({[cn]} ∪ cns) clients'
  end.

(** (c *Config) Validate: the receiver afterwards and the error. *)
Definition Config_Validate (c : Config) : Config * option error :=
  let unidentified := Authentication_Unidentified (Config_Authentication c) in
  if (unidentified != "allow") && (unidentified != "deny")
  then (c, Some "authentication.unidentified must explicitly be allow or deny")
  else match validate_clients ∅ (range (Config_Clients c)) with
  | Some e => (c, Some e)
  | None =>
      match Config_Telemetry c with
      | None => (c, None)
      | Some t =>
          let '(t, e) := Telemetry_Validate t in
          (mkConfig (Config_Authentication c) (Some t) (Config_Clients c), e)
      end
  end.
End Validate.

(** ** Parse and Load *)

Inductive decoded (A : Type) := Decoded (a : A) | Decode_EOF | Decode_error.
Arguments Decoded {A} a.
Arguments Decode_EOF {A}.
Arguments Decode_error {A}.

(** gopkg.in/yaml.v3: the documents that the Decode calls of one decoder yield as nodes,
    by call, and the first document decoded into a Config with KnownFields(true). *)
Class Yaml := {
  yaml_node : string → nat → decoded Node;
  yaml_config : string → option Config
}.

Definition MaxSize : Z := Z.shiftl 1 20.

Definition Parse `{!MapRange, !Yaml} (r : io_reader) : outcome (result Config) :=
  match ReadAllLimited r (MaxSize + 1) with
  | None => Return (Err "cannot read config or config exceeds 1 MiB")
  | Some data =>
      if (MaxSize <? byte_length data)%Z
      then Return (Err "cannot read config or config exceeds 1 MiB")
      else match yaml_node data 0 with
      | Decode_EOF | Decode_error => Return (Err "invalid YAML configuration")
      | Decoded node =>
          match validateNode node with
          | Some e => Return (Err e)
          | None =>
              match validateScalarTypes node "" with
              | Panic => Panic
              | Return (Some e) => Return (Err e)
              | Return None =>
                  match yaml_node data 1 with
                  | Decoded _ | Decode_error =>
                      Return (Err "exactly one YAML document is required")
                  | Decode_EOF =>
                      match yaml_config data with
                      | None => Return (Err
                          "invalid configuration schema (unknown, duplicate or mistyped field)")
                      | Some cfg =>
                          match Config_Validate cfg with
                          | (_, Some e) => Return (Err e)
                          | (cfg, None) => Return (Ok cfg)
                          end
                      end
                  end
              end
          end
      end
  end.

(** Load, for the files that [open] finds. *)
Definition Load `{!MapRange, !Yaml} (open : string → option io_reader) (path : string) :
    outcome (result Config) :=
  match open path with
  | None => Return (Err "cannot open config file")
  | Some f => Parse f
  end.

(** ** Specification *)

(** What a permission entry at [permissions.resource.action] may require. *)
Record ValidConstraints (resource action : string) (p : Permission) : Prop := {
  covered : ∃ actual, (resource = "*" ∨ resource = actual) ∧ Supports actual action = true;
  selector_action : is_Some (Permission_Selector p) → action ∈ ["inspect"; "update"; "delete"];
  request_action : is_Some (Permission_Request p) → action ∈ ["create"; "update"];
  mutation_action : is_Some (Permission_Mutation p) →
    resource ∈ ["*"; "service"] ∧ action = "update";
  selector_labels : ∀ l, Permission_Selector p = Some l → Labels_Labels l ≠ ∅;
  request_labels : ∀ l, Permission_Request p = Some l → Labels_Labels l ≠ ∅;
  mutation_fields : ∀ m, Permission_Mutation p = Some m →
    Mutation_Only m ≠ [] ∧ NoDup (Mutation_Only m) ∧
    Forall (.∈ ["container.secrets"; "container.image"; "replicas"]) (Mutation_Only m)
}.

Definition ValidPermission (resource action : string) (p : Permission) : Prop :=
  resource ∈ ["*"; "service"; "secret"; "task"; "node"] ∧
  (action = "*" ∧ p = mkPermission None None None ∨
   action ≠ "*" ∧ ValidConstraints resource action p).

Record ValidConfig (c : Config) : Prop := {
  config_unidentified :
    Authentication_Unidentified (Config_Authentication c) ∈ ["allow"; "deny"];
  config_names : ∀ name client, Config_Clients c !! name = Some client →
    TrimSpace name ≠ "" ∧ TrimSpace (client_cn client) ≠ "" ∧
    name ∉ ["unknown"; "unidentified"; "internal"];
  config_cns : ∀ n1 n2 c1 c2, Config_Clients c !! n1 = Some c1 → Config_Clients c !! n2 = Some c2 →
    client_cn c1 = client_cn c2 → n1 = n2;
  config_resources : ∀ name client resource actions, Config_Clients c !! name = Some client →
    Client_Permissions client !! resource = Some actions →
    resource ∈ ["*"; "service"; "secret"; "task"; "node"];
  config_permissions : ∀ name client resource actions action permission,
    Config_Clients c !! name = Some client →
    Client_Permissions client !! resource = Some actions →
    actions !! action = Some permission → ValidPermission resource action permission;
  config_telemetry : ∀ t, Config_Telemetry c = Some t → ValidTelemetry t
}.

Definition Config_defaults (c : Config) : Config :=
  mkConfig (Config_Authentication c) (Telemetry_defaults <$> Config_Telemetry c) (Config_Clients c).

(** ** Lemmas *)
Lemma nil_ptr_false {A} (p : ptr A) : negb (nil_ptr p) = false ↔ p = None.
Proof. by destruct p. Qed.

Lemma guard_ptr {A} (p : ptr A) b : negb (nil_ptr p) && b = false ↔ (is_Some p → b = false).
Proof.
  destruct p; simpl; split; eauto.
  by intros _ [? ?].
Qed.

Lemma Unconditional_spec p : Unconditional p = true ↔ p = mkPermission None None None.
Proof. destruct p as [[] [] []]; simpl; split; congruence || done. Qed.

Lemma resource_inspect resource :
  ((resource != "*") && negb (Supports resource ActionInspect)) = false ↔
  resource ∈ ["*"; "service"; "secret"; "task"; "node"].
Proof.
  unfold Supports, ResourceService, ResourceSecret, ResourceTask, ResourceNode, ActionInspect.
  destruct (decide (resource = "*")) as [->|]; [split; [set_solver|done]|].
  rewrite (bool_decide_eq_false_2 (resource = "*")) by done.
  repeat case_bool_decide; simpl; set_solver.
Qed.

Lemma elem_of_resources resource action actual :
  actual ∈ permission_resources resource action ↔
  (resource = "*" ∧ Supports actual action = true) ∨ (resource ≠ "*" ∧ actual = resource).
Proof.
  unfold permission_resources. case_bool_decide as Hstar.
  - rewrite list_elem_of_filter. split; [naive_solver|]. intros [[_ Hsup]|[? _]]; [|done].
    split; [done|]. unfold Supports in Hsup. repeat case_bool_decide; subst; try done; set_solver.
  - rewrite list_elem_of_singleton. naive_solver.
Qed.

Lemma validate_fields_spec seen fields :
  validate_fields seen fields = None ↔
  NoDup fields ∧ (∀ f, f ∈ fields → f ∉ seen) ∧
  Forall (.∈ ["container.secrets"; "container.image"; "replicas"]) fields.
Proof.
  revert seen. induction fields as [|f fields IH]; intros seen; cbn [validate_fields].
  { split; [|done]. intros _. split_and!; [constructor| |constructor]. set_solver. }
  rewrite NoDup_cons, Forall_cons. case_match eqn:Hguard.
  - split; [done|]. intros (_ & Hseen & Hin & _).
    apply orb_true_iff in Hguard as [Hf|Hf].
    + rewrite !andb_true_iff, !negb_true_iff, !bool_decide_eq_false in Hf. set_solver.
    + apply bool_decide_eq_true in Hf. set_solver.
  - rewrite IH. apply orb_false_iff in Hguard as [Hf Hs].
    rewrite !andb_false_iff, !negb_false_iff, !bool_decide_eq_true in Hf.
    apply bool_decide_eq_false in Hs. set_solver.
Qed.

Lemma validate_mutation_spec mutation :
  validate_mutation mutation = None ↔ ∀ m, mutation = Some m →
    Mutation_Only m ≠ [] ∧ NoDup (Mutation_Only m) ∧
    Forall (.∈ ["container.secrets"; "container.image"; "replicas"]) (Mutation_Only m).
Proof.
  destruct mutation as [m|]; simpl; [|naive_solver].
  rewrite err_seq_None, fail_if_None, Nat.eqb_neq, validate_fields_spec, length_zero_iff_nil.
  split; [|set_solver]. intros (? & ? & ? & ?) m' [= <-]. done.
Qed.

Lemma validate_labels_spec labels :
  validate_labels labels = None ↔ ∀ l, labels = Some l → Labels_Labels l ≠ ∅.
Proof.
  destruct labels as [l|]; simpl; [|naive_solver].
  rewrite fail_if_None, Nat.eqb_neq.
  setoid_rewrite <- map_size_non_empty_iff. naive_solver.
Qed.

Lemma validate_constraints_spec action p actual :
  validate_constraints action p actual = None ↔
  Supports actual action = true ∧
  (is_Some (Permission_Selector p) → action ∈ ["inspect"; "update"; "delete"]) ∧
  (is_Some (Permission_Request p) → action ∈ ["create"; "update"]) ∧
  (is_Some (Permission_Mutation p) → actual = "service" ∧ action = "update").
Proof.
  unfold validate_constraints, actionInspect, actionUpdate, actionDelete, actionCreate.
  rewrite !err_seq_None, !fail_if_None, negb_false_iff, <- !andb_assoc, !guard_ptr.
  rewrite !andb_false_iff, !orb_false_iff, !negb_false_iff, !bool_decide_eq_true.
  set_solver.
Qed.

Lemma supports_update actual : Supports actual "update" = true ↔ actual = "service".
Proof. unfold Supports. repeat case_bool_decide; subst; split; done. Qed.

(** The loop over the covered resources, as constraints on the entry itself. *)
Lemma validate_resources_spec resource action p :
  let resources := permission_resources resource action in
  length resources ≠ 0 ∧ (∀ actual, actual ∈ resources → validate_constraints action p actual = None) ↔
  (∃ actual, (resource = "*" ∨ resource = actual) ∧ Supports actual action = true) ∧
  (is_Some (Permission_Selector p) → action ∈ ["inspect"; "update"; "delete"]) ∧
  (is_Some (Permission_Request p) → action ∈ ["create"; "update"]) ∧
  (is_Some (Permission_Mutation p) → resource ∈ ["*"; "service"] ∧ action = "update").
Proof.
  cbv zeta. setoid_rewrite validate_constraints_spec. setoid_rewrite elem_of_resources. split.
  - intros [Hne Hall].
    destruct (permission_resources resource action) as [|actual l] eqn:Hl; [done|].
    assert (Hin : actual ∈ permission_resources resource action) by (rewrite Hl; left).
    apply elem_of_resources in Hin. destruct (Hall _ Hin) as (Hsup & Hsel & Hreq & Hmut).
    split_and!; try done; [set_solver|]. intros [-> ->]%Hmut. split; [set_solver|done].
  - intros [(actual & Hact & Hsup) (Hsel & Hreq & Hmut)].
    assert (Hin : actual ∈ permission_resources resource action).
    { apply elem_of_resources. destruct (decide (resource = "*")); naive_solver. }
    split; [by destruct (permission_resources resource action); [set_solver|]|].
    intros actual' Hin'.
    assert (Supports actual' action = true) as Hsup' by naive_solver.
    split_and!; try done. intros [_ ->]%Hmut. split; [|done]. by apply supports_update.
Qed.

Lemma validate_permission_spec resource action p :
  resource ∈ ["*"; "service"; "secret"; "task"; "node"] →
  validate_permission resource action p = None ↔ ValidPermission resource action p.
Proof.
  intros Hresource. unfold validate_permission, ValidPermission.
  case_bool_decide as Hstar; cbv zeta.
  { rewrite fail_if_None, negb_false_iff, Unconditional_spec. naive_solver. }
  rewrite !err_seq_None, fail_if_None, Nat.eqb_neq, !each_None, validate_mutation_spec.
  pose proof (validate_resources_spec resource action p) as Hres. cbv zeta in Hres.
  assert (Hlabels : (∀ labels, labels ∈ [Permission_Selector p; Permission_Request p] →
    validate_labels labels = None) ↔
    (∀ l, Permission_Selector p = Some l → Labels_Labels l ≠ ∅) ∧
    (∀ l, Permission_Request p = Some l → Labels_Labels l ≠ ∅)).
  { setoid_rewrite validate_labels_spec. set_solver. }
  rewrite Hlabels. split.
  - intros (Hne & Hall & [? ?] & ?). destruct (proj1 Hres (conj Hne Hall)) as (? & ? & ? & ?).
    split; [done|]. right. by split.
  - intros [_ [[? _]|[_ []]]]; [done|].
    destruct (proj2 Hres) as [? ?]; [done|]. done.
Qed.

Lemma reserved_spec name : reserved name = false ↔ name ∉ ["unknown"; "unidentified"; "internal"].
Proof. unfold reserved. rewrite !orb_false_iff, !bool_decide_eq_false. set_solver. Qed.

Section validate.
Context `{!MapRange}.

Lemma validate_resource_spec resource actions :
  validate_resource resource actions = None ↔
  resource ∈ ["*"; "service"; "secret"; "task"; "node"] ∧
  ∀ action p, actions !! action = Some p → ValidPermission resource action p.
Proof.
  unfold validate_resource. rewrite err_seq_None, fail_if_None, resource_inspect, each_range.
  split; intros [Hr Hall]; split; try done; intros action p Hp; by apply validate_permission_spec, Hall.
Qed.

(** One client of a policy. *)
Definition ValidClient (name : string) (client : Client) : Prop :=
  (TrimSpace name ≠ "" ∧ TrimSpace (client_cn client) ≠ "" ∧
   name ∉ ["unknown"; "unidentified"; "internal"]) ∧
  ∀ resource actions, Client_Permissions client !! resource = Some actions →
    resource ∈ ["*"; "service"; "secret"; "task"; "node"] ∧
    ∀ action p, actions !! action = Some p → ValidPermission resource action p.

Lemma validate_clients_cons cns name client clients :
  validate_clients cns ((name, client) :: clients) = None ↔
  (client_cn client ∉ cns) ∧ ValidClient name client ∧
  validate_clients ({[client_cn client]} ∪ cns) clients = None.
Proof.
  cbn [validate_clients]. cbv zeta. rewrite !err_seq_None, !fail_if_None, !orb_false_iff,
    !bool_decide_eq_false, reserved_spec, each_range.
  setoid_rewrite validate_resource_spec. unfold ValidClient. tauto.
Qed.

Lemma validate_clients_spec cns clients :
  validate_clients cns clients = None ↔
  NoDup (client_cn <$> clients.*2) ∧ (∀ client, client ∈ clients.*2 → client_cn client ∉ cns) ∧
  ∀ name client, (name, client) ∈ clients → ValidClient name client.
Proof.
  revert cns. induction clients as [|[name client] clients IH]; intros cns.
  { split; [|done]. intros _. split_and!; [constructor| |]; intros * []%not_elem_of_nil. }
  rewrite validate_clients_cons, IH, !fmap_cons, NoDup_cons, list_elem_of_fmap.
  cbn [fst snd]. setoid_rewrite elem_of_cons. setoid_rewrite not_elem_of_union.
  setoid_rewrite not_elem_of_singleton. split.
  - intros (Hcn & Hvalid & Hnd & Hseen & Hall). split_and!; [|done| |].
    + intros (c & Heq & Hc). by destruct (Hseen c Hc) as [[]].
    + intros c [->|Hc]; [done|]. by apply Hseen.
    + intros n c [[= -> ->]|Hin]; [done|]. by apply Hall.
  - intros ([Hfresh Hnd] & Hseen & Hall). split_and!; [by apply Hseen; left|by apply Hall; left|done| |].
    + intros c Hc. split; [|by apply Hseen; right]. intros Heq. apply Hfresh. by exists c.
    + intros n c Hin. apply Hall. by right.
Qed.
End validate.

Section spec.
Context `{!MapRange}.

Lemma validate_clients_range clients :
  validate_clients ∅ (range clients) = None ↔
  (∀ n1 n2 c1 c2, clients !! n1 = Some c1 → clients !! n2 = Some c2 →
     client_cn c1 = client_cn c2 → n1 = n2) ∧
  ∀ name client, clients !! name = Some client → ValidClient name client.
Proof.
  rewrite validate_clients_spec, range_NoDup_values. setoid_rewrite elem_of_range.
  split; [by intros (? & _ & ?)|]. intros [? ?]. by split_and!.
Qed.

Lemma ValidConfig_clients c :
  ValidConfig c ↔
  Authentication_Unidentified (Config_Authentication c) ∈ ["allow"; "deny"] ∧
  validate_clients ∅ (range (Config_Clients c)) = None ∧
  ∀ t, Config_Telemetry c = Some t → ValidTelemetry t.
Proof.
  rewrite validate_clients_range. unfold ValidClient. split.
  - intros [Hun Hnames Hcns Hres Hperms Htel]. split_and!; try done.
    intros name client Hclient. split; [by apply Hnames|]. intros resource actions Hactions.
    split; [by eapply Hres|]. intros action p Hp. by eapply Hperms.
  - intros (Hun & [Hcns Hclients] & Htel). split; try done.
    + intros name client Hclient. by apply Hclients.
    + intros name client resource actions Hclient Hactions.
      by apply (proj2 (Hclients _ _ Hclient)) in Hactions as [? _].
    + intros name client resource actions action p Hclient Hactions Hp.
      apply (proj2 (Hclients _ _ Hclient)) in Hactions as [_ Hall]. by apply Hall.
Qed.

Lemma Config_Validate_None c c' :
  Config_Validate c = (c', None) ↔ c' = Config_defaults c ∧ ValidConfig c'.
Proof.
  unfold Config_Validate, Config_defaults. rewrite ValidConfig_clients.
  destruct c as [auth telemetry clients]; cbn [Config_Authentication Config_Telemetry Config_Clients].
  case_match eqn:Hun.
  { split; [done|]. intros [-> [Hin _]]. rewrite andb_true_iff, !negb_true_iff,
      !bool_decide_eq_false in Hun. set_solver. }
  assert (Hallowed : Authentication_Unidentified auth ∈ ["allow"; "deny"]).
  { rewrite andb_false_iff, !negb_false_iff, !bool_decide_eq_true in Hun. set_solver. }
  destruct (validate_clients _ _) as [e|] eqn:Hclients.
  { split; [done|]. intros (-> & _ & Hnone & _). cbn in Hnone. congruence. }
  destruct telemetry as [t|]; cbn [fmap option_fmap option_map].
  - destruct (Telemetry_Validate t) as [t1 e] eqn:Ht. split.
    + intros [= <- ->]. apply Telemetry_Validate_None in Ht as [-> Hvalid].
      split; [done|]. split_and!; try done. by intros ? [= <-].
    + intros (-> & _ & _ & Hvalid).
      assert (Telemetry_Validate t = (Telemetry_defaults t, None)) as Ht'.
      { apply Telemetry_Validate_None. split; [done|]. by apply Hvalid. }
      congruence.
  - split; [|by intros [-> _]]. intros [= <-]. done.
Qed.
End spec.

Lemma Config_defaults_idem c : Config_defaults (Config_defaults c) = Config_defaults c.
Proof.
  destruct c as [auth [t|] clients]; [|done]. unfold Config_defaults; cbn.
  by rewrite Telemetry_defaults_idem.
Qed.

(** A configuration document that Parse accepts as [cfg]. *)
Record ParsesTo `{!Yaml} (r : io_reader) (cfg : Config) : Prop := {
  parse_complete : reader_fails r = false;
  parse_bounded : (byte_length (reader_data r) <= MaxSize)%Z;
  parse_document : ∃ node, yaml_node (reader_data r) 0 = Decoded node ∧ Plain node ∧ Typed "" node;
  parse_single : yaml_node (reader_data r) 1 = Decode_EOF;
  parse_schema : ∃ cfg0, yaml_config (reader_data r) = Some cfg0 ∧ cfg = Config_defaults cfg0;
  parse_valid : ValidConfig cfg
}.

Section parse.
Context `{!MapRange, !Yaml}.

Lemma Parse_Ok r cfg : Parse r = Return (Ok cfg) ↔ ParsesTo r cfg.
Proof.
  split.
  - unfold Parse. destruct (ReadAllLimited _ _) as [data|] eqn:Hread; [|done].
    destruct (Z.ltb_spec MaxSize (byte_length data)) as [?|Hlen]; [done|].
    destruct (proj1 (ReadAllLimited_Some r MaxSize data)) as (Hfails & -> & _); [done|].
    destruct (yaml_node _ 0) as [node| |] eqn:Hnode; try done.
    destruct (validateNode node) eqn:Hplain; [done|].
    destruct (validateScalarTypes node "") as [[e|]|] eqn:Htyped; try done.
    destruct (yaml_node _ 1) eqn:Hsingle; try done.
    destruct (yaml_config _) as [cfg0|] eqn:Hcfg; [|done].
    destruct (Config_Validate cfg0) as [cfg1 [e|]] eqn:Hvalid; [done|]. intros [= ->].
    apply Config_Validate_None in Hvalid as [-> Hvalid].
    apply validateNode_Plain in Hplain. apply validateScalarTypes_Typed in Htyped.
    split; eauto.
  - intros [Hfails Hlen (node & Hnode & Hplain & Htyped) Hsingle (cfg0 & Hcfg & ->) Hvalid].
    destruct (proj2 (ReadAllLimited_Some r MaxSize (reader_data r))) as [Hread _]; [done|].
    unfold Parse. rewrite Hread, Hnode, Hsingle, Hcfg.
    rewrite (proj2 (validateNode_Plain _) Hplain), (proj2 (validateScalarTypes_Typed _ _) Htyped).
    rewrite (proj2 (Config_Validate_None cfg0 _) (conj eq_refl Hvalid)).
    by destruct (Z.ltb_spec MaxSize (byte_length (reader_data r))); [lia|].
Qed.

Lemma Load_Ok (open : string → option io_reader) path cfg :
  Load open path = Return (Ok cfg) ↔ ∃ r, open path = Some r ∧ ParsesTo r cfg.
Proof.
  unfold Load. destruct (open path) as [r|]; [|naive_solver]. rewrite Parse_Ok. naive_solver.
Qed.

(** C11. Loading a policy succeeds exactly on a readable document of at most 1 MiB that is
    one plain, strictly typed YAML document of the known schema whose policy is valid, and
    yields that document with the documented telemetry defaults, for every order in which
    Go enumerates the maps. *)
Theorem Load_spec (open : string → option io_reader) path cfg :
  Load open path = Return (Ok cfg) ↔ ∃ r, open path = Some r ∧ ParsesTo r cfg.
Proof. apply Load_Ok. Qed.

(** C31. Parse never indexes past the end of a mapping node, given that the decoder
    alternates keys and values as gopkg.in/yaml.v3 does: every document, however
    malformed, yields a policy or an error. *)
Theorem Parse_total r :
  (∀ data i node, yaml_node data i = Decoded node → Paired node) → ∃ res, Parse r = Return res.
Proof.
  intros Hpaired. unfold Parse.
  destruct (ReadAllLimited _ _) as [data|]; [|by eauto].
  destruct (_ <? _)%Z; [by eauto|]. destruct (yaml_node data 0) as [node| |] eqn:Hnode; [|by eauto..].
  destruct (validateNode node); [by eauto|].
  pose proof (validateScalarTypes_Paired node "" (Hpaired _ _ _ Hnode)).
  destruct (validateScalarTypes node "") as [[e|]|]; [by eauto| |done].
  destruct (yaml_node data 1); [by eauto| |by eauto].
  destruct (yaml_config data) as [cfg0|]; [|by eauto].
  destruct (Config_Validate cfg0) as [? [?|]]; eauto.
Qed.

(** C12. Validate accepts exactly the valid policies, once the telemetry defaults are
    filled in, and leaves every other setting as it was. *)
Theorem Config_Validate_spec c c' :
  Config_Validate c = (c', None) ↔ c' = Config_defaults c ∧ ValidConfig c'.
Proof. apply Config_Validate_None. Qed.
End parse.

(** A policy that Load returned is accepted again, unchanged, by the Validate that
    the plugin's constructor runs, even if the maps are then enumerated differently. *)
Lemma Load_revalidates (order1 order2 : MapRange) `{!Yaml} open path cfg :
  @Load order1 _ open path = Return (Ok cfg) →
  @Config_Validate order2 cfg = (cfg, None).
Proof.
  unfold Load. destruct (open path) as [r|]; [|done].
  intros [_ _ _ _ (cfg0 & _ & ->) Hvalid]%Parse_Ok.
  apply Config_Validate_None. by rewrite Config_defaults_idem.
Qed.

(** ** Example: one deployer, restricted to image updates of labelled services *)
Module Example.
Definition deployer : Client :=
  mkClient (mkIdentity (mkCertificate "deployer"))
    {[ "service" := {[ "update" :=
         mkPermission (Some (mkLabels {[ "team" := "web" ]})) None
           (Some (mkMutation ["container.image"])) ]} ]}.
Definition policy : Config :=
  mkConfig (mkAuthentication "deny")
    (Some (mkTelemetry "" ∅ (mkOTLP "" "" false ∅) (mkTraces false None) (mkMetrics false "")))
    {[ "deployer" := deployer ]}.
Definition scalar (value : string) : Node := mkNode ScalarNode 0 "!!str" value "" [].
Definition mapping (content : list Node) : Node := mkNode MappingNode 0 "!!map" "" "" content.
Definition document : Node :=
  mkNode DocumentNode 0 "" "" ""
    [mapping [scalar "authentication"; mapping [scalar "unidentified"; scalar "deny"]]].

(** A decoder that knows one document. *)
#[local] Instance decoder : Yaml := {|
  yaml_node data i := match i with O => Decoded document | _ => Decode_EOF end;
  yaml_config data := Some policy
|}.
Definition file (path : string) : option io_reader := Some (mkReader "policy" false).
Definition loaded : Config := Config_defaults policy.
#[local] Instance order : MapRange := sorted_range.

Lemma document_paired : Paired document.
Proof.
  assert (Hscalar : ∀ value, Paired (scalar value)) by (intros; by repeat constructor).
  assert (Hmap : ∀ k v, Paired v → Paired (mapping [scalar k; v])).
  { intros k v Hv. constructor; [by exists [(scalar k, v)]|]. by repeat constructor; try done. }
  constructor; [done|]. by constructor; [apply Hmap, Hmap, Hscalar|].
Qed.

Lemma Parse_total_witness :
  (∀ data i node, yaml_node data i = Decoded node → Paired node) ∧
  ∃ res, Parse (mkReader "policy" false) = Return res.
Proof.
  assert (Hpaired : ∀ data i node, yaml_node data i = Decoded node → Paired node).
  { intros data [|i] node [= <-]. exact document_paired. }
  split; [exact Hpaired|]. exact (Parse_total (mkReader "policy" false) Hpaired).
Defined.
End Example.
