(* ===== verification/Swarm.v ===== *)
(** * The Docker service specification, as the generated guards mirror it

    internal/mutation/equal_generated.go states the exact shape of every Docker type
    that swarm.ServiceSpec reaches: one struct conversion per type, which fails to
    compile when a field is added, removed or changes type.  The records below are
    those structs, field for field and in their order (a record [T] has projections
    [T_Field]).  A pointer and a slice are options, so that nil differs from empty;
    a map from strings is an option of a finite map.  Docker's named basic types
    (SeccompMode, RuntimeType, ...) are strings in its API. *)
From S2P Require Import Prelude.
From Stdlib Require Import SpecFloat.
Export SpecFloat.

(** ** Standard-library types *)
Abbreviation int64 := Z (only parsing).
Abbreviation uint64 := Z (only parsing).
Abbreviation uint32 := Z (only parsing).
Abbreviation Duration := Z (only parsing).
Abbreviation FileMode := Z (only parsing).

(** A float32 is an IEEE binary32 datum; [==] on it is not identity: the two zeros are
    equal and a NaN differs from itself. *)
Abbreviation float32 := spec_float (only parsing).
Definition float32_eqb : float32 → float32 → bool := SFeqb.

(** netip.Addr: a 128-bit address with the family and zone it was parsed with. *)
Inductive AddrZone := z0 | z4 | z6 (zone : string).
Record Addr := mkAddr { Addr_addr : Z; Addr_z : AddrZone }.
#[export] Instance AddrZone_eq_dec : EqDecision AddrZone.
Proof. solve_decision. Defined.
#[export] Instance Addr_eq_dec : EqDecision Addr.
Proof. solve_decision. Defined.
#[export] Instance byte_eq_dec : EqDecision Byte.byte := Byte.byte_eq_dec.

(** ** Docker's named basic types *)
Abbreviation AppArmorMode := string (only parsing).
Abbreviation FailureAction := string (only parsing).
Abbreviation IPProtocol := string (only parsing).
Abbreviation Isolation := string (only parsing).
Abbreviation PortConfigPublishMode := string (only parsing).
Abbreviation ResolutionMode := string (only parsing).
Abbreviation RestartPolicyCondition := string (only parsing).
Abbreviation RuntimeType := string (only parsing).
Abbreviation SeccompMode := string (only parsing).
Abbreviation UpdateOrder := string (only parsing).
Abbreviation mount_Consistency := string (only parsing).
Abbreviation mount_Propagation := string (only parsing).
Abbreviation mount_Type := string (only parsing).

(** ** Docker's struct types *)

(** swarm.Annotations *)
Record Annotations := mkAnnotations {
  Annotations_Name : string;
  Annotations_Labels : gomap string
}.

(** swarm.CredentialSpec *)
Record CredentialSpec := mkCredentialSpec {
  CredentialSpec_Config : string;
  CredentialSpec_File : string;
  CredentialSpec_Registry : string
}.

(** swarm.SELinuxContext *)
Record SELinuxContext := mkSELinuxContext {
  SELinuxContext_Disable : bool;
  SELinuxContext_User : string;
  SELinuxContext_Role : string;
  SELinuxContext_Type : string;
  SELinuxContext_Level : string
}.

(** swarm.SeccompOpts *)
Record SeccompOpts := mkSeccompOpts {
  SeccompOpts_Mode : SeccompMode;
  SeccompOpts_Profile : slice Byte.byte
}.

(** swarm.AppArmorOpts *)
Record AppArmorOpts := mkAppArmorOpts {
  AppArmorOpts_Mode : AppArmorMode
}.

(** swarm.Privileges *)
Record Privileges := mkPrivileges {
  Privileges_CredentialSpec : ptr CredentialSpec;
  Privileges_SELinuxContext : ptr SELinuxContext;
  Privileges_Seccomp : ptr SeccompOpts;
  Privileges_AppArmor : ptr AppArmorOpts;
  Privileges_NoNewPrivileges : bool
}.

(** mount.BindOptions *)
Record BindOptions := mkBindOptions {
  BindOptions_Propagation : mount_Propagation;
  BindOptions_NonRecursive : bool;
  BindOptions_CreateMountpoint : bool;
  BindOptions_ReadOnlyNonRecursive : bool;
  BindOptions_ReadOnlyForceRecursive : bool
}.

(** mount.Driver *)
Record mount_Driver := mkmount_Driver {
  mount_Driver_Name : string;
  mount_Driver_Options : gomap string
}.

(** mount.VolumeOptions *)
Record VolumeOptions := mkVolumeOptions {
  VolumeOptions_NoCopy : bool;
  VolumeOptions_Labels : gomap string;
  VolumeOptions_Subpath : string;
  VolumeOptions_DriverConfig : ptr mount_Driver
}.

(** mount.ImageOptions *)
Record ImageOptions := mkImageOptions {
  ImageOptions_Subpath : string
}.

(** mount.TmpfsOptions *)
Record TmpfsOptions := mkTmpfsOptions {
  TmpfsOptions_SizeBytes : int64;
  TmpfsOptions_Mode : FileMode;
  TmpfsOptions_Options : slice (slice string)
}.

(** mount.ClusterOptions *)
Record ClusterOptions := mkClusterOptions {}.

(** mount.Mount *)
Record Mount := mkMount {
  Mount_Type : mount_Type;
  Mount_Source : string;
  Mount_Target : string;
  Mount_ReadOnly : bool;
  Mount_Consistency : mount_Consistency;
  Mount_BindOptions : ptr BindOptions;
  Mount_VolumeOptions : ptr VolumeOptions;
  Mount_ImageOptions : ptr ImageOptions;
  Mount_TmpfsOptions : ptr TmpfsOptions;
  Mount_ClusterOptions : ptr ClusterOptions
}.

(** v1.HealthcheckConfig *)
Record HealthcheckConfig := mkHealthcheckConfig {
  HealthcheckConfig_Test : slice string;
  HealthcheckConfig_Interval : Duration;
  HealthcheckConfig_Timeout : Duration;
  HealthcheckConfig_StartPeriod : Duration;
  HealthcheckConfig_StartInterval : Duration;
  HealthcheckConfig_Retries : int64
}.

(** swarm.DNSConfig *)
Record DNSConfig := mkDNSConfig {
  DNSConfig_Nameservers : slice Addr;
  DNSConfig_Search : slice string;
  DNSConfig_Options : slice string
}.

(** swarm.SecretReferenceFileTarget *)
Record SecretReferenceFileTarget := mkSecretReferenceFileTarget {
  SecretReferenceFileTarget_Name : string;
  SecretReferenceFileTarget_UID : string;
  SecretReferenceFileTarget_GID : string;
  SecretReferenceFileTarget_Mode : FileMode
}.

(** swarm.SecretReference *)
Record SecretReference := mkSecretReference {
  SecretReference_File : ptr SecretReferenceFileTarget;
  SecretReference_SecretID : string;
  SecretReference_SecretName : string
}.

(** swarm.ConfigReferenceFileTarget *)
Record ConfigReferenceFileTarget := mkConfigReferenceFileTarget {
  ConfigReferenceFileTarget_Name : string;
  ConfigReferenceFileTarget_UID : string;
  ConfigReferenceFileTarget_GID : string;
  ConfigReferenceFileTarget_Mode : FileMode
}.

(** swarm.ConfigReferenceRuntimeTarget *)
Record ConfigReferenceRuntimeTarget := mkConfigReferenceRuntimeTarget {}.

(** swarm.ConfigReference *)
Record ConfigReference := mkConfigReference {
  ConfigReference_File : ptr ConfigReferenceFileTarget;
  ConfigReference_Runtime : ptr ConfigReferenceRuntimeTarget;
  ConfigReference_ConfigID : string;
  ConfigReference_ConfigName : string
}.

(** units.Ulimit *)
Record Ulimit := mkUlimit {
  Ulimit_Name : string;
  Ulimit_Hard : int64;
  Ulimit_Soft : int64
}.

(** swarm.ContainerSpec *)
Record ContainerSpec := mkContainerSpec {
  ContainerSpec_Image : string;
  ContainerSpec_Labels : gomap string;
  ContainerSpec_Command : slice string;
  ContainerSpec_Args : slice string;
  ContainerSpec_Hostname : string;
  ContainerSpec_Env : slice string;
  ContainerSpec_Dir : string;
  ContainerSpec_User : string;
  ContainerSpec_Groups : slice string;
  ContainerSpec_Privileges : ptr Privileges;
  ContainerSpec_Init : ptr bool;
  ContainerSpec_StopSignal : string;
  ContainerSpec_TTY : bool;
  ContainerSpec_OpenStdin : bool;
  ContainerSpec_ReadOnly : bool;
  ContainerSpec_Mounts : slice Mount;
  ContainerSpec_StopGracePeriod : ptr Duration;
  ContainerSpec_Healthcheck : ptr HealthcheckConfig;
  ContainerSpec_Hosts : slice string;
  ContainerSpec_DNSConfig : ptr DNSConfig;
  ContainerSpec_Secrets : slice (ptr SecretReference);
  ContainerSpec_Configs : slice (ptr ConfigReference);
  ContainerSpec_Isolation : Isolation;
  ContainerSpec_Sysctls : gomap string;
  ContainerSpec_CapabilityAdd : slice string;
  ContainerSpec_CapabilityDrop : slice string;
  ContainerSpec_Ulimits : slice (ptr Ulimit);
  ContainerSpec_OomScoreAdj : int64
}.

(** swarm.RuntimePrivilege *)
Record RuntimePrivilege := mkRuntimePrivilege {
  RuntimePrivilege_Name : string;
  RuntimePrivilege_Description : string;
  RuntimePrivilege_Value : slice string
}.

(** swarm.RuntimeSpec *)
Record RuntimeSpec := mkRuntimeSpec {
  RuntimeSpec_Name : string;
  RuntimeSpec_Remote : string;
  RuntimeSpec_Privileges : slice (ptr RuntimePrivilege);
  RuntimeSpec_Disabled : bool;
  RuntimeSpec_Env : slice string
}.

(** swarm.NetworkAttachmentSpec *)
Record NetworkAttachmentSpec := mkNetworkAttachmentSpec {
  NetworkAttachmentSpec_ContainerID : string
}.

(** swarm.Limit *)
Record Limit := mkLimit {
  Limit_NanoCPUs : int64;
  Limit_MemoryBytes : int64;
  Limit_Pids : int64
}.

(** swarm.NamedGenericResource *)
Record NamedGenericResource := mkNamedGenericResource {
  NamedGenericResource_Kind : string;
  NamedGenericResource_Value : string
}.

(** swarm.DiscreteGenericResource *)
Record DiscreteGenericResource := mkDiscreteGenericResource {
  DiscreteGenericResource_Kind : string;
  DiscreteGenericResource_Value : int64
}.

(** swarm.GenericResource *)
Record GenericResource := mkGenericResource {
  GenericResource_NamedResourceSpec : ptr NamedGenericResource;
  GenericResource_DiscreteResourceSpec : ptr DiscreteGenericResource
}.

(** swarm.Resources *)
Record Resources := mkResources {
  Resources_NanoCPUs : int64;
  Resources_MemoryBytes : int64;
  Resources_GenericResources : slice GenericResource
}.

(** swarm.ResourceRequirements *)
Record ResourceRequirements := mkResourceRequirements {
  ResourceRequirements_Limits : ptr Limit;
  ResourceRequirements_Reservations : ptr Resources;
  ResourceRequirements_SwapBytes : ptr int64;
  ResourceRequirements_MemorySwappiness : ptr int64
}.

(** swarm.RestartPolicy *)
Record RestartPolicy := mkRestartPolicy {
  RestartPolicy_Condition : RestartPolicyCondition;
  RestartPolicy_Delay : ptr Duration;
  RestartPolicy_MaxAttempts : ptr uint64;
  RestartPolicy_Window : ptr Duration
}.

(** swarm.SpreadOver *)
Record SpreadOver := mkSpreadOver {
  SpreadOver_SpreadDescriptor : string
}.

(** swarm.PlacementPreference *)
Record PlacementPreference := mkPlacementPreference {
  PlacementPreference_Spread : ptr SpreadOver
}.

(** swarm.Platform *)
Record Platform := mkPlatform {
  Platform_Architecture : string;
  Platform_OS : string
}.

(** swarm.Placement *)
Record Placement := mkPlacement {
  Placement_Constraints : slice string;
  Placement_Preferences : slice PlacementPreference;
  Placement_MaxReplicas : uint64;
  Placement_Platforms : slice Platform
}.

(** swarm.NetworkAttachmentConfig *)
Record NetworkAttachmentConfig := mkNetworkAttachmentConfig {
  NetworkAttachmentConfig_Target : string;
  NetworkAttachmentConfig_Aliases : slice string;
  NetworkAttachmentConfig_DriverOpts : gomap string
}.

(** swarm.Driver *)
Record Driver := mkDriver {
  Driver_Name : string;
  Driver_Options : gomap string
}.

(** swarm.TaskSpec *)
Record TaskSpec := mkTaskSpec {
  TaskSpec_ContainerSpec : ptr ContainerSpec;
  TaskSpec_PluginSpec : ptr RuntimeSpec;
  TaskSpec_NetworkAttachmentSpec : ptr NetworkAttachmentSpec;
  TaskSpec_Resources : ptr ResourceRequirements;
  TaskSpec_RestartPolicy : ptr RestartPolicy;
  TaskSpec_Placement : ptr Placement;
  TaskSpec_Networks : slice NetworkAttachmentConfig;
  TaskSpec_LogDriver : ptr Driver;
  TaskSpec_ForceUpdate : uint64;
  TaskSpec_Runtime : RuntimeType
}.

(** swarm.ReplicatedService *)
Record ReplicatedService := mkReplicatedService {
  ReplicatedService_Replicas : ptr uint64
}.

(** swarm.GlobalService *)
Record GlobalService := mkGlobalService {}.

(** swarm.ReplicatedJob *)
Record ReplicatedJob := mkReplicatedJob {
  ReplicatedJob_MaxConcurrent : ptr uint64;
  ReplicatedJob_TotalCompletions : ptr uint64
}.

(** swarm.GlobalJob *)
Record GlobalJob := mkGlobalJob {}.

(** swarm.ServiceMode *)
Record ServiceMode := mkServiceMode {
  ServiceMode_Replicated : ptr ReplicatedService;
  ServiceMode_Global : ptr GlobalService;
  ServiceMode_ReplicatedJob : ptr ReplicatedJob;
  ServiceMode_GlobalJob : ptr GlobalJob
}.

(** swarm.UpdateConfig *)
Record UpdateConfig := mkUpdateConfig {
  UpdateConfig_Parallelism : uint64;
  UpdateConfig_Delay : Duration;
  UpdateConfig_FailureAction : FailureAction;
  UpdateConfig_Monitor : Duration;
  UpdateConfig_MaxFailureRatio : float32;
  UpdateConfig_Order : UpdateOrder
}.

(** swarm.PortConfig *)
Record PortConfig := mkPortConfig {
  PortConfig_Name : string;
  PortConfig_Protocol : IPProtocol;
  PortConfig_TargetPort : uint32;
  PortConfig_PublishedPort : uint32;
  PortConfig_PublishMode : PortConfigPublishMode
}.

(** swarm.EndpointSpec *)
Record EndpointSpec := mkEndpointSpec {
  EndpointSpec_Mode : ResolutionMode;
  EndpointSpec_Ports : slice PortConfig
}.

(** swarm.ServiceSpec *)
Record ServiceSpec := mkServiceSpec {
  ServiceSpec_Annotations : Annotations;
  ServiceSpec_TaskTemplate : TaskSpec;
  ServiceSpec_Mode : ServiceMode;
  ServiceSpec_UpdateConfig : ptr UpdateConfig;
  ServiceSpec_RollbackConfig : ptr UpdateConfig;
  ServiceSpec_EndpointSpec : ptr EndpointSpec
}.

(** ** Assignments to a field, as the code makes them *)
Definition set_ContainerSpec_Secrets (x : slice (ptr SecretReference)) (r : ContainerSpec) : ContainerSpec :=
  mkContainerSpec (ContainerSpec_Image r) (ContainerSpec_Labels r) (ContainerSpec_Command r)
    (ContainerSpec_Args r) (ContainerSpec_Hostname r) (ContainerSpec_Env r)
    (ContainerSpec_Dir r) (ContainerSpec_User r) (ContainerSpec_Groups r)
    (ContainerSpec_Privileges r) (ContainerSpec_Init r) (ContainerSpec_StopSignal r)
    (ContainerSpec_TTY r) (ContainerSpec_OpenStdin r) (ContainerSpec_ReadOnly r)
    (ContainerSpec_Mounts r) (ContainerSpec_StopGracePeriod r) (ContainerSpec_Healthcheck r)
    (ContainerSpec_Hosts r) (ContainerSpec_DNSConfig r) x (ContainerSpec_Configs r)
    (ContainerSpec_Isolation r) (ContainerSpec_Sysctls r) (ContainerSpec_CapabilityAdd r)
    (ContainerSpec_CapabilityDrop r) (ContainerSpec_Ulimits r) (ContainerSpec_OomScoreAdj r).
Definition set_ContainerSpec_Image (x : string) (r : ContainerSpec) : ContainerSpec :=
  mkContainerSpec x (ContainerSpec_Labels r) (ContainerSpec_Command r) (ContainerSpec_Args
    r) (ContainerSpec_Hostname r) (ContainerSpec_Env r) (ContainerSpec_Dir r)
    (ContainerSpec_User r) (ContainerSpec_Groups r) (ContainerSpec_Privileges r)
    (ContainerSpec_Init r) (ContainerSpec_StopSignal r) (ContainerSpec_TTY r)
    (ContainerSpec_OpenStdin r) (ContainerSpec_ReadOnly r) (ContainerSpec_Mounts r)
    (ContainerSpec_StopGracePeriod r) (ContainerSpec_Healthcheck r) (ContainerSpec_Hosts r)
    (ContainerSpec_DNSConfig r) (ContainerSpec_Secrets r) (ContainerSpec_Configs r)
    (ContainerSpec_Isolation r) (ContainerSpec_Sysctls r) (ContainerSpec_CapabilityAdd r)
    (ContainerSpec_CapabilityDrop r) (ContainerSpec_Ulimits r) (ContainerSpec_OomScoreAdj r).
Definition set_TaskSpec_ContainerSpec (x : ptr ContainerSpec) (r : TaskSpec) : TaskSpec :=
  mkTaskSpec x (TaskSpec_PluginSpec r) (TaskSpec_NetworkAttachmentSpec r)
    (TaskSpec_Resources r) (TaskSpec_RestartPolicy r) (TaskSpec_Placement r)
    (TaskSpec_Networks r) (TaskSpec_LogDriver r) (TaskSpec_ForceUpdate r) (TaskSpec_Runtime
    r).
Definition set_ReplicatedService_Replicas (x : ptr uint64) (r : ReplicatedService) : ReplicatedService :=
  mkReplicatedService x.
Definition set_ServiceMode_Replicated (x : ptr ReplicatedService) (r : ServiceMode) : ServiceMode :=
  mkServiceMode x (ServiceMode_Global r) (ServiceMode_ReplicatedJob r)
    (ServiceMode_GlobalJob r).
Definition set_ServiceSpec_TaskTemplate (x : TaskSpec) (r : ServiceSpec) : ServiceSpec :=
  mkServiceSpec (ServiceSpec_Annotations r) x (ServiceSpec_Mode r) (ServiceSpec_UpdateConfig
    r) (ServiceSpec_RollbackConfig r) (ServiceSpec_EndpointSpec r).
Definition set_ServiceSpec_Mode (x : ServiceMode) (r : ServiceSpec) : ServiceSpec :=
  mkServiceSpec (ServiceSpec_Annotations r) (ServiceSpec_TaskTemplate r) x
    (ServiceSpec_UpdateConfig r) (ServiceSpec_RollbackConfig r) (ServiceSpec_EndpointSpec r).

(** ** Zero values *)
Local Open Scope Z_scope.
Definition zero_Annotations : Annotations :=
  mkAnnotations "" None.
Definition zero_ContainerSpec : ContainerSpec :=
  mkContainerSpec "" None None None "" None "" "" None None None "" false false false None
    None None None None None None "" None None None None 0.
Definition zero_TaskSpec : TaskSpec :=
  mkTaskSpec None None None None None None None None 0 "".
Definition zero_ServiceMode : ServiceMode :=
  mkServiceMode None None None None.
Definition zero_ServiceSpec : ServiceSpec :=
  mkServiceSpec zero_Annotations zero_TaskSpec zero_ServiceMode None None None.
