(* ===== verification/EqualGenerated.v ===== *)
(** * Generated equality of service specifications

    internal/mutation/equal_generated.go, function by function under the names the
    generator gave them, over the four templates of internal/mutation/generate/main.go.
    Every function but the ones that reach a float32 decides Leibniz equality
    (instances of [Decides]); [equalSpec] itself is characterized in EqualSpec.v. *)
From S2P Require Import Prelude Swarm.

Section generated.
Context `{!MapRange}.

(** ** The templates of the generator *)

(** *types.Pointer *)
Definition equal_pointer {A} (equal : A → A → bool) (a b : ptr A) : bool :=
  match a, b with
  | Some x, Some y => equal x y
  | None, None => true
  | _, _ => false
  end.

(** The length of a slice or map; nil has length 0. *)
Definition slice_len {A} (a : slice A) : nat := length (default [] a).
Definition map_len {V} (a : gomap V) : nat := size (default ∅ a).
Definition isNil {A} (a : option A) : bool := match a with None => true | Some _ => false end.

(** *types.Slice *)
Fixpoint equal_elements {A} (equal : A → A → bool) (a b : list A) : bool :=
  match a, b with
  | x :: a', y :: b' => if negb (equal x y) then false else equal_elements equal a' b'
  | _, _ => true
  end.
Definition equal_slice {A} (equal : A → A → bool) (a b : slice A) : bool :=
  if (isNil a != isNil b) || (slice_len a != slice_len b) then false
  else equal_elements equal (default [] a) (default [] b).

(** *types.Map *)
Fixpoint equal_entries {V} (equal : V → V → bool) (entries : list (string * V))
    (b : gmap string V) : bool :=
  match entries with
  | [] => true
  | (k, v) :: entries' =>
      match b !! k with
      | Some other => if equal v other then equal_entries equal entries' b else false
      | None => false
      end
  end.
Definition equal_map {V} (equal : V → V → bool) (a b : gomap V) : bool :=
  if (isNil a != isNil b) || (map_len a != map_len b) then false
  else equal_entries equal (range (default ∅ a)) (default ∅ b).

(** ** The generated functions *)
Definition equal2 (a b : string) : bool := a == b.
Definition equal3 : gomap string → gomap string → bool := equal_map equal2.
Definition equal1 (a b : Annotations) : bool :=
  equal2 (Annotations_Name a) (Annotations_Name b)
  && equal3 (Annotations_Labels a) (Annotations_Labels b).
Definition equal7 : gomap string → gomap string → bool := equal_map equal2.
Definition equal8 : slice string → slice string → bool := equal_slice equal2.
Definition equal9 : slice string → slice string → bool := equal_slice equal2.
Definition equal10 : slice string → slice string → bool := equal_slice equal2.
Definition equal11 : slice string → slice string → bool := equal_slice equal2.
Definition equal15 (a b : CredentialSpec) : bool :=
  equal2 (CredentialSpec_Config a) (CredentialSpec_Config b)
  && equal2 (CredentialSpec_File a) (CredentialSpec_File b)
  && equal2 (CredentialSpec_Registry a) (CredentialSpec_Registry b).
Definition equal14 : ptr CredentialSpec → ptr CredentialSpec → bool := equal_pointer equal15.
Definition equal18 (a b : bool) : bool := a == b.
Definition equal17 (a b : SELinuxContext) : bool :=
  equal18 (SELinuxContext_Disable a) (SELinuxContext_Disable b)
  && equal2 (SELinuxContext_User a) (SELinuxContext_User b)
  && equal2 (SELinuxContext_Role a) (SELinuxContext_Role b)
  && equal2 (SELinuxContext_Type a) (SELinuxContext_Type b)
  && equal2 (SELinuxContext_Level a) (SELinuxContext_Level b).
Definition equal16 : ptr SELinuxContext → ptr SELinuxContext → bool := equal_pointer equal17.
Definition equal21 (a b : SeccompMode) : bool := a == b.
Definition equal23 (a b : Byte.byte) : bool := a == b.
Definition equal22 : slice Byte.byte → slice Byte.byte → bool := equal_slice equal23.
Definition equal20 (a b : SeccompOpts) : bool :=
  equal21 (SeccompOpts_Mode a) (SeccompOpts_Mode b)
  && equal22 (SeccompOpts_Profile a) (SeccompOpts_Profile b).
Definition equal19 : ptr SeccompOpts → ptr SeccompOpts → bool := equal_pointer equal20.
Definition equal26 (a b : AppArmorMode) : bool := a == b.
Definition equal25 (a b : AppArmorOpts) : bool :=
  equal26 (AppArmorOpts_Mode a) (AppArmorOpts_Mode b).
Definition equal24 : ptr AppArmorOpts → ptr AppArmorOpts → bool := equal_pointer equal25.
Definition equal13 (a b : Privileges) : bool :=
  equal14 (Privileges_CredentialSpec a) (Privileges_CredentialSpec b)
  && equal16 (Privileges_SELinuxContext a) (Privileges_SELinuxContext b)
  && equal19 (Privileges_Seccomp a) (Privileges_Seccomp b)
  && equal24 (Privileges_AppArmor a) (Privileges_AppArmor b)
  && equal18 (Privileges_NoNewPrivileges a) (Privileges_NoNewPrivileges b).
Definition equal12 : ptr Privileges → ptr Privileges → bool := equal_pointer equal13.
Definition equal27 : ptr bool → ptr bool → bool := equal_pointer equal18.
Definition equal30 (a b : mount_Type) : bool := a == b.
Definition equal31 (a b : mount_Consistency) : bool := a == b.
Definition equal34 (a b : mount_Propagation) : bool := a == b.
Definition equal33 (a b : BindOptions) : bool :=
  equal34 (BindOptions_Propagation a) (BindOptions_Propagation b)
  && equal18 (BindOptions_NonRecursive a) (BindOptions_NonRecursive b)
  && equal18 (BindOptions_CreateMountpoint a) (BindOptions_CreateMountpoint b)
  && equal18 (BindOptions_ReadOnlyNonRecursive a) (BindOptions_ReadOnlyNonRecursive b)
  && equal18 (BindOptions_ReadOnlyForceRecursive a) (BindOptions_ReadOnlyForceRecursive b).
Definition equal32 : ptr BindOptions → ptr BindOptions → bool := equal_pointer equal33.
Definition equal37 : gomap string → gomap string → bool := equal_map equal2.
Definition equal40 : gomap string → gomap string → bool := equal_map equal2.
Definition equal39 (a b : mount_Driver) : bool :=
  equal2 (mount_Driver_Name a) (mount_Driver_Name b)
  && equal40 (mount_Driver_Options a) (mount_Driver_Options b).
Definition equal38 : ptr mount_Driver → ptr mount_Driver → bool := equal_pointer equal39.
Definition equal36 (a b : VolumeOptions) : bool :=
  equal18 (VolumeOptions_NoCopy a) (VolumeOptions_NoCopy b)
  && equal37 (VolumeOptions_Labels a) (VolumeOptions_Labels b)
  && equal2 (VolumeOptions_Subpath a) (VolumeOptions_Subpath b)
  && equal38 (VolumeOptions_DriverConfig a) (VolumeOptions_DriverConfig b).
Definition equal35 : ptr VolumeOptions → ptr VolumeOptions → bool := equal_pointer equal36.
Definition equal42 (a b : ImageOptions) : bool :=
  equal2 (ImageOptions_Subpath a) (ImageOptions_Subpath b).
Definition equal41 : ptr ImageOptions → ptr ImageOptions → bool := equal_pointer equal42.
Definition equal45 (a b : int64) : bool := a == b.
Definition equal46 (a b : FileMode) : bool := a == b.
Definition equal48 : slice string → slice string → bool := equal_slice equal2.
Definition equal47 : slice (slice string) → slice (slice string) → bool := equal_slice equal48.
Definition equal44 (a b : TmpfsOptions) : bool :=
  equal45 (TmpfsOptions_SizeBytes a) (TmpfsOptions_SizeBytes b)
  && equal46 (TmpfsOptions_Mode a) (TmpfsOptions_Mode b)
  && equal47 (TmpfsOptions_Options a) (TmpfsOptions_Options b).
Definition equal43 : ptr TmpfsOptions → ptr TmpfsOptions → bool := equal_pointer equal44.
Definition equal50 (a b : ClusterOptions) : bool := true.
Definition equal49 : ptr ClusterOptions → ptr ClusterOptions → bool := equal_pointer equal50.
Definition equal29 (a b : Mount) : bool :=
  equal30 (Mount_Type a) (Mount_Type b)
  && equal2 (Mount_Source a) (Mount_Source b)
  && equal2 (Mount_Target a) (Mount_Target b)
  && equal18 (Mount_ReadOnly a) (Mount_ReadOnly b)
  && equal31 (Mount_Consistency a) (Mount_Consistency b)
  && equal32 (Mount_BindOptions a) (Mount_BindOptions b)
  && equal35 (Mount_VolumeOptions a) (Mount_VolumeOptions b)
  && equal41 (Mount_ImageOptions a) (Mount_ImageOptions b)
  && equal43 (Mount_TmpfsOptions a) (Mount_TmpfsOptions b)
  && equal49 (Mount_ClusterOptions a) (Mount_ClusterOptions b).
Definition equal28 : slice Mount → slice Mount → bool := equal_slice equal29.
Definition equal52 (a b : Duration) : bool := a == b.
Definition equal51 : ptr Duration → ptr Duration → bool := equal_pointer equal52.
Definition equal55 : slice string → slice string → bool := equal_slice equal2.
Definition equal56 (a b : int64) : bool := a == b.
Definition equal54 (a b : HealthcheckConfig) : bool :=
  equal55 (HealthcheckConfig_Test a) (HealthcheckConfig_Test b)
  && equal52 (HealthcheckConfig_Interval a) (HealthcheckConfig_Interval b)
  && equal52 (HealthcheckConfig_Timeout a) (HealthcheckConfig_Timeout b)
  && equal52 (HealthcheckConfig_StartPeriod a) (HealthcheckConfig_StartPeriod b)
  && equal52 (HealthcheckConfig_StartInterval a) (HealthcheckConfig_StartInterval b)
  && equal56 (HealthcheckConfig_Retries a) (HealthcheckConfig_Retries b).
Definition equal53 : ptr HealthcheckConfig → ptr HealthcheckConfig → bool := equal_pointer equal54.
Definition equal57 : slice string → slice string → bool := equal_slice equal2.
Definition equal61 (a b : Addr) : bool := a == b.
Definition equal60 : slice Addr → slice Addr → bool := equal_slice equal61.
Definition equal62 : slice string → slice string → bool := equal_slice equal2.
Definition equal63 : slice string → slice string → bool := equal_slice equal2.
Definition equal59 (a b : DNSConfig) : bool :=
  equal60 (DNSConfig_Nameservers a) (DNSConfig_Nameservers b)
  && equal62 (DNSConfig_Search a) (DNSConfig_Search b)
  && equal63 (DNSConfig_Options a) (DNSConfig_Options b).
Definition equal58 : ptr DNSConfig → ptr DNSConfig → bool := equal_pointer equal59.
Definition equal68 (a b : SecretReferenceFileTarget) : bool :=
  equal2 (SecretReferenceFileTarget_Name a) (SecretReferenceFileTarget_Name b)
  && equal2 (SecretReferenceFileTarget_UID a) (SecretReferenceFileTarget_UID b)
  && equal2 (SecretReferenceFileTarget_GID a) (SecretReferenceFileTarget_GID b)
  && equal46 (SecretReferenceFileTarget_Mode a) (SecretReferenceFileTarget_Mode b).
Definition equal67 : ptr SecretReferenceFileTarget → ptr SecretReferenceFileTarget → bool := equal_pointer equal68.
Definition equal66 (a b : SecretReference) : bool :=
  equal67 (SecretReference_File a) (SecretReference_File b)
  && equal2 (SecretReference_SecretID a) (SecretReference_SecretID b)
  && equal2 (SecretReference_SecretName a) (SecretReference_SecretName b).
Definition equal65 : ptr SecretReference → ptr SecretReference → bool := equal_pointer equal66.
Definition equal64 : slice (ptr SecretReference) → slice (ptr SecretReference) → bool := equal_slice equal65.
Definition equal73 (a b : ConfigReferenceFileTarget) : bool :=
  equal2 (ConfigReferenceFileTarget_Name a) (ConfigReferenceFileTarget_Name b)
  && equal2 (ConfigReferenceFileTarget_UID a) (ConfigReferenceFileTarget_UID b)
  && equal2 (ConfigReferenceFileTarget_GID a) (ConfigReferenceFileTarget_GID b)
  && equal46 (ConfigReferenceFileTarget_Mode a) (ConfigReferenceFileTarget_Mode b).
Definition equal72 : ptr ConfigReferenceFileTarget → ptr ConfigReferenceFileTarget → bool := equal_pointer equal73.
Definition equal75 (a b : ConfigReferenceRuntimeTarget) : bool := true.
Definition equal74 : ptr ConfigReferenceRuntimeTarget → ptr ConfigReferenceRuntimeTarget → bool := equal_pointer equal75.
Definition equal71 (a b : ConfigReference) : bool :=
  equal72 (ConfigReference_File a) (ConfigReference_File b)
  && equal74 (ConfigReference_Runtime a) (ConfigReference_Runtime b)
  && equal2 (ConfigReference_ConfigID a) (ConfigReference_ConfigID b)
  && equal2 (ConfigReference_ConfigName a) (ConfigReference_ConfigName b).
Definition equal70 : ptr ConfigReference → ptr ConfigReference → bool := equal_pointer equal71.
Definition equal69 : slice (ptr ConfigReference) → slice (ptr ConfigReference) → bool := equal_slice equal70.
Definition equal76 (a b : Isolation) : bool := a == b.
Definition equal77 : gomap string → gomap string → bool := equal_map equal2.
Definition equal78 : slice string → slice string → bool := equal_slice equal2.
Definition equal79 : slice string → slice string → bool := equal_slice equal2.
Definition equal82 (a b : Ulimit) : bool :=
  equal2 (Ulimit_Name a) (Ulimit_Name b)
  && equal45 (Ulimit_Hard a) (Ulimit_Hard b)
  && equal45 (Ulimit_Soft a) (Ulimit_Soft b).
Definition equal81 : ptr Ulimit → ptr Ulimit → bool := equal_pointer equal82.
Definition equal80 : slice (ptr Ulimit) → slice (ptr Ulimit) → bool := equal_slice equal81.
Definition equal6 (a b : ContainerSpec) : bool :=
  equal2 (ContainerSpec_Image a) (ContainerSpec_Image b)
  && equal7 (ContainerSpec_Labels a) (ContainerSpec_Labels b)
  && equal8 (ContainerSpec_Command a) (ContainerSpec_Command b)
  && equal9 (ContainerSpec_Args a) (ContainerSpec_Args b)
  && equal2 (ContainerSpec_Hostname a) (ContainerSpec_Hostname b)
  && equal10 (ContainerSpec_Env a) (ContainerSpec_Env b)
  && equal2 (ContainerSpec_Dir a) (ContainerSpec_Dir b)
  && equal2 (ContainerSpec_User a) (ContainerSpec_User b)
  && equal11 (ContainerSpec_Groups a) (ContainerSpec_Groups b)
  && equal12 (ContainerSpec_Privileges a) (ContainerSpec_Privileges b)
  && equal27 (ContainerSpec_Init a) (ContainerSpec_Init b)
  && equal2 (ContainerSpec_StopSignal a) (ContainerSpec_StopSignal b)
  && equal18 (ContainerSpec_TTY a) (ContainerSpec_TTY b)
  && equal18 (ContainerSpec_OpenStdin a) (ContainerSpec_OpenStdin b)
  && equal18 (ContainerSpec_ReadOnly a) (ContainerSpec_ReadOnly b)
  && equal28 (ContainerSpec_Mounts a) (ContainerSpec_Mounts b)
  && equal51 (ContainerSpec_StopGracePeriod a) (ContainerSpec_StopGracePeriod b)
  && equal53 (ContainerSpec_Healthcheck a) (ContainerSpec_Healthcheck b)
  && equal57 (ContainerSpec_Hosts a) (ContainerSpec_Hosts b)
  && equal58 (ContainerSpec_DNSConfig a) (ContainerSpec_DNSConfig b)
  && equal64 (ContainerSpec_Secrets a) (ContainerSpec_Secrets b)
  && equal69 (ContainerSpec_Configs a) (ContainerSpec_Configs b)
  && equal76 (ContainerSpec_Isolation a) (ContainerSpec_Isolation b)
  && equal77 (ContainerSpec_Sysctls a) (ContainerSpec_Sysctls b)
  && equal78 (ContainerSpec_CapabilityAdd a) (ContainerSpec_CapabilityAdd b)
  && equal79 (ContainerSpec_CapabilityDrop a) (ContainerSpec_CapabilityDrop b)
  && equal80 (ContainerSpec_Ulimits a) (ContainerSpec_Ulimits b)
  && equal45 (ContainerSpec_OomScoreAdj a) (ContainerSpec_OomScoreAdj b).
Definition equal5 : ptr ContainerSpec → ptr ContainerSpec → bool := equal_pointer equal6.
Definition equal88 : slice string → slice string → bool := equal_slice equal2.
Definition equal87 (a b : RuntimePrivilege) : bool :=
  equal2 (RuntimePrivilege_Name a) (RuntimePrivilege_Name b)
  && equal2 (RuntimePrivilege_Description a) (RuntimePrivilege_Description b)
  && equal88 (RuntimePrivilege_Value a) (RuntimePrivilege_Value b).
Definition equal86 : ptr RuntimePrivilege → ptr RuntimePrivilege → bool := equal_pointer equal87.
Definition equal85 : slice (ptr RuntimePrivilege) → slice (ptr RuntimePrivilege) → bool := equal_slice equal86.
Definition equal89 : slice string → slice string → bool := equal_slice equal2.
Definition equal84 (a b : RuntimeSpec) : bool :=
  equal2 (RuntimeSpec_Name a) (RuntimeSpec_Name b)
  && equal2 (RuntimeSpec_Remote a) (RuntimeSpec_Remote b)
  && equal85 (RuntimeSpec_Privileges a) (RuntimeSpec_Privileges b)
  && equal18 (RuntimeSpec_Disabled a) (RuntimeSpec_Disabled b)
  && equal89 (RuntimeSpec_Env a) (RuntimeSpec_Env b).
Definition equal83 : ptr RuntimeSpec → ptr RuntimeSpec → bool := equal_pointer equal84.
Definition equal91 (a b : NetworkAttachmentSpec) : bool :=
  equal2 (NetworkAttachmentSpec_ContainerID a) (NetworkAttachmentSpec_ContainerID b).
Definition equal90 : ptr NetworkAttachmentSpec → ptr NetworkAttachmentSpec → bool := equal_pointer equal91.
Definition equal95 (a b : Limit) : bool :=
  equal45 (Limit_NanoCPUs a) (Limit_NanoCPUs b)
  && equal45 (Limit_MemoryBytes a) (Limit_MemoryBytes b)
  && equal45 (Limit_Pids a) (Limit_Pids b).
Definition equal94 : ptr Limit → ptr Limit → bool := equal_pointer equal95.
Definition equal101 (a b : NamedGenericResource) : bool :=
  equal2 (NamedGenericResource_Kind a) (NamedGenericResource_Kind b)
  && equal2 (NamedGenericResource_Value a) (NamedGenericResource_Value b).
Definition equal100 : ptr NamedGenericResource → ptr NamedGenericResource → bool := equal_pointer equal101.
Definition equal103 (a b : DiscreteGenericResource) : bool :=
  equal2 (DiscreteGenericResource_Kind a) (DiscreteGenericResource_Kind b)
  && equal45 (DiscreteGenericResource_Value a) (DiscreteGenericResource_Value b).
Definition equal102 : ptr DiscreteGenericResource → ptr DiscreteGenericResource → bool := equal_pointer equal103.
Definition equal99 (a b : GenericResource) : bool :=
  equal100 (GenericResource_NamedResourceSpec a) (GenericResource_NamedResourceSpec b)
  && equal102 (GenericResource_DiscreteResourceSpec a) (GenericResource_DiscreteResourceSpec b).
Definition equal98 : slice GenericResource → slice GenericResource → bool := equal_slice equal99.
Definition equal97 (a b : Resources) : bool :=
  equal45 (Resources_NanoCPUs a) (Resources_NanoCPUs b)
  && equal45 (Resources_MemoryBytes a) (Resources_MemoryBytes b)
  && equal98 (Resources_GenericResources a) (Resources_GenericResources b).
Definition equal96 : ptr Resources → ptr Resources → bool := equal_pointer equal97.
Definition equal104 : ptr int64 → ptr int64 → bool := equal_pointer equal45.
Definition equal105 : ptr int64 → ptr int64 → bool := equal_pointer equal45.
Definition equal93 (a b : ResourceRequirements) : bool :=
  equal94 (ResourceRequirements_Limits a) (ResourceRequirements_Limits b)
  && equal96 (ResourceRequirements_Reservations a) (ResourceRequirements_Reservations b)
  && equal104 (ResourceRequirements_SwapBytes a) (ResourceRequirements_SwapBytes b)
  && equal105 (ResourceRequirements_MemorySwappiness a) (ResourceRequirements_MemorySwappiness b).
Definition equal92 : ptr ResourceRequirements → ptr ResourceRequirements → bool := equal_pointer equal93.
Definition equal108 (a b : RestartPolicyCondition) : bool := a == b.
Definition equal109 : ptr Duration → ptr Duration → bool := equal_pointer equal52.
Definition equal111 (a b : uint64) : bool := a == b.
Definition equal110 : ptr uint64 → ptr uint64 → bool := equal_pointer equal111.
Definition equal112 : ptr Duration → ptr Duration → bool := equal_pointer equal52.
Definition equal107 (a b : RestartPolicy) : bool :=
  equal108 (RestartPolicy_Condition a) (RestartPolicy_Condition b)
  && equal109 (RestartPolicy_Delay a) (RestartPolicy_Delay b)
  && equal110 (RestartPolicy_MaxAttempts a) (RestartPolicy_MaxAttempts b)
  && equal112 (RestartPolicy_Window a) (RestartPolicy_Window b).
Definition equal106 : ptr RestartPolicy → ptr RestartPolicy → bool := equal_pointer equal107.
Definition equal115 : slice string → slice string → bool := equal_slice equal2.
Definition equal119 (a b : SpreadOver) : bool :=
  equal2 (SpreadOver_SpreadDescriptor a) (SpreadOver_SpreadDescriptor b).
Definition equal118 : ptr SpreadOver → ptr SpreadOver → bool := equal_pointer equal119.
Definition equal117 (a b : PlacementPreference) : bool :=
  equal118 (PlacementPreference_Spread a) (PlacementPreference_Spread b).
Definition equal116 : slice PlacementPreference → slice PlacementPreference → bool := equal_slice equal117.
Definition equal121 (a b : Platform) : bool :=
  equal2 (Platform_Architecture a) (Platform_Architecture b)
  && equal2 (Platform_OS a) (Platform_OS b).
Definition equal120 : slice Platform → slice Platform → bool := equal_slice equal121.
Definition equal114 (a b : Placement) : bool :=
  equal115 (Placement_Constraints a) (Placement_Constraints b)
  && equal116 (Placement_Preferences a) (Placement_Preferences b)
  && equal111 (Placement_MaxReplicas a) (Placement_MaxReplicas b)
  && equal120 (Placement_Platforms a) (Placement_Platforms b).
Definition equal113 : ptr Placement → ptr Placement → bool := equal_pointer equal114.
Definition equal124 : slice string → slice string → bool := equal_slice equal2.
Definition equal125 : gomap string → gomap string → bool := equal_map equal2.
Definition equal123 (a b : NetworkAttachmentConfig) : bool :=
  equal2 (NetworkAttachmentConfig_Target a) (NetworkAttachmentConfig_Target b)
  && equal124 (NetworkAttachmentConfig_Aliases a) (NetworkAttachmentConfig_Aliases b)
  && equal125 (NetworkAttachmentConfig_DriverOpts a) (NetworkAttachmentConfig_DriverOpts b).
Definition equal122 : slice NetworkAttachmentConfig → slice NetworkAttachmentConfig → bool := equal_slice equal123.
Definition equal128 : gomap string → gomap string → bool := equal_map equal2.
Definition equal127 (a b : Driver) : bool :=
  equal2 (Driver_Name a) (Driver_Name b)
  && equal128 (Driver_Options a) (Driver_Options b).
Definition equal126 : ptr Driver → ptr Driver → bool := equal_pointer equal127.
Definition equal129 (a b : RuntimeType) : bool := a == b.
Definition equal4 (a b : TaskSpec) : bool :=
  equal5 (TaskSpec_ContainerSpec a) (TaskSpec_ContainerSpec b)
  && equal83 (TaskSpec_PluginSpec a) (TaskSpec_PluginSpec b)
  && equal90 (TaskSpec_NetworkAttachmentSpec a) (TaskSpec_NetworkAttachmentSpec b)
  && equal92 (TaskSpec_Resources a) (TaskSpec_Resources b)
  && equal106 (TaskSpec_RestartPolicy a) (TaskSpec_RestartPolicy b)
  && equal113 (TaskSpec_Placement a) (TaskSpec_Placement b)
  && equal122 (TaskSpec_Networks a) (TaskSpec_Networks b)
  && equal126 (TaskSpec_LogDriver a) (TaskSpec_LogDriver b)
  && equal111 (TaskSpec_ForceUpdate a) (TaskSpec_ForceUpdate b)
  && equal129 (TaskSpec_Runtime a) (TaskSpec_Runtime b).
Definition equal133 : ptr uint64 → ptr uint64 → bool := equal_pointer equal111.
Definition equal132 (a b : ReplicatedService) : bool :=
  equal133 (ReplicatedService_Replicas a) (ReplicatedService_Replicas b).
Definition equal131 : ptr ReplicatedService → ptr ReplicatedService → bool := equal_pointer equal132.
Definition equal135 (a b : GlobalService) : bool := true.
Definition equal134 : ptr GlobalService → ptr GlobalService → bool := equal_pointer equal135.
Definition equal138 : ptr uint64 → ptr uint64 → bool := equal_pointer equal111.
Definition equal139 : ptr uint64 → ptr uint64 → bool := equal_pointer equal111.
Definition equal137 (a b : ReplicatedJob) : bool :=
  equal138 (ReplicatedJob_MaxConcurrent a) (ReplicatedJob_MaxConcurrent b)
  && equal139 (ReplicatedJob_TotalCompletions a) (ReplicatedJob_TotalCompletions b).
Definition equal136 : ptr ReplicatedJob → ptr ReplicatedJob → bool := equal_pointer equal137.
Definition equal141 (a b : GlobalJob) : bool := true.
Definition equal140 : ptr GlobalJob → ptr GlobalJob → bool := equal_pointer equal141.
Definition equal130 (a b : ServiceMode) : bool :=
  equal131 (ServiceMode_Replicated a) (ServiceMode_Replicated b)
  && equal134 (ServiceMode_Global a) (ServiceMode_Global b)
  && equal136 (ServiceMode_ReplicatedJob a) (ServiceMode_ReplicatedJob b)
  && equal140 (ServiceMode_GlobalJob a) (ServiceMode_GlobalJob b).
Definition equal144 (a b : FailureAction) : bool := a == b.
Definition equal145 (a b : float32) : bool := float32_eqb a b.
Definition equal146 (a b : UpdateOrder) : bool := a == b.
Definition equal143 (a b : UpdateConfig) : bool :=
  equal111 (UpdateConfig_Parallelism a) (UpdateConfig_Parallelism b)
  && equal52 (UpdateConfig_Delay a) (UpdateConfig_Delay b)
  && equal144 (UpdateConfig_FailureAction a) (UpdateConfig_FailureAction b)
  && equal52 (UpdateConfig_Monitor a) (UpdateConfig_Monitor b)
  && equal145 (UpdateConfig_MaxFailureRatio a) (UpdateConfig_MaxFailureRatio b)
  && equal146 (UpdateConfig_Order a) (UpdateConfig_Order b).
Definition equal142 : ptr UpdateConfig → ptr UpdateConfig → bool := equal_pointer equal143.
Definition equal147 : ptr UpdateConfig → ptr UpdateConfig → bool := equal_pointer equal143.
Definition equal150 (a b : ResolutionMode) : bool := a == b.
Definition equal153 (a b : IPProtocol) : bool := a == b.
Definition equal154 (a b : uint32) : bool := a == b.
Definition equal155 (a b : PortConfigPublishMode) : bool := a == b.
Definition equal152 (a b : PortConfig) : bool :=
  equal2 (PortConfig_Name a) (PortConfig_Name b)
  && equal153 (PortConfig_Protocol a) (PortConfig_Protocol b)
  && equal154 (PortConfig_TargetPort a) (PortConfig_TargetPort b)
  && equal154 (PortConfig_PublishedPort a) (PortConfig_PublishedPort b)
  && equal155 (PortConfig_PublishMode a) (PortConfig_PublishMode b).
Definition equal151 : slice PortConfig → slice PortConfig → bool := equal_slice equal152.
Definition equal149 (a b : EndpointSpec) : bool :=
  equal150 (EndpointSpec_Mode a) (EndpointSpec_Mode b)
  && equal151 (EndpointSpec_Ports a) (EndpointSpec_Ports b).
Definition equal148 : ptr EndpointSpec → ptr EndpointSpec → bool := equal_pointer equal149.
Definition equal0 (a b : ServiceSpec) : bool :=
  equal1 (ServiceSpec_Annotations a) (ServiceSpec_Annotations b)
  && equal4 (ServiceSpec_TaskTemplate a) (ServiceSpec_TaskTemplate b)
  && equal130 (ServiceSpec_Mode a) (ServiceSpec_Mode b)
  && equal142 (ServiceSpec_UpdateConfig a) (ServiceSpec_UpdateConfig b)
  && equal147 (ServiceSpec_RollbackConfig a) (ServiceSpec_RollbackConfig b)
  && equal148 (ServiceSpec_EndpointSpec a) (ServiceSpec_EndpointSpec b).
Definition equalSpec (a b : ServiceSpec) : bool := equal0 a b.

End generated.
