(* ===== verification/EqualSpec.v ===== *)
(** * What the generated equality decides

    [Decides f] says that a generated function decides Leibniz equality; the instances
    follow the generated functions one by one, so a field that a function forgets
    leaves its instance unprovable.  Only swarm.UpdateConfig holds a float32; from there
    up to [equalSpec] the equality is [≡]: equal up to the sign of a zero ratio. *)
From S2P Require Import Prelude Swarm EqualGenerated.

Class Decides {A : Type} (f : A → A → bool) : Prop :=
  decides a b : f a b = true ↔ a = b.

(** ** The templates preserve decision *)
Lemma decides_and (p q : bool) (P Q : Prop) :
  (p = true ↔ P) → (q = true ↔ Q) → (p && q = true ↔ P ∧ Q).
Proof. by rewrite andb_true_iff; intros -> ->. Qed.

Lemma equal_elements_spec {A} (f : A → A → bool) (R : A → A → Prop) :
  (∀ x y, f x y = true ↔ R x y) →
  ∀ a b, length a = length b → equal_elements f a b = true ↔ Forall2 R a b.
Proof.
  intros Hf a b Hlen.
  revert b Hlen. induction a as [|x a IH]; intros [|y b] Hlen; simpl; [..|].
  - by rewrite Forall2_nil.
  - done.
  - done.
  - rewrite Forall2_cons, <- Hf. injection Hlen as Hlen.
    destruct (f x y); cbn [negb]; [|naive_solver]. rewrite (IH b Hlen). naive_solver.
Qed.

Lemma isNil_eq {A} (a b : option A) : (isNil a != isNil b) = false ↔ (a = None ↔ b = None).
Proof. rewrite negb_false_iff, bool_decide_eq_true. destruct a, b; naive_solver. Qed.

Section decides.
Context `{!MapRange}.

#[export] Instance pointer_decides {A} (f : A → A → bool) :
  Decides f → Decides (equal_pointer f).
Proof.
  intros Hf [a|] [b|]; simpl; [|done..]. rewrite (decides (f := f)). naive_solver.
Qed.

#[export] Instance slice_decides {A} (f : A → A → bool) :
  Decides f → Decides (equal_slice f).
Proof.
  intros Hf a b. unfold equal_slice, slice_len.
  destruct (_ || _) eqn:Hg.
  - split; [done|]. intros ->. apply orb_true_iff in Hg. guards. naive_solver.
  - apply orb_false_iff in Hg as [Hnil%isNil_eq Hlen%negb_false_iff%bool_decide_eq_true].
    rewrite (equal_elements_spec f eq decides) by done. rewrite <- list_eq_Forall2.
    destruct a, b; simpl; naive_solver.
Qed.

Lemma equal_entries_spec {V} (f : V → V → bool) entries (b : gmap string V) :
  equal_entries f entries b = true ↔
  ∀ k v, (k, v) ∈ entries → ∃ other, b !! k = Some other ∧ f v other = true.
Proof.
  induction entries as [|[k v] entries IH]; cbn [equal_entries].
  { split; [|done]. intros _ k v []%not_elem_of_nil. }
  setoid_rewrite elem_of_cons. split.
  - destruct (b !! k) as [other|] eqn:Hb; [|done]. destruct (f v other) eqn:Hf; [|done].
    rewrite IH. intros Hall k' v' [[= -> ->]|Hin]; eauto.
  - intros Hall. destruct (Hall k v) as (other & -> & ->); [by left|].
    apply IH. intros k' v' Hin. apply Hall. by right.
Qed.

#[export] Instance map_decides {V} (f : V → V → bool) :
  Decides f → Decides (equal_map f).
Proof.
  intros Hf a b. unfold equal_map, map_len.
  destruct (_ || _) eqn:Hg.
  - split; [done|]. intros ->. apply orb_true_iff in Hg. guards. naive_solver.
  - apply orb_false_iff in Hg as [Hnil%isNil_eq Hlen%negb_false_iff%bool_decide_eq_true].
    rewrite equal_entries_spec. setoid_rewrite elem_of_range. split.
    + intros Hall. assert (default ∅ a = default ∅ b) as Heq.
      { apply map_subseteq_size_eq; [|by apply Nat.eq_le_incl].
        apply map_subseteq_spec. intros k v Hk.
        by destruct (Hall k v Hk) as (other & Hb & <-%decides). }
      destruct a, b; simpl in *; naive_solver.
    + intros -> k v Hk. exists v. split; [done|]. by apply decides.
Qed.

(** ** The generated functions *)
Tactic Notation "solve_decides" reference(f) :=
  unfold f;
  first
  [ apply _
  | intros a b; apply bool_decide_eq_true
  | intros [] []; done
  | intros a b; eapply iff_trans;
    [ repeat lazymatch goal with
             | |- _ && _ = true ↔ _ => eapply decides_and
             end; apply decides
    | split; [destruct a, b; cbn; intros; destruct_and?; by subst | by intros ->] ] ].

#[export] Instance equal2_decides : Decides equal2.
Proof. solve_decides equal2. Qed.
#[export] Instance equal3_decides : Decides equal3.
Proof. solve_decides equal3. Qed.
#[export] Instance equal1_decides : Decides equal1.
Proof. solve_decides equal1. Qed.
#[export] Instance equal7_decides : Decides equal7.
Proof. solve_decides equal7. Qed.
#[export] Instance equal8_decides : Decides equal8.
Proof. solve_decides equal8. Qed.
#[export] Instance equal9_decides : Decides equal9.
Proof. solve_decides equal9. Qed.
#[export] Instance equal10_decides : Decides equal10.
Proof. solve_decides equal10. Qed.
#[export] Instance equal11_decides : Decides equal11.
Proof. solve_decides equal11. Qed.
#[export] Instance equal15_decides : Decides equal15.
Proof. solve_decides equal15. Qed.
#[export] Instance equal14_decides : Decides equal14.
Proof. solve_decides equal14. Qed.
#[export] Instance equal18_decides : Decides equal18.
Proof. solve_decides equal18. Qed.
#[export] Instance equal17_decides : Decides equal17.
Proof. solve_decides equal17. Qed.
#[export] Instance equal16_decides : Decides equal16.
Proof. solve_decides equal16. Qed.
#[export] Instance equal21_decides : Decides equal21.
Proof. solve_decides equal21. Qed.
#[export] Instance equal23_decides : Decides equal23.
Proof. solve_decides equal23. Qed.
#[export] Instance equal22_decides : Decides equal22.
Proof. solve_decides equal22. Qed.
#[export] Instance equal20_decides : Decides equal20.
Proof. solve_decides equal20. Qed.
#[export] Instance equal19_decides : Decides equal19.
Proof. solve_decides equal19. Qed.
#[export] Instance equal26_decides : Decides equal26.
Proof. solve_decides equal26. Qed.
#[export] Instance equal25_decides : Decides equal25.
Proof. solve_decides equal25. Qed.
#[export] Instance equal24_decides : Decides equal24.
Proof. solve_decides equal24. Qed.
#[export] Instance equal13_decides : Decides equal13.
Proof. solve_decides equal13. Qed.
#[export] Instance equal12_decides : Decides equal12.
Proof. solve_decides equal12. Qed.
#[export] Instance equal27_decides : Decides equal27.
Proof. solve_decides equal27. Qed.
#[export] Instance equal30_decides : Decides equal30.
Proof. solve_decides equal30. Qed.
#[export] Instance equal31_decides : Decides equal31.
Proof. solve_decides equal31. Qed.
#[export] Instance equal34_decides : Decides equal34.
Proof. solve_decides equal34. Qed.
#[export] Instance equal33_decides : Decides equal33.
Proof. solve_decides equal33. Qed.
#[export] Instance equal32_decides : Decides equal32.
Proof. solve_decides equal32. Qed.
#[export] Instance equal37_decides : Decides equal37.
Proof. solve_decides equal37. Qed.
#[export] Instance equal40_decides : Decides equal40.
Proof. solve_decides equal40. Qed.
#[export] Instance equal39_decides : Decides equal39.
Proof. solve_decides equal39. Qed.
#[export] Instance equal38_decides : Decides equal38.
Proof. solve_decides equal38. Qed.
#[export] Instance equal36_decides : Decides equal36.
Proof. solve_decides equal36. Qed.
#[export] Instance equal35_decides : Decides equal35.
Proof. solve_decides equal35. Qed.
#[export] Instance equal42_decides : Decides equal42.
Proof. solve_decides equal42. Qed.
#[export] Instance equal41_decides : Decides equal41.
Proof. solve_decides equal41. Qed.
#[export] Instance equal45_decides : Decides equal45.
Proof. solve_decides equal45. Qed.
#[export] Instance equal46_decides : Decides equal46.
Proof. solve_decides equal46. Qed.
#[export] Instance equal48_decides : Decides equal48.
Proof. solve_decides equal48. Qed.
#[export] Instance equal47_decides : Decides equal47.
Proof. solve_decides equal47. Qed.
#[export] Instance equal44_decides : Decides equal44.
Proof. solve_decides equal44. Qed.
#[export] Instance equal43_decides : Decides equal43.
Proof. solve_decides equal43. Qed.
#[export] Instance equal50_decides : Decides equal50.
Proof. solve_decides equal50. Qed.
#[export] Instance equal49_decides : Decides equal49.
Proof. solve_decides equal49. Qed.
#[export] Instance equal29_decides : Decides equal29.
Proof. solve_decides equal29. Qed.
#[export] Instance equal28_decides : Decides equal28.
Proof. solve_decides equal28. Qed.
#[export] Instance equal52_decides : Decides equal52.
Proof. solve_decides equal52. Qed.
#[export] Instance equal51_decides : Decides equal51.
Proof. solve_decides equal51. Qed.
#[export] Instance equal55_decides : Decides equal55.
Proof. solve_decides equal55. Qed.
#[export] Instance equal56_decides : Decides equal56.
Proof. solve_decides equal56. Qed.
#[export] Instance equal54_decides : Decides equal54.
Proof. solve_decides equal54. Qed.
#[export] Instance equal53_decides : Decides equal53.
Proof. solve_decides equal53. Qed.
#[export] Instance equal57_decides : Decides equal57.
Proof. solve_decides equal57. Qed.
#[export] Instance equal61_decides : Decides equal61.
Proof. solve_decides equal61. Qed.
#[export] Instance equal60_decides : Decides equal60.
Proof. solve_decides equal60. Qed.
#[export] Instance equal62_decides : Decides equal62.
Proof. solve_decides equal62. Qed.
#[export] Instance equal63_decides : Decides equal63.
Proof. solve_decides equal63. Qed.
#[export] Instance equal59_decides : Decides equal59.
Proof. solve_decides equal59. Qed.
#[export] Instance equal58_decides : Decides equal58.
Proof. solve_decides equal58. Qed.
#[export] Instance equal68_decides : Decides equal68.
Proof. solve_decides equal68. Qed.
#[export] Instance equal67_decides : Decides equal67.
Proof. solve_decides equal67. Qed.
#[export] Instance equal66_decides : Decides equal66.
Proof. solve_decides equal66. Qed.
#[export] Instance equal65_decides : Decides equal65.
Proof. solve_decides equal65. Qed.
#[export] Instance equal64_decides : Decides equal64.
Proof. solve_decides equal64. Qed.
#[export] Instance equal73_decides : Decides equal73.
Proof. solve_decides equal73. Qed.
#[export] Instance equal72_decides : Decides equal72.
Proof. solve_decides equal72. Qed.
#[export] Instance equal75_decides : Decides equal75.
Proof. solve_decides equal75. Qed.
#[export] Instance equal74_decides : Decides equal74.
Proof. solve_decides equal74. Qed.
#[export] Instance equal71_decides : Decides equal71.
Proof. solve_decides equal71. Qed.
#[export] Instance equal70_decides : Decides equal70.
Proof. solve_decides equal70. Qed.
#[export] Instance equal69_decides : Decides equal69.
Proof. solve_decides equal69. Qed.
#[export] Instance equal76_decides : Decides equal76.
Proof. solve_decides equal76. Qed.
#[export] Instance equal77_decides : Decides equal77.
Proof. solve_decides equal77. Qed.
#[export] Instance equal78_decides : Decides equal78.
Proof. solve_decides equal78. Qed.
#[export] Instance equal79_decides : Decides equal79.
Proof. solve_decides equal79. Qed.
#[export] Instance equal82_decides : Decides equal82.
Proof. solve_decides equal82. Qed.
#[export] Instance equal81_decides : Decides equal81.
Proof. solve_decides equal81. Qed.
#[export] Instance equal80_decides : Decides equal80.
Proof. solve_decides equal80. Qed.
#[export] Instance equal6_decides : Decides equal6.
Proof. solve_decides equal6. Qed.
#[export] Instance equal5_decides : Decides equal5.
Proof. solve_decides equal5. Qed.
#[export] Instance equal88_decides : Decides equal88.
Proof. solve_decides equal88. Qed.
#[export] Instance equal87_decides : Decides equal87.
Proof. solve_decides equal87. Qed.
#[export] Instance equal86_decides : Decides equal86.
Proof. solve_decides equal86. Qed.
#[export] Instance equal85_decides : Decides equal85.
Proof. solve_decides equal85. Qed.
#[export] Instance equal89_decides : Decides equal89.
Proof. solve_decides equal89. Qed.
#[export] Instance equal84_decides : Decides equal84.
Proof. solve_decides equal84. Qed.
#[export] Instance equal83_decides : Decides equal83.
Proof. solve_decides equal83. Qed.
#[export] Instance equal91_decides : Decides equal91.
Proof. solve_decides equal91. Qed.
#[export] Instance equal90_decides : Decides equal90.
Proof. solve_decides equal90. Qed.
#[export] Instance equal95_decides : Decides equal95.
Proof. solve_decides equal95. Qed.
#[export] Instance equal94_decides : Decides equal94.
Proof. solve_decides equal94. Qed.
#[export] Instance equal101_decides : Decides equal101.
Proof. solve_decides equal101. Qed.
#[export] Instance equal100_decides : Decides equal100.
Proof. solve_decides equal100. Qed.
#[export] Instance equal103_decides : Decides equal103.
Proof. solve_decides equal103. Qed.
#[export] Instance equal102_decides : Decides equal102.
Proof. solve_decides equal102. Qed.
#[export] Instance equal99_decides : Decides equal99.
Proof. solve_decides equal99. Qed.
#[export] Instance equal98_decides : Decides equal98.
Proof. solve_decides equal98. Qed.
#[export] Instance equal97_decides : Decides equal97.
Proof. solve_decides equal97. Qed.
#[export] Instance equal96_decides : Decides equal96.
Proof. solve_decides equal96. Qed.
#[export] Instance equal104_decides : Decides equal104.
Proof. solve_decides equal104. Qed.
#[export] Instance equal105_decides : Decides equal105.
Proof. solve_decides equal105. Qed.
#[export] Instance equal93_decides : Decides equal93.
Proof. solve_decides equal93. Qed.
#[export] Instance equal92_decides : Decides equal92.
Proof. solve_decides equal92. Qed.
#[export] Instance equal108_decides : Decides equal108.
Proof. solve_decides equal108. Qed.
#[export] Instance equal109_decides : Decides equal109.
Proof. solve_decides equal109. Qed.
#[export] Instance equal111_decides : Decides equal111.
Proof. solve_decides equal111. Qed.
#[export] Instance equal110_decides : Decides equal110.
Proof. solve_decides equal110. Qed.
#[export] Instance equal112_decides : Decides equal112.
Proof. solve_decides equal112. Qed.
#[export] Instance equal107_decides : Decides equal107.
Proof. solve_decides equal107. Qed.
#[export] Instance equal106_decides : Decides equal106.
Proof. solve_decides equal106. Qed.
#[export] Instance equal115_decides : Decides equal115.
Proof. solve_decides equal115. Qed.
#[export] Instance equal119_decides : Decides equal119.
Proof. solve_decides equal119. Qed.
#[export] Instance equal118_decides : Decides equal118.
Proof. solve_decides equal118. Qed.
#[export] Instance equal117_decides : Decides equal117.
Proof. solve_decides equal117. Qed.
#[export] Instance equal116_decides : Decides equal116.
Proof. solve_decides equal116. Qed.
#[export] Instance equal121_decides : Decides equal121.
Proof. solve_decides equal121. Qed.
#[export] Instance equal120_decides : Decides equal120.
Proof. solve_decides equal120. Qed.
#[export] Instance equal114_decides : Decides equal114.
Proof. solve_decides equal114. Qed.
#[export] Instance equal113_decides : Decides equal113.
Proof. solve_decides equal113. Qed.
#[export] Instance equal124_decides : Decides equal124.
Proof. solve_decides equal124. Qed.
#[export] Instance equal125_decides : Decides equal125.
Proof. solve_decides equal125. Qed.
#[export] Instance equal123_decides : Decides equal123.
Proof. solve_decides equal123. Qed.
#[export] Instance equal122_decides : Decides equal122.
Proof. solve_decides equal122. Qed.
#[export] Instance equal128_decides : Decides equal128.
Proof. solve_decides equal128. Qed.
#[export] Instance equal127_decides : Decides equal127.
Proof. solve_decides equal127. Qed.
#[export] Instance equal126_decides : Decides equal126.
Proof. solve_decides equal126. Qed.
#[export] Instance equal129_decides : Decides equal129.
Proof. solve_decides equal129. Qed.
#[export] Instance equal4_decides : Decides equal4.
Proof. solve_decides equal4. Qed.
#[export] Instance equal133_decides : Decides equal133.
Proof. solve_decides equal133. Qed.
#[export] Instance equal132_decides : Decides equal132.
Proof. solve_decides equal132. Qed.
#[export] Instance equal131_decides : Decides equal131.
Proof. solve_decides equal131. Qed.
#[export] Instance equal135_decides : Decides equal135.
Proof. solve_decides equal135. Qed.
#[export] Instance equal134_decides : Decides equal134.
Proof. solve_decides equal134. Qed.
#[export] Instance equal138_decides : Decides equal138.
Proof. solve_decides equal138. Qed.
#[export] Instance equal139_decides : Decides equal139.
Proof. solve_decides equal139. Qed.
#[export] Instance equal137_decides : Decides equal137.
Proof. solve_decides equal137. Qed.
#[export] Instance equal136_decides : Decides equal136.
Proof. solve_decides equal136. Qed.
#[export] Instance equal141_decides : Decides equal141.
Proof. solve_decides equal141. Qed.
#[export] Instance equal140_decides : Decides equal140.
Proof. solve_decides equal140. Qed.
#[export] Instance equal130_decides : Decides equal130.
Proof. solve_decides equal130. Qed.
#[export] Instance equal144_decides : Decides equal144.
Proof. solve_decides equal144. Qed.
#[export] Instance equal146_decides : Decides equal146.
Proof. solve_decides equal146. Qed.
#[export] Instance equal150_decides : Decides equal150.
Proof. solve_decides equal150. Qed.
#[export] Instance equal153_decides : Decides equal153.
Proof. solve_decides equal153. Qed.
#[export] Instance equal154_decides : Decides equal154.
Proof. solve_decides equal154. Qed.
#[export] Instance equal155_decides : Decides equal155.
Proof. solve_decides equal155. Qed.
#[export] Instance equal152_decides : Decides equal152.
Proof. solve_decides equal152. Qed.
#[export] Instance equal151_decides : Decides equal151.
Proof. solve_decides equal151. Qed.
#[export] Instance equal149_decides : Decides equal149.
Proof. solve_decides equal149. Qed.
#[export] Instance equal148_decides : Decides equal148.
Proof. solve_decides equal148. Qed.
End decides.

(** ** Up to the sign of zero *)
Definition canon32 (f : float32) : float32 :=
  match f with S754_zero _ => S754_zero false | _ => f end.

Lemma float32_eqb_spec a b : float32_eqb a b = true ↔ canon32 a = canon32 b ∧ a ≠ S754_nan.
Proof.
  unfold float32_eqb, SFeqb, SFcompare.
  destruct a as [sa|sa| |sa ma ea], b as [sb|sb| |sb mb eb]; simpl; try destruct sa; try destruct sb;
    try (split; [naive_solver|by intros [? ?]]).
  all: change (PosDef.Pos.compare_cont Eq ma mb) with (Pos.compare ma mb).
  all: destruct (Z.compare_spec ea eb); try (split; [naive_solver|intros [[=] ?]; lia]).
  all: destruct (Pos.compare_spec ma mb); subst; simpl.
  all: first [by split; [split|] | split; [naive_solver|intros [[=] ?]; lia]].
Qed.

Definition canonUpdate (u : UpdateConfig) : UpdateConfig :=
  mkUpdateConfig (UpdateConfig_Parallelism u) (UpdateConfig_Delay u) (UpdateConfig_FailureAction u)
    (UpdateConfig_Monitor u) (canon32 (UpdateConfig_MaxFailureRatio u)) (UpdateConfig_Order u).
Definition canonSpec (s : ServiceSpec) : ServiceSpec :=
  mkServiceSpec (ServiceSpec_Annotations s) (ServiceSpec_TaskTemplate s) (ServiceSpec_Mode s)
    (canonUpdate <$> ServiceSpec_UpdateConfig s) (canonUpdate <$> ServiceSpec_RollbackConfig s)
    (ServiceSpec_EndpointSpec s).

(** Specifications that differ at most in the sign of a zero failure ratio. *)
#[export] Instance ServiceSpec_equiv : Equiv ServiceSpec := λ a b, canonSpec a = canonSpec b.
#[export] Instance ServiceSpec_equivalence : Equivalence (≡@{ServiceSpec}).
Proof.
  unfold equiv, ServiceSpec_equiv. split; [done|by intros a b|intros a b c; congruence].
Qed.

(** No failure ratio is a NaN, which no JSON number denotes. *)
Definition update_nan_free (u : ptr UpdateConfig) : Prop :=
  match u with Some u => UpdateConfig_MaxFailureRatio u ≠ S754_nan | None => True end.
Definition nan_free (s : ServiceSpec) : Prop :=
  update_nan_free (ServiceSpec_UpdateConfig s) ∧ update_nan_free (ServiceSpec_RollbackConfig s).

Lemma equal143_spec a b :
  equal143 a b = true ↔ canonUpdate a = canonUpdate b ∧ UpdateConfig_MaxFailureRatio a ≠ S754_nan.
Proof.
  unfold equal143, equal145. rewrite !andb_true_iff, float32_eqb_spec.
  rewrite !(decides (f := equal111)), ?(decides (f := equal52)), !(decides (f := equal144)),
    ?(decides (f := equal146)).
  destruct a, b; unfold canonUpdate; simpl. naive_solver congruence.
Qed.

Lemma equal_update_spec a b :
  equal_pointer equal143 a b = true ↔ canonUpdate <$> a = canonUpdate <$> b ∧ update_nan_free a.
Proof.
  destruct a as [a|], b as [b|]; simpl; [|by split; [|intros [? ?]]..|done].
  by rewrite equal143_spec, (inj_iff Some).
Qed.

Lemma nan_free_equiv a b : a ≡ b → nan_free a → nan_free b.
Proof.
  unfold equiv, ServiceSpec_equiv, canonSpec, nan_free. intros [= _ _ _ Hu Hr _].
  assert (Hstep : ∀ x y, canonUpdate <$> x = canonUpdate <$> y → update_nan_free x → update_nan_free y).
  { intros [[]|] [[]|]; try done. unfold canonUpdate; simpl. intros [= -> -> -> -> Hc ->] Hx Hy.
    subst; simpl in *. by destruct UpdateConfig_MaxFailureRatio. }
  naive_solver.
Qed.

Lemma equalSpec_iff `{!MapRange} (a b : ServiceSpec) :
  equalSpec a b = true ↔ a ≡ b ∧ nan_free a.
Proof.
  unfold equalSpec, equal0, equal142, equal147. rewrite !andb_true_iff, !equal_update_spec.
  rewrite (decides (f := equal1)), (decides (f := equal4)), (decides (f := equal130)),
    (decides (f := equal148)).
  unfold equiv, ServiceSpec_equiv, canonSpec, nan_free. split; [|intros [[=] []]; tauto].
  destruct_and?. intros. destruct_and?. split; [|done]. congruence.
Qed.

(** C4. The generated comparison is exhaustive: it accepts two service specifications
    exactly when every field of every nested structure agrees, nil and empty
    collections kept apart, up to the sign of a zero failure ratio (and, a NaN being
    unequal to itself, when no ratio is a NaN), whatever the order in which Go
    enumerates the maps. *)
Theorem equalSpec_spec `{!MapRange} (a b : ServiceSpec) :
  equalSpec a b = true ↔ a ≡ b ∧ nan_free a.
Proof. apply equalSpec_iff. Qed.
