(* ===== verification/Generator.v ===== *)
(** * Command generate: the generator of the comparison functions

    internal/mutation/generate/main.go.  The generator walks the type graph that go/types
    gives it and writes one comparison function for each type it meets.  Types are
    pointers into that graph; the source it writes is kept as syntax, whose printing is
    [print_decl] and whose execution is in [GeneratorSpec]. *)
From S2P Require Import Prelude GoString.
From stdpp Require Import pretty sorting.

(** ** The type graph of go/types *)
Record package := mkPackage { pkg_path : string; pkg_name : string }.
(** types.TypeString, before its qualifier has named the packages. *)
Inductive piece := Text (s : string) | Qualifier (p : package).
(** A types.Type is a pointer: [ident] is its identity. *)
Abbreviation ident := nat (only parsing).
Record field := mkField {
  field_name : string;
  field_exported : bool;
  field_embedded : bool;
  field_type : ident;
  field_tag : string
}.
Inductive underlying :=
| Basic
| Pointer (elem : ident)
| Slice (elem : ident)
| Map (elem : ident)
| Array (elem : ident)
| Struct (fields : list field)
| OtherType.
(** The Obj of a named type; the types of the universe have no package. *)
Record named := mkNamed { obj_name : string; obj_pkg : ptr package }.
Inductive node :=
| Alias (actual : ident) (syntax : list piece)
| Type_ (obj : option named) (u : underlying) (syntax : list piece).
Abbreviation graph := (gmap ident node) (only parsing).

Definition Unalias (U : graph) (t : ident) : ident :=
  match U !! t with Some (Alias actual _) => actual | _ => t end.

(** ** The generated source *)
Inductive body :=
| BodyEq
| BodyPointer (callee : nat)
| BodySlice (callee : nat)
| BodyMap (callee : nat)
| BodyArray (callee : nat)
| BodyStruct (fields : list (string * nat)).
(** A function equal<n>, or the schema guard of a named struct. *)
Inductive decl :=
| Func (name : nat) (type : string) (b : body)
| Guard (shape : string) (type : string).

Definition func_name (n : nat) : string := "equal" +:+ pretty n.
Definition newline : string := String (byte 10) "".
Definition quote : string := String (byte 34) "".
(** fmt's %q: the escapes of ASCII; printable characters outside it stay as they are. *)
Definition hex_nibble (n : N) : ascii := byte (if (n <? 10)%N then n + 48 else n + 87).
Definition escape_byte (c : ascii) : string :=
  let backslash := String (byte 92) in
  if Ascii.eqb c (byte 34) then backslash (String c "")
  else if Ascii.eqb c (byte 92) then backslash (String c "")
  else if Ascii.eqb c (byte 7) then backslash "a" else if Ascii.eqb c (byte 8) then backslash "b"
  else if Ascii.eqb c (byte 9) then backslash "t" else if Ascii.eqb c (byte 10) then backslash "n"
  else if Ascii.eqb c (byte 11) then backslash "v" else if Ascii.eqb c (byte 12) then backslash "f"
  else if Ascii.eqb c (byte 13) then backslash "r"
  else if (code c <? 32)%N || (code c =? 127)%N
  then backslash (String "x" (String (hex_nibble (code c / 16)) (String (hex_nibble (code c mod 16)) "")))
  else String c "".
Definition Sprintf_q (s : string) : string :=
  quote +:+ (fix go s := match s with "" => "" | String c s' => escape_byte c +:+ go s' end) s +:+ quote.
Definition len_guard : string := "if (a == nil) != (b == nil) || len(a) != len(b) { return false }; ".
Definition print_body (b : body) : string :=
  match b with
  | BodyEq => "return a == b" +:+ newline
  | BodyPointer f => "if a == nil || b == nil { return a == b }; return " +:+ func_name f +:+ "(*a,*b)" +:+ newline
  | BodySlice f => len_guard +:+ "for i := range a { if !" +:+ func_name f
      +:+ "(a[i], b[i]) { return false } }; return true" +:+ newline
  | BodyMap f => len_guard +:+ "for k,v := range a { other,ok := b[k]; if !ok || !" +:+ func_name f
      +:+ "(v,other) { return false } }; return true" +:+ newline
  | BodyArray f => "for i := range a { if !" +:+ func_name f
      +:+ "(a[i],b[i]) { return false } }; return true" +:+ newline
  | BodyStruct fields =>
      foldr (λ '(name, f) s, "if !" +:+ func_name f +:+ "(a." +:+ name +:+ ",b." +:+ name
               +:+ ") { return false }" +:+ newline +:+ s)
        ("return true" +:+ newline) fields
  end.
Definition print_decl (d : decl) : string :=
  match d with
  | Func n type b =>
      "func " +:+ func_name n +:+ "(a,b " +:+ type +:+ ") bool {" +:+ newline +:+ print_body b +:+ "}" +:+ newline
  | Guard shape type => "var _ = (" +:+ shape +:+ ")(" +:+ type +:+ "{})" +:+ newline
  end.

(** ** The generator's state *)
Record generator := mkGenerator {
  g_imports : gmap string string;
  g_names : gmap ident nat;
  g_body : list decl;
  g_shapes : gset ident
}.
Definition initial : generator := mkGenerator ∅ ∅ [] ∅.
Definition set_imports (imports : gmap string string) (g : generator) : generator :=
  mkGenerator imports (g_names g) (g_body g) (g_shapes g).
Definition add_name (t : ident) (name : nat) (g : generator) : generator :=
  mkGenerator (g_imports g) (<[t := name]> (g_names g)) (g_body g) (g_shapes g).
Definition write (d : decl) (g : generator) : generator :=
  mkGenerator (g_imports g) (g_names g) (g_body g ++ [d]) (g_shapes g).
Definition add_shape (t : ident) (g : generator) : generator :=
  mkGenerator (g_imports g) (g_names g) (g_body g) ({[t]} ∪ g_shapes g).

Section generator.
Context `{!MapRange} (U : graph).

(** ** typeName *)
Definition qualify (imports : gmap string string) (p : package) : string * gmap string string :=
  match imports !! pkg_path p with
  | Some name => (name, imports)
  | None =>
      let name := foldl (λ name existing, if existing == name then name +:+ pretty (size imports) else name)
                    (pkg_name p) (range imports).*2 in
      (name, <[pkg_path p := name]> imports)
  end.
Fixpoint TypeString (syntax : list piece) (imports : gmap string string) : string * gmap string string :=
  match syntax with
  | [] => ("", imports)
  | Text s :: syntax => let '(rest, imports) := TypeString syntax imports in (s +:+ rest, imports)
  | Qualifier p :: syntax =>
      let '(name, imports) := qualify imports p in
      let '(rest, imports) := TypeString syntax imports in (name +:+ rest, imports)
  end.
Definition typeName (t : ident) (g : generator) : string * generator :=
  let syntax := match U !! t with
                | Some (Alias _ syntax) | Some (Type_ _ _ syntax) => syntax | None => [] end in
  let '(s, imports) := TypeString syntax (g_imports g) in (s, set_imports imports g).

(** ** shape *)
Fixpoint shape_fields (fields : list field) (g : generator) : string * generator :=
  match fields with
  | [] => ("}", g)
  | f :: fields =>
      let '(type, g) := typeName (field_type f) g in
      let '(rest, g) := shape_fields fields g in
      ("// " +:+ field_name f +:+ " mirrors Docker's field for schema checking." +:+ newline
       +:+ (if negb (field_embedded f) then field_name f +:+ " " else "") +:+ type
       +:+ (if field_tag f != "" then " " +:+ Sprintf_q (field_tag f) else "") +:+ newline +:+ rest, g)
  end.
Definition shape (fields : list field) (g : generator) : string * generator :=
  let '(s, g) := shape_fields fields g in ("struct {" +:+ newline +:+ s, g).

(** ** equal

    [None] is the fuel running out; an error is the message of a panic. *)
Definition nil_panic {A} : option (result A) := Some (Err "nil pointer dereference").
Definition and_then {A B} (m : option (result A)) (k : A → option (result B)) : option (result B) :=
  match m with None => None | Some (Err e) => Some (Err e) | Some (Ok a) => k a end.

(** The loop over the fields of a struct. *)
Fixpoint equal_fields (equal : ident → generator → option (result (nat * generator)))
    (t : ident) (fields : list field) (g : generator) :
    option (result (list (string * nat) * generator)) :=
  match fields with
  | [] => Some (Ok ([], g))
  | f :: fields =>
      if negb (field_exported f) then
        Some (Err ("unreviewed private field in " +:+ (typeName t g).1))
      else
        and_then (equal (field_type f) g) (λ '(callee, g),
        and_then (equal_fields equal t fields g) (λ '(callees, g),
        Some (Ok ((field_name f, callee) :: callees, g))))
  end.

(** n.Obj().Pkg().Path() == "net/netip", where a named type has a package. *)
Definition is_netip (obj : option named) : option bool :=
  match obj with
  | None => Some false
  | Some n => p ← obj_pkg n; Some (pkg_path p == "net/netip")
  end.
(** The guard of a named struct, the first time it is met. *)
Definition write_guard (t : ident) (obj : option named) (fields : list field) (g : generator) : generator :=
  if bool_decide (is_Some obj) && negb (bool_decide (t ∈ g_shapes g)) then
    let g := add_shape t g in
    let '(s, g) := shape fields g in
    let '(type, g) := typeName t g in
    write (Guard s type) g
  else g.

Fixpoint equal (fuel : nat) (t : ident) (g : generator) : option (result (nat * generator)) :=
  match fuel with
  | 0 => None
  | S fuel =>
      let t := Unalias U t in
      match g_names g !! t with
      | Some name => Some (Ok (name, g))
      | None =>
          let name := size (g_names g) in
          let g := add_name t name g in
          let '(type, g) := typeName t g in
          let finish b g := Some (Ok (name, write (Func name type b) g)) in
          match U !! t with
          | Some (Type_ obj u _) =>
              match is_netip obj with
              | None => nil_panic
              | Some true => finish BodyEq g
              | Some false =>
                  match u with
                  | Basic => finish BodyEq g
                  | Pointer elem => and_then (equal fuel elem g) (λ '(f, g), finish (BodyPointer f) g)
                  | Slice elem => and_then (equal fuel elem g) (λ '(f, g), finish (BodySlice f) g)
                  | Map elem => and_then (equal fuel elem g) (λ '(f, g), finish (BodyMap f) g)
                  | Array elem => and_then (equal fuel elem g) (λ '(f, g), finish (BodyArray f) g)
                  | Struct fields =>
                      and_then (equal_fields (equal fuel) t fields (write_guard t obj fields g))
                        (λ '(callees, g), finish (BodyStruct callees) g)
                  | OtherType => Some (Err ("unreviewed Docker type: " +:+ (typeName t g).1))
                  end
              end
          | _ => nil_panic
          end
      end
  end.

(** ** main: the file for a root type, with its imports in order. *)
Definition import_line (entry : string * string) : string :=
  entry.2 +:+ " " +:+ Sprintf_q entry.1 +:+ newline.
Definition sort_Strings (paths : list string) : list string := merge_sort String.le paths.
Definition source (g : generator) (name : nat) : string :=
  "// Code generated by go generate; DO NOT EDIT." +:+ newline +:+ "package mutation" +:+ newline
  +:+ "import (" +:+ newline
  +:+ foldr (λ path s, import_line (path, default "" (g_imports g !! path)) +:+ s) ""
        (sort_Strings (range (g_imports g)).*1)
  +:+ ")" +:+ newline +:+ foldr (λ d s, print_decl d +:+ s) "" (g_body g)
  +:+ "func equalSpec(a,b swarm.ServiceSpec) bool { return " +:+ func_name name +:+ "(a,b) }" +:+ newline.
Definition fuel_of : nat := S (size U).
Definition generate (root : ident) : option (result (nat * generator)) := equal fuel_of root initial.
End generator.
