(* ===== verification/GeneratorSpec.v ===== *)
(** * Command generate: what the generated program computes

    A semantics for the functions that [Generator] writes, on typed Go values, and the
    proof that for every type graph on which the generator succeeds they decide deep
    equality. *)
From S2P Require Import Prelude GoString Generator.

(** ** Values

    A basic value, or a netip value, is known by what == compares: a number.  A map is
    its entries in any order; its keys are strings, as those of every map in the Docker
    types are.  Values are finite trees: a pointer is what it points to, so that a value
    that contains itself, on which the generated functions would not return, is not one.
    The specifications that the plugin compares are decoded from JSON and are such trees. *)
Inductive value :=
| VBasic (z : Z)
| VPtr (p : option value)
| VSlice (s : option (list value))
| VMap (m : option (list (string * value)))
| VArray (l : list value)
| VStruct (l : list value).

Fixpoint depth (v : value) : nat :=
  S (match v with
     | VBasic _ | VPtr None | VSlice None | VMap None => 0
     | VPtr (Some v) => depth v
     | VSlice (Some l) | VArray l | VStruct l => foldr (λ v n, depth v `max` n) 0 l
     | VMap (Some m) => foldr (λ e n, depth e.2 `max` n) 0 m
     end).

(** Deep equality: nil differs from empty, a map is compared by its keys. *)
Inductive DeepEqual : value → value → Prop :=
| de_basic z : DeepEqual (VBasic z) (VBasic z)
| de_ptr_nil : DeepEqual (VPtr None) (VPtr None)
| de_ptr a b : DeepEqual a b → DeepEqual (VPtr (Some a)) (VPtr (Some b))
| de_slice_nil : DeepEqual (VSlice None) (VSlice None)
| de_slice l k : Forall2 DeepEqual l k → DeepEqual (VSlice (Some l)) (VSlice (Some k))
| de_map_nil : DeepEqual (VMap None) (VMap None)
| de_map (m m' : list (string * value)) :
    (∀ key, key ∈ m.*1 ↔ key ∈ m'.*1) →
    (∀ key v v', (key, v) ∈ m → (key, v') ∈ m' → DeepEqual v v') →
    DeepEqual (VMap (Some m)) (VMap (Some m'))
| de_array l k : Forall2 DeepEqual l k → DeepEqual (VArray l) (VArray k)
| de_struct l k : Forall2 DeepEqual l k → DeepEqual (VStruct l) (VStruct k).

(** ** Execution *)
Definition lookup_func (P : list decl) (name : nat) : option body :=
  head (omap (λ d, match d with Func n _ b => if n == name then Some b else None | Guard _ _ => None end) P).
Definition lookup_key {A} (key : string) (m : list (string * A)) : option A :=
  snd <$> find (λ e, e.1 == key) m.

(** for i := range a { if !f(a[i], b[i]) { return false } }; return true *)
Fixpoint run_elements (f : value → value → option bool) (a b : list value) : option bool :=
  match a, b with
  | [], _ => Some true
  | x :: a, y :: b => r ← f x y; if negb r then Some false else run_elements f a b
  | _ :: _, [] => None
  end.
Fixpoint run_entries (f : value → value → option bool) (a b : list (string * value)) : option bool :=
  match a with
  | [] => Some true
  | (key, v) :: a =>
      match lookup_key key b with
      | None => Some false
      | Some other => r ← f v other; if negb r then Some false else run_entries f a b
      end
  end.
(** if !f(a.F, b.F) { return false } ...; return true *)
Fixpoint run_fields (f : nat → value → value → option bool) (fields : list (string * nat)) (a b : list value) :
    option bool :=
  match fields, a, b with
  | [], _, _ => Some true
  | (_, callee) :: fields, x :: a, y :: b =>
      r ← f callee x y; if negb r then Some false else run_fields f fields a b
  | _, _, _ => None
  end.
Definition is_nil {A} (o : option A) : bool := match o with None => true | Some _ => false end.

(** equal<name>(a, b); [None] when it is stuck or out of fuel. *)
Fixpoint run (P : list decl) (fuel : nat) (name : nat) (a b : value) : option bool :=
  match fuel with
  | 0 => None
  | S fuel =>
      body ← lookup_func P name;
      match body, a, b with
      | BodyEq, VBasic x, VBasic y => Some (x == y)
      | BodyPointer f, VPtr p, VPtr q =>
          match p, q with
          | Some x, Some y => run P fuel f x y
          | _, _ => Some (is_nil p && is_nil q)
          end
      | BodySlice f, VSlice s, VSlice t =>
          if negb (Bool.eqb (is_nil s) (is_nil t)) || negb (length (default [] s) =? length (default [] t))%nat
          then Some false else run_elements (run P fuel f) (default [] s) (default [] t)
      | BodyMap f, VMap m, VMap m' =>
          if negb (Bool.eqb (is_nil m) (is_nil m')) || negb (length (default [] m) =? length (default [] m'))%nat
          then Some false else run_entries (run P fuel f) (default [] m) (default [] m')
      | BodyArray f, VArray l, VArray k => run_elements (run P fuel f) l k
      | BodyStruct fields, VStruct l, VStruct k => run_fields (run P fuel) fields l k
      | _, _, _ => None
      end
  end.

(** ** Typed values *)
Section typed.
Context (U : gmap ident node).

(** The array lengths are part of the types. *)
Context (array_length : ident → nat).

Inductive typed : ident → value → Prop :=
| typed_alias t actual syntax v : U !! t = Some (Alias actual syntax) → typed actual v → typed t v
| typed_netip t obj u syntax z :
    U !! t = Some (Type_ obj u syntax) → is_netip obj = Some true → typed t (VBasic z)
| typed_basic t obj syntax z :
    U !! t = Some (Type_ obj Basic syntax) → is_netip obj = Some false → typed t (VBasic z)
| typed_pointer t obj elem syntax (p : option value) :
    U !! t = Some (Type_ obj (Pointer elem) syntax) → is_netip obj = Some false →
    (∀ v, p = Some v → typed elem v) → typed t (VPtr p)
| typed_slice t obj elem syntax (s : option (list value)) :
    U !! t = Some (Type_ obj (Slice elem) syntax) → is_netip obj = Some false →
    (∀ l v, s = Some l → v ∈ l → typed elem v) → typed t (VSlice s)
| typed_map t obj elem syntax (m : option (list (string * value))) :
    U !! t = Some (Type_ obj (Map elem) syntax) → is_netip obj = Some false →
    (∀ l, m = Some l → NoDup l.*1 ∧ ∀ key v, (key, v) ∈ l → typed elem v) → typed t (VMap m)
| typed_array t obj elem syntax (l : list value) :
    U !! t = Some (Type_ obj (Array elem) syntax) → is_netip obj = Some false →
    length l = array_length t → (∀ v, v ∈ l → typed elem v) → typed t (VArray l)
| typed_struct t obj fields syntax (l : list value) :
    U !! t = Some (Type_ obj (Struct fields) syntax) → is_netip obj = Some false →
    Forall2 (λ f v, typed (field_type f) v) fields l → typed t (VStruct l).

(** What a body has to be for a type, given the names of the functions. *)
Definition describes (names : gmap ident nat) (t : ident) (b : body) : Prop :=
  ∃ obj u syntax netip, U !! t = Some (Type_ obj u syntax) ∧ is_netip obj = Some netip ∧
    let callee elem n := names !! Unalias U elem = Some n in
    if (netip : bool) then b = BodyEq
    else match u, b with
    | Basic, BodyEq => True
    | Pointer elem, BodyPointer n | Slice elem, BodySlice n | Map elem, BodyMap n
    | Array elem, BodyArray n => callee elem n
    | Struct fields, BodyStruct l =>
        Forall2 (λ f c, field_exported f = true ∧ c.1 = field_name f ∧ callee (field_type f) c.2) fields l
    | _, _ => False
    end.

(** A complete program: every named type has its function, under a name of its own. *)
Record Complete (names : gmap ident nat) (P : list decl) : Prop := {
  complete_inj : ∀ t t' n, names !! t = Some n → names !! t' = Some n → t = t';
  complete_func : ∀ t n, names !! t = Some n → ∃ type b, Func n type b ∈ P ∧ describes names t b;
  complete_only : ∀ n type b, Func n type b ∈ P → ∃ t, names !! t = Some n ∧ describes names t b
}.

Lemma lookup_func_Some names P t n :
  Complete names P → names !! t = Some n → ∃ b, lookup_func P n = Some b ∧ describes names t b.
Proof.
  intros [Hinj Hfunc Honly] Hn. unfold lookup_func.
  set (l := omap _ P). assert (Hin : ∀ b, b ∈ l ↔ ∃ type, Func n type b ∈ P).
  { intros b. unfold l. rewrite list_elem_of_omap. split.
    - intros ([m type b'|] & Hd & Hb); [|done]. case_bool_decide; simplify_eq. by exists type.
    - intros [type Hd]. exists (Func n type b). split; [done|]. by rewrite bool_decide_eq_true_2. }
  destruct (Hfunc _ _ Hn) as (type & b & Hb & _).
  destruct l as [|b' l'] eqn:Hl.
  { exfalso. apply (not_elem_of_nil b). apply Hin. by exists type. }
  exists b'. split; [done|]. destruct (proj1 (Hin b')) as [type' Hb']; [left|].
  destruct (Honly _ _ _ Hb') as (t' & Ht' & ?). by rewrite (Hinj _ _ _ Hn Ht').
Qed.
End typed.

(** ** Loops *)

(** [decides_at f a b R]: the call returns, and returns the truth of [R]. *)
Definition decides (r : option bool) (R : Prop) : Prop := ∃ b, r = Some b ∧ (b = true ↔ R).

Lemma decides_iff r R R' : (R ↔ R') → decides r R → decides r R'.
Proof. intros HR (b & ? & ?). exists b. by rewrite <- HR. Qed.

Lemma decides_seq r R (k : option bool) R' :
  decides r R → (R → decides k R') → decides (b ← r; if negb b then Some false else k) (R ∧ R').
Proof.
  intros (b & -> & Hb) Hk. destruct b; cbn.
  - destruct Hk as (b' & -> & Hb'); [by apply Hb|]. exists b'. split; [done|]. rewrite Hb'.
    split; [|by intros [_ ?]]. split; [by apply Hb|done].
  - exists false. split; [done|]. split; [done|]. intros [HR _]. by apply Hb in HR.
Qed.

Lemma run_elements_decides f a b :
  length a = length b → (∀ x y, x ∈ a → y ∈ b → decides (f x y) (DeepEqual x y)) →
  decides (run_elements f a b) (Forall2 DeepEqual a b).
Proof.
  revert b. induction a as [|x a IH]; intros [|y b] Hlen Hf; try done; cbn [run_elements].
  { exists true. split; [done|]. split; [by constructor|done]. }
  eapply decides_iff; [symmetry; apply Forall2_cons|]. apply decides_seq.
  - apply Hf; left.
  - intros _. apply IH; [by injection Hlen|]. intros ? ? ? ?. apply Hf; by right.
Qed.

Lemma lookup_key_Some {A} key (m : list (string * A)) v :
  NoDup m.*1 → lookup_key key m = Some v ↔ (key, v) ∈ m.
Proof.
  unfold lookup_key. induction m as [|[k w] m IH]; cbn [find fmap list_fmap fst].
  { split; [done|]. by intros ?%not_elem_of_nil. }
  intros [Hk Hnd]%NoDup_cons. case_bool_decide as Hkey.
  - subst k. cbn. rewrite elem_of_cons. split; [intros [= ->]; by left|].
    intros [[= ->]|Hin]; [done|]. destruct Hk. by apply (list_elem_of_fmap_2 fst) in Hin.
  - rewrite (IH Hnd), elem_of_cons. naive_solver.
Qed.

Lemma lookup_key_None {A} key (m : list (string * A)) : lookup_key key m = None ↔ key ∉ m.*1.
Proof.
  unfold lookup_key. induction m as [|[k w] m IH]; cbn [find fmap list_fmap fst].
  { split; [|done]. intros _. apply not_elem_of_nil. }
  rewrite not_elem_of_cons. case_bool_decide as Hkey; [naive_solver|].
  rewrite IH. naive_solver.
Qed.

(** The loop over a map finds every entry of the first one in the second. *)
Lemma run_entries_decides f a b :
  NoDup b.*1 → (∀ k x y, (k, x) ∈ a → (k, y) ∈ b → decides (f x y) (DeepEqual x y)) →
  decides (run_entries f a b) (∀ k x, (k, x) ∈ a → ∃ y, (k, y) ∈ b ∧ DeepEqual x y).
Proof.
  intros Hnd. induction a as [|[k x] a IH]; intros Hf; cbn [run_entries].
  { exists true. split; [done|]. split; [|done]. by intros _ ? ? ?%not_elem_of_nil. }
  destruct (lookup_key k b) as [y|] eqn:Hk.
  - apply (lookup_key_Some _ _ _ Hnd) in Hk.
    eapply decides_iff; [|apply decides_seq; [eapply Hf; [left|exact Hk]|
      intros _; apply IH; intros; eapply Hf; [by right|done]]].
    split.
    + intros [Hxy Hrest] k' x' [[= -> ->]|Hin]%elem_of_cons; [by exists y|by apply Hrest].
    + intros Hall. split; [|intros k' x' Hin; apply Hall; by right].
      destruct (Hall k x) as (y' & Hy' & ?); [left|].
      apply (lookup_key_Some _ _ _ Hnd) in Hk, Hy'. by simplify_eq.
  - exists false. split; [done|]. split; [done|]. intros Hall.
    destruct (Hall k x) as (y & Hy & _); [left|]. apply lookup_key_None in Hk.
    destruct Hk. by apply (list_elem_of_fmap_2 fst) in Hy.
Qed.

(** Two maps of one size, the first within the second: the same keys. *)
Lemma same_keys (a b : list (string * value)) :
  NoDup a.*1 → NoDup b.*1 →
  (length a = length b ∧ (∀ k x, (k, x) ∈ a → ∃ y, (k, y) ∈ b ∧ DeepEqual x y)) ↔
  (∀ k, k ∈ a.*1 ↔ k ∈ b.*1) ∧ (∀ k x y, (k, x) ∈ a → (k, y) ∈ b → DeepEqual x y).
Proof.
  intros Ha Hb. split.
  - intros [Hlen Hall].
    assert (Hsub : ∀ k, k ∈ a.*1 → k ∈ b.*1).
    { intros k ([k' x] & -> & (y & Hy & _)%Hall)%list_elem_of_fmap. by apply (list_elem_of_fmap_2 fst) in Hy. }
    split.
    + intros k. split; [apply Hsub|].
      assert (Hperm : a.*1 ≡ₚ b.*1).
      { apply submseteq_length_Permutation; [by apply NoDup_submseteq|]. rewrite !length_fmap. lia. }
      by rewrite Hperm.
    + intros k x y Hx Hy. destruct (Hall k x Hx) as (y' & Hy' & ?).
      apply (lookup_key_Some _ _ _ Hb) in Hy, Hy'. by simplify_eq.
  - intros [Hkeys Hvalues]. split.
    + rewrite <- (length_fmap fst a), <- (length_fmap fst b). apply Permutation_length.
      by apply NoDup_Permutation.
    + intros k x Hx. assert (Hk : k ∈ b.*1) by (apply Hkeys; by apply (list_elem_of_fmap_2 fst) in Hx).
      apply list_elem_of_fmap in Hk as ([k' y] & -> & Hy). exists y. split; [done|]. by eapply Hvalues.
Qed.

(** ** The program decides deep equality *)
Lemma depth_elem v l : v ∈ l → depth v ≤ foldr (λ v n, depth v `max` n) 0 l.
Proof.
  induction l as [|w l IH]; [by intros ?%not_elem_of_nil|]. cbn [foldr].
  intros [->|Hin%IH]%elem_of_cons; lia.
Qed.
Lemma depth_entry k v (m : list (string * value)) :
  (k, v) ∈ m → depth v ≤ foldr (λ e n, depth e.2 `max` n) 0 m.
Proof.
  induction m as [|e m IH]; [by intros ?%not_elem_of_nil|]. cbn [foldr].
  intros [<-|Hin%IH]%elem_of_cons; cbn; lia.
Qed.

Section correct.
Context (U : gmap ident node) (array_length : ident → nat).
Abbreviation typed := (typed U array_length).

Lemma typed_Unalias t v : typed t v → typed (Unalias U t) v.
Proof.
  intros Hv. destruct (U !! t) as [[actual syntax|obj u syntax]|] eqn:Ht.
  - unfold Unalias. rewrite Ht. by inversion Hv; simplify_eq.
  - unfold Unalias. by rewrite Ht.
  - unfold Unalias. by rewrite Ht.
Qed.

Context (names : gmap ident nat) (P : list decl) (Hcomplete : Complete U names P).

(** What every call with less fuel decides. *)
Definition Decides (fuel : nat) : Prop := ∀ t n a b,
  names !! Unalias U t = Some n → typed t a → typed t b → depth a < fuel →
  decides (run P fuel n a b) (DeepEqual a b).

Lemma elements_decide fuel elem n l k :
  Decides fuel → names !! Unalias U elem = Some n → length l = length k →
  (∀ v, v ∈ l → typed elem v) → (∀ v, v ∈ k → typed elem v) →
  foldr (λ v n, depth v `max` n) 0 l < fuel →
  decides (run_elements (run P fuel n) l k) (Forall2 DeepEqual l k).
Proof.
  intros Hfuel Hn Hlen Hl Hk Hdepth. apply run_elements_decides; [done|]. intros x y Hx Hy.
  apply (Hfuel elem); auto. apply depth_elem in Hx. lia.
Qed.

Lemma fields_decide fuel fields callees l k :
  Decides fuel →
  Forall2 (λ f c, field_exported f = true ∧ c.1 = field_name f ∧ names !! Unalias U (field_type f) = Some c.2)
    fields callees →
  Forall2 (λ f v, typed (field_type f) v) fields l → Forall2 (λ f v, typed (field_type f) v) fields k →
  foldr (λ v n, depth v `max` n) 0 l < fuel →
  decides (run_fields (run P fuel) callees l k) (Forall2 DeepEqual l k).
Proof.
  intros Hfuel Hcallees. revert l k. induction Hcallees as [|f [name n] fields callees (_ & _ & Hn) _ IH];
    intros l k Hl Hk Hdepth.
  { apply Forall2_nil_inv_l in Hl as ->. apply Forall2_nil_inv_l in Hk as ->.
    exists true. split; [done|]. split; [by constructor|done]. }
  apply Forall2_cons_inv_l in Hl as (x & l' & Hx & Hl & ->).
  apply Forall2_cons_inv_l in Hk as (y & k' & Hy & Hk & ->). cbn [run_fields]. cbn [foldr] in Hdepth.
  eapply decides_iff; [symmetry; apply Forall2_cons|]. apply decides_seq.
  - apply (Hfuel (field_type f)); [done..|lia].
  - intros _. apply IH; [done..|lia].
Qed.

Lemma nil_test {A} (p q : option A) R :
  (p = None → q = None → R) → (∀ x, p = Some x → q = None → ¬ R) → (∀ y, p = None → q = Some y → ¬ R) →
  is_nil p = true ∨ is_nil q = true → decides (Some (is_nil p && is_nil q)) R.
Proof. intros. exists (is_nil p && is_nil q). split; [done|]. destruct p, q; naive_solver. Qed.

(** A slice or a map: the test of nil and of the length, and then the loop. *)
Lemma guarded {A} (s t : option (list A)) (loop : option bool) (R Rloop : Prop) :
  (R → is_nil s = is_nil t ∧ length (default [] s) = length (default [] t)) →
  (s = None → t = None → R) →
  (∀ l k, s = Some l → t = Some k → length l = length k → (R ↔ Rloop)) →
  (s = None → t = None → loop = Some true) →
  (∀ l k, s = Some l → t = Some k → length l = length k → decides loop Rloop) →
  decides (if negb (Bool.eqb (is_nil s) (is_nil t)) || negb (length (default [] s) =? length (default [] t))%nat
           then Some false else loop) R.
Proof.
  intros Hguard Hnil HR Hloop Hdecides.
  destruct (negb _ || negb _) eqn:Htest.
  - exists false. split; [done|]. split; [done|]. intros [Hn Hl]%Hguard.
    rewrite Hn, Hl, Bool.eqb_reflx, Nat.eqb_refl in Htest. done.
  - apply orb_false_iff in Htest as [Hn%negb_false_iff%eqb_prop Hl%negb_false_iff%Nat.eqb_eq].
    destruct s as [l|], t as [k|]; try done; cbn in Hl.
    + eapply decides_iff; [symmetry; by apply (HR l k)|]. by apply (Hdecides l k).
    + rewrite Hloop by done. exists true. split; [done|]. split; [by intros _; apply Hnil|done].
Qed.

Lemma run_decides fuel : Decides fuel.
Proof.
  induction fuel as [|fuel IH]; intros t n a b Hn Ha Hb Hdepth; [lia|].
  apply typed_Unalias in Ha, Hb. set (t' := Unalias U t) in *. cbn [run].
  destruct (lookup_func_Some _ _ _ _ _ Hcomplete Hn) as
    (bd & -> & obj & u & syntax & netip & Ht & Hnetip & Hbody). cbn [mbind option_bind].
  destruct Ha; simplify_eq; destruct Hb; simplify_eq; cbn [depth] in Hdepth.
  all: destruct bd; try done; try (by simplify_eq).
  - case_bool_decide; (eexists; split; [done|]); split; intros Heq; try done; [subst; constructor|].
    by inversion Heq.
  - case_bool_decide; (eexists; split; [done|]); split; intros Heq; try done; [subst; constructor|].
    by inversion Heq.
  - destruct p as [x|], p0 as [y|].
    + eapply decides_iff; [|eapply IH; [exact Hbody|eauto..|lia]].
      split; [by constructor|]. by inversion 1.
    + apply nil_test; try done; [|by right]. intros ? _ _. by inversion 1.
    + apply nil_test; try done; [|by left]. intros ? _ _. by inversion 1.
    + apply nil_test; try done; [|by left]. intros _ _. constructor.
  - apply (guarded _ _ _ _ (Forall2 DeepEqual (default [] s) (default [] s0))).
    + inversion 1; subst; [done|]. split; [done|]. by eapply Forall2_length.
    + intros -> ->. constructor.
    + intros l k -> -> _. split; [by inversion 1|by constructor].
    + by intros -> ->.
    + intros l k -> -> Hlen. eapply elements_decide; [exact IH|exact Hbody|done|eauto..|cbn; lia].
  - apply (guarded _ _ _ _ (∀ k x, (k, x) ∈ default [] m → ∃ y, (k, y) ∈ default [] m0 ∧ DeepEqual x y)).
    + inversion 1 as [| | | | | |l k Hkeys Hvalues| |]; subst; [done|]. split; [done|].
      destruct (H1 _ eq_refl) as [Hl _], (H4 _ eq_refl) as [Hk _].
      by apply (same_keys _ _ Hl Hk).
    + intros -> ->. constructor.
    + intros l k -> -> Hlen. destruct (H1 _ eq_refl) as [Hl _], (H4 _ eq_refl) as [Hk _].
      pose proof (same_keys _ _ Hl Hk) as Hsame. split.
      * inversion 1; subst. by apply Hsame.
      * intros Hall. apply de_map; by apply Hsame.
    + by intros -> ->.
    + intros l k -> -> Hlen. destruct (H1 _ eq_refl) as [_ Hl], (H4 _ eq_refl) as [Hk Hk'].
      apply run_entries_decides; [done|]. cbn. intros key x y Hx Hy.
      eapply IH; [exact Hbody|eauto..|]. apply depth_entry in Hx. lia.
  - eapply decides_iff; [|eapply elements_decide; [exact IH|exact Hbody|congruence|eauto..|lia]].
    split; [by constructor|by inversion 1].
  - eapply decides_iff; [|eapply fields_decide; [exact IH|exact Hbody|done..|lia]].
    split; [by constructor|by inversion 1].
Qed.
End correct.
