(* ===== verification/GeneratorNames.v ===== *)
(** * Command generate: the names of the imports

    When the names that [Generator.qualify] gives to imported packages are distinct, and
    shadow nothing that the generated file uses. *)
From S2P Require Import Prelude GoString Generator.
From stdpp Require Import pretty.

(** ** Identifiers without their last digits *)
Fixpoint stem (s : string) : string :=
  match s with
  | "" => ""
  | String c s => let rest := stem s in if (rest == "") && is_digit c then "" else String c rest
  end.

Lemma stem_digits d : str_all is_digit d = true → stem d = "".
Proof.
  induction d as [|c d IH]; [done|]. cbn [str_all stem]. intros [-> Hd]%andb_true_iff. by rewrite IH.
Qed.
Lemma stem_app s d : str_all is_digit d = true → stem (s +:+ d) = stem s.
Proof.
  intros Hd. induction s as [|c s IH]; [by apply stem_digits|].
  change (String c s +:+ d) with (String c (s +:+ d)). cbn [stem]. by rewrite IH.
Qed.
(** What is left of a prefix that does not end in a digit. *)
Lemma stem_app_inj s s' d d' :
  stem s = s → stem s' = s' → str_all is_digit d = true → str_all is_digit d' = true →
  s +:+ d = s' +:+ d' → s = s' ∧ d = d'.
Proof.
  intros Hs Hs' Hd Hd' Heq. assert (s = s') as <-.
  { rewrite <- Hs, <- Hs', <- (stem_app s d Hd), <- (stem_app s' d' Hd'). by rewrite Heq. }
  split; [done|]. clear Hs Hs'. induction s as [|c s IH]; [done|]. injection Heq as Heq. by apply IH.
Qed.

(** A property of the digits of a number, by adding one digit in front. *)
Lemma pretty_go_ind (P : string → Prop) x s :
  (∀ d s, (d < 10)%N → P s → P (String (pretty_N_char d) s)) → P s → P (pretty_N_go x s).
Proof.
  intros Hcons. revert s. induction (N.lt_wf_0 x) as [x _ IH]. intros s Hs.
  destruct (decide (0 < x)%N) as [Hpos|Hzero].
  - rewrite pretty_N_go_step by done. apply IH; [by apply N.div_lt|]. apply Hcons; [by apply N.mod_lt|done].
  - assert (x = 0%N) as -> by lia. by rewrite pretty_N_go_0.
Qed.
Lemma pretty_N_char_digit d : (d < 10)%N → is_digit (pretty_N_char d) = true.
Proof. intros _. unfold pretty_N_char. by repeat case_match. Qed.
Lemma pretty_digits (n : nat) : str_all is_digit (pretty n) = true.
Proof.
  change (pretty n) with (pretty (N.of_nat n)). unfold pretty, pretty_N. case_decide; [done|].
  apply pretty_go_ind; [|done]. intros d s Hd Hs. cbn [str_all]. by rewrite pretty_N_char_digit.
Qed.
Lemma pretty_not_empty (n : nat) : pretty n ≠ "".
Proof.
  change (pretty n) with (pretty (N.of_nat n)). unfold pretty, pretty_N. case_decide; [done|].
  rewrite pretty_N_go_step by lia. by apply (pretty_go_ind (λ s, s ≠ "")).
Qed.
Lemma stem_pretty s (n : nat) : stem (s +:+ pretty n) = stem s.
Proof. apply stem_app, pretty_digits. Qed.

(** ** What the generated file refers to *)
Definition predeclared : list string :=
  ["any"; "bool"; "byte"; "comparable"; "complex64"; "complex128"; "error"; "float32"; "float64"; "int"; "int8";
   "int16"; "int32"; "int64"; "rune"; "string"; "uint"; "uint8"; "uint16"; "uint32"; "uint64"; "uintptr";
   "true"; "false"; "iota"; "nil"; "append"; "cap"; "clear"; "close"; "complex"; "copy"; "delete"; "imag";
   "len"; "make"; "max"; "min"; "new"; "panic"; "print"; "println"; "real"; "recover"].
Definition file_identifier (name : string) : Prop :=
  name ∈ predeclared ∨ name = "equalSpec" ∨ ∃ n, name = func_name n.
Definition file_stems : list string := "equal" :: "equalSpec" :: (stem <$> predeclared).
Lemma file_identifier_stem name : file_identifier name → stem name ∈ file_stems.
Proof.
  unfold file_stems. intros [Hin|[->|[n ->]]].
  - do 2 right. by apply list_elem_of_fmap_2.
  - right. left.
  - unfold func_name. rewrite stem_pretty. left.
Qed.

(** ** Qualifiers *)

(** A package whose name does not end in a digit, nor is one of those of the file. *)
Definition plain_package (p : package) : Prop :=
  stem (pkg_name p) = pkg_name p ∧ pkg_name p ∉ file_stems.

(** The names of the imports: each is that of a plain package, maybe with the number of
    imports at the time, and no two are the same. *)
Record Distinct (imports : gmap string string) : Prop := {
  distinct_name : ∀ path name, imports !! path = Some name →
    ∃ base, stem base = base ∧ (base ∉ file_stems) ∧
      (name = base ∨ ∃ k, k < size imports ∧ name = base +:+ pretty k);
  distinct_inj : ∀ path path' name, imports !! path = Some name → imports !! path' = Some name → path = path'
}.

Lemma Distinct_empty : Distinct ∅.
Proof. by split; intros ? ? *; rewrite lookup_empty. Qed.
Lemma Distinct_shadow imports path name : Distinct imports → imports !! path = Some name → ¬ file_identifier name.
Proof.
  intros [Hname _] (base & Hbase & Hnot & [->|(k & _ & ->)])%Hname Hfile%file_identifier_stem.
  - by rewrite Hbase in Hfile.
  - by rewrite stem_pretty, Hbase in Hfile.
Qed.

Lemma fold_name base suffix names :
  (base +:+ suffix) ∉ names →
  foldl (λ name existing, if existing == name then name +:+ suffix else name) base names
  = if bool_decide (base ∈ names) then base +:+ suffix else base.
Proof.
  intros Hnot. assert (Hstay : ∀ l, (base +:+ suffix) ∉ l →
    foldl (λ name existing, if existing == name then name +:+ suffix else name) (base +:+ suffix) l = base +:+ suffix).
  { induction l as [|x l IH]; [done|]. rewrite not_elem_of_cons. intros [Hx Hl]. cbn [foldl].
    rewrite bool_decide_eq_false_2 by done. by apply IH. }
  induction names as [|x names IH]; [done|]. apply not_elem_of_cons in Hnot as [Hx Hnot]. cbn [foldl].
  destruct (decide (x = base)) as [->|Hne].
  - rewrite (bool_decide_eq_true_2 (base = base)) by done. rewrite Hstay by done. rewrite bool_decide_eq_true_2; [done|left].
  - rewrite (bool_decide_eq_false_2 (x = base)) by done. rewrite IH by done.
    rewrite (bool_decide_ext (base ∈ x :: names) (base ∈ names)); [done|].
    rewrite elem_of_cons. naive_solver.
Qed.

Lemma qualify_distinct `{!MapRange} imports p :
  plain_package p → Distinct imports → Distinct (qualify imports p).2.
Proof.
  intros [Hstem Hnot] Hdistinct. unfold qualify.
  destruct (imports !! pkg_path p) as [name|] eqn:Hpath; [done|]. cbn [snd].
  destruct Hdistinct as [Hname Hinj].
  assert (Hvalues : ∀ name, name ∈ (range imports).*2 ↔ ∃ path, imports !! path = Some name).
  { intros name. rewrite list_elem_of_fmap. setoid_rewrite <- elem_of_range. split.
    - intros ([path v] & -> & Hin). by exists path.
    - intros [path Hin]. by exists (path, name). }
  assert (Hfresh : (pkg_name p +:+ pretty (size imports)) ∉ (range imports).*2).
  { intros [path (base & Hbase & _ & [Heq|(k & Hk & Heq)])%Hname]%Hvalues.
    - rewrite <- (str_app_nil_r base) in Heq.
      apply stem_app_inj in Heq as [_ Heq]; [|done|done|apply pretty_digits|done].
      by apply (pretty_not_empty (size imports)).
    - apply stem_app_inj in Heq as [_ Heq%(inj pretty)]; [lia|done|done|apply pretty_digits..]. }
  rewrite (fold_name _ _ _ Hfresh).
  set (new := if bool_decide _ then _ else _).
  assert (Hnew : new ∉ (range imports).*2).
  { unfold new. case_bool_decide as Hin; [exact Hfresh|exact Hin]. }
  assert (Hform : new = pkg_name p ∨ new = pkg_name p +:+ pretty (size imports)).
  { unfold new. case_bool_decide; [by right|by left]. }
  clearbody new. clear Hfresh.
  assert (Hsize : size (<[pkg_path p := new]> imports) = S (size imports)) by (by apply map_size_insert_None).
  split.
  - intros path name [[_ <-]|[_ Hin]]%lookup_insert_Some; rewrite Hsize.
    + exists (pkg_name p). split_and!; [done..|]. destruct Hform as [->| ->]; [by left|right].
      exists (size imports). split; [lia|done].
    + destruct (Hname _ _ Hin) as (base & ? & ? & [->|(k & ? & ->)]); exists base; (split_and!; [done..|]);
        [by left|right]. exists k. split; [lia|done].
  - intros path path' name [[<- <-]|[Hne Hin]]%lookup_insert_Some [[<- Hname']|[Hne' Hin']]%lookup_insert_Some.
    + done.
    + destruct Hnew. apply Hvalues. by exists path'.
    + subst name. destruct Hnew. apply Hvalues. by exists path.
    + by eapply Hinj.
Qed.
