(* ===== verification/GeneratorCorrect.v ===== *)
(** * Command generate: correctness of the generator

    The invariant of the traversal in [Generator], its termination, and the theorems: the
    walk ends, succeeds on every graph of reviewed types, and the functions it writes
    decide deep equality. *)
From S2P Require Import Prelude GoString Generator GeneratorSpec.

Section traversal.
Context `{!MapRange} (U : gmap ident node).
Abbreviation equal := (equal U).
Abbreviation describes := (describes U).

(** ** Parts that name no type *)
Lemma typeName_names t g : g_names (typeName U t g).2 = g_names g.
Proof. unfold typeName. cbv zeta. by destruct (TypeString _ _). Qed.
Lemma typeName_body t g : g_body (typeName U t g).2 = g_body g.
Proof. unfold typeName. cbv zeta. by destruct (TypeString _ _). Qed.
Lemma shape_fields_frame fields g :
  g_names (shape_fields U fields g).2 = g_names g ∧ g_body (shape_fields U fields g).2 = g_body g.
Proof.
  revert g. induction fields as [|f fields IH]; intros g; cbn [shape_fields]; [done|].
  destruct (typeName U (field_type f) g) as [type g1] eqn:Htype.
  pose proof (typeName_names (field_type f) g) as Hn. pose proof (typeName_body (field_type f) g) as Hb.
  rewrite Htype in Hn, Hb. cbn in Hn, Hb. destruct (IH g1) as [Hn' Hb'].
  destruct (shape_fields U fields g1) as [rest g2]. cbn in *. split; congruence.
Qed.

(** The functions of a body, without the guards. *)
Definition functions (P : list decl) : list (nat * body) :=
  omap (λ d, match d with Func n _ b => Some (n, b) | Guard _ _ => None end) P.
Lemma elem_of_functions n b P : (n, b) ∈ functions P ↔ ∃ type, Func n type b ∈ P.
Proof.
  unfold functions. rewrite list_elem_of_omap. split.
  - intros ([m type b'|] & Hd & [= <- <-]). by exists type.
  - intros [type Hd]. by exists (Func n type b).
Qed.

Lemma write_guard_frame t obj fields g :
  g_names (write_guard U t obj fields g) = g_names g ∧
  functions (g_body (write_guard U t obj fields g)) = functions (g_body g).
Proof.
  unfold write_guard. destruct (_ && _); [|done]. unfold shape.
  pose proof (shape_fields_frame fields (add_shape t g)) as [Hn Hb].
  destruct (shape_fields U fields (add_shape t g)) as [s g1]. cbn [snd] in Hn, Hb.
  pose proof (typeName_names t g1) as Hn'. pose proof (typeName_body t g1) as Hb'.
  destruct (typeName U t g1) as [type g2]. cbn in *. split; [congruence|].
  unfold functions. rewrite omap_app; cbn. rewrite app_nil_r. by rewrite Hb', Hb.
Qed.

(** ** One call *)

(** The state in which a new type is examined. *)
Definition entered (t : ident) (g : generator) : generator :=
  (typeName U t (add_name t (size (g_names g)) g)).2.
Lemma entered_names t g : g_names (entered t g) = <[t := size (g_names g)]> (g_names g).
Proof. apply (typeName_names t (add_name _ _ _)). Qed.
Lemma entered_body t g : g_body (entered t g) = g_body g.
Proof. apply (typeName_body t (add_name _ _ _)). Qed.

(** The calls that the body of a type needs, and the body. *)
Definition visit (equal : ident → generator → option (result (nat * generator))) (t : ident)
    (obj : option named) (u : underlying) (g : generator) : option (result (body * generator)) :=
  match is_netip obj with
  | None => Some (Err "nil pointer dereference")
  | Some true => Some (Ok (BodyEq, g))
  | Some false =>
      match u with
      | Basic => Some (Ok (BodyEq, g))
      | Pointer elem => and_then (equal elem g) (λ '(f, g), Some (Ok (BodyPointer f, g)))
      | Slice elem => and_then (equal elem g) (λ '(f, g), Some (Ok (BodySlice f, g)))
      | Map elem => and_then (equal elem g) (λ '(f, g), Some (Ok (BodyMap f, g)))
      | Array elem => and_then (equal elem g) (λ '(f, g), Some (Ok (BodyArray f, g)))
      | Struct fields =>
          and_then (equal_fields U equal t fields (write_guard U t obj fields g))
            (λ '(callees, g), Some (Ok (BodyStruct callees, g)))
      | OtherType => Some (Err ("unreviewed Docker type: " +:+ (typeName U t g).1))
      end
  end.

Lemma equal_eq fuel t g :
  equal (S fuel) t g =
  match g_names g !! Unalias U t with
  | Some name => Some (Ok (name, g))
  | None =>
      match U !! Unalias U t with
      | Some (Type_ obj u _) =>
          and_then (visit (equal fuel) (Unalias U t) obj u (entered (Unalias U t) g)) (λ '(b, g'),
          Some (Ok (size (g_names g),
            write (Func (size (g_names g))
              (typeName U (Unalias U t) (add_name (Unalias U t) (size (g_names g)) g)).1 b) g')))
      | _ => Some (Err "nil pointer dereference")
      end
  end.
Proof.
  cbn [Generator.equal]. destruct (g_names g !! _) as [name|]; [done|]. unfold entered.
  destruct (typeName U _ _) as [type g1]. cbn [fst snd].
  destruct (U !! _) as [[|obj u syntax]|]; [done| |done]. unfold visit.
  destruct (is_netip obj) as [[]|]; [done| |done].
  destruct u; try done; by repeat (destruct (Generator.equal _ _ _ _) as [[[]|]|] || destruct (equal_fields _ _ _ _ _) as [[[]|]|]).
Qed.

Lemma and_then_Ok {A B} (m : option (result A)) (k : A → option (result B)) b :
  and_then m k = Some (Ok b) ↔ ∃ a, m = Some (Ok a) ∧ k a = Some (Ok b).
Proof. destruct m as [[a|e]|]; cbn; naive_solver. Qed.
Lemma and_then_None {A B} (m : option (result A)) (k : A → option (result B)) :
  m ≠ None → (∀ a, m = Some (Ok a) → k a ≠ None) → and_then m k ≠ None.
Proof. destruct m as [[a|e]|]; cbn; auto. Qed.

(** ** Names are only added *)
Definition Monotone (equal : ident → generator → option (result (nat * generator))) : Prop :=
  ∀ t g n g', equal t g = Some (Ok (n, g')) → g_names g ⊆ g_names g'.

Lemma equal_fields_mono f t fields g callees g' :
  Monotone f → equal_fields U f t fields g = Some (Ok (callees, g')) → g_names g ⊆ g_names g'.
Proof.
  intros Hf. revert g callees. induction fields as [|fd fields IH]; intros g callees; cbn [equal_fields].
  { by intros [= _ <-]. }
  destruct (negb _); [done|].
  intros ([n g1] & Hn & ([cs g2] & Hcs & [= _ <-])%and_then_Ok)%and_then_Ok.
  etrans; [by eapply Hf|by eapply IH].
Qed.

Lemma visit_mono f t obj u g b g' :
  Monotone f → visit f t obj u g = Some (Ok (b, g')) → g_names g ⊆ g_names g'.
Proof.
  intros Hf. unfold visit. destruct (is_netip obj) as [[]|]; [by intros [= _ <-]| |done].
  destruct u; try done; try (intros ([n g1] & Hn & [= _ <-])%and_then_Ok; by eapply Hf).
  { by intros [= _ <-]. }
  intros ([cs g1] & Hcs & [= _ <-])%and_then_Ok. apply equal_fields_mono in Hcs; [|done].
  by rewrite (proj1 (write_guard_frame _ _ _ _)) in Hcs.
Qed.

Lemma equal_mono fuel : Monotone (equal fuel).
Proof.
  induction fuel as [|fuel IH]; intros t g n g'; [done|]. rewrite equal_eq.
  destruct (g_names g !! _) as [name|] eqn:Ht; [by intros [= _ <-]|].
  destruct (U !! _) as [[|obj u syntax]|]; [done| |done].
  intros ([b g1] & Hb & [= _ <-])%and_then_Ok. apply visit_mono in Hb; [|done].
  rewrite entered_names in Hb. cbn. etrans; [|exact Hb]. by apply insert_subseteq.
Qed.

(** ** Termination *)

(** The types without a name yet. *)
Definition remaining (g : generator) : nat := size ((dom U : gset ident) ∖ dom (g_names g)).
Lemma remaining_mono g g' : g_names g ⊆ g_names g' → remaining g' ≤ remaining g.
Proof. intros Hsub. unfold remaining. apply subseteq_size. apply (subseteq_dom (D := gset nat)) in Hsub. set_solver. Qed.
Lemma remaining_entered t g :
  t ∈ dom U → g_names g !! t = None → remaining (entered t g) < remaining g.
Proof.
  intros Hin Ht. unfold remaining. apply subset_size. rewrite entered_names, dom_insert.
  apply not_elem_of_dom in Ht. set_solver.
Qed.

Definition Terminates (bound : nat) (equal : ident → generator → option (result (nat * generator))) : Prop :=
  ∀ t g, remaining g < bound → equal t g ≠ None.

Lemma equal_fields_terminates bound f t fields g :
  Monotone f → Terminates bound f → remaining g < bound → equal_fields U f t fields g ≠ None.
Proof.
  intros Hmono Hf. revert g. induction fields as [|fd fields IH]; intros g Hg; cbn [equal_fields]; [done|].
  destruct (negb _); [done|]. apply and_then_None; [by apply Hf|]. intros [n g1] Hn%Hmono%remaining_mono.
  apply and_then_None; [apply IH; lia|]. by intros [cs g2].
Qed.

Lemma equal_terminates fuel : Terminates fuel (equal fuel).
Proof.
  induction fuel as [|fuel IH]; intros t g Hg; [lia|]. rewrite equal_eq.
  destruct (g_names g !! _) as [name|] eqn:Ht; [done|].
  destruct (U !! _) as [[|obj u syntax]|] eqn:Hu; [done| |done].
  assert (Hrem : remaining (entered (Unalias U t) g) < fuel).
  { assert (remaining (entered (Unalias U t) g) < remaining g); [|lia].
    apply remaining_entered; [|done]. apply elem_of_dom. by eexists. }
  apply and_then_None; [|by intros [b g']]. unfold visit.
  destruct (is_netip obj) as [[]|]; [done| |done].
  destruct u; try done; try (apply and_then_None; [by apply IH|by intros [f g']]).
  apply and_then_None; [|by intros [cs g']].
  eapply (equal_fields_terminates fuel); [apply equal_mono|done|].
  unfold remaining. by rewrite (proj1 (write_guard_frame _ _ _ _)).
Qed.

(** ** The invariant

    [pending] are the types whose functions are being written: each of them has a name and
    no function yet, every other named type has exactly one, which describes it. *)
Record Inv (pending : gset ident) (g : generator) : Prop := {
  inv_inj : ∀ t t' n, g_names g !! t = Some n → g_names g !! t' = Some n → t = t';
  inv_bound : ∀ t n, g_names g !! t = Some n → n < size (g_names g);
  inv_pending : ∀ t, t ∈ pending → is_Some (g_names g !! t);
  inv_func : ∀ t n, g_names g !! t = Some n → t ∈ pending ∨
    ∃ b, (n, b) ∈ functions (g_body g) ∧ describes (g_names g) t b;
  inv_only : ∀ n b, (n, b) ∈ functions (g_body g) →
    ∃ t, (t ∉ pending) ∧ g_names g !! t = Some n ∧ describes (g_names g) t b;
  inv_distinct : NoDup ((functions (g_body g)).*1)
}.

Lemma describes_mono names names' t b : names ⊆ names' → describes names t b → describes names' t b.
Proof.
  intros Hsub (obj & u & syntax & netip & Ht & Hnetip & Hb). exists obj, u, syntax, netip.
  split_and!; [done..|]. cbv zeta in *. destruct netip; [done|].
  destruct u, b; try done; try (eapply lookup_weaken; [exact Hb|exact Hsub]).
  eapply Forall2_impl; [exact Hb|]. intros f [name n] (? & ? & ?). split_and!; [done..|].
  by eapply lookup_weaken.
Qed.

Lemma generator_initial : Inv ∅ initial.
Proof.
  split; cbn; [set_solver..|by intros ? ? ?%not_elem_of_nil|constructor].
Qed.

(** A state with the same names and functions. *)
Lemma Inv_frame pending g g' :
  g_names g' = g_names g → functions (g_body g') = functions (g_body g) → Inv pending g → Inv pending g'.
Proof. intros Hn Hb [????? ?]. split; rewrite ?Hn, ?Hb; done. Qed.

Lemma Inv_enter pending t g :
  g_names g !! t = None → Inv pending g → Inv ({[t]} ∪ pending) (entered t g).
Proof.
  intros Ht [Hinj Hbound Hpending Hfunc Honly Hdistinct].
  assert (Hsub : g_names g ⊆ <[t := size (g_names g)]> (g_names g)) by (by apply insert_subseteq).
  split; rewrite ?entered_names, ?entered_body, ?map_size_insert_None by done.
  - intros t1 t2 n [[<- <-]|[Hne1 H1]]%lookup_insert_Some [[<- Hn]|[Hne2 H2]]%lookup_insert_Some.
    + done.
    + apply Hbound in H2. lia.
    + apply Hbound in H1. lia.
    + by eapply Hinj.
  - intros t1 n [[_ <-]|[_ H1%Hbound]]%lookup_insert_Some; lia.
  - intros t1 [->%elem_of_singleton|H1]%elem_of_union; [rewrite lookup_insert_eq; by eexists|].
    apply Hpending in H1 as [n Hn]. exists n. by eapply lookup_weaken.
  - intros t1 n [[<- _]|[_ H1]]%lookup_insert_Some; [left; set_solver|].
    destruct (Hfunc _ _ H1) as [Hp|(b & Hb & Hdesc)]; [left; set_solver|right].
    exists b. split; [done|]. by eapply describes_mono.
  - intros n b (t1 & Hp & Hn & Hdesc)%Honly. exists t1. split_and!.
    + intros [->%elem_of_singleton|?]%elem_of_union; [congruence|done].
    + by eapply lookup_weaken.
    + by eapply describes_mono.
  - done.
Qed.

Lemma Inv_finish pending t n type b g :
  t ∉ pending → g_names g !! t = Some n → describes (g_names g) t b → Inv ({[t]} ∪ pending) g →
  Inv pending (write (Func n type b) g).
Proof.
  intros Hp Hn Hdesc [Hinj Hbound Hpending Hfunc Honly Hdistinct].
  assert (Hbody : functions (g_body (write (Func n type b) g)) = functions (g_body g) ++ [(n, b)]).
  { unfold functions. cbn. by rewrite omap_app. }
  split; rewrite ?Hbody; cbn [g_names write]; [done|done|set_solver|..].
  - intros t1 n1 H1. destruct (decide (t1 = t)) as [->|Hne].
    + right. exists b. simplify_eq. split; [apply elem_of_app; right; left|done].
    + destruct (Hfunc _ _ H1) as [?|(b1 & Hb1 & ?)]; [left; set_solver|right].
      exists b1. split; [apply elem_of_app; by left|done].
  - intros n1 b1 [(t1 & Hp1 & ?)%Honly|[= -> ->]%list_elem_of_singleton]%elem_of_app.
    + exists t1. split; [set_solver|done].
    + by exists t.
  - rewrite fmap_app. apply NoDup_app. split_and!; [done| |apply NoDup_singleton].
    intros n1 Hin ->%list_elem_of_singleton. apply list_elem_of_fmap in Hin as ([n2 b1] & Hn2 & Hin).
    cbn in Hn2; subst n2. destruct (Honly _ _ Hin) as (t1 & Hp1 & Hn1 & _).
    apply Hp1. rewrite (Hinj _ _ _ Hn1 Hn). set_solver.
Qed.

(** What a call leaves behind, and what its result is. *)
Definition Sound (equal : ident → generator → option (result (nat * generator))) : Prop :=
  ∀ pending t g n g', Inv pending g → equal t g = Some (Ok (n, g')) →
    Inv pending g' ∧ g_names g' !! Unalias U t = Some n.

Lemma equal_fields_sound f pending t fields g callees g' :
  Monotone f → Sound f → Inv pending g → equal_fields U f t fields g = Some (Ok (callees, g')) →
  Inv pending g' ∧
  Forall2 (λ f c, field_exported f = true ∧ c.1 = field_name f ∧
             g_names g' !! Unalias U (field_type f) = Some c.2) fields callees.
Proof.
  intros Hmono Hf. revert g callees. induction fields as [|fd fields IH]; intros g callees Hg; cbn [equal_fields].
  { by intros [= <- <-]. }
  destruct (field_exported fd) eqn:Hexported; cbn [negb]; [|done].
  intros ([n g1] & Hn & ([cs g2] & Hcs & [= <- <-])%and_then_Ok)%and_then_Ok.
  destruct (Hf _ _ _ _ _ Hg Hn) as [Hg1 Hname]. destruct (IH _ _ Hg1 Hcs) as [Hg2 Hall].
  split; [done|]. constructor; [|done]. split_and!; [done..|].
  eapply lookup_weaken; [exact Hname|]. by eapply equal_fields_mono.
Qed.

Lemma visit_sound f pending t obj u syntax g b g' :
  Monotone f → Sound f → Inv pending g → U !! t = Some (Type_ obj u syntax) →
  visit f t obj u g = Some (Ok (b, g')) → Inv pending g' ∧ describes (g_names g') t b.
Proof.
  intros Hmono Hf Hg Ht. unfold visit, GeneratorSpec.describes.
  destruct (is_netip obj) as [[]|] eqn:Hnetip; [|..|done].
  { intros [= <- <-]. split; [done|]. by exists obj, u, syntax, true. }
  destruct u; try done.
  { intros [= <- <-]. split; [done|]. by exists obj, Basic, syntax, false. }
  1-4: intros ([n g1] & (Hg1 & Hname)%(Hf pending) & [= <- <-])%and_then_Ok; [|done];
    split; [done|]; by eexists _, _, _, false.
  intros ([cs g1] & Hcs & [= <- <-])%and_then_Ok.
  eapply (equal_fields_sound f pending) in Hcs as [Hg1 Hall]; [|done..|].
  - split; [done|]. by eexists _, _, _, false.
  - by eapply Inv_frame; [apply (write_guard_frame _ _ _ _)..|].
Qed.

Lemma equal_sound fuel : Sound (equal fuel).
Proof.
  induction fuel as [|fuel IH]; intros pending t g n g' Hg; [done|]. rewrite equal_eq.
  set (t' := Unalias U t).
  destruct (g_names g !! t') as [name|] eqn:Hname; [by intros [= -> ->]|].
  destruct (U !! t') as [[|obj u syntax]|] eqn:Ht; [done| |done].
  intros ([b g1] & Hvisit & [= <- <-])%and_then_Ok.
  pose proof (visit_mono _ _ _ _ _ _ _ (equal_mono fuel) Hvisit) as Hsub. rewrite entered_names in Hsub.
  apply (visit_sound _ ({[t']} ∪ pending) _ _ _ syntax) in Hvisit as [Hg1 Hdesc];
    [|apply equal_mono|done|by apply Inv_enter|done].
  assert (Hn : g_names g1 !! t' = Some (size (g_names g))).
  { eapply lookup_weaken; [|exact Hsub]. apply lookup_insert_eq. }
  split; [|done]. apply (Inv_finish pending t'); [|done..].
  intros [? Hp]%(inv_pending _ _ Hg). congruence.
Qed.

(** The finished program. *)
Lemma generate_complete root name g :
  generate U root = Some (Ok (name, g)) →
  Complete U (g_names g) (g_body g) ∧ g_names g !! Unalias U root = Some name ∧
  NoDup (functions (g_body g)).*1.
Proof.
  intros [[Hinj Hbound Hpending Hfunc Honly Hdistinct] Hname]%(equal_sound _ ∅); [|apply generator_initial].
  split_and!; [|done..]. split; [done|..].
  - intros t n [?%not_elem_of_empty|(b & [type Hb]%elem_of_functions & ?)]%Hfunc; [done|]. by exists type, b.
  - intros n type b Hb. destruct (Honly n b) as (t & _ & ?); [|by exists t].
    apply elem_of_functions. by exists type.
Qed.

(** ** Graphs on which the generator succeeds *)
Definition known (t : ident) : Prop := ∃ obj u syntax, U !! Unalias U t = Some (Type_ obj u syntax).
(** Types that the generator can compare: no private field, no function, channel or
    interface, outside package net/netip. *)
Definition Reviewed : Prop := ∀ t obj u syntax, U !! t = Some (Type_ obj u syntax) →
  ∃ netip, is_netip obj = Some netip ∧ (netip = false →
    match u with
    | Basic => True
    | Pointer elem | Slice elem | Map elem | Array elem => known elem
    | Struct fields => ∀ f, f ∈ fields → field_exported f = true ∧ known (field_type f)
    | OtherType => False
    end).

Definition Succeeds (equal : ident → generator → option (result (nat * generator))) : Prop :=
  ∀ t g e, known t → equal t g ≠ Some (Err e).

Lemma and_then_not_Err {A B} (m : option (result A)) (k : A → option (result B)) e :
  m ≠ Some (Err e) → (∀ a, k a ≠ Some (Err e)) → and_then m k ≠ Some (Err e).
Proof. destruct m as [[a|e']|]; cbn; auto; congruence. Qed.

Lemma equal_fields_succeeds f t fields g e :
  Succeeds f → (∀ fd, fd ∈ fields → field_exported fd = true ∧ known (field_type fd)) →
  equal_fields U f t fields g ≠ Some (Err e).
Proof.
  intros Hf. revert g. induction fields as [|fd fields IH]; intros g Hall; cbn [equal_fields]; [done|].
  destruct (Hall fd) as [-> Hknown]; [left|]. cbn [negb].
  apply and_then_not_Err; [by apply Hf|]. intros [n g1].
  apply and_then_not_Err; [|by intros [cs g2]]. apply IH. intros fd' Hin. apply Hall. by right.
Qed.

Lemma equal_succeeds fuel : Reviewed → Succeeds (equal fuel).
Proof.
  intros Hreviewed. induction fuel as [|fuel IH]; intros t g e (obj & u & syntax & Ht); [done|].
  rewrite equal_eq, Ht. destruct (g_names g !! _); [done|].
  apply and_then_not_Err; [|by intros [b g1]]. unfold visit.
  destruct (Hreviewed _ _ _ _ Ht) as (netip & -> & Hu). destruct netip; [done|]. specialize (Hu eq_refl).
  destruct u; try done; apply and_then_not_Err; try by intros [? ?]; try by apply IH.
  - by apply IH.
  - by apply IH.
  - by apply IH.
  - by apply IH.
  - by apply equal_fields_succeeds.
Qed.

(** C22. The generator terminates on every type graph, cyclic ones included, and on a graph
    of reviewed types it succeeds. *)
Theorem generate_terminates root :
  generate U root ≠ None ∧ (Reviewed → known root → ∃ name g, generate U root = Some (Ok (name, g))).
Proof.
  assert (Hterm : generate U root ≠ None).
  { apply equal_terminates. unfold remaining, fuel_of. rewrite <- (size_dom (D := gset ident) U).
    apply Nat.lt_succ_r, subseteq_size. set_solver. }
  split; [done|]. intros Hreviewed Hknown. unfold generate in *.
  destruct (equal (fuel_of U) root initial) as [[[name g]|e]|] eqn:Hrun; [by exists name, g| |done].
  by apply equal_succeeds in Hrun.
Qed.

(** C5. Whatever graph of types the generator accepts, the functions it writes have
    distinct names, and the one for the root type, run on any two values of that type,
    returns, and returns whether they are deeply equal: no field, element or map entry of
    any type in the graph is missed.  (Values are finite trees whose maps have string keys,
    see [value]; that of a recursive type has an end.) *)
Theorem generate_correct (array_length : ident → nat) root name g :
  generate U root = Some (Ok (name, g)) →
  NoDup (functions (g_body g)).*1 ∧
  ∀ a b, typed U array_length root a → typed U array_length root b →
    ∃ r, run (g_body g) (S (depth a)) name a b = Some r ∧ (r = true ↔ DeepEqual a b).
Proof.
  intros (Hcomplete & Hname & Hdistinct)%generate_complete. split; [done|]. intros a b Ha Hb.
  apply (run_decides U array_length _ _ Hcomplete _ root); [done..|lia].
Qed.
End traversal.

(** ** Example: a recursive type

    type Node struct { Value int; Next *Node; Labels map[string]string } *)
Module Example.
#[local] Existing Instance sorted_range.
Definition lists : package := mkPackage "example.com/lists" "lists".
Definition node_type : named := mkNamed "Node" (Some lists).
Definition exported (name : string) (t : ident) : field := mkField name true false t "".
Definition node_fields : list field := [exported "Value" 1; exported "Next" 2; exported "Labels" 3].
Definition types : gmap ident node :=
  {[ 0 := Type_ (Some node_type) (Struct node_fields) [Qualifier lists; Text ".Node"];
     1 := Type_ None Basic [Text "int"];
     2 := Type_ None (Pointer 0) [Text "*"; Qualifier lists; Text ".Node"];
     3 := Type_ None (Map 4) [Text "map[string]string"];
     4 := Type_ None Basic [Text "string"] ]}.
Definition program : list decl :=
  match generate types 0 with Some (Ok (_, g)) => g_body g | _ => [] end.

Definition func (n : nat) : option string :=
  head (omap (λ d, match d with Func m _ _ => if m == n then Some (print_decl d) else None | _ => None end) program).
Example printed_pointer :
  func 2 = Some ("func equal2(a,b *lists.Node) bool {" +:+ newline
    +:+ "if a == nil || b == nil { return a == b }; return equal0(*a,*b)" +:+ newline +:+ "}" +:+ newline).
Proof. vm_compute. reflexivity. Qed.
Example printed_struct :
  func 0 = Some ("func equal0(a,b lists.Node) bool {" +:+ newline
    +:+ "if !equal1(a.Value,b.Value) { return false }" +:+ newline
    +:+ "if !equal2(a.Next,b.Next) { return false }" +:+ newline
    +:+ "if !equal3(a.Labels,b.Labels) { return false }" +:+ newline
    +:+ "return true" +:+ newline +:+ "}" +:+ newline).
Proof. vm_compute. reflexivity. Qed.

(** Two nodes, the labels of the second one in either order. *)
Definition labels (l : list (string * Z)) : value := VMap (Some ((λ e, (e.1, VBasic e.2)) <$> l)).
Definition tail (l : list (string * Z)) : value := VStruct [VBasic 2; VPtr None; labels l].
Definition two (l : list (string * Z)) : value := VStruct [VBasic 1; VPtr (Some (tail l)); VMap None].

Lemma labels_typed l : NoDup l.*1 → typed types (λ _, 0) 3 (labels l).
Proof.
  intros Hnd. eapply typed_map; [reflexivity..|]. intros m [= <-]. split.
  - by rewrite <- list_fmap_compose.
  - intros key v ([k z] & [= -> ->] & _)%list_elem_of_fmap. by eapply typed_basic.
Qed.
Lemma node_typed z next m :
  typed types (λ _, 0) 2 next → typed types (λ _, 0) 3 m → typed types (λ _, 0) 0 (VStruct [VBasic z; next; m]).
Proof.
  intros Hnext Hm. eapply typed_struct; [reflexivity..|].
  repeat constructor; [|done..]. by eapply typed_basic.
Qed.
Lemma two_typed l : NoDup l.*1 → typed types (λ _, 0) 0 (two l).
Proof.
  intros Hnd. apply node_typed; (eapply typed_pointer || eapply typed_map); try reflexivity; [|done].
  intros v [= <-]. apply node_typed; [|by apply labels_typed].
  eapply typed_pointer; [reflexivity..|done].
Qed.
Definition ab : list (string * Z) := [("a", 1%Z); ("b", 2%Z)].
Definition ba : list (string * Z) := [("b", 2%Z); ("a", 1%Z)].

Lemma generate_correct_witness : DeepEqual (two ab) (two ba).
Proof.
  destruct (generate types 0) as [[[name g]|e]|] eqn:Hgen; [|vm_compute in Hgen; discriminate Hgen..].
  destruct (proj2 (generate_correct types (λ _, 0) 0 name g Hgen) (two ab) (two ba)) as (r & Hrun & Hr).
  - apply two_typed. vm_compute. repeat constructor; set_solver.
  - apply two_typed. vm_compute. repeat constructor; set_solver.
  - apply Hr. vm_compute in Hgen. injection Hgen as <- <-. vm_compute in Hrun. by injection Hrun as <-.
Defined.

Lemma types_reviewed : Reviewed types.
Proof.
  assert (Hknown : ∀ t, t ∈ [0; 1; 2; 3; 4] → known types t).
  { intros t Ht. repeat (apply elem_of_cons in Ht as [->|Ht]; [eexists _, _, _; vm_compute; reflexivity|]).
    by apply not_elem_of_nil in Ht. }
  intros t obj u syntax Ht. unfold types in Ht.
  repeat (apply lookup_insert_Some in Ht as [[_ [= <- <- _]]|[_ Ht]]; [eexists; split; [reflexivity|]|]);
    cbn; try done; try (intros _; apply Hknown; set_solver).
  - intros _ f Hf. repeat (apply elem_of_cons in Hf as [->|Hf]; [split; [done|apply Hknown; set_solver]|]).
    by apply not_elem_of_nil in Hf.
  - apply lookup_singleton_Some in Ht as [_ [= <- <- _]]. eexists. split; [reflexivity|done].
Qed.

Lemma generate_terminates_witness : ∃ name g, generate types 0 = Some (Ok (name, g)).
Proof.
  apply (proj2 (generate_terminates types 0) types_reviewed).
  eexists _, _, _. vm_compute. reflexivity.
Defined.
End Example.

(** The names of imports depend on the order in which Go enumerates a map, and two imports
    can get the same one: with packages a and a2 imported, another package a becomes a22
    or a2. *)
Definition imported : gmap string string := {[ "x/a" := "a"; "y/a2" := "a2" ]}.
Lemma import_name_ambiguous :
  (@qualify sorted_range imported (mkPackage "z/a" "a")).1 = "a22" ∧
  (@qualify reversed_range imported (mkPackage "z/a" "a")).1 = "a2" ∨
  (@qualify sorted_range imported (mkPackage "z/a" "a")).1 = "a2" ∧
  (@qualify reversed_range imported (mkPackage "z/a" "a")).1 = "a22".
Proof. vm_compute. tauto. Qed.
