(* ===== verification/GeneratorTyped.v ===== *)
(** * Command generate: the generated file is well typed

    The imports of [Generator] only grow, so a type that was spelled once is spelled the
    same in the finished file.  Every function is declared at its own type and calls only
    functions declared at the types of the parts that it compares; every named struct has
    its schema guard.  What the graph has to be like for Go to accept the names in the file
    is [Nameable]. *)
From S2P Require Import Prelude GoString Generator GeneratorNames GeneratorSpec GeneratorCorrect.

Section typed.
Context `{!MapRange} (U : gmap ident node).

(** ** Names that another package may use *)
Definition syntax_of (t : ident) : list piece :=
  match U !! t with Some (Alias _ syntax) | Some (Type_ _ _ syntax) => syntax | None => [] end.
(** Every name after a qualifier starts with an upper-case letter: it is exported. *)
Fixpoint exported_names (syntax : list piece) : bool :=
  match syntax with
  | [] => true
  | Text _ :: syntax => exported_names syntax
  | Qualifier _ :: syntax =>
      match syntax with
      | Text (String dot (String c _)) :: _ => Ascii.eqb dot "." && is_upper c
      | _ => false
      end && exported_names syntax
  end.
(** The graphs whose types can be named in a file of another package: no type in them is
    spelled with an unexported name, or one of a package whose name ends in a digit or is an
    identifier of the file. *)
Record Nameable : Prop := {
  nameable_exported : ∀ t, exported_names (syntax_of t) = true;
  nameable_package : ∀ t p, Qualifier p ∈ syntax_of t → plain_package p
}.

(** ** Spelling *)
Lemma qualify_stable imports p :
  imports ⊆ (qualify imports p).2 ∧
  ∀ later, (qualify imports p).2 ⊆ later → qualify later p = ((qualify imports p).1, later).
Proof.
  unfold qualify. destruct (imports !! pkg_path p) as [name|] eqn:Hp; cbn [fst snd].
  - split; [done|]. intros later Hsub. by rewrite (lookup_weaken _ _ _ _ Hp Hsub).
  - split; [by apply insert_subseteq|]. intros later Hsub.
    erewrite lookup_weaken; [done| |exact Hsub]. apply lookup_insert_eq.
Qed.

Lemma TypeString_stable syntax imports :
  imports ⊆ (TypeString syntax imports).2 ∧
  ∀ later, (TypeString syntax imports).2 ⊆ later →
    TypeString syntax later = ((TypeString syntax imports).1, later).
Proof.
  revert imports. induction syntax as [|[s|p] syntax IH]; intros imports; cbn [TypeString].
  - by split.
  - destruct (IH imports) as [Hsub Hlater]. destruct (TypeString syntax imports) as [rest i]. cbn in *.
    split; [done|]. intros later ->%Hlater. done.
  - destruct (qualify_stable imports p) as [Hsub Hlater]. destruct (qualify imports p) as [name i]. cbn in *.
    destruct (IH i) as [Hsub' Hlater']. destruct (TypeString syntax i) as [rest i']. cbn in *.
    split; [by etrans|]. intros later Hl. rewrite Hlater by (by etrans). by rewrite Hlater'.
Qed.

(** [type] is how [t] is spelled from the state [g] on. *)
Definition spelled (g : generator) (t : ident) (type : string) : Prop :=
  ∀ g', g_imports g ⊆ g_imports g' → typeName U t g' = (type, g').
Definition shaped (g : generator) (fields : list field) (s : string) : Prop :=
  ∀ g', g_imports g ⊆ g_imports g' → shape U fields g' = (s, g').

Lemma spelled_weaken g g' t type : g_imports g ⊆ g_imports g' → spelled g t type → spelled g' t type.
Proof. intros ? Hs g'' ?. apply Hs. by etrans. Qed.
Lemma shaped_weaken g g' fields s : g_imports g ⊆ g_imports g' → shaped g fields s → shaped g' fields s.
Proof. intros ? Hs g'' ?. apply Hs. by etrans. Qed.

Lemma set_imports_id g : set_imports (g_imports g) g = g.
Proof. by destruct g. Qed.

Lemma typeName_eq t g :
  typeName U t g = ((TypeString (syntax_of t) (g_imports g)).1, set_imports (TypeString (syntax_of t) (g_imports g)).2 g).
Proof. unfold typeName, syntax_of. by destruct (TypeString _ _). Qed.

Lemma typeName_spelled t g :
  g_imports g ⊆ g_imports (typeName U t g).2 ∧ spelled (typeName U t g).2 t (typeName U t g).1.
Proof.
  unfold spelled. destruct (TypeString_stable (syntax_of t) (g_imports g)) as [Hsub Hlater].
  rewrite !typeName_eq. split; [exact Hsub|]. intros g' Hg'. rewrite typeName_eq, (Hlater _ Hg'). cbn [fst snd].
  by rewrite set_imports_id.
Qed.

Lemma TypeString_distinct syntax imports :
  (∀ p, Qualifier p ∈ syntax → plain_package p) → Distinct imports → Distinct (TypeString syntax imports).2.
Proof.
  revert imports. induction syntax as [|[s|p] syntax IH]; intros imports Hplain Himports; cbn [TypeString]; [done|..].
  - specialize (IH imports). destruct (TypeString syntax imports) as [rest i]. apply IH; [|done].
    intros p Hp. apply Hplain. by right.
  - pose proof (qualify_distinct imports p (Hplain p ltac:(left)) Himports) as Hq.
    destruct (qualify imports p) as [name i]. specialize (IH i).
    destruct (TypeString syntax i) as [rest i']. apply IH; [|done]. intros p' Hp. apply Hplain. by right.
Qed.
Lemma typeName_distinct t g : Nameable → Distinct (g_imports g) → Distinct (g_imports (typeName U t g).2).
Proof. intros Hn Hg. rewrite typeName_eq. apply TypeString_distinct; [apply (nameable_package Hn)|done]. Qed.
Lemma shape_distinct fields g : Nameable → Distinct (g_imports g) → Distinct (g_imports (shape U fields g).2).
Proof.
  intros Hn. unfold shape. enough (∀ g, Distinct (g_imports g) → Distinct (g_imports (shape_fields U fields g).2)) as Hfields.
  { specialize (Hfields g). by destruct (shape_fields U fields g). }
  clear g. induction fields as [|f fields IH]; intros g Hg; cbn [shape_fields]; [done|].
  pose proof (typeName_distinct (field_type f) g Hn Hg) as Hg1.
  destruct (typeName U (field_type f) g) as [type g1]. specialize (IH g1 Hg1).
  by destruct (shape_fields U fields g1) as [rest g2].
Qed.

Lemma shape_fields_spelled fields g :
  g_imports g ⊆ g_imports (shape_fields U fields g).2 ∧
  ∀ g', g_imports (shape_fields U fields g).2 ⊆ g_imports g' →
    shape_fields U fields g' = ((shape_fields U fields g).1, g').
Proof.
  revert g. induction fields as [|f fields IH]; intros g; cbn [shape_fields]; [by split|].
  destruct (typeName_spelled (field_type f) g) as [Hsub Hspelled].
  destruct (typeName U (field_type f) g) as [type g1]. cbn [fst snd] in *.
  destruct (IH g1) as [Hsub' Hlater]. destruct (shape_fields U fields g1) as [rest g2]. cbn [fst snd] in *.
  split; [by etrans|]. intros g' Hg'. rewrite Hspelled by (by etrans). by rewrite Hlater.
Qed.

Lemma shape_spelled fields g :
  g_imports g ⊆ g_imports (shape U fields g).2 ∧ shaped (shape U fields g).2 fields (shape U fields g).1.
Proof.
  destruct (shape_fields_spelled fields g) as [Hsub Hlater]. unfold shaped, shape.
  destruct (shape_fields U fields g) as [s g1]. cbn [fst snd] in *. split; [done|].
  intros g' Hg'. by rewrite Hlater.
Qed.

(** ** The invariant

    [pending] is a type whose guard may not be written yet. *)
Definition guard_of (g : generator) (t : ident) (s type : string) : Prop :=
  is_Some (g_names g !! t) ∧
  ∃ obj fields syntax, U !! t = Some (Type_ (Some obj) (Struct fields) syntax) ∧
    is_netip (Some obj) = Some false ∧ shaped g fields s ∧ spelled g t type.
Definition guarded (g : generator) (t : ident) : Prop :=
  ∃ s type, Guard s type ∈ g_body g ∧ guard_of g t s type.
Record Spelled (pending : gset ident) (g : generator) : Prop := {
  spelled_func : ∀ n type b, Func n type b ∈ g_body g → ∃ t, g_names g !! t = Some n ∧ spelled g t type;
  spelled_guard : ∀ s type, Guard s type ∈ g_body g → ∃ t, guard_of g t s type;
  spelled_shapes : ∀ t, t ∈ g_shapes g → guarded g t;
  spelled_struct : ∀ t obj fields syntax, is_Some (g_names g !! t) → t ∉ pending →
    U !! t = Some (Type_ (Some obj) (Struct fields) syntax) → is_netip (Some obj) = Some false →
    t ∈ g_shapes g;
  spelled_imports : Nameable → Distinct (g_imports g)
}.

Lemma guard_of_weaken g g' t s type :
  g_imports g ⊆ g_imports g' → g_names g ⊆ g_names g' → guard_of g t s type → guard_of g' t s type.
Proof.
  intros Hsub Hnames ([n Hn] & obj & fields & syntax & Ht & Hnetip & Hs & Htype).
  split; [exists n; by eapply lookup_weaken|]. exists obj, fields, syntax.
  split_and!; [done|done|by eapply shaped_weaken|by eapply spelled_weaken].
Qed.

Lemma Spelled_initial : Spelled ∅ initial.
Proof.
  split; cbn; try by intros * ?%not_elem_of_nil.
  - by intros t ?%not_elem_of_empty.
  - intros t obj fields syntax [n Hn]. by rewrite lookup_empty in Hn.
  - intros _. apply Distinct_empty.
Qed.

(** A state with more imports, names and declarations. *)
Lemma Spelled_grow pending pending' g g' l :
  g_imports g ⊆ g_imports g' → g_names g ⊆ g_names g' → g_body g' = g_body g ++ l → g_shapes g ⊆ g_shapes g' →
  (∀ n type b, Func n type b ∈ l → ∃ t, g_names g' !! t = Some n ∧ spelled g' t type) →
  (∀ s type, Guard s type ∈ l → ∃ t, guard_of g' t s type) →
  (∀ t, t ∈ g_shapes g' → t ∈ g_shapes g ∨ guarded g' t) →
  (∀ t, is_Some (g_names g' !! t) → t ∉ pending' →
     is_Some (g_names g !! t) ∧ t ∉ pending ∨ t ∈ g_shapes g' ∨
     ∀ obj fields syntax, U !! t = Some (Type_ (Some obj) (Struct fields) syntax) → is_netip (Some obj) ≠ Some false) →
  (Nameable → Distinct (g_imports g) → Distinct (g_imports g')) →
  Spelled pending g → Spelled pending' g'.
Proof.
  intros Himports Hnames Hbody Hshapes Hl_func Hl_guard Hl_shapes Hpending Hdistinct
    [Hfunc Hguard Hshape Hstruct Hnameable].
  split.
  - rewrite Hbody. intros n type b [(t & Ht & Htype)%Hfunc|?%Hl_func]%elem_of_app; [|done].
    exists t. split; [by eapply lookup_weaken|by eapply spelled_weaken].
  - rewrite Hbody. intros s type [(t & Ht)%Hguard|?%Hl_guard]%elem_of_app; [|done].
    exists t. by eapply guard_of_weaken.
  - intros t [(s & type & Hin & Ht)%Hshape|?]%Hl_shapes; [|done]. exists s, type.
    split; [rewrite Hbody; apply elem_of_app; by left|by eapply guard_of_weaken].
  - intros t obj fields syntax Hname Hp Ht Hnetip. destruct (Hpending t Hname Hp) as [[? ?]|[?|Hnot]].
    + apply Hshapes. by eapply Hstruct.
    + done.
    + by destruct (Hnot _ _ _ Ht).
  - intros Hn. by apply Hdistinct, Hnameable.
Qed.

Lemma typeName_shapes t g : g_shapes (typeName U t g).2 = g_shapes g.
Proof. unfold typeName. cbv zeta. by destruct (TypeString _ _). Qed.
Lemma shape_frame fields g :
  let g' := (shape U fields g).2 in
  g_names g' = g_names g ∧ g_body g' = g_body g ∧ g_shapes g' = g_shapes g.
Proof.
  unfold shape. cbv zeta. assert (Hfields : g_shapes (shape_fields U fields g).2 = g_shapes g).
  { revert g. induction fields as [|f fields IH]; intros g; cbn [shape_fields]; [done|].
    pose proof (typeName_shapes (field_type f) g) as Hs.
    destruct (typeName U (field_type f) g) as [type g1]. cbn in Hs. specialize (IH g1).
    destruct (shape_fields U fields g1) as [rest g2]. cbn in *. congruence. }
  destruct (shape_fields_frame U fields g) as [Hn Hb]. by destruct (shape_fields U fields g) as [s g'].
Qed.

Lemma Spelled_entered t g :
  g_names g !! t = None → Spelled ∅ g →
  Spelled {[t]} (entered U t g) ∧ g_imports g ⊆ g_imports (entered U t g).
Proof.
  intros Ht Hg. assert (Hsub : g_imports g ⊆ g_imports (entered U t g)).
  { unfold entered. apply (typeName_spelled t (add_name t (size (g_names g)) g)). }
  split; [|done].
  assert (Hshapes : g_shapes (entered U t g) = g_shapes g).
  { unfold entered. by rewrite typeName_shapes. }
  apply (Spelled_grow ∅ _ g _ []); rewrite ?app_nil_r, ?entered_body, ?entered_names, ?Hshapes; try done.
  - by apply insert_subseteq.
  - by intros ? ? ? ?%not_elem_of_nil.
  - by intros ? ? ?%not_elem_of_nil.
  - by left.
  - intros t' Hname Hp. left. rewrite lookup_insert_ne in Hname by set_solver. by split; [|set_solver].
  - intros Hn. apply (typeName_distinct t (add_name t (size (g_names g)) g) Hn).
Qed.

(** A type that needs no guard. *)
Lemma Spelled_unguarded t g :
  (∀ obj fields syntax, U !! t = Some (Type_ (Some obj) (Struct fields) syntax) →
     is_netip (Some obj) = Some false → t ∈ g_shapes g) →
  Spelled {[t]} g → Spelled ∅ g.
Proof.
  intros Ht [Hfunc Hguard Hshape Hstruct Hdistinct]. split; [done..| |done]. intros t' obj fields syntax Hname _ Hu Hnetip.
  destruct (decide (t' = t)) as [->|Hne]; [by eapply Ht|]. eapply Hstruct; [done| |done..]. set_solver.
Qed.

Lemma Spelled_write_guard t obj fields syntax g :
  U !! t = Some (Type_ obj (Struct fields) syntax) → is_netip obj = Some false →
  is_Some (g_names g !! t) → Spelled {[t]} g →
  Spelled ∅ (write_guard U t obj fields g) ∧ g_imports g ⊆ g_imports (write_guard U t obj fields g).
Proof.
  intros Ht Hnetip Hnamed Hg. unfold write_guard. destruct (bool_decide (is_Some obj) && negb (bool_decide (t ∈ g_shapes g))) eqn:Htest.
  2: { split; [|done]. apply (Spelled_unguarded t); [|done]. intros obj' fields' syntax' Ht' _.
       simplify_eq. apply andb_false_iff in Htest as [Htest%bool_decide_eq_false|Htest%negb_false_iff%bool_decide_eq_true];
         [|done]. by destruct Htest. }
  apply andb_true_iff in Htest as [[name ->]%bool_decide_eq_true _].
  destruct (shape_spelled fields (add_shape t g)) as [Hsub1 Hshaped].
  destruct (shape_frame fields (add_shape t g)) as (Hn1 & Hb1 & Hs1).
  pose proof (shape_distinct fields (add_shape t g)) as Hdistinct1.
  destruct (shape U fields (add_shape t g)) as [s g1]. cbn [fst snd] in *.
  destruct (typeName_spelled t g1) as [Hsub2 Hspelled].
  pose proof (typeName_names U t g1) as Hn2. pose proof (typeName_body U t g1) as Hb2.
  pose proof (typeName_shapes t g1) as Hs2. pose proof (typeName_distinct t g1) as Hdistinct2.
  destruct (typeName U t g1) as [type g2]. cbn [fst snd g_names g_body g_shapes g_imports add_shape] in *.
  set (g3 := write (Guard s type) g2).
  assert (Hguard : guard_of g3 t s type).
  { split; [cbn; by rewrite Hn2, Hn1|].
    exists name, fields, syntax. split_and!; [done|done| |done]. by eapply shaped_weaken. }
  split; [|by etrans].
  apply (Spelled_grow {[t]} _ g _ [Guard s type]); cbn [g3 write g_names g_body g_shapes g_imports].
  - by etrans.
  - by rewrite Hn2, Hn1.
  - by rewrite Hb2, Hb1.
  - rewrite Hs2, Hs1. set_solver.
  - by intros n ty b [=]%list_elem_of_singleton.
  - intros s' type' [= -> ->]%list_elem_of_singleton. by exists t.
  - rewrite Hs2, Hs1. intros t' [->%elem_of_singleton|?]%elem_of_union; [|by left].
    right. exists s, type. split; [apply elem_of_app; right; by left|done].
  - rewrite Hn2, Hn1, Hs2, Hs1. intros t' Hname _. destruct (decide (t' = t)) as [->|Hne]; [right; left; set_solver|].
    left. split; [done|set_solver].
  - intros Hn Hd. by apply Hdistinct2, Hdistinct1.
  - done.
Qed.

Lemma Spelled_write_func t n type b g :
  g_names g !! t = Some n → spelled g t type → Spelled ∅ g → Spelled ∅ (write (Func n type b) g).
Proof.
  intros Ht Htype. apply (Spelled_grow ∅ _ g _ [Func n type b]); cbn [write g_names g_body g_shapes g_imports]; try done.
  - intros n' type' b' [= -> -> ->]%list_elem_of_singleton. by exists t.
  - by intros s ty [=]%list_elem_of_singleton.
  - by left.
  - intros t' Hname _. left. by split; [|set_solver].
Qed.

(** ** The traversal *)
Definition Typing (equal : ident → generator → option (result (nat * generator))) : Prop :=
  ∀ t g n g', Spelled ∅ g → equal t g = Some (Ok (n, g')) →
    Spelled ∅ g' ∧ g_imports g ⊆ g_imports g'.

Lemma equal_fields_typing f t fields g callees g' :
  Typing f → Spelled ∅ g → equal_fields U f t fields g = Some (Ok (callees, g')) →
  Spelled ∅ g' ∧ g_imports g ⊆ g_imports g'.
Proof.
  intros Hf. revert g callees. induction fields as [|fd fields IH]; intros g callees Hg; cbn [equal_fields].
  { by intros [= _ <-]. }
  destruct (negb _); [done|].
  intros ([n g1] & Hn & ([cs g2] & Hcs & [= _ <-])%and_then_Ok)%and_then_Ok.
  destruct (Hf _ _ _ _ Hg Hn) as [Hg1 Hsub]. destruct (IH _ _ Hg1 Hcs) as [Hg2 Hsub'].
  split; [done|by etrans].
Qed.

Lemma visit_typing f t obj u syntax g b g' :
  Typing f → U !! t = Some (Type_ obj u syntax) → is_Some (g_names g !! t) → Spelled {[t]} g →
  visit U f t obj u g = Some (Ok (b, g')) → Spelled ∅ g' ∧ g_imports g ⊆ g_imports g'.
Proof.
  intros Hf Ht Hnamed Hg. unfold visit.
  assert (Hunguarded : match u with Struct _ => is_netip obj = Some true | _ => True end → Spelled ∅ g).
  { intros Hu. apply (Spelled_unguarded t); [|done]. intros obj' fields' syntax' Ht' Hnetip. by simplify_eq. }
  destruct (is_netip obj) as [[]|] eqn:Hnetip; [..|done].
  { intros [= _ <-]. split; [apply Hunguarded; by destruct u|done]. }
  destruct u as [|elem|elem|elem|elem|fields|]; try done.
  { intros [= _ <-]. split; [by apply Hunguarded|done]. }
  1-4: intros ([n g1] & Hn & [= _ <-])%and_then_Ok; eapply Hf; [by apply Hunguarded|exact Hn].
  intros ([cs g1] & Hcs & [= _ <-])%and_then_Ok.
  destruct (Spelled_write_guard _ _ _ _ _ Ht Hnetip Hnamed Hg) as [Hg' Hsub].
  destruct (equal_fields_typing _ _ _ _ _ _ Hf Hg' Hcs) as [? Hsub']. split; [done|by etrans].
Qed.

Lemma equal_typing fuel : Typing (equal U fuel).
Proof.
  induction fuel as [|fuel IH]; intros t g n g' Hg; [done|]. rewrite equal_eq.
  set (t' := Unalias U t).
  destruct (g_names g !! t') as [name|] eqn:Hname; [by intros [= _ <-]|].
  destruct (U !! t') as [[|obj u syntax]|] eqn:Ht; [done| |done].
  intros ([b g1] & Hvisit & [= _ <-])%and_then_Ok.
  destruct (Spelled_entered t' g Hname Hg) as [Hentered Hsub].
  pose proof (visit_mono _ _ _ _ _ _ _ _ (equal_mono U fuel) Hvisit) as Hnames. rewrite entered_names in Hnames.
  assert (Hnamed : is_Some (g_names (entered U t' g) !! t')) by (rewrite entered_names, lookup_insert_eq; by eexists).
  destruct (visit_typing _ _ _ _ _ _ _ _ IH Ht Hnamed Hentered Hvisit) as [Hg1 Hsub'].
  split; [|cbn; by etrans]. apply (Spelled_write_func t'); [|eapply spelled_weaken; [exact Hsub'|]|done].
  - eapply lookup_weaken; [|exact Hnames]. apply lookup_insert_eq.
  - apply typeName_spelled.
Qed.

(** ** Typing of the finished file

    Go's rules for the bodies that the generator writes; aliases are identical types. *)
Definition declared (g : generator) (f : nat) (t : ident) : Prop :=
  ∃ type b, Func f type b ∈ g_body g ∧ typeName U (Unalias U t) g = (type, g).
Inductive body_typed (g : generator) (obj : option named) : underlying → body → Prop :=
| typed_netip_eq u : is_netip obj = Some true → body_typed g obj u BodyEq
| typed_basic_eq : body_typed g obj Basic BodyEq
| typed_deref elem f : declared g f elem → body_typed g obj (Pointer elem) (BodyPointer f)
| typed_range_slice elem f : declared g f elem → body_typed g obj (Slice elem) (BodySlice f)
| typed_range_map elem f : declared g f elem → body_typed g obj (Map elem) (BodyMap f)
| typed_range_array elem f : declared g f elem → body_typed g obj (Array elem) (BodyArray f)
| typed_selectors fields l :
    Forall2 (λ f c, field_exported f = true ∧ c.1 = field_name f ∧ declared g c.2 (field_type f)) fields l →
    body_typed g obj (Struct fields) (BodyStruct l).
Definition decl_typed (g : generator) (d : decl) : Prop :=
  ∃ t obj u syntax, U !! t = Some (Type_ obj u syntax) ∧ exported_names syntax = true ∧
    match d with
    | Func _ type b => typeName U t g = (type, g) ∧ body_typed g obj u b
    | Guard s type => is_Some obj ∧ typeName U t g = (type, g) ∧
        ∃ fields, u = Struct fields ∧ shape U fields g = (s, g) ∧
          ∀ f, f ∈ fields → field_exported f = true ∧ exported_names (syntax_of (field_type f)) = true
    end.
(** A qualifier names one package, and no import takes the name of something else. *)
Definition resolves (imports : gmap string string) : Prop :=
  (∀ path path' name, imports !! path = Some name → imports !! path' = Some name → path = path') ∧
  ∀ path name, imports !! path = Some name → ¬ file_identifier name.

Lemma describes_typed g t b obj u syntax :
  (∀ t n, g_names g !! Unalias U t = Some n → declared g n t) →
  describes U (g_names g) t b → U !! t = Some (Type_ obj u syntax) → body_typed g obj u b.
Proof.
  intros Hdecl (obj' & u' & syntax' & netip & Ht & Hnetip & Hb) Hu.
  rewrite Ht in Hu. injection Hu as -> -> _.
  cbv zeta in Hb. destruct netip; [subst b; by constructor|].
  destruct u, b; try done; [apply typed_basic_eq|constructor; try by apply Hdecl..].
  eapply Forall2_impl; [exact Hb|]. intros f [name n] (? & ? & ?). split_and!; [done..|by apply Hdecl].
Qed.

Lemma describes_exported names t b obj fields syntax f :
  describes U names t b → U !! t = Some (Type_ obj (Struct fields) syntax) → is_netip obj = Some false →
  f ∈ fields → field_exported f = true.
Proof.
  intros (obj' & u & syntax' & netip & Ht & Hnetip & Hb) Hu Hn Hf. rewrite Hu in Ht. injection Ht as -> <- _.
  rewrite Hn in Hnetip. injection Hnetip as <-. cbv zeta in Hb. destruct b; try done.
  apply list_elem_of_lookup in Hf as [i Hi]. by destruct (Forall2_lookup_l _ _ _ _ _ Hb Hi) as (c & _ & ? & _).
Qed.

Lemma syntax_exported t obj u syntax :
  Nameable → U !! t = Some (Type_ obj u syntax) → exported_names syntax = true.
Proof. intros Hn Ht. pose proof (nameable_exported Hn t) as Hexported. unfold syntax_of in Hexported. by rewrite Ht in Hexported. Qed.

End typed.

(** ** Example: the schema guard of a recursive type *)
Module Example.
Import GeneratorCorrect.Example.
#[local] Existing Instance sorted_range.

Lemma types_nameable : Nameable types.
Proof.
  assert (Hall : ∀ t, t ∈ [0; 1; 2; 3; 4] ∨ types !! t = None).
  { intros t. destruct (decide (t < 5)); [left|right].
    - do 5 (destruct t as [|t]; [set_solver|]). lia.
    - unfold types. rewrite !lookup_insert_ne by lia. apply lookup_singleton_ne. lia. }
  assert (Hlists : plain_package lists).
  { split; [reflexivity|]. apply (bool_decide_eq_false (pkg_name lists ∈ file_stems)). vm_compute. reflexivity. }
  split; intros t; unfold syntax_of; (destruct (Hall t) as [Ht|Ht]; [|rewrite Ht]).
  - repeat (apply elem_of_cons in Ht as [->|Ht]; [vm_compute; reflexivity|]). by apply not_elem_of_nil in Ht.
  - done.
  - intros p Hp. enough (p = lists) as -> by done.
    repeat (apply elem_of_cons in Ht as [->|Ht]; [vm_compute in Hp; set_solver|]). by apply not_elem_of_nil in Ht.
  - by intros p ?%not_elem_of_nil.
Qed.

End Example.
