(* ===== verification/SpecJson.v ===== *)
(** * Package specjson: strict decoding of one JSON object

    internal/specjson/decode.go.  encoding/json reads a value of a Docker type by
    reflection on types that are not part of the sources, so reading is an interface:
    a [JsonTarget T] is what json.Decoder.Decode does with DisallowUnknownFields into
    a zero [T]. *)
From S2P Require Import Prelude GoString.

(** The value read from the front of the input and the input left, or nothing when
    Decode returns an error (a syntax error, a type mismatch or an unknown field). *)
Class JsonTarget (T : Type) := json_decode : string → option (T * string).

(** A second Decode returns io.EOF exactly when only JSON white space is left. *)
Definition json_space (c : ascii) : bool :=
  contains_byte c (String " " (String (byte 9) (String (byte 13) (String (byte 10) "")))).
Definition json_eof (rest : string) : bool := str_all json_space rest.

Definition Decode {T} `{!JsonTarget T} (data : string) : result T :=
  let data := TrimSpace data in
  if (data == "") || negb (HasPrefix data "{") then Err "missing or invalid JSON object"
  else match json_decode data with
  | None => Err "invalid JSON or unsupported Docker field"
  | Some (target, rest) =>
      if negb (json_eof rest) then Err "multiple or invalid JSON values" else Ok target
  end.

(** Exactly one object, surrounded by nothing but white space. *)
Lemma Decode_Ok {T} `{!JsonTarget T} data (target : T) :
  Decode data = Ok target ↔
  HasPrefix (TrimSpace data) "{" = true ∧
  ∃ rest, json_decode (TrimSpace data) = Some (target, rest) ∧ json_eof rest = true.
Proof.
  unfold Decode. destruct (TrimSpace data) as [|c s] eqn:Hd; [naive_solver|].
  rewrite (bool_decide_eq_false_2 (String c s = "")) by done. cbn [orb].
  destruct (HasPrefix (String c s) "{"); [|naive_solver]. cbn [negb].
  destruct (json_decode (String c s)) as [[t rest]|]; [|naive_solver].
  destruct (json_eof rest) eqn:He; cbn [negb]; [naive_solver|].
  split; [done|]. intros (_ & rest' & [= -> ->] & ?). congruence.
Qed.
