(* ===== verification/Identity.v ===== *)
(** * Package identity: who Docker authenticated

    internal/identity/identity.go, over the fields that the program reads of the
    authorization request of github.com/docker/go-plugins-helpers. *)
From S2P Require Import Prelude.

(** ** Data *)

(** A leaf certificate, by its Subject.CommonName. *)
Record PeerCertificate := mkPeerCertificate { Subject_CommonName : string }.
Record Request := mkRequest {
  Request_User : string;
  Request_UserAuthNMethod : string;
  Request_RequestMethod : string;
  Request_RequestURI : string;
  Request_RequestBody : string;
  Request_RequestHeaders : gmap string string;
  Request_RequestPeerCertificates : list (ptr PeerCertificate)
}.

(** ** CommonName *)
Definition CommonName (req : Request) : result string :=
  let certs := Request_RequestPeerCertificates req in
  if (Request_UserAuthNMethod req == "") && (Request_User req == "") && (length certs =? 0)%nat
  then Ok ""
  else if Request_UserAuthNMethod req != "TLS" then Err "invalid authentication context"
  else match certs with
  | [] | None :: _ => Err "invalid authentication context"
  | Some cert :: _ =>
      let cn := Subject_CommonName cert in
      if (cn == "") || ((Request_User req != "") && (Request_User req != cn))
      then Err "ambiguous authenticated identity" else Ok cn
  end.

(** ** Specification *)
Definition Anonymous (req : Request) : Prop :=
  Request_UserAuthNMethod req = "" ∧ Request_User req = "" ∧ Request_RequestPeerCertificates req = [].
Definition Authenticated (req : Request) (cn : string) : Prop :=
  cn ≠ "" ∧ Request_UserAuthNMethod req = "TLS" ∧ Request_User req ∈ [""; cn] ∧
  ∃ chain, Request_RequestPeerCertificates req = Some (mkPeerCertificate cn) :: chain.

Lemma CommonName_Ok req cn :
  CommonName req = Ok cn ↔ (cn = "" ∧ Anonymous req) ∨ Authenticated req cn.
Proof.
  unfold CommonName, Anonymous, Authenticated.
  destruct req as [user method rm uri body headers certs];
    cbn [Request_User Request_UserAuthNMethod Request_RequestPeerCertificates]; cbv zeta.
  destruct certs as [|[[leaf]|] chain]; cbn [length Nat.eqb Subject_CommonName];
    repeat case_bool_decide; simpl; set_solver.
Qed.

Lemma Anonymous_not_Authenticated req cn : Anonymous req → ¬ Authenticated req cn.
Proof. intros (Hm & _) (_ & Hm' & _). congruence. Qed.

(** C25. The identity of a request is the common name of the leaf certificate of a TLS
    connection, with which a user name that is present agrees; only a request without any
    authentication data is anonymous; every other context is an error. *)
Theorem CommonName_spec req :
  match CommonName req with
  | Ok cn => (cn = "" ∧ Anonymous req) ∨ Authenticated req cn
  | Err _ => ¬ Anonymous req ∧ ∀ cn, ¬ Authenticated req cn
  end.
Proof.
  destruct (CommonName req) as [cn|e] eqn:Hcn; [by apply CommonName_Ok|].
  assert (Hno : ∀ cn, ¬ ((cn = "" ∧ Anonymous req) ∨ Authenticated req cn)).
  { intros cn Hreq%CommonName_Ok. congruence. }
  split; [intros Ha; apply (Hno ""); auto|intros cn Ha; apply (Hno cn); auto].
Qed.
