(* ===== verification/DockerApi.v ===== *)
(** * Package dockerapi: the internal token and state inspection

    internal/dockerapi/token.go and client.go.  The Docker daemon is the [RoundTripper]
    behind the client's socket, with a state of an arbitrary type [W]; [Reader] is the
    interface the policy evaluator uses, which [Client_Inspect] implements. *)
From Stdlib Require Vector.
From S2P Require Import Prelude GoString GoIO NetUrl NetHttp Operation Swarm SpecJson Observer.

(** ** Token *)
Definition InternalHeader : string := "X-Dockauthz-Internal-Token".
Record Token := mkToken { Token_value : string }.

(** encoding/hex *)
Definition hex_digit (n : N) : ascii := if (n <? 10)%N then byte (48 + n) else byte (87 + n).
Fixpoint EncodeToString (bytes : list ascii) : string :=
  match bytes with
  | [] => ""
  | b :: bytes' =>
      String (hex_digit (code b / 16)) (String (hex_digit (code b mod 16)) (EncodeToString bytes'))
  end.

(** NewToken, for what crypto/rand reads into the 32 bytes. *)
Definition NewToken (random : option (Vector.t ascii 32)) : option Token :=
  match random with
  | None => None
  | Some bytes => Some (mkToken (EncodeToString (Vector.to_list bytes)))
  end.

(** The loop of Check: the number of matching headers and whether the last one is valid. *)
Definition check_header (token : Token) (state : nat * bool) (header : string * string) :
    nat * bool :=
  if EqualFold header.1 InternalHeader
  then (S state.1, header.2 == Token_value token) else state.
Definition Check_headers `{!MapRange} (token : Token) (headers : gmap string string) : bool * bool :=
  let '(count, valid) := foldl (check_header token) (0, false) (range headers) in
  ((0 <? count)%nat, (count =? 1)%nat && valid).

(** ** Client *)
Record Snapshot := mkSnapshot {
  Snapshot_ID : string;
  Snapshot_Version : Z;
  Snapshot_Labels : gomap string;
  Snapshot_ServiceSpec : ptr ServiceSpec
}.

(** type Reader interface *)
Class Reader `{!Otel} (W : Type) := Inspect : Ctx → Operation → M W (result Snapshot).

(** The Docker types whose labels the client reads, by the part that carries them. *)
Record SecretSpec := mkSecretSpec { SecretSpec_Annotations : Annotations }.
Record NodeSpec := mkNodeSpec { NodeSpec_Annotations : Annotations }.
Record Task := mkTask { Task_Annotations : Annotations }.

(** The envelope that Inspect reads first: its Spec is kept as raw JSON. *)
Record Envelope := mkEnvelope {
  Envelope_ID : string;
  Envelope_Version : Z;
  Envelope_Spec : string
}.

(** encoding/json on the types above.  The decoder of the envelope is the lenient one,
    which skips fields it does not know. *)
Class DockerJson := {
  service_target :: JsonTarget ServiceSpec;
  secret_target :: JsonTarget SecretSpec;
  node_target :: JsonTarget NodeSpec;
  task_target :: JsonTarget Task;
  decode_envelope : string → option (Envelope * string)
}.

Record Client := mkClient { Client_http : HttpClient; Client_token : Token }.

Definition LookupTimeout : Z := 5 * 1000000000.
Definition maxIdleConns : Z := 16.
Definition idleConnTimeout : Z := 30 * 1000000000.
Definition forbiddenRedirect : error := "docker redirects forbidden".
Definition New (socket : string) (token : Token) : Client :=
  let transport := mkTransport "unix" socket LookupTimeout maxIdleConns maxIdleConns idleConnTimeout
                     LookupTimeout in
  let httpClient := mkHttpClient transport LookupTimeout (Some (λ _ _, Some forbiddenRedirect)) in
  mkClient httpClient token.

Definition maxResponseSize : Z := Z.shiftl 8 20.

(** path := "/" + resource + "s/" + id, with the API version in front. *)
Definition inspect_path (op : Operation) : string :=
  let path := "/" +:+ Operation_Resource op +:+ "s/" +:+ Operation_ID op in
  if Operation_Version op != "" then "/v" +:+ Operation_Version op +:+ path else path.

(** http.NewRequestWithContext: the path goes through net/url's parser.  Resolve has
    already refused the one character, #, that would end the path there. *)
Definition NewRequest (path : string) : option HttpRequest :=
  match ParseRequestURI path with
  | None => None
  | Some _ => Some (mkHttpRequest "GET" ("http://docker" +:+ path) ∅)
  end.

Section Client.
Context `{!DockerJson}.

(** From the body of a successful response to a snapshot. *)
Definition decode_snapshot (resource : Resource) (body : string) : result Snapshot :=
  match decode_envelope body with
  | None => Err "invalid Docker inspect response"
  | Some (envelope, rest) =>
      if negb (json_eof rest) || (Envelope_ID envelope == "")
      then Err "invalid Docker inspect response"
      else
        let snapshot := mkSnapshot (Envelope_ID envelope) (Envelope_Version envelope) in
        if resource == ResourceService then
          try spec := Decode (T := ServiceSpec) (Envelope_Spec envelope) in
          Ok (snapshot (Annotations_Labels (ServiceSpec_Annotations spec)) (Some spec))
        else if resource == ResourceSecret then
          try spec := Decode (T := SecretSpec) (Envelope_Spec envelope) in
          Ok (snapshot (Annotations_Labels (SecretSpec_Annotations spec)) None)
        else if resource == ResourceNode then
          try spec := Decode (T := NodeSpec) (Envelope_Spec envelope) in
          Ok (snapshot (Annotations_Labels (NodeSpec_Annotations spec)) None)
        else if resource == ResourceTask then
          try task := Decode (T := Task) body in
          Ok (snapshot (Annotations_Labels (Task_Annotations task)) None)
        else Err "unsupported inspect resource"
  end.

Definition decode_response (resource : Resource) (response : HttpResponse) : result Snapshot :=
  if Http_StatusCode response != 200%Z then Err "docker inspect failed"
  else match ReadAllLimited (Http_Body response) (maxResponseSize + 1) with
  | None => Err "invalid Docker inspect response size"
  | Some body =>
      if (maxResponseSize <? byte_length body)%Z then Err "invalid Docker inspect response size"
      else decode_snapshot resource body
  end.

Context `{!Otel} {W : Type} `{!RoundTripper W}.

(** The request that Inspect sends, when it sends one. *)
Definition inspect_request (c : Client) (ctx : Ctx) (op : Operation) : result HttpRequest :=
  let path := inspect_path op in
  match Resolve "GET" path with
  | Err _ => Err "invalid inspect operation"
  | Ok resolved =>
      if Operation_Action resolved != ActionInspect then Err "invalid inspect operation"
      else match NewRequest path with
      | None => Err "cannot construct Docker inspect"
      | Some req =>
          Ok (mkHttpRequest (Http_Method req) (Http_URL req)
                (Inject ctx (<[InternalHeader := Token_value (Client_token c)]> (Http_Header req))))
      end
  end.

Definition round_trip (c : Client) (ctx : Ctx) (op : Operation) : M W (result Snapshot) :=
  match inspect_request c ctx op with
  | Err e => mret (Err e)
  | Ok req =>
      lift (Do (Client_http c) req) ≫= λ response,
      mret (match response with
            | None => Err "docker inspect unavailable or timed out"
            | Some response => decode_response (Operation_Resource op) response
            end)
  end.

Definition Client_Inspect (c : Client) (ctx : Ctx) (op : Operation) : M W (result Snapshot) :=
  with_span ctx "dockauthz.docker.inspect" [("dockauthz.resource", VString (Operation_Resource op))]
    (λ ctx,
      round_trip c ctx op ≫= λ snapshot,
      Observer_Lookup ctx (Operation_Resource op) (result_error snapshot) ≫= λ _,
      mret snapshot).
End Client.

(** ** Token lemmas *)
Definition internal_headers (headers : list (string * string)) : list (string * string) :=
  filter (λ header, EqualFold header.1 InternalHeader = true) headers.

Lemma check_header_fold token headers count valid :
  foldl (check_header token) (count, valid) headers =
  (count + length (internal_headers headers),
   match last (internal_headers headers) with
   | None => valid
   | Some (_, value) => value == Token_value token
   end).
Proof.
  revert count valid. induction headers as [|[k v] headers IH]; intros count valid; cbn [foldl].
  { cbn. f_equal. lia. }
  unfold check_header at 2; cbn [fst snd]. unfold internal_headers. rewrite filter_cons.
  cbn [fst]. destruct (EqualFold k InternalHeader); case_decide; try done; rewrite IH.
  fold (internal_headers headers). rewrite last_cons. cbn [length]. f_equal; [lia|].
  by destruct (last _) as [[? ?]|].
Qed.

(** *** NewToken *)
Lemma code_bound c : (code c < 256)%N.
Proof. apply N_ascii_bounded. Qed.

Lemma hex_digit_inj m n : (m < 16)%N → (n < 16)%N → hex_digit m = hex_digit n → m = n.
Proof.
  unfold hex_digit, byte. intros Hm Hn Heq. apply (f_equal N_of_ascii) in Heq.
  destruct (N.ltb_spec m 10), (N.ltb_spec n 10); rewrite !N_ascii_embedding in Heq; lia.
Qed.

Lemma code_inj c d : code c = code d → c = d.
Proof. intros Heq. rewrite <- (ascii_N_embedding c), <- (ascii_N_embedding d). by f_equal. Qed.

Lemma EncodeToString_inj bs1 bs2 : EncodeToString bs1 = EncodeToString bs2 → bs1 = bs2.
Proof.
  revert bs2. induction bs1 as [|b1 bs1 IH]; intros [|b2 bs2]; try done.
  cbn [EncodeToString]. intros [= Hhi Hlo Hrest].
  pose proof (code_bound b1). pose proof (code_bound b2).
  apply hex_digit_inj in Hhi; [|by apply N.Div0.div_lt_upper_bound..].
  apply hex_digit_inj in Hlo; [|by apply N.mod_lt..].
  f_equal; [|by apply IH]. apply code_inj.
  rewrite (N.div_mod (code b1) 16), (N.div_mod (code b2) 16) by done. congruence.
Qed.

Lemma EncodeToString_length bs : String.length (EncodeToString bs) = 2 * length bs.
Proof. induction bs as [|b bs IH]; cbn [EncodeToString String.length length]; lia. Qed.

(** A fresh token spells 256 random bits in 64 characters without losing any: two
    processes have the same token only if they drew the same bits. *)
Theorem NewToken_spec r1 r2 t :
  NewToken (Some r1) = Some t →
  String.length (Token_value t) = 64 ∧ (NewToken (Some r2) = Some t → r1 = r2).
Proof.
  unfold NewToken. intros [= <-]. split.
  - cbn [Token_value]. by rewrite EncodeToString_length, Vector.length_to_list.
  - intros [= Heq%EncodeToString_inj]. by apply Vector.to_list_inj.
Qed.

Definition zero_bytes : Vector.t ascii 32 := Vector.const (byte 0) 32.
Lemma NewToken_spec_witness :
  NewToken (Some zero_bytes) = Some (mkToken (EncodeToString (Vector.to_list zero_bytes))) ∧
  String.length (EncodeToString (Vector.to_list zero_bytes)) = 64.
Proof.
  split; [reflexivity|].
  exact (proj1 (NewToken_spec zero_bytes zero_bytes _ eq_refl)).
Defined.

Section Token.
Context `{!MapRange}.

(** The header of the internal token, in any spelling of its case. *)
Definition internal_header (headers : gmap string string) (key value : string) : Prop :=
  headers !! key = Some value ∧ EqualFold key InternalHeader = true.

Lemma elem_of_internal headers key value :
  (key, value) ∈ internal_headers (range headers) ↔ internal_header headers key value.
Proof. unfold internal_headers, internal_header. rewrite list_elem_of_filter, elem_of_range. naive_solver. Qed.

Lemma internal_single headers key value :
  internal_headers (range headers) = [(key, value)] ↔
  internal_header headers key value ∧
  ∀ key' value', internal_header headers key' value' → key' = key.
Proof.
  setoid_rewrite <- elem_of_internal. split.
  - intros ->. setoid_rewrite list_elem_of_singleton. naive_solver.
  - intros [Hin Huniq].
    assert (Hnd : NoDup (internal_headers (range headers)).*1).
    { apply (sublist_NoDup _ _ (range_NoDup_fst headers)), fmap_sublist, sublist_filter. }
    destruct (internal_headers (range headers)) as [|[k1 v1] [|[k2 v2] l]].
    + by apply not_elem_of_nil in Hin.
    + apply list_elem_of_singleton in Hin. by rewrite Hin.
    + exfalso. cbn in Hnd. apply NoDup_cons in Hnd as [Hk _]. apply Hk.
      rewrite (Huniq k1 v1), (Huniq k2 v2) by set_solver. left.
Qed.

Lemma Check_headers_iff token headers :
  ((Check_headers token headers).1 = true ↔ ∃ key value, internal_header headers key value) ∧
  ((Check_headers token headers).2 = true ↔
     ∃ key, internal_header headers key (Token_value token) ∧
       ∀ key' value', internal_header headers key' value' → key' = key).
Proof.
  unfold Check_headers. rewrite check_header_fold. cbn [plus fst snd].
  setoid_rewrite <- internal_single. setoid_rewrite <- elem_of_internal.
  destruct (internal_headers (range headers)) as [|[k v] [|[k2 v2] l]] eqn:Hl;
    cbn [length last fst snd]; split.
  - split; [done|]. by intros (? & ? & []%not_elem_of_nil).
  - split; [done|]. by intros [? ?].
  - split; [|done]. intros _. exists k, v. left.
  - cbn. rewrite bool_decide_eq_true. naive_solver.
  - split; [|done]. intros _. exists k, v. left.
  - split; [done|]. by intros [? ?].
Qed.
(** The token check reports a token exactly when some spelling of the header is
    present, and a valid one exactly when that spelling is the only one and its value is
    the process's token, whatever the order in which Go enumerates the headers. *)
Theorem Check_headers_spec token headers :
  ((Check_headers token headers).1 = true ↔ ∃ key value, internal_header headers key value) ∧
  ((Check_headers token headers).2 = true ↔
     ∃ key, internal_header headers key (Token_value token) ∧
       ∀ key' value', internal_header headers key' value' → key' = key).
Proof. apply Check_headers_iff. Qed.
End Token.

(** ** The inspect request *)
Lemma shouldEscape_clean c :
  shouldEscape c = false → isCTL c = false ∧ contains_byte c forbidden_bytes = false.
Proof. destruct c as [[] [] [] [] [] [] [] []]; vm_compute; by intros. Qed.

Lemma clean_path s : str_any shouldEscape s = false → clean_uri s.
Proof.
  unfold clean_uri, ContainsAny. rewrite !str_any_false. intros Hs.
  split; (eapply str_all_impl; [|exact Hs]); intros c Hc%negb_true_iff;
    apply negb_true_iff; by apply shouldEscape_clean in Hc as [? ?].
Qed.

(** The operation that the client's own request is, for an operation under evaluation. *)
Definition inspected (op : Operation) : Operation :=
  {| Operation_Resource := Operation_Resource op; Operation_Action := ActionInspect;
     Operation_ID := Operation_ID op; Operation_Version := Operation_Version op;
     Operation_Query := ∅ |}.

Lemma inspect_path_join op :
  inspect_path op =
  String "/" (Join "/" (canonical_prefix op ++ [collection_of (Operation_Resource op); Operation_ID op])).
Proof.
  unfold inspect_path, canonical_prefix, collection_of. destruct op as [r a id v q];
    cbn [Operation_Resource Operation_ID Operation_Version].
  case_bool_decide; cbn [negb app Join]; rewrite ?str_app_assoc; done.
Qed.

Lemma Resolve_inspect method uri op :
  Resolve method uri = Ok op →
  Operation_Action op ≠ ActionList → Operation_Action op ≠ ActionCreate →
  Resolve "GET" (inspect_path op) = Ok (inspected op).
Proof.
  intros (prefix & segments & rawQuery & [_ _ _ Hversion Hroute])%Resolve_sound Hlist Hcreate.
  apply version_prefix_canonical in Hversion as Hprefix.
  assert (Hinspect : Route "GET" [collection_of (Operation_Resource op); Operation_ID op]
    (Operation_Resource op) ActionInspect (Operation_ID op)).
  { destruct op as [r a id v q]; cbn in Hroute |- *. cbn in Hlist, Hcreate.
    destruct Hroute as [c r Hc|c r id Hc Hid|c r Hc Hw|c r id Hc Hw Hid|id Hid]; try done;
      constructor; rewrite <- ?(collection_of_spec c r Hc); auto with operation. }
  eapply (Resolve_complete _ _ _ prefix _ ""). rewrite inspect_path_join.
  unfold canonical_prefix. rewrite <- Hprefix. split.
  - by left.
  - destruct (Route_plain _ _ _ _ _ Hinspect) as (Hplain & _ & _).
    apply clean_path. apply resolve_segments; [|by destruct prefix].
    apply Forall_app; eauto using version_prefix_plain.
  - done.
  - done.
  - exact Hinspect.
Qed.

(** A collection has no ID to inspect: the path ends in an empty segment. *)
Lemma Resolve_inspect_collection method uri op :
  Resolve method uri = Ok op →
  Operation_Action op = ActionList ∨ Operation_Action op = ActionCreate →
  ∃ e, Resolve "GET" (inspect_path op) = Err e.
Proof.
  intros (prefix & segments & rawQuery & [_ _ _ Hversion Hroute])%Resolve_sound Haction.
  destruct (Resolve "GET" (inspect_path op)) as [op'|e] eqn:Hop'; [exfalso|eauto].
  apply Resolve_sound in Hop' as (prefix' & segments' & rq & [Htarget _ _ Hversion' Hroute']).
  apply version_prefix_canonical in Hversion as Hprefix.
  assert (Hid : Operation_ID op = "" ∧ ∃ c, collection c (Operation_Resource op)).
  { destruct op as [r a id v q]; cbn in Hroute, Haction |- *.
    destruct Hroute; destruct Haction; try done; eauto. }
  destruct Hid as [Hid [c Hc]].
  rewrite inspect_path_join, Hid, <- (collection_of_spec c _ Hc) in Htarget.
  unfold canonical_prefix in Htarget. rewrite <- Hprefix in Htarget.
  set (parts := prefix ++ [c; ""]) in Htarget.
  assert (Hparts : ∀ b, segment_byte b = false → Forall (λ part, contains_byte b part = false) parts).
  { intros b Hb. apply Forall_app. split.
    - eapply Forall_impl; [by eapply version_prefix_plain|]. intros. by apply plain_no_byte.
    - rewrite !Forall_cons. split_and!; [|done|by constructor].
      apply plain_no_byte; [done|]. by eapply collection_plain. }
  assert (Hplain : Forall plain_segment (prefix' ++ segments')).
  { apply Forall_app. split; [by eapply version_prefix_plain|]. by eapply Route_plain. }
  assert (Hne : prefix' ++ segments' ≠ []).
  { intros [_ ->]%app_nil. by apply Route_plain in Hroute' as (_ & ? & _). }
  destruct Htarget as [[Heq _]|Heq].
  - injection Heq as Heq. apply (f_equal (Split "/")) in Heq.
    rewrite (Split_Join "/" parts) in Heq by (first [by destruct prefix|by apply Hparts]).
    rewrite Split_Join in Heq; [|done|].
    + rewrite <- Heq in Hplain. unfold parts in Hplain.
      rewrite Forall_app, !Forall_cons in Hplain. by destruct Hplain as (_ & _ & [[] _] & _).
    + eapply Forall_impl; [exact Hplain|]. intros. by apply plain_no_byte.
  - apply (f_equal (contains_byte "?")) in Heq. rewrite contains_byte_app in Heq.
    cbn [contains_byte str_any] in Heq. rewrite orb_true_r in Heq.
    rewrite (Join_any (Ascii.eqb "?")) in Heq; [done|done|by apply Hparts].
Qed.

(** ** Snapshots *)
Section snapshots.
Context `{!DockerJson}.

(** What an inspect response body says about the resource, by the kind of resource. *)
Inductive describes (body : string) (envelope : Envelope) : Resource → gomap string → ptr ServiceSpec → Prop :=
| describes_service spec :
    Decode (Envelope_Spec envelope) = Ok spec →
    describes body envelope ResourceService (Annotations_Labels (ServiceSpec_Annotations spec)) (Some spec)
| describes_secret spec :
    Decode (Envelope_Spec envelope) = Ok spec →
    describes body envelope ResourceSecret (Annotations_Labels (SecretSpec_Annotations spec)) None
| describes_node spec :
    Decode (Envelope_Spec envelope) = Ok spec →
    describes body envelope ResourceNode (Annotations_Labels (NodeSpec_Annotations spec)) None
| describes_task task :
    Decode body = Ok task →
    describes body envelope ResourceTask (Annotations_Labels (Task_Annotations task)) None.

Record SnapshotOf (resource : Resource) (body : string) (s : Snapshot) : Prop := {
  snapshot_envelope : ∃ envelope rest,
    decode_envelope body = Some (envelope, rest) ∧ json_eof rest = true ∧
    Snapshot_ID s = Envelope_ID envelope ∧ Snapshot_Version s = Envelope_Version envelope ∧
    describes body envelope resource (Snapshot_Labels s) (Snapshot_ServiceSpec s);
  snapshot_identified : Snapshot_ID s ≠ ""
}.

Lemma decode_snapshot_Ok resource body s :
  decode_snapshot resource body = Ok s ↔ SnapshotOf resource body s.
Proof.
  unfold decode_snapshot. split.
  - destruct (decode_envelope body) as [[env rest]|] eqn:Henv; [|done].
    destruct (_ || _) eqn:Hguard; [done|].
    apply orb_false_iff in Hguard as [Heof%negb_false_iff Hid%bool_decide_eq_false]. cbv zeta.
    repeat case_bool_decide; subst; try done; intros (x & Hx & [= <-])%result_bind_Ok;
      (split; [exists env, rest; split_and!; try done; by constructor|done]).
  - intros [(env & rest & -> & -> & Hid & Hversion & Hdesc) Hne].
    rewrite Hid in Hne. rewrite (bool_decide_eq_false_2 _ Hne). cbn [negb orb].
    destruct s as [id v labels spec]; cbn in *; subst. destruct Hdesc as [x Hx|x Hx|x Hx|x Hx];
      cbn [bool_decide]; rewrite Hx; done.
Qed.

Lemma decode_response_Ok resource response s :
  decode_response resource response = Ok s ↔
  Http_StatusCode response = 200%Z ∧ reader_fails (Http_Body response) = false ∧
  (byte_length (reader_data (Http_Body response)) <= maxResponseSize)%Z ∧
  SnapshotOf resource (reader_data (Http_Body response)) s.
Proof.
  unfold decode_response. rewrite <- decode_snapshot_Ok.
  case_bool_decide as Hstatus; cbn [negb]; [|naive_solver].
  pose proof (ReadAllLimited_Some (Http_Body response) maxResponseSize) as Hread.
  destruct (ReadAllLimited _ _) as [body|].
  - destruct (Z.ltb_spec maxResponseSize (byte_length body)) as [Hlt|Hle].
    + split; [done|]. intros (_ & Hfails & Hlen & _).
      destruct (proj2 (Hread _) (conj Hfails (conj eq_refl Hlen))) as [[= ->] _]. lia.
    + destruct (proj1 (Hread body)) as (Hfails & -> & _); [done|]. naive_solver.
  - split; [done|]. intros (_ & Hfails & Hlen & _).
    by destruct (proj2 (Hread _) (conj Hfails (conj eq_refl Hlen))) as [[=] _].
Qed.
End snapshots.

Section inspect.
Context `{!DockerJson, !Otel} {W : Type} `{!RoundTripper W}.

Lemma inspect_request_resolved c ctx method uri op :
  Resolve method uri = Ok op →
  Operation_Action op ≠ ActionList → Operation_Action op ≠ ActionCreate →
  inspect_request c ctx op =
  Ok (mkHttpRequest "GET" ("http://docker" +:+ inspect_path op)
        (Inject ctx {[InternalHeader := Token_value (Client_token c)]})).
Proof.
  intros Hop Hlist Hcreate. unfold inspect_request.
  pose proof (Resolve_inspect _ _ _ Hop Hlist Hcreate) as Hinspect. rewrite Hinspect.
  cbn [Operation_Action inspected].
  rewrite bool_decide_eq_true_2 by done. cbn [negb]. unfold NewRequest.
  destruct (ParseRequestURI (inspect_path op)) eqn:Hparse; [done|].
  unfold Resolve in Hinspect. by rewrite Hparse in Hinspect.
Qed.

Lemma result_lift {A} (f : W → A * W) w : result_of (lift f) w = (f w).1.
Proof. unfold result_of, lift. by destruct (f w). Qed.
Lemma world_lift {A} (f : W → A * W) w : world_of (lift f) w = (f w).2.
Proof. unfold world_of, lift. by destruct (f w). Qed.
Lemma trace_lift {A} (f : W → A * W) w : trace_of (lift f) w = [].
Proof. unfold trace_of, lift. by destruct (f w). Qed.

Lemma result_Client_Inspect c ctx op w :
  result_of (Client_Inspect c ctx op) w =
  result_of (round_trip c (Tracer_Start ctx "dockauthz.docker.inspect"
    [("dockauthz.resource", VString (Operation_Resource op))]) op) w.
Proof. unfold Client_Inspect. by run. Qed.

(** C24. The client sends a request for exactly the resolved operations on one existing
    object: always the inspect of that object under the same API version, with an empty
    query and the internal token.  A list or create is refused before any request. *)
Theorem inspect_request_spec c ctx method uri op :
  Resolve method uri = Ok op →
  if decide (Operation_Action op = ActionList ∨ Operation_Action op = ActionCreate)
  then inspect_request c ctx op = Err "invalid inspect operation"
  else inspect_request c ctx op =
         Ok (mkHttpRequest "GET" ("http://docker" +:+ inspect_path op)
               (Inject ctx {[InternalHeader := Token_value (Client_token c)]})) ∧
       Resolve "GET" (inspect_path op) = Ok (inspected op).
Proof.
  intros Hop. case_decide as Haction.
  - destruct (Resolve_inspect_collection _ _ _ Hop Haction) as [e He].
    unfold inspect_request. by rewrite He.
  - apply Decidable.not_or in Haction as [? ?].
    split; [by eapply inspect_request_resolved|by eapply Resolve_inspect].
Qed.

Lemma world_Client_Inspect c ctx op w :
  world_of (Client_Inspect c ctx op) w =
  world_of (round_trip c (Tracer_Start ctx "dockauthz.docker.inspect"
    [("dockauthz.resource", VString (Operation_Resource op))]) op) w.
Proof. unfold Client_Inspect, Observer_Lookup. by run. Qed.

Lemma New_refuses socket token : refuses (Client_http (New socket token)).
Proof. intros next via. by exists forbiddenRedirect. Qed.

(** C23. Inspect makes one round trip over the client's Unix socket, or none when there is
    no request to make: whatever the daemon answers, a redirect is not followed.  It yields
    a snapshot exactly when the answer has status 200 and a body of at most 8 MiB that is
    one inspect envelope with a nonempty ID whose spec decodes strictly; the snapshot is
    what that body says. *)
Theorem Client_Inspect_spec socket token ctx op w :
  let c := New socket token in
  let transport := HttpClient_Transport (Client_http c) in
  Transport_Network transport = "unix" ∧ Transport_Address transport = socket ∧
  match inspect_request c (Tracer_Start ctx "dockauthz.docker.inspect"
          [("dockauthz.resource", VString (Operation_Resource op))]) op with
  | Err e => result_of (Client_Inspect c ctx op) w = Err e ∧ world_of (Client_Inspect c ctx op) w = w
  | Ok req =>
      world_of (Client_Inspect c ctx op) w = (RoundTrip transport req w).2 ∧
      ∀ s, result_of (Client_Inspect c ctx op) w = Ok s ↔
        ∃ response, (RoundTrip transport req w).1 = Some response ∧
          Http_StatusCode response = 200%Z ∧ reader_fails (Http_Body response) = false ∧
          (byte_length (reader_data (Http_Body response)) <= maxResponseSize)%Z ∧
          SnapshotOf (Operation_Resource op) (reader_data (Http_Body response)) s
  end.
Proof.
  cbv zeta. split_and!; [done..|]. rewrite result_Client_Inspect, world_Client_Inspect. unfold round_trip.
  destruct (inspect_request _ _ _) as [req|e]; [|done].
  run. rewrite result_lift, world_lift, (Do_refuses _ _ _ (New_refuses socket token)).
  destruct (RoundTrip _ req w) as [[response|] w']; cbn [fst snd mbind option_bind]; (split; [done|]); intros s.
  - destruct (_ && _) eqn:Hredirect.
    + split; [done|]. intros (r & [= <-] & Hstatus & _). unfold shouldRedirect in Hredirect.
      by rewrite Hstatus in Hredirect.
    + rewrite decode_response_Ok. naive_solver.
  - split; [done|]. by intros (r & [=] & _).
Qed.

(** Every inspection, successful or not, is observed once: one span around one
    duration sample and one lookup count, whose result label says whether it succeeded. *)
Theorem Client_Inspect_observed c ctx op w :
  let attrs := [("dockauthz.resource", VString (Operation_Resource op))] in
  let inner := Tracer_Start ctx "dockauthz.docker.inspect" attrs in
  let outcome := match result_of (Client_Inspect c ctx op) w with Ok _ => "success" | Err _ => "error" end in
  trace_of (Client_Inspect c ctx op) w =
  [SpanStart ctx "dockauthz.docker.inspect" attrs;
   MetricRecord inner lookup_durations [("resource", VString (Operation_Resource op))];
   MetricAdd inner lookups [("resource", VString (Operation_Resource op)); ("result", VString outcome)];
   SpanEnd inner].
Proof.
  cbv zeta. rewrite result_Client_Inspect. unfold Client_Inspect.
  rewrite trace_with_span. unfold Observer_Lookup. run.
  set (m := round_trip _ _ _).
  assert (Htrace : trace_of m w = []).
  { unfold m, round_trip. destruct (inspect_request _ _ _); run; [by rewrite trace_lift|done]. }
  rewrite Htrace. by destruct (result_of m w).
Qed.
End inspect.

(** ** Readers that leave reporting to their caller

    What the audit record relies on: an inspection may open spans and count lookups, but
    it reports no decision.  The client keeps that promise. *)
Class QuietReader `{!Otel} (W : Type) `{!Reader W} :=
  Inspect_quiet : ∀ ctx op, quiet (Inspect (W := W) ctx op).
#[export] Hint Resolve Inspect_quiet : quiet.

(** What an inspection emits besides its spans. *)
Lemma Client_Inspect_emits `{!DockerJson, !Otel} {W} `{!RoundTripper W} (P : event → Prop) c ctx op :
  span_free P →
  (∀ ctx, P (MetricRecord ctx lookup_durations [("resource", VString (Operation_Resource op))])) →
  (∀ ctx outcome, outcome ∈ ["success"; "error"] →
     P (MetricAdd ctx lookups [("resource", VString (Operation_Resource op)); ("result", VString outcome)])) →
  emits P (Client_Inspect (W := W) c ctx op).
Proof.
  intros Hspan Hrecord Hadd. apply emits_span; [done|]. intros inner. apply emits_bind.
  - unfold round_trip. destruct (inspect_request _ _ _); [|apply emits_ret].
    apply emits_bind; [apply emits_lift|intros; apply emits_ret].
  - intros snapshot. apply emits_bind; [|intros; apply emits_ret].
    apply emits_bind; [by apply emits_emit|]. intros _. apply emits_emit, Hadd.
    destruct (result_error snapshot); [right; left|left].
Qed.

Definition client_reader `{!DockerJson, !Otel} {W} `{!RoundTripper W} (c : Client) : Reader W := Client_Inspect c.
#[export] Instance client_quiet `{!DockerJson, !Otel} {W} `{!RoundTripper W} (c : Client) :
  @QuietReader _ W (client_reader c).
Proof.
  intros ctx op. apply Client_Inspect_emits; [apply unreported_span_free|..]; done.
Qed.

(** ** A concrete daemon with one service *)
Module Example.
Export Observer.Example.
Definition service : Operation := inspected example_update.
Lemma inspect_request_spec_witness :
  let client := New "/var/run/docker.sock" (mkToken "0123") in
  Resolve "POST" "/v1.53/services/abc/update?version=42" = Ok example_update ∧
  inspect_request client ["dockauthz.authorize"] example_update =
    Ok (mkHttpRequest "GET" "http://docker/v1.53/services/abc"
          {["Traceparent" := "dockauthz.authorize"; InternalHeader := "0123"]}) ∧
  Resolve "GET" "/v1.53/services/abc" = Ok service.
Proof.
  intros client.
  assert (H : Resolve "POST" "/v1.53/services/abc/update?version=42" = Ok example_update)
    by (vm_compute; reflexivity).
  split; [exact H|].
  pose proof (inspect_request_spec client ["dockauthz.authorize"] _ _ _ H) as Hspec.
  exact Hspec.
Defined.
End Example.
