(* ===== verification/Mutation.v ===== *)
(** * Package mutation: every changed field is permitted

    internal/mutation/mutation.go.  [Validate] substitutes the permitted subtrees of the
    current specification in the requested one and compares the results; the
    specification is that the two agree once the permitted subtrees are erased. *)
From S2P Require Import Prelude GoString SpecJson Swarm EqualGenerated EqualSpec.

(** ** The code *)

(** next.TaskTemplate.ContainerSpec and next.Mode.Replicated, and assignments through
    these pointers: [next] is a fresh decode, so nothing else points into it. *)
Definition container (s : ServiceSpec) : ptr ContainerSpec :=
  TaskSpec_ContainerSpec (ServiceSpec_TaskTemplate s).
Definition set_container (c : ContainerSpec) (s : ServiceSpec) : ServiceSpec :=
  set_ServiceSpec_TaskTemplate
    (set_TaskSpec_ContainerSpec (Some c) (ServiceSpec_TaskTemplate s)) s.
Definition replicated (s : ServiceSpec) : ptr ReplicatedService :=
  ServiceMode_Replicated (ServiceSpec_Mode s).
Definition set_replicated (r : ReplicatedService) (s : ServiceSpec) : ServiceSpec :=
  set_ServiceSpec_Mode (set_ServiceMode_Replicated (Some r) (ServiceSpec_Mode s)) s.

(** current.Mode.Global != nil || current.Mode.ReplicatedJob != nil || ... *)
Definition other_mode (s : ServiceSpec) : bool :=
  negb (isNil (ServiceMode_Global (ServiceSpec_Mode s)))
  || negb (isNil (ServiceMode_ReplicatedJob (ServiceSpec_Mode s)))
  || negb (isNil (ServiceMode_GlobalJob (ServiceSpec_Mode s))).

(** One iteration of the loop over the allowed fields. *)
Definition substitute_field (current next : ServiceSpec) (field : string) : result ServiceSpec :=
  if (field == "container.secrets") || (field == "container.image") then
    match container current, container next with
    | Some before, Some after =>
        if field == "container.secrets"
        then Ok (set_container (set_ContainerSpec_Secrets (ContainerSpec_Secrets before) after) next)
        else Ok (set_container (set_ContainerSpec_Image (ContainerSpec_Image before) after) next)
    | _, _ => Err "mutation requires container specs on both sides"
    end
  else if field == "replicas" then
    match replicated current, replicated next with
    | Some before, Some after =>
        if other_mode current || other_mode next
        then Err "replicas mutation requires replicated service mode"
        else Ok (set_replicated
                   (set_ReplicatedService_Replicas (ReplicatedService_Replicas before) after) next)
    | _, _ => Err "replicas mutation requires replicated service mode"
    end
  else Err "unsupported mutation field".

Fixpoint substitute_fields (current next : ServiceSpec) (allowed : list string) : result ServiceSpec :=
  match allowed with
  | [] => Ok next
  | field :: allowed' =>
      try next := substitute_field current next field in substitute_fields current next allowed'
  end.

Definition Validate `{!MapRange, !JsonTarget ServiceSpec}
    (current : ServiceSpec) (requested : string) (allowed : list string) : option error :=
  match Decode requested with
  | Err e => Some e
  | Ok next =>
      if length allowed == 0 then Some "empty mutation field set"
      else match substitute_fields current next allowed with
      | Err e => Some e
      | Ok next =>
          if negb (equalSpec current next)
          then Some "mutation contains fields outside allowed set"
          else None
      end
  end.

(** ** Specification

    [erase field s] forgets the subtree that a semantic field names. *)
Definition erase (field : string) (s : ServiceSpec) : ServiceSpec :=
  if field == "container.secrets" then
    match container s with
    | Some c => set_container (set_ContainerSpec_Secrets None c) s
    | None => s
    end
  else if field == "container.image" then
    match container s with
    | Some c => set_container (set_ContainerSpec_Image "" c) s
    | None => s
    end
  else if field == "replicas" then
    match replicated s with
    | Some r => set_replicated (set_ReplicatedService_Replicas None r) s
    | None => s
    end
  else s.
Definition erase_all (allowed : list string) (s : ServiceSpec) : ServiceSpec :=
  foldr erase s allowed.

(** Where a field may be exempted at all. *)
Definition replicated_mode (s : ServiceSpec) : Prop :=
  is_Some (replicated s) ∧ ServiceMode_Global (ServiceSpec_Mode s) = None ∧
  ServiceMode_ReplicatedJob (ServiceSpec_Mode s) = None ∧
  ServiceMode_GlobalJob (ServiceSpec_Mode s) = None.
Definition applicable (field : string) (s : ServiceSpec) : Prop :=
  if (field == "container.secrets") || (field == "container.image") then is_Some (container s)
  else if field == "replicas" then replicated_mode s
  else False.

(** The requested specification changes the current one within the allowed subtrees. *)
Record ChangesWithin (allowed : list string) (current next : ServiceSpec) : Prop := {
  changes_nonempty : allowed ≠ [];
  changes_current : Forall (λ field, applicable field current) allowed;
  changes_next : Forall (λ field, applicable field next) allowed;
  changes_agree : erase_all allowed current ≡ erase_all allowed next
}.

(** ** Substitution and erasure

    [put] is the successful outcome of [substitute_field]; [put] and [erase] are the
    two sides of one lens per semantic field. *)
Definition put (current : ServiceSpec) (field : string) (s : ServiceSpec) : ServiceSpec :=
  match substitute_field current s field with Ok s' => s' | Err _ => s end.
Definition put_all (current : ServiceSpec) (allowed : list string) (s : ServiceSpec) : ServiceSpec :=
  foldl (λ s field, put current field s) s allowed.

(** *** Pointers into a specification *)
Section lenses.
Implicit Types (s : ServiceSpec) (c : ContainerSpec) (r : ReplicatedService).

Lemma container_set_container c s : container (set_container c s) = Some c.
Proof. done. Qed.
Lemma replicated_set_container c s : replicated (set_container c s) = replicated s.
Proof. done. Qed.
Lemma container_set_replicated r s : container (set_replicated r s) = container s.
Proof. done. Qed.
Lemma replicated_set_replicated r s : replicated (set_replicated r s) = Some r.
Proof. done. Qed.
Lemma other_mode_set_container c s : other_mode (set_container c s) = other_mode s.
Proof. done. Qed.
Lemma other_mode_set_replicated r s : other_mode (set_replicated r s) = other_mode s.
Proof. done. Qed.
Lemma set_container_twice c c' s : set_container c (set_container c' s) = set_container c s.
Proof. done. Qed.
Lemma set_replicated_twice r r' s : set_replicated r (set_replicated r' s) = set_replicated r s.
Proof. done. Qed.
Lemma set_container_replicated c r s :
  set_container c (set_replicated r s) = set_replicated r (set_container c s).
Proof. done. Qed.
Lemma set_container_self c s : container s = Some c → set_container c s = s.
Proof. destruct s as [? [] ? ? ? ?]; cbn. by intros ->. Qed.
Lemma set_replicated_self r s : replicated s = Some r → set_replicated r s = s.
Proof. destruct s as [? ? [] ? ? ?]; cbn. by intros ->. Qed.

Lemma set_Secrets_self c : set_ContainerSpec_Secrets (ContainerSpec_Secrets c) c = c.
Proof. by destruct c. Qed.
Lemma set_Image_self c : set_ContainerSpec_Image (ContainerSpec_Image c) c = c.
Proof. by destruct c. Qed.
Lemma set_Replicas_self r : set_ReplicatedService_Replicas (ReplicatedService_Replicas r) r = r.
Proof. by destruct r. Qed.
Lemma set_Secrets_twice x y c :
  set_ContainerSpec_Secrets x (set_ContainerSpec_Secrets y c) = set_ContainerSpec_Secrets x c.
Proof. done. Qed.
Lemma set_Image_twice x y c :
  set_ContainerSpec_Image x (set_ContainerSpec_Image y c) = set_ContainerSpec_Image x c.
Proof. done. Qed.
Lemma set_Image_Secrets x y c :
  set_ContainerSpec_Image y (set_ContainerSpec_Secrets x c)
  = set_ContainerSpec_Secrets x (set_ContainerSpec_Image y c).
Proof. done. Qed.
Lemma set_Replicas_twice x y r :
  set_ReplicatedService_Replicas x (set_ReplicatedService_Replicas y r)
  = set_ReplicatedService_Replicas x r.
Proof. done. Qed.
End lenses.

Create Rewrite HintDb lens.
#[export] Hint Rewrite container_set_container replicated_set_container container_set_replicated
  replicated_set_replicated other_mode_set_container other_mode_set_replicated
  set_container_twice set_replicated_twice set_container_replicated
  set_Secrets_self set_Image_self set_Replicas_self
  set_Secrets_twice set_Image_twice set_Image_Secrets set_Replicas_twice : lens.

(** The three supported fields, and the equations of the definitions at each. *)
Inductive semantic : string → Prop :=
| semantic_secrets : semantic "container.secrets"
| semantic_image : semantic "container.image"
| semantic_replicas : semantic "replicas".

Section equations.
Implicit Types (current s : ServiceSpec).

Lemma put_secrets current s :
  put current "container.secrets" s =
  match container current, container s with
  | Some before, Some after =>
      set_container (set_ContainerSpec_Secrets (ContainerSpec_Secrets before) after) s
  | _, _ => s
  end.
Proof. unfold put, substitute_field. cbn [orb]. by destruct (container current), (container s). Qed.

Lemma put_image current s :
  put current "container.image" s =
  match container current, container s with
  | Some before, Some after =>
      set_container (set_ContainerSpec_Image (ContainerSpec_Image before) after) s
  | _, _ => s
  end.
Proof. unfold put, substitute_field. cbn [orb]. by destruct (container current), (container s). Qed.

Lemma put_replicas current s :
  put current "replicas" s =
  match replicated current, replicated s with
  | Some before, Some after =>
      if other_mode current || other_mode s then s
      else set_replicated (set_ReplicatedService_Replicas (ReplicatedService_Replicas before) after) s
  | _, _ => s
  end.
Proof.
  change (put current "replicas" s) with
    (match match replicated current, replicated s with
           | Some before, Some after =>
               if other_mode current || other_mode s
               then Err "replicas mutation requires replicated service mode"
               else Ok (set_replicated
                 (set_ReplicatedService_Replicas (ReplicatedService_Replicas before) after) s)
           | _, _ => Err "replicas mutation requires replicated service mode"
           end with Ok s' => s' | Err _ => s end).
  destruct (replicated current), (replicated s); try done.
  by destruct (other_mode current || other_mode s).
Qed.

Lemma erase_secrets s :
  erase "container.secrets" s =
  match container s with Some c => set_container (set_ContainerSpec_Secrets None c) s | None => s end.
Proof. done. Qed.
Lemma erase_image s :
  erase "container.image" s =
  match container s with Some c => set_container (set_ContainerSpec_Image "" c) s | None => s end.
Proof. done. Qed.
Lemma erase_replicas s :
  erase "replicas" s =
  match replicated s with
  | Some r => set_replicated (set_ReplicatedService_Replicas None r) s
  | None => s
  end.
Proof. done. Qed.
Lemma erase_other field s : ¬ semantic field → erase field s = s.
Proof. intros Hf. unfold erase. repeat case_bool_decide; subst; try done; by destruct Hf; constructor. Qed.
Lemma put_other current field s : ¬ semantic field → put current field s = s.
Proof.
  intros Hf. unfold put, substitute_field.
  repeat case_bool_decide; subst; try done; by destruct Hf; constructor.
Qed.
End equations.

Create Rewrite HintDb field.
#[export] Hint Rewrite put_secrets put_image put_replicas erase_secrets erase_image erase_replicas
  : field.

Lemma semantic_dec field : semantic field ∨ ¬ semantic field.
Proof.
  destruct (decide (field = "container.secrets")) as [->|]; [left; constructor|].
  destruct (decide (field = "container.image")) as [->|]; [left; constructor|].
  destruct (decide (field = "replicas")) as [->|]; [left; constructor|].
  right. by inversion 1.
Qed.

Lemma applicable_semantic field s : applicable field s → semantic field.
Proof. unfold applicable. repeat case_bool_decide; subst; simpl; try done; intros _; constructor. Qed.

(** Case analysis on the fields of a lens law and on the pointers they go through. *)
Ltac lens_cases :=
  autorewrite with field;
  repeat match goal with
  | H : semantic _ |- _ => destruct H
  end;
  repeat (autorewrite with field lens;
          match goal with
          | |- context [match container ?s with _ => _ end] => is_var s; destruct (container s) eqn:?
          | |- context [match replicated ?s with _ => _ end] => is_var s; destruct (replicated s) eqn:?
          | |- context [if other_mode ?s || _ then _ else _] => is_var s; destruct (other_mode s) eqn:?
          | |- context [if other_mode ?s then _ else _] => is_var s; destruct (other_mode s) eqn:?
          end; simplify_eq; cbn [orb]);
  autorewrite with field lens; rewrite ?set_container_self, ?set_replicated_self by done;
  repeat match goal with
  | H : container ?s = _ |- context [container ?s] => rewrite H
  | H : replicated ?s = _ |- context [replicated ?s] => rewrite H
  end; try done.

Lemma replicated_mode_spec s : replicated_mode s ↔ is_Some (replicated s) ∧ other_mode s = false.
Proof.
  assert (Hnil : ∀ A (a : option A), isNil a = true ↔ a = None) by by intros A [].
  unfold replicated_mode, other_mode. rewrite !orb_false_iff, !negb_false_iff, !Hnil. tauto.
Qed.

Lemma substitute_field_Ok current s field s' :
  substitute_field current s field = Ok s' ↔
  applicable field current ∧ applicable field s ∧ s' = put current field s.
Proof.
  unfold put, substitute_field, applicable.
  destruct (_ || _); [|destruct (field == "replicas")].
  - destruct (container current), (container s);
      [|by split; [|intros ([] & [] & _)]..].
    case_bool_decide; (split; [intros [= <-]; eauto|by intros (_ & _ & ->)]).
  - rewrite !replicated_mode_spec. destruct (replicated current), (replicated s);
      [|by split; [|intros ([[] ?] & [[] ?] & _)]..].
    destruct (other_mode current), (other_mode s); cbn [orb];
      [by split; [|intros ([_ ?] & [_ ?] & _)]..|].
    split; [intros [= <-]; eauto 6|by intros (_ & _ & ->)].
  - by split; [|intros [[] _]].
Qed.

(** *** Lens laws *)
Lemma replicated_mode_put s r : is_Some (replicated s) → replicated_mode (set_replicated r s) ↔ replicated_mode s.
Proof. rewrite !replicated_mode_spec. autorewrite with lens. naive_solver. Qed.

Lemma replicated_mode_set_container s c : replicated_mode (set_container c s) ↔ replicated_mode s.
Proof. rewrite !replicated_mode_spec. by autorewrite with lens. Qed.

Lemma applicable_set_container field s c :
  is_Some (container s) → applicable field (set_container c s) ↔ applicable field s.
Proof.
  intros Hs. unfold applicable. repeat case_match; [|apply replicated_mode_set_container|done].
  autorewrite with lens. naive_solver.
Qed.

Lemma applicable_set_replicated field s r :
  is_Some (replicated s) → applicable field (set_replicated r s) ↔ applicable field s.
Proof.
  intros Hs. unfold applicable. repeat case_match; [|by apply replicated_mode_put|done].
  by autorewrite with lens.
Qed.

Lemma applicable_erase field field' s : applicable field (erase field' s) ↔ applicable field s.
Proof.
  unfold erase. repeat case_match; try done;
    by (apply applicable_set_container || apply applicable_set_replicated).
Qed.

Lemma applicable_put field current field' s : applicable field (put current field' s) ↔ applicable field s.
Proof.
  unfold put, substitute_field. repeat case_match; simplify_eq; try done;
    by (apply applicable_set_container || apply applicable_set_replicated).
Qed.

Lemma erase_erase field field' s : erase field (erase field' s) = erase field' (erase field s).
Proof.
  destruct (semantic_dec field); [|by rewrite !(erase_other field)].
  destruct (semantic_dec field'); [|by rewrite !(erase_other field')].
  lens_cases.
Qed.

Lemma erase_put field current s : erase field (put current field s) = erase field s.
Proof. destruct (semantic_dec field); [lens_cases|by rewrite put_other]. Qed.

Lemma put_put field field' current s :
  put current field (put current field' s) = put current field' (put current field s).
Proof.
  destruct (semantic_dec field); [|by rewrite !(put_other _ field)].
  destruct (semantic_dec field'); [|by rewrite !(put_other _ field')].
  lens_cases.
Qed.

Lemma put_self field s : put s field s = s.
Proof. destruct (semantic_dec field); [lens_cases|by rewrite put_other]. Qed.

Lemma put_erase field current s :
  applicable field current → applicable field s →
  put current field (erase field s) = put current field s.
Proof.
  intros Hc Hs. destruct (applicable_semantic field s Hs).
  1,2: destruct Hc as [c Hc], Hs as [c' Hs]; autorewrite with field;
    by rewrite Hc, Hs; autorewrite with lens.
  apply replicated_mode_spec in Hc as [[r Hr] Hm]. apply replicated_mode_spec in Hs as [[r' Hr'] Hm'].
  autorewrite with field. rewrite Hr, Hr', Hm, Hm'. autorewrite with lens. by rewrite Hm'.
Qed.

(** *** Over a list of fields *)
Definition applicable_all (allowed : list string) (s : ServiceSpec) : Prop :=
  Forall (λ field, applicable field s) allowed.

Lemma erase_all_cons field allowed s :
  erase_all (field :: allowed) s = erase field (erase_all allowed s).
Proof. done. Qed.

Lemma put_all_cons current field allowed s :
  put_all current (field :: allowed) s = put_all current allowed (put current field s).
Proof. done. Qed.

Lemma applicable_all_put allowed current field s :
  applicable_all allowed (put current field s) ↔ applicable_all allowed s.
Proof. unfold applicable_all. by setoid_rewrite applicable_put. Qed.

Lemma applicable_erase_all field allowed s : applicable field (erase_all allowed s) ↔ applicable field s.
Proof.
  induction allowed as [|f l IH]; [done|].
  by rewrite erase_all_cons, applicable_erase.
Qed.

Lemma substitute_fields_Ok current allowed s s' :
  substitute_fields current s allowed = Ok s' ↔
  applicable_all allowed current ∧ applicable_all allowed s ∧ s' = put_all current allowed s.
Proof.
  revert s. induction allowed as [|field allowed IH]; intros s; cbn [substitute_fields put_all foldl].
  { split; [intros [= <-]; repeat constructor|by intros (_ & _ & ->)]. }
  rewrite result_bind_Ok. setoid_rewrite substitute_field_Ok. setoid_rewrite IH.
  unfold applicable_all; rewrite !Forall_cons. split.
  - intros (? & (? & ? & ->) & ? & Hall%applicable_all_put & ->). split_and!; done.
  - intros ([? ?] & [? ?] & ->). exists (put current field s).
    split_and!; try done. by apply applicable_all_put.
Qed.

Lemma erase_erase_all field allowed s : erase field (erase_all allowed s) = erase_all allowed (erase field s).
Proof.
  induction allowed as [|f l IH]; [done|].
  by rewrite !erase_all_cons, erase_erase, IH.
Qed.

Lemma put_all_put field current allowed s :
  put_all current allowed (put current field s) = put current field (put_all current allowed s).
Proof.
  revert s. induction allowed as [|f l IH]; intros s; [done|].
  by rewrite !put_all_cons, put_put, IH.
Qed.

Lemma erase_all_put_all current allowed s : erase_all allowed (put_all current allowed s) = erase_all allowed s.
Proof.
  revert s. induction allowed as [|f l IH]; intros s; [done|].
  by rewrite put_all_cons, !erase_all_cons, IH, erase_erase_all, erase_put, <- erase_erase_all.
Qed.

Lemma put_all_erase_all current allowed s :
  applicable_all allowed current → applicable_all allowed s →
  put_all current allowed (erase_all allowed s) = put_all current allowed s.
Proof.
  revert s. induction allowed as [|f l IH]; intros s; [done|].
  intros [Hc Hcs]%Forall_cons [Hs Hss]%Forall_cons.
  rewrite !put_all_cons, erase_all_cons, put_erase by (done || by apply applicable_erase_all).
  by rewrite !put_all_put, IH.
Qed.

Lemma put_all_self allowed s : put_all s allowed s = s.
Proof. induction allowed as [|f l IH]; [done|]. by rewrite put_all_cons, put_self. Qed.

(** *** Both sides respect equality up to the sign of zero *)
Lemma canonSpec_erase field s : canonSpec (erase field s) = erase field (canonSpec s).
Proof.
  unfold erase. change (container (canonSpec s)) with (container s).
  change (replicated (canonSpec s)) with (replicated s).
  by destruct (field == "container.secrets"), (field == "container.image"), (field == "replicas"),
    (container s), (replicated s).
Qed.

Lemma canonSpec_put current field s : canonSpec (put current field s) = put current field (canonSpec s).
Proof.
  unfold put, substitute_field.
  change (container (canonSpec s)) with (container s).
  change (replicated (canonSpec s)) with (replicated s).
  change (other_mode (canonSpec s)) with (other_mode s).
  by destruct (_ || _), (field == "container.secrets"), (field == "replicas"), (container current),
    (container s), (replicated current), (replicated s), (other_mode current || other_mode s).
Qed.

#[export] Instance erase_proper field : Proper ((≡) ==> (≡)) (erase field).
Proof. intros s s' Hs. unfold equiv, ServiceSpec_equiv in *. by rewrite !canonSpec_erase, Hs. Qed.

#[export] Instance put_proper current field : Proper ((≡) ==> (≡)) (put current field).
Proof. intros s s' Hs. unfold equiv, ServiceSpec_equiv in *. by rewrite !canonSpec_put, Hs. Qed.

#[export] Instance erase_all_proper allowed : Proper ((≡) ==> (≡)) (erase_all allowed).
Proof.
  intros s s' Hs. induction allowed as [|f l IH]; [done|]. by rewrite !erase_all_cons, IH.
Qed.

#[export] Instance put_all_proper current allowed : Proper ((≡) ==> (≡)) (put_all current allowed).
Proof.
  induction allowed as [|f l IH]; intros s s' Hs; [done|]. rewrite !put_all_cons. apply IH. by rewrite Hs.
Qed.

(** Substituting the permitted subtrees gives back the current specification exactly
    when the two specifications agree outside them. *)
Lemma put_all_agree current allowed next :
  applicable_all allowed current → applicable_all allowed next →
  current ≡ put_all current allowed next ↔ erase_all allowed current ≡ erase_all allowed next.
Proof.
  intros Hc Hn. split; intros H.
  - rewrite H at 1. by rewrite erase_all_put_all.
  - rewrite <- (put_all_erase_all current allowed next) by done. rewrite <- H.
    by rewrite put_all_erase_all, put_all_self.
Qed.

(** ** Properties *)
Section validate.
Context `{!MapRange, !JsonTarget ServiceSpec}.

Lemma Validate_None current requested allowed :
  Validate current requested allowed = None ↔
  ∃ next, Decode requested = Ok next ∧ allowed ≠ [] ∧
    applicable_all allowed current ∧ applicable_all allowed next ∧
    current ≡ put_all current allowed next ∧ nan_free current.
Proof.
  unfold Validate. destruct (Decode requested) as [next|e]; [|naive_solver].
  destruct allowed as [|field allowed]; [naive_solver|]. cbn [length].
  rewrite bool_decide_eq_false_2 by done.
  destruct (substitute_fields current next (field :: allowed)) as [s'|e] eqn:Hs.
  - apply substitute_fields_Ok in Hs as (Hc & Hn & ->).
    destruct (equalSpec _ _) eqn:Heq; cbn [negb].
    + apply equalSpec_iff in Heq as [Heq Hnan]. split; [|done]. intros _. by exists next.
    + split; [done|]. intros (next' & [= <-] & _ & _ & _ & Hequiv & Hnan).
      apply not_true_iff_false in Heq as []. by apply equalSpec_iff.
  - split; [done|]. intros (next' & [= <-] & _ & Hc & Hn & _).
    pose proof (proj2 (substitute_fields_Ok current (field :: allowed) next _)
      (conj Hc (conj Hn eq_refl))) as Hok. congruence.
Qed.

Lemma Validate_ChangesWithin current requested allowed :
  Validate current requested allowed = None ↔
  ∃ next, Decode requested = Ok next ∧ ChangesWithin allowed current next ∧ nan_free current.
Proof.
  rewrite Validate_None. split.
  - intros (next & ? & ? & ? & ? & Heq & ?). exists next. split_and!; [done| |done].
    split; [done..|]. by apply put_all_agree.
  - intros (next & ? & [? ? ? ?] & ?). exists next. split_and!; try done.
    by apply put_all_agree.
Qed.

(** C6. Mutation validation accepts a request exactly when its body decodes strictly to
    a service specification that differs from the current one within the permitted
    subtrees only: every permitted field applies on both sides, and the two
    specifications agree once those subtrees are erased. *)
Theorem Validate_spec current requested allowed :
  Validate current requested allowed = None ↔
  ∃ next, Decode requested = Ok next ∧ ChangesWithin allowed current next ∧ nan_free current.
Proof. apply Validate_ChangesWithin. Qed.

(** The subtree that each semantic field names. *)
Definition secrets_of (s : ServiceSpec) : ptr (slice (ptr SecretReference)) :=
  ContainerSpec_Secrets <$> container s.
Definition image_of (s : ServiceSpec) : ptr string := ContainerSpec_Image <$> container s.
Definition replicas_of (s : ServiceSpec) : ptr (ptr uint64) :=
  ReplicatedService_Replicas <$> replicated s.
Definition semantic_fields : list string := ["container.secrets"; "container.image"; "replicas"].

(** A view that erasing the permitted fields does not change, and that does not see the
    sign of a zero, is the same on both sides. *)
Lemma agree_view {A} (view : ServiceSpec → A) allowed current next :
  (∀ s, view (canonSpec s) = view s) → (∀ field s, field ∈ allowed → view (erase field s) = view s) →
  erase_all allowed current ≡ erase_all allowed next → view current = view next.
Proof.
  intros Hcanon Herase Heq.
  assert (Hall : ∀ s, view (erase_all allowed s) = view s).
  { intros s. clear Heq. induction allowed as [|f l IH]; [done|].
    rewrite erase_all_cons, Herase by set_solver. apply IH. set_solver. }
  rewrite <- Hall, <- Hcanon, Heq, Hcanon. apply Hall.
Qed.

Lemma erase_idem field s : erase field (erase field s) = erase field s.
Proof. destruct (semantic_dec field); [lens_cases|by rewrite !erase_other]. Qed.

Lemma erase_all_absorb fields allowed s :
  allowed ⊆ fields → erase_all fields (erase_all allowed s) = erase_all fields s.
Proof.
  induction allowed as [|f l IH]; intros Hsub; [done|].
  rewrite erase_all_cons, <- erase_erase_all, IH by set_solver.
  assert (Hin : f ∈ fields) by set_solver. clear -Hin. induction fields as [|g k IHk]; [set_solver|].
  rewrite !erase_all_cons. apply elem_of_cons in Hin as [<-|Hin]; [by rewrite erase_idem|].
  by rewrite erase_erase, IHk.
Qed.

Lemma ChangesWithin_least_privilege allowed current next :
  ChangesWithin allowed current next →
  ("container.secrets" ∉ allowed → secrets_of current = secrets_of next) ∧
  ("container.image" ∉ allowed → image_of current = image_of next) ∧
  ("replicas" ∉ allowed → replicas_of current = replicas_of next) ∧
  erase_all semantic_fields current ≡ erase_all semantic_fields next.
Proof.
  intros [_ Hfields _ Heq].
  split_and!; [intros Hnin; eapply agree_view, Heq; [done|]..|].
  - intros field s.
    destruct (semantic_dec field) as [[]|]; intros Hin; [congruence|..|by rewrite erase_other];
      unfold secrets_of; lens_cases.
  - intros field s.
    destruct (semantic_dec field) as [[]|]; intros Hin; [|congruence|..|by rewrite erase_other];
      unfold image_of; lens_cases.
  - intros field s.
    destruct (semantic_dec field) as [[]|]; intros Hin; [..|congruence|by rewrite erase_other];
      unfold replicas_of; lens_cases.
  - assert (Hsub : allowed ⊆ semantic_fields).
    { intros f Hf. rewrite Forall_forall in Hfields. specialize (Hfields f Hf).
      apply applicable_semantic in Hfields. unfold semantic_fields. destruct Hfields; set_solver. }
    rewrite <- (erase_all_absorb semantic_fields allowed current) by done.
    rewrite <- (erase_all_absorb semantic_fields allowed next) by done. by rewrite Heq.
Qed.

(** C27. Least privilege: an accepted request leaves the container's secrets, its image and
    the replica count unchanged unless the corresponding field is permitted, and never
    changes anything else of the specification. *)
Theorem Validate_least_privilege current requested allowed next :
  Validate current requested allowed = None → Decode requested = Ok next →
  ("container.secrets" ∉ allowed → secrets_of current = secrets_of next) ∧
  ("container.image" ∉ allowed → image_of current = image_of next) ∧
  ("replicas" ∉ allowed → replicas_of current = replicas_of next) ∧
  erase_all semantic_fields current ≡ erase_all semantic_fields next.
Proof.
  intros (next' & Hnext & Hwithin & _)%Validate_ChangesWithin Hdec.
  assert (next' = next) as -> by congruence. by apply (ChangesWithin_least_privilege allowed).
Qed.

Lemma erase_all_permutation allowed allowed' s :
  allowed ≡ₚ allowed' → erase_all allowed s = erase_all allowed' s.
Proof.
  intros Hperm. unfold erase_all.
  apply (foldr_permutation_proper (=)); [by intros f ? ? ->|intros; apply erase_erase|done].
Qed.

Lemma ChangesWithin_permutation allowed allowed' current next :
  allowed ≡ₚ allowed' → ChangesWithin allowed current next → ChangesWithin allowed' current next.
Proof.
  intros Hperm [Hne Hc Hn Heq]. split; [|by rewrite <- Hperm..|].
  - intros ->. by apply Permutation_nil_r in Hperm.
  - by rewrite <- !(erase_all_permutation allowed allowed').
Qed.

(** The order in which a policy lists the permitted fields is immaterial. *)
Theorem Validate_permutation current requested allowed allowed' :
  allowed ≡ₚ allowed' →
  Validate current requested allowed = None ↔ Validate current requested allowed' = None.
Proof.
  intros Hperm. rewrite !Validate_ChangesWithin.
  split; intros (next & ? & Hw & ?); exists next; split_and!; try done;
    by eapply ChangesWithin_permutation; [|exact Hw].
Qed.
End validate.

(** ** A concrete service, as in the package's tests *)
Module Example.
Definition container_v1 : ContainerSpec :=
  set_ContainerSpec_Image "image:v1" zero_ContainerSpec.
Definition with_container (c : ContainerSpec) : ServiceSpec :=
  set_container c zero_ServiceSpec.
Definition current : ServiceSpec :=
  set_replicated (mkReplicatedService (Some 2%Z)) (with_container container_v1).
Definition new_image : ServiceSpec :=
  set_container (set_ContainerSpec_Image "image:v2" container_v1) current.
Definition new_command : ServiceSpec := set_container zero_ContainerSpec new_image.

(** A reader of three request bodies. *)
#[export] Instance target : JsonTarget ServiceSpec := λ body,
  if body == "{current}" then Some (current, "")
  else if body == "{new image}" then Some (new_image, "")
  else None.
#[export] Instance order : MapRange := sorted_range.
End Example.

Lemma Validate_least_privilege_witness :
  let _ := Example.target in let _ := Example.order in
  Validate Example.current " {new image} " ["container.image"] = None ∧
  secrets_of Example.current = secrets_of Example.new_image ∧
  image_of Example.current ≠ image_of Example.new_image.
Proof.
  intros tgt ord.
  assert (Hok : Validate Example.current " {new image} " ["container.image"] = None)
    by (vm_compute; reflexivity).
  destruct (Validate_least_privilege Example.current " {new image} " ["container.image"]
    Example.new_image Hok) as [Hsecrets _]; [vm_compute; reflexivity|].
  split; [exact Hok|]. split; [|vm_compute; discriminate].
  apply Hsecrets. vm_compute. intros Hin. inversion Hin as [|? ? ? Hnil]; inversion Hnil.
Defined.

Lemma Validate_permutation_witness :
  let _ := Example.target in let _ := Example.order in
  ["container.image"; "replicas"] ≡ₚ ["replicas"; "container.image"] ∧
  (Validate Example.current "{new image}" ["container.image"; "replicas"] = None ↔
   Validate Example.current "{new image}" ["replicas"; "container.image"] = None).
Proof.
  intros tgt ord.
  assert (Hperm : ["container.image"; "replicas"] ≡ₚ ["replicas"; "container.image"])
    by constructor.
  split; [exact Hperm|].
  exact (Validate_permutation Example.current "{new image}" _ _ Hperm).
Defined.
