(* ===== verification/Policy.v ===== *)
(** * Package policy: evaluation of permissions

    internal/policy/policy.go.  Each matching permission is evaluated as a complete grant
    against the [Reader] interface; [Grants] is what a grant requires. *)
From S2P Require Import Prelude GoString NetUrl Operation Swarm SpecJson EqualSpec Mutation.
From S2P Require Import Config Observer DockerApi.

(** ** Data *)
Record Result := mkResult { Result_Allow : bool; Result_Reason : string; Result_ErrorType : string }.
Definition allow (reason : string) : Result := mkResult true reason "".
Definition deny (reason errorType : string) : Result := mkResult false reason errorType.

Section operations.
Context `{!MapRange}.

(** ** matches and safeUpdate *)
Definition matches (actual required : gmap string string) : bool :=
  forallb (λ '(key, value),
    match actual !! key with Some got => got == value | None => false end) (range required).

Definition safe_option : string * list string → bool := λ '(key, values),
  (key == "version")
  || negb ((key != "registryAuthFrom") || (length values != 1) || (nth 0 values "" != "spec")).

Definition safeUpdate (op : Operation) (p : Permission) (headers : gmap string string) : bool :=
  let versions := default [] (Operation_Query op !! "version") in
  if (length versions != 1) || (nth 0 versions "" == "") then false
  else if str_any (λ c, negb (is_digit c)) (nth 0 versions "") then false
  else if negb (forallb safe_option (range (Operation_Query op))) then false
  else match Permission_Mutation p with
  | None => true
  | Some mutation =>
      let imageAllowed := existsb (λ field, field == "container.image") (Mutation_Only mutation) in
      imageAllowed || negb (existsb (λ '(key, _), EqualFold key "X-Registry-Auth") (range headers))
  end.

(** ** permission *)
Context `{!DockerJson, !Otel} {W : Type} `{!Reader W}.

(** The labels of the spec in the body, by the resource that a request is about. *)
Definition request_labels (resource : Resource) (body : string) : Result + gomap string :=
  if resource == ResourceService then
    match Decode (T := ServiceSpec) body with
    | Err e => inl (deny e "policy")
    | Ok spec => inr (Annotations_Labels (ServiceSpec_Annotations spec))
    end
  else if resource == ResourceSecret then
    match Decode (T := SecretSpec) body with
    | Err e => inl (deny e "policy")
    | Ok spec => inr (Annotations_Labels (SecretSpec_Annotations spec))
    end
  else inl (deny "unsupported request constraint" "policy").

(** The state that selector and mutation constraints are checked against: read only when
    one of them is present. *)
Definition service_update (op : Operation) : bool :=
  (Operation_Resource op == ResourceService) && (Operation_Action op == ActionUpdate).
Definition current_state (ctx : Ctx) (p : Permission) (op : Operation) : M W (Result + Snapshot) :=
  if negb (nil_ptr (Permission_Selector p)) || negb (nil_ptr (Permission_Mutation p)) then
    state ← Inspect ctx op;
    mret (match state with
    | Err _ => inl (deny "cannot inspect current Docker resource" "docker_lookup")
    | Ok state =>
        if Snapshot_ID state != Operation_ID op
        then inl (deny "state constraints require a canonical resource ID" "policy")
        else if service_update op then
          match ParseUint (Values_Get (Operation_Query op) "version") with
          | None => inl (deny "service version does not match inspected state" "policy")
          | Some version =>
              if version != Snapshot_Version state
              then inl (deny "service version does not match inspected state" "policy")
              else inr state
          end
        else inr state
    end)
  else mret (inr (mkSnapshot "" 0 None None)).

(** The two label constraints. *)
Definition label_constraints (p : Permission) (op : Operation) (body : string) (state : Snapshot) :
    option Result :=
  let selected := match Permission_Selector p with
                  | None => true
                  | Some l => matches (default ∅ (Snapshot_Labels state)) (Labels_Labels l) end in
  if negb selected then Some (deny "existing resource labels do not match selector" "")
  else match Permission_Request p with
  | None => None
  | Some l =>
      match request_labels (Operation_Resource op) body with
      | inl result => Some result
      | inr labels =>
          if negb (matches (default ∅ labels) (Labels_Labels l))
          then Some (deny "request labels do not match constraint" "") else None
      end
  end.

Definition mutation_constraint (ctx : Ctx) (p : Permission) (body : string) (state : Snapshot) :
    M W (option Result) :=
  match Permission_Mutation p with
  | None => mret None
  | Some mutation =>
      match Snapshot_ServiceSpec state with
      | None => mret (Some (deny "missing current service spec" "mutation"))
      | Some spec =>
          err ← with_span ctx "dockauthz.mutation.validate"
            [("dockauthz.mutation.allowed_fields", VStrings (Mutation_Only mutation))]
            (λ _, mret (Validate spec body (Mutation_Only mutation)));
          mret (match err with Some e => Some (deny e "mutation") | None => None end)
      end
  end.

Definition permission (ctx : Ctx) (p : Permission) (op : Operation) (body : string)
    (headers : gmap string string) : M W Result :=
  if Unconditional p then mret (allow "permission granted")
  else if service_update op && negb (safeUpdate op p headers)
  then mret (deny "unsafe or unsupported service update options" "policy")
  else
    state ← current_state ctx p op;
    match state with
    | inl result => mret result
    | inr state =>
        match label_constraints p op body state with
        | Some result => mret result
        | None =>
            denied ← mutation_constraint ctx p body state;
            mret (default (allow "permission constraints satisfied") denied)
        end
    end.

(** ** Evaluate *)
Fixpoint evaluate_loop (ctx : Ctx) (result : Result) (permissions : list Permission) (op : Operation)
    (body : string) (headers : gmap string string) : M W Result :=
  match permissions with
  | [] => mret result
  | p :: permissions' =>
      result ← permission ctx p op body headers;
      if Result_Allow result then mret result
      else evaluate_loop ctx result permissions' op body headers
  end.
Definition Evaluate (ctx : Ctx) (permissions : list Permission) (op : Operation)
    (body : string) (headers : gmap string string) : M W Result :=
  with_span ctx "dockauthz.policy.evaluate" [] (λ ctx,
    evaluate_loop ctx (deny "no matching permission" "") permissions op body headers).
End operations.

(** ** Specification *)

(** The update options under which a constrained service update is safe. *)
Record SafeUpdate (op : Operation) (p : Permission) (headers : gmap string string) : Prop := {
  safe_version : ∃ version, Operation_Query op !! "version" = Some [version] ∧
    version ≠ "" ∧ str_all is_digit version = true;
  safe_options : ∀ key values, Operation_Query op !! key = Some values → key ≠ "version" →
    key = "registryAuthFrom" ∧ values = ["spec"];
  safe_credentials : ∀ m, Permission_Mutation p = Some m → "container.image" ∉ Mutation_Only m →
    ∀ key value, headers !! key = Some value → EqualFold key "X-Registry-Auth" = false
}.

(** The resources whose request bodies carry labels. *)
Inductive body_labels `{!DockerJson} (body : string) : Resource → gomap string → Prop :=
| body_service spec :
    Decode body = Ok spec → body_labels body ResourceService (Annotations_Labels (ServiceSpec_Annotations spec))
| body_secret spec :
    Decode body = Ok spec → body_labels body ResourceSecret (Annotations_Labels (SecretSpec_Annotations spec)).

(** The current state of the resource satisfies the state constraints of a permission. *)
Record StateAllows `{!DockerJson} (p : Permission) (op : Operation) (body : string) (s : Snapshot) : Prop := {
  state_canonical : Snapshot_ID s = Operation_ID op;
  state_version : service_update op = true →
    ParseUint (Values_Get (Operation_Query op) "version") = Some (Snapshot_Version s);
  state_selector : ∀ l, Permission_Selector p = Some l → Labels_Labels l ⊆ default ∅ (Snapshot_Labels s);
  state_mutation : ∀ m, Permission_Mutation p = Some m →
    ∃ spec next, Snapshot_ServiceSpec s = Some spec ∧ Decode body = Ok next ∧
      ChangesWithin (Mutation_Only m) spec next ∧ nan_free spec
}.

Definition stateful (p : Permission) : Prop :=
  is_Some (Permission_Selector p) ∨ is_Some (Permission_Mutation p).

(** The permission, on its own, grants the operation in the world [w]. *)
Definition Grants `{!DockerJson, !Otel} {W} `{!Reader W} (ctx : Ctx) (p : Permission)
    (op : Operation) (body : string) (headers : gmap string string) (w : W) : Prop :=
  p = mkPermission None None None ∨
  (service_update op = true → SafeUpdate op p headers) ∧
  (stateful p → ∃ s, result_of (Inspect ctx op) w = Ok s ∧ StateAllows p op body s) ∧
  (∀ l, Permission_Request p = Some l →
     ∃ labels, body_labels body (Operation_Resource op) labels ∧ Labels_Labels l ⊆ default ∅ labels).

(** ** Lemmas *)
Section lemmas.
Context `{!MapRange}.

Lemma matches_subseteq actual required : matches actual required = true ↔ required ⊆ actual.
Proof.
  unfold matches. rewrite forallb_range, map_subseteq_spec. split; intros Hall k v Hk.
  - specialize (Hall k v Hk). cbn in Hall. destruct (actual !! k); [|done].
    by apply bool_decide_eq_true in Hall as ->.
  - rewrite (Hall k v Hk). by apply bool_decide_eq_true.
Qed.

Lemma safe_option_spec key values :
  safe_option (key, values) = true ↔ (key ≠ "version" → key = "registryAuthFrom" ∧ values = ["spec"]).
Proof.
  unfold safe_option. rewrite orb_true_iff, negb_true_iff, !orb_false_iff, !negb_false_iff,
    !bool_decide_eq_true.
  destruct (decide (key = "version")); [naive_solver|].
  destruct values as [|v [|]]; cbn; naive_solver.
Qed.

Lemma safeUpdate_spec op p headers : safeUpdate op p headers = true ↔ SafeUpdate op p headers.
Proof.
  unfold safeUpdate. cbv zeta.
  set (image := match Permission_Mutation p with None => true | Some _ => _ end).
  assert (Himage : image = true ↔ ∀ m, Permission_Mutation p = Some m →
    "container.image" ∉ Mutation_Only m →
    ∀ key value, headers !! key = Some value → EqualFold key "X-Registry-Auth" = false).
  { unfold image. destruct (Permission_Mutation p) as [m|]; [|naive_solver].
    rewrite orb_true_iff, negb_true_iff, <- not_true_iff_false, existsb_range, existsb_elem_of.
    setoid_rewrite bool_decide_eq_true. setoid_rewrite <- not_true_iff_false. split.
    - intros [(f & Hf & ->)|Hnone] ? [= <-] Hnin k v Hk Heq; [done|]. apply Hnone. eauto.
    - intros Hall. destruct (decide ("container.image" ∈ Mutation_Only m)) as [Hin|Hnin]; [eauto|].
      right. intros (k & v & Hk & Heq). by apply (Hall m eq_refl Hnin k v Hk). }
  clearbody image.
  destruct (Operation_Query op !! "version") as [[|version [|v2 vs]]|] eqn:Hversion; cbn [default length nth].
  1,3,4: split; [done|intros [(v & Hv & _) _ _]; congruence].
  rewrite bool_decide_eq_true_2 by done. cbn [negb orb]. case_bool_decide as Hempty; cbn.
  { split; [done|]. intros [(v & Hv & Hne & _) _ _]. by simplify_eq/=. }
  destruct (str_any _ _) eqn:Hdigits.
  { split; [done|]. intros [(v & Hv & _ & Hall) _ _]. assert (v = version) as -> by congruence.
    rewrite <- not_false_iff_true, str_any_false in Hdigits. destruct Hdigits.
    eapply str_all_impl; [|exact Hall]. intros c ->. done. }
  destruct (forallb _ _) eqn:Hoptions; cbn.
  - rewrite Himage. rewrite forallb_range in Hoptions. setoid_rewrite safe_option_spec in Hoptions.
    split; [|by intros [_ _ ?]]. intros ?. split; try done. exists version. split_and!; try done.
    rewrite str_any_false in Hdigits. eapply str_all_impl; [|exact Hdigits].
    intros c. cbn beta. by rewrite negb_involutive.
  - split; [done|]. intros [_ Hall _]. rewrite <- not_true_iff_false, forallb_range in Hoptions.
    destruct Hoptions. intros k v Hk. apply safe_option_spec. by apply Hall.
Qed.
End lemmas.

Section evaluation.
Context `{!MapRange, !DockerJson, !Otel} {W : Type} `{!Reader W}.

Lemma request_labels_spec resource body labels :
  request_labels resource body = inr labels ↔ body_labels body resource labels.
Proof.
  unfold request_labels. split.
  - repeat case_bool_decide; subst; try done; destruct (Decode body) eqn:Hd; try done;
      intros [= <-]; by constructor.
  - by intros [spec Hd|spec Hd]; cbn [bool_decide]; rewrite Hd.
Qed.

Lemma label_constraints_None p op body s :
  label_constraints p op body s = None ↔
  (∀ l, Permission_Selector p = Some l → Labels_Labels l ⊆ default ∅ (Snapshot_Labels s)) ∧
  (∀ l, Permission_Request p = Some l →
     ∃ labels, body_labels body (Operation_Resource op) labels ∧ Labels_Labels l ⊆ default ∅ labels).
Proof.
  unfold label_constraints. cbv zeta.
  assert (Hsel : match Permission_Selector p with None => true
    | Some l => matches (default ∅ (Snapshot_Labels s)) (Labels_Labels l) end = true ↔
    ∀ l, Permission_Selector p = Some l → Labels_Labels l ⊆ default ∅ (Snapshot_Labels s)).
  { destruct (Permission_Selector p); [rewrite matches_subseteq|]; naive_solver. }
  destruct (match Permission_Selector p with None => true | Some l => _ end); cbn [negb].
  - destruct (Permission_Request p) as [l|]; [|naive_solver].
    setoid_rewrite <- request_labels_spec.
    destruct (request_labels _ _) as [r|labels]; [split; [done|naive_solver]|].
    pose proof (matches_subseteq (default ∅ labels) (Labels_Labels l)) as Hmatch.
    destruct (matches _ _); cbn [negb]; naive_solver.
  - split; [done|]. intros [Hall _]. by apply Hsel in Hall.
Qed.

Lemma label_constraints_denies p op body s r :
  label_constraints p op body s = Some r → Result_Allow r = false.
Proof.
  unfold label_constraints, request_labels. cbv zeta. intros Hr.
  repeat (case_match; simplify_eq/=; try done).
Qed.

Lemma stateful_guard p :
  stateful p → negb (nil_ptr (Permission_Selector p)) || negb (nil_ptr (Permission_Mutation p)) = true.
Proof. intros [[? Hs]|[? Hs]]; rewrite Hs; [done|]. by rewrite orb_true_r. Qed.

Lemma current_state_inr ctx p op w s :
  result_of (current_state ctx p op) w = inr s →
  (stateful p → result_of (Inspect ctx op) w = Ok s ∧ Snapshot_ID s = Operation_ID op ∧
    (service_update op = true →
     ParseUint (Values_Get (Operation_Query op) "version") = Some (Snapshot_Version s))).
Proof.
  unfold current_state. intros Hs Hst. rewrite (stateful_guard p Hst) in Hs. revert Hs. run.
  destruct (result_of (Inspect ctx op) w) as [s'|e]; [|done].
  case_bool_decide as Hid; [|done]. cbn [negb].
  destruct (service_update op); [|intros [= ->]; done].
  destruct (ParseUint _) as [v|]; [|done]. case_bool_decide as Hv; [|done]. cbn [negb].
  intros [= ->]. by subst.
Qed.

Lemma current_state_complete ctx p op w s :
  result_of (Inspect ctx op) w = Ok s → Snapshot_ID s = Operation_ID op →
  (service_update op = true →
   ParseUint (Values_Get (Operation_Query op) "version") = Some (Snapshot_Version s)) →
  stateful p → result_of (current_state ctx p op) w = inr s.
Proof.
  intros Hs Hid Hversion Hst. unfold current_state.
  rewrite (stateful_guard p Hst). run. rewrite Hs, bool_decide_eq_true_2 by done. cbn [negb].
  destruct (service_update op); [|done]. rewrite Hversion by done.
  by rewrite bool_decide_eq_true_2.
Qed.

Lemma current_state_denies ctx p op w r :
  result_of (current_state ctx p op) w = inl r → Result_Allow r = false.
Proof.
  unfold current_state. destruct (_ || _); run; [|done]. intros Hr. repeat (case_match; simplify_eq/=; try done).
Qed.

Lemma stateless p : ¬ stateful p → Permission_Selector p = None ∧ Permission_Mutation p = None.
Proof. unfold stateful. destruct (Permission_Selector p), (Permission_Mutation p); naive_solver. Qed.

Lemma current_state_stateless ctx p op w :
  ¬ stateful p → result_of (current_state ctx p op) w = inr (mkSnapshot "" 0 None None).
Proof. intros [Hsel Hmut]%stateless. unfold current_state. by rewrite Hsel, Hmut. Qed.

Lemma mutation_constraint_None ctx p body s (w : W) :
  result_of (mutation_constraint ctx p body s) w = None ↔
  ∀ m, Permission_Mutation p = Some m → ∃ spec next, Snapshot_ServiceSpec s = Some spec ∧
    Decode body = Ok next ∧ ChangesWithin (Mutation_Only m) spec next ∧ nan_free spec.
Proof.
  unfold mutation_constraint. destruct (Permission_Mutation p) as [m|]; [|split; [by intros ?|done]].
  destruct (Snapshot_ServiceSpec s) as [spec|].
  - run. split.
    + destruct (Validate _ _ _) eqn:Hval; [done|]. intros _ ? [= <-].
      apply Validate_ChangesWithin in Hval as (next & ? & ? & ?). by exists spec, next.
    + intros Hall. destruct (Hall m eq_refl) as (spec' & next & [= <-] & Hn).
      rewrite (proj2 (Validate_ChangesWithin spec body (Mutation_Only m))); [done|]. by exists next.
  - split; [done|]. intros Hall. by destruct (Hall m eq_refl) as (? & ? & ? & _).
Qed.

Lemma mutation_constraint_denies ctx p body s (w : W) r :
  result_of (mutation_constraint ctx p body s) w = Some r → Result_Allow r = false.
Proof.
  unfold mutation_constraint.
  destruct (Permission_Mutation p); [|done]. destruct (Snapshot_ServiceSpec s); run.
  - destruct (Validate _ _ _); [|done]. by intros [= <-].
  - by intros [= <-].
Qed.

(** What is left to check once the state is known. *)
Lemma permission_state ctx p op body headers w s :
  Unconditional p = false → service_update op && negb (safeUpdate op p headers) = false →
  result_of (current_state ctx p op) w = inr s →
  Result_Allow (result_of (permission ctx p op body headers) w) = true ↔
  (∀ l, Permission_Selector p = Some l → Labels_Labels l ⊆ default ∅ (Snapshot_Labels s)) ∧
  (∀ l, Permission_Request p = Some l →
     ∃ labels, body_labels body (Operation_Resource op) labels ∧ Labels_Labels l ⊆ default ∅ labels) ∧
  (∀ m, Permission_Mutation p = Some m → ∃ spec next, Snapshot_ServiceSpec s = Some spec ∧
    Decode body = Ok next ∧ ChangesWithin (Mutation_Only m) spec next ∧ nan_free spec).
Proof.
  intros Hun Hguard Hstate. unfold permission. rewrite Hun, Hguard. run. rewrite Hstate.
  rewrite <- Logic.and_assoc, <- label_constraints_None.
  destruct (label_constraints p op body s) as [r|] eqn:Hlabels.
  { apply label_constraints_denies in Hlabels. run. rewrite Hlabels. naive_solver. }
  run. rewrite <- (mutation_constraint_None ctx p body s (world_of (current_state ctx p op) w)).
  destruct (result_of (mutation_constraint _ _ _ _) _) as [r|] eqn:Hmut; [|naive_solver].
  apply mutation_constraint_denies in Hmut. cbn. rewrite Hmut. naive_solver.
Qed.

Lemma permission_Allow ctx p op body headers w :
  Result_Allow (result_of (permission ctx p op body headers) w) = true ↔
  Grants ctx p op body headers w.
Proof.
  unfold Grants. destruct (Unconditional p) eqn:Hun.
  { apply Unconditional_spec in Hun as ->. split; [by left|done]. }
  assert (Hcond : p ≠ mkPermission None None None).
  { rewrite <- Unconditional_spec. congruence. }
  destruct (service_update op && negb (safeUpdate op p headers)) eqn:Hguard.
  { unfold permission. rewrite Hun, Hguard. apply andb_true_iff in Hguard as [Hupd Hunsafe%negb_true_iff].
    split; [done|]. intros [?|[Hs _]]; [done|]. apply Hs, safeUpdate_spec in Hupd. congruence. }
  assert (Hopt : service_update op = true → SafeUpdate op p headers).
  { intros Hupd. rewrite Hupd in Hguard. by apply safeUpdate_spec, negb_false_iff. }
  destruct (decide (Permission_Selector p = None ∧ Permission_Mutation p = None)) as [[Hsel Hmut]|Hst].
  - assert (Hless : ¬ stateful p) by (intros [[? ?]|[? ?]]; congruence).
    rewrite (permission_state _ _ _ _ _ _ _ Hun Hguard (current_state_stateless ctx p op w Hless)).
    rewrite Hsel, Hmut. naive_solver.
  - assert (Hfull : stateful p).
    { unfold stateful. destruct (Permission_Selector p), (Permission_Mutation p); naive_solver. }
    destruct (result_of (current_state ctx p op) w) as [r|s] eqn:Hstate.
    + assert (Hdeny : Result_Allow (result_of (permission ctx p op body headers) w) = false).
      { unfold permission. rewrite Hun, Hguard. run. rewrite Hstate.
        by apply current_state_denies in Hstate. }
      rewrite Hdeny. split; [done|]. intros [?|(_ & Hs & _)]; [done|].
      destruct (Hs Hfull) as (s & Hins & [Hid Hversion _ _]).
      rewrite (current_state_complete _ _ _ _ _ Hins Hid Hversion Hfull) in Hstate. done.
    + rewrite (permission_state _ _ _ _ _ _ _ Hun Hguard Hstate).
      apply (current_state_inr ctx p op w s) in Hstate as (Hins & Hid & Hversion); [|done].
      split.
      * intros (Hsel & Hreq & Hmut). right. split_and!; try done. by exists s.
      * intros [?|(_ & Hs & Hreq)]; [done|]. destruct (Hs Hfull) as (s' & Hins' & [_ _ Hsel Hmut]).
        assert (s' = s) as -> by congruence. done.
Qed.

(** The world after the permissions [ps] have been evaluated one after the other. *)
Definition world_after ctx op body headers (ps : list Permission) (w : W) : W :=
  foldl (λ w p, world_of (permission ctx p op body headers) w) w ps.

Lemma evaluate_loop_Allow ctx r ps op body headers w :
  Result_Allow r = false →
  Result_Allow (result_of (evaluate_loop ctx r ps op body headers) w) = true ↔
  ∃ before p after, ps = before ++ p :: after ∧
    Grants ctx p op body headers (world_after ctx op body headers before w).
Proof.
  revert r w. induction ps as [|p ps IH]; intros r w Hr; cbn [evaluate_loop].
  { run. rewrite Hr. split; [done|]. intros (? & ? & ? & ?%app_cons_not_nil & _). done. }
  run. pose proof (permission_Allow ctx p op body headers w) as Hp.
  destruct (Result_Allow (result_of (permission ctx p op body headers) w)) eqn:Hallow.
  - run. split; [|done]. intros _. exists [], p, ps. split; [done|]. by apply Hp.
  - rewrite (IH _ _ Hallow). split.
    + intros (before & q & after & -> & Hq). by exists (p :: before), q, after.
    + intros ([|p' before] & q & after & [= -> ->] & Hq); [|by eauto 10].
      apply Hp in Hq. done.
Qed.

Lemma Evaluate_Allow ctx ps op body headers w :
  Result_Allow (result_of (Evaluate ctx ps op body headers) w) = true ↔
  let ctx := Tracer_Start ctx "dockauthz.policy.evaluate" [] in
  ∃ before p after, ps = before ++ p :: after ∧
    Grants ctx p op body headers (world_after ctx op body headers before w).
Proof. unfold Evaluate. run. by apply evaluate_loop_Allow. Qed.

(** C3. A request is allowed exactly when one of the matching permissions grants it
    completely, on its own, against the state Docker reports at that point: nothing is
    merged from several permissions, no permission means no access, and every lookup or
    decoding error counts against the permission. *)
Theorem Evaluate_spec ctx ps op body headers w :
  Result_Allow (result_of (Evaluate ctx ps op body headers) w) = true ↔
  let ctx := Tracer_Start ctx "dockauthz.policy.evaluate" [] in
  ∃ before p after, ps = before ++ p :: after ∧
    Grants ctx p op body headers (world_after ctx op body headers before w).
Proof. apply Evaluate_Allow. Qed.

(** C9. Least privilege: when every matching permission limits mutations to [fields], an
    allowed request changes nothing else of the service that Docker reports under the
    canonical ID, and for an update under the version, that the request names. *)
Theorem Evaluate_least_privilege ctx ps op body headers w fields :
  Result_Allow (result_of (Evaluate ctx ps op body headers) w) = true →
  (∀ p, p ∈ ps → ∃ m, Permission_Mutation p = Some m ∧ Mutation_Only m ⊆ fields) →
  ∃ w' s spec next,
    result_of (Inspect (Tracer_Start ctx "dockauthz.policy.evaluate" []) op) w' = Ok s ∧
    Snapshot_ID s = Operation_ID op ∧
    (service_update op = true →
     ParseUint (Values_Get (Operation_Query op) "version") = Some (Snapshot_Version s)) ∧
    Snapshot_ServiceSpec s = Some spec ∧ Decode body = Ok next ∧
    ("container.secrets" ∉ fields → secrets_of spec = secrets_of next) ∧
    ("container.image" ∉ fields → image_of spec = image_of next) ∧
    ("replicas" ∉ fields → replicas_of spec = replicas_of next) ∧
    erase_all semantic_fields spec ≡ erase_all semantic_fields next.
Proof.
  intros (before & p & after & Hps & Hgrants)%Evaluate_Allow Hall.
  destruct (Hall p) as (m & Hm & Hsub); [set_solver|].
  destruct Hgrants as [->|(_ & Hst & _)]; [done|].
  destruct Hst as (s & Hs & [Hid Hversion _ Hmut]); [right; by rewrite Hm|].
  destruct (Hmut m Hm) as (spec & next & Hspec & Hnext & Hwithin & _).
  apply ChangesWithin_least_privilege in Hwithin as (? & ? & ? & ?).
  exists (world_after (Tracer_Start ctx "dockauthz.policy.evaluate" []) op body headers before w).
  exists s, spec, next. split_and!; set_solver.
Qed.

(** A daemon whose answers do not depend on when it is asked. *)
Definition stable ctx op : Prop :=
  ∀ w1 w2 : W, result_of (Inspect ctx op) w1 = result_of (Inspect ctx op) w2.

Lemma Grants_stable ctx p op body headers w1 w2 :
  stable ctx op → Grants ctx p op body headers w1 → Grants ctx p op body headers w2.
Proof. intros Hst [?|(? & Hs & ?)]; [by left|right]. by rewrite (Hst w2 w1). Qed.

(** C28. While the resource does not change, only the set of matching permissions counts:
    not their order, nor how often one of them occurs. *)
Theorem Evaluate_set ctx ps1 ps2 op body headers w :
  stable (Tracer_Start ctx "dockauthz.policy.evaluate" []) op →
  (∀ p, p ∈ ps1 ↔ p ∈ ps2) →
  Result_Allow (result_of (Evaluate ctx ps1 op body headers) w) =
  Result_Allow (result_of (Evaluate ctx ps2 op body headers) w).
Proof.
  intros Hst Hps.
  assert (Hany : ∀ ps, Result_Allow (result_of (Evaluate ctx ps op body headers) w) = true ↔
    ∃ p, p ∈ ps ∧ Grants (Tracer_Start ctx "dockauthz.policy.evaluate" []) p op body headers w).
  { intros ps. rewrite Evaluate_Allow. cbv zeta. split.
    - intros (before & p & after & -> & Hp). exists p.
      split; [set_solver|by eapply Grants_stable].
    - intros (p & (before & after & ->)%list_elem_of_split & Hp). exists before, p, after.
      split; [done|by eapply Grants_stable]. }
  apply eq_true_iff_eq. rewrite !Hany. by setoid_rewrite Hps.
Qed.
End evaluation.

(** ** What an evaluation emits and returns *)
Section emits.
Context `{!MapRange, !DockerJson, !Otel} {W : Type} `{!Reader W}.
Context (P : event → Prop) (Hspan : span_free P) (op : Operation).
Context (Hinspect : ∀ ctx, emits P (Inspect (W := W) ctx op)).

Lemma permission_emits ctx p body headers : emits P (permission (W := W) ctx p op body headers).
Proof.
  unfold permission. destruct (Unconditional p); [apply emits_ret|].
  destruct (_ && _); [apply emits_ret|]. apply emits_bind.
  - unfold current_state. destruct (_ || _); [|apply emits_ret].
    apply emits_bind; [apply Hinspect|intros; apply emits_ret].
  - intros [r|s]; [apply emits_ret|]. destruct (label_constraints _ _ _ _); [apply emits_ret|].
    apply emits_bind; [|intros; apply emits_ret]. unfold mutation_constraint.
    destruct (Permission_Mutation p); [|apply emits_ret].
    destruct (Snapshot_ServiceSpec s); [|apply emits_ret].
    apply emits_bind; [apply emits_span; [done|intros; apply emits_ret]|intros; apply emits_ret].
Qed.

Lemma Evaluate_emits ctx ps body headers : emits P (Evaluate (W := W) ctx ps op body headers).
Proof.
  apply emits_span; [done|]. intros inner. generalize (deny "no matching permission" "").
  induction ps as [|p ps IH]; intros r; cbn [evaluate_loop]; [apply emits_ret|].
  apply emits_bind; [apply permission_emits|]. intros r'. destruct (Result_Allow r'); [apply emits_ret|apply IH].
Qed.
End emits.

(** The categories of the errors that an evaluation counts. *)
Definition error_types : list string := [""; "policy"; "docker_lookup"; "mutation"].
Definition typed_error (r : Result) : Prop := Result_ErrorType r ∈ error_types.

Section returns.
Context `{!MapRange, !DockerJson, !Otel} {W : Type} `{!Reader W}.

Lemma typed_allow reason : typed_error (allow reason).
Proof. left. Qed.
Lemma typed_deny reason category : category ∈ error_types → typed_error (deny reason category).
Proof. done. Qed.

Lemma label_constraints_typed p op body s r : label_constraints p op body s = Some r → typed_error r.
Proof.
  unfold label_constraints. cbv zeta. destruct (negb _); [intros [= <-]; left|].
  destruct (Permission_Request p); [|done].
  destruct (request_labels _ _) as [r'|labels] eqn:Hlabels.
  - intros [= <-]. revert Hlabels. unfold request_labels.
    repeat case_match; intros [= <-]; apply typed_deny; set_solver.
  - destruct (negb _); [intros [= <-]; left|done].
Qed.

Lemma permission_typed ctx p op body headers : returns (W := W) typed_error (permission ctx p op body headers).
Proof.
  unfold permission. destruct (Unconditional p); [apply returns_ret, typed_allow|].
  destruct (_ && _); [apply returns_ret, typed_deny; set_solver|].
  apply (returns_bind (λ state : Result + Snapshot, match state with inl r => typed_error r | inr _ => True end)).
  - unfold current_state. destruct (_ || _); [|by apply returns_ret].
    eapply returns_bind; [apply returns_any|]. intros state _. apply returns_ret.
    destruct state as [s|e]; [|apply typed_deny; set_solver].
    destruct (_ != _); [apply typed_deny; set_solver|]. destruct (service_update op); [|done].
    destruct (ParseUint _); [|apply typed_deny; set_solver].
    destruct (_ != _); [apply typed_deny; set_solver|done].
  - intros [r|s] Hr; [by apply returns_ret|].
    destruct (label_constraints p op body s) as [r|] eqn:Hlabels.
    { apply returns_ret. by eapply label_constraints_typed. }
    apply (returns_bind (λ denied : option Result, match denied with Some r => typed_error r | None => True end)).
    + unfold mutation_constraint. destruct (Permission_Mutation p); [|by apply returns_ret].
      destruct (Snapshot_ServiceSpec s); [|apply returns_ret, typed_deny; set_solver].
      eapply returns_bind; [apply returns_any|]. intros err _. apply returns_ret.
      destruct err; [apply typed_deny; set_solver|done].
    + intros [r|] Hr'; apply returns_ret; [done|apply typed_allow].
Qed.

Lemma Evaluate_typed ctx ps op body headers : returns (W := W) typed_error (Evaluate ctx ps op body headers).
Proof.
  apply returns_span. intros inner. generalize (typed_deny "no matching permission" "" ltac:(left)).
  generalize (deny "no matching permission" "").
  induction ps as [|p ps IH]; intros r Hr; cbn [evaluate_loop]; [by apply returns_ret|].
  eapply returns_bind; [apply permission_typed|]. intros r' Hr'.
  destruct (Result_Allow r'); [by apply returns_ret|by apply IH].
Qed.
End returns.

(** ** A deployer that may change the image of the services of one team *)
Module Example.
Export DockerApi.Example.
#[export] Instance json : DockerJson := {|
  service_target := Mutation.Example.target;
  secret_target := λ body, None; node_target := λ body, None; task_target := λ body, None;
  decode_envelope := λ body, None
|}.
#[export] Instance order : MapRange := sorted_range.
Definition snapshot : Snapshot :=
  mkSnapshot "abc" 42 (Some {["team" := "web"]}) (Some Mutation.Example.current).
(** The world is the number of inspections so far. *)
#[export] Instance daemon : Reader nat := λ ctx op, lift (λ w, (Ok snapshot, S w)).
Definition image_updates : Permission :=
  mkPermission (Some (mkLabels {["team" := "web"]})) None (Some (mkMutation ["container.image"])).
Definition other_team : Permission := mkPermission (Some (mkLabels {["team" := "db"]})) None None.

Lemma Evaluate_least_privilege_witness :
  Result_Allow (result_of (Evaluate background [image_updates] example_update "{new image}" ∅) 0) = true ∧
  secrets_of Mutation.Example.current = secrets_of Mutation.Example.new_image.
Proof.
  assert (Hallow : Result_Allow
    (result_of (Evaluate background [image_updates] example_update "{new image}" ∅) 0) = true)
    by (vm_compute; reflexivity).
  split; [exact Hallow|].
  destruct (Evaluate_least_privilege background [image_updates] example_update "{new image}" ∅ 0
    ["container.image"] Hallow) as (w' & s & spec & next & Hs & _ & _ & Hspec & Hnext & Hsec & _).
  { intros p ->%list_elem_of_singleton. exists (mkMutation ["container.image"]).
    split; [reflexivity|]. intros f Hf. exact Hf. }
  injection Hs as <-. injection Hspec as <-.
  assert (Hdec : Decode "{new image}" = Ok Mutation.Example.new_image) by (vm_compute; reflexivity).
  rewrite Hdec in Hnext. injection Hnext as <-. apply Hsec. by intros [=]%list_elem_of_singleton.
Defined.

Lemma Evaluate_set_witness :
  stable (Tracer_Start background "dockauthz.policy.evaluate" []) example_update ∧
  Result_Allow (result_of (Evaluate background [other_team; image_updates] example_update "{new image}" ∅) 0) =
  Result_Allow (result_of (Evaluate background [image_updates; other_team; other_team] example_update
    "{new image}" ∅) 0).
Proof.
  assert (Hstable : stable (Tracer_Start background "dockauthz.policy.evaluate" []) example_update) by done.
  split; [exact Hstable|]. apply (Evaluate_set _ _ _ _ _ _ _ Hstable). set_solver.
Defined.
End Example.
