(* ===== verification/Authz.v ===== *)
(** * Package authz: the authorization plugin

    internal/authz/plugin.go.  [New] builds the plugin from a policy; [Authorize] decides
    one request and reports the decision once, in its deferred function. *)
From S2P Require Import Prelude GoString NetUrl NetHttp Operation Config Observer Identity DockerApi Policy.

(** ** Data *)
Record client := mkclient { client_name : string; client_permissions : PermissionMap }.

(** The reader, the observer and the logger of the plugin are the instance of [Reader]
    and the trace of the monad. *)
Record Plugin := mkPlugin {
  Plugin_unidentified : string;
  Plugin_clients : gmap string client;
  Plugin_token : Token
}.
(** authorization.Response *)
Record Response := mkResponse { Response_Allow : bool; Response_Msg : string }.

(** ** New: the policy after validation, and the plugin. *)
Definition add_client (clients : gmap string client) (entry : string * Config.Client) : gmap string client :=
  <[client_cn entry.2 := mkclient entry.1 (Client_Permissions entry.2)]> clients.
Definition New `{!MapRange} (cfg : Config) (token : Token) : Config * result Plugin :=
  match Config_Validate cfg with
  | (cfg, Some e) => (cfg, Err e)
  | (cfg, None) =>
      (cfg, Ok (mkPlugin (Authentication_Unidentified (Config_Authentication cfg))
                  (foldl add_client ∅ (range (Config_Clients cfg))) token))
  end.

(** ** Authorize *)

(** The variables that the deferred function reads. *)
Record Decision := mkDecision {
  d_name : string;
  d_cn : string;
  d_method : string;
  d_op : Operation;
  d_result : Result;
  d_internal : bool
}.
Definition unknown_op : Operation := mkOperation ResourceUnknown ActionUnknown "" "" ∅.

(** The permissions of a client at the operation's resource and action, or at *. *)
Definition lookup_permission (permissions : PermissionMap) (resource action : string) : list Permission :=
  match permissions !! resource ≫= (.!! action) with Some p => [p] | None => [] end.
Definition matching (permissions : PermissionMap) (op : Operation) : list Permission :=
  resource ← [Operation_Resource op; "*"];
  action ← [Operation_Action op; "*"];
  lookup_permission permissions resource action.

Definition full_administrator (permissions : PermissionMap) : bool :=
  match permissions !! "*" ≫= (.!! "*") with Some p => Unconditional p | None => false end.

Section Authorize.
Context `{!MapRange, !DockerJson, !Otel} {W : Type} `{!Reader W}.

(** A request with an internal token. *)
Definition decide_internal (valid : bool) (req : Request) : Decision :=
  let resolved := Resolve (Request_RequestMethod req) (Request_RequestURI req) in
  let op := match resolved with Ok op => op | Err _ => unknown_op end in
  let result :=
    if valid && (match resolved with Ok _ => true | Err _ => false end)
       && (Operation_Action op == ActionInspect) && (size (Operation_Query op) =? 0)%nat
    then mkResult true "internal inspect" "" else mkResult false "invalid internal request" "internal" in
  mkDecision "internal" "" "internal" op result true.

(** A request of an authenticated client. *)
Definition decide_client (ctx : Ctx) (cn : string) (c : client) (req : Request) : M W Decision :=
  let name := client_name c in
  if full_administrator (client_permissions c)
  then mret (mkDecision name cn "TLS" unknown_op (mkResult true "full administrator" "") false)
  else match Resolve (Request_RequestMethod req) (Request_RequestURI req) with
  | Err _ =>
      mret (mkDecision name cn "TLS" unknown_op
              (mkResult false "unknown or invalid Docker operation" "resolver") false)
  | Ok op =>
      result ← Evaluate ctx (matching (client_permissions c) op) op (Request_RequestBody req)
                 (Request_RequestHeaders req);
      mret (mkDecision name cn "TLS" op result false)
  end.

Definition decide_request (p : Plugin) (ctx : Ctx) (req : Request) : M W Decision :=
  let '(present, valid) := Check_headers (Plugin_token p) (Request_RequestHeaders req) in
  if (present : bool) then mret (decide_internal valid req)
  else match CommonName req with
  | Err e => mret (mkDecision "unknown" "" "unknown" unknown_op (mkResult false e "policy") false)
  | Ok cn =>
      if cn == "" then
        mret (mkDecision "unidentified" "" "none" unknown_op
                (mkResult (Plugin_unidentified p == "allow") "unidentified policy" "") false)
      else match Plugin_clients p !! cn with
      | None =>
          mret (mkDecision "unknown" cn "TLS" unknown_op
                  (mkResult false "unknown authenticated client" "") false)
      | Some c => decide_client ctx cn c req
      end
  end.

(** The deferred function. *)
Definition report (ctx : Ctx) (req : Request) (d : Decision) : M W () :=
  let op := if Operation_Resource (d_op d) == ResourceUnknown
            then match Resolve (Request_RequestMethod req) (Request_RequestURI req) with
                 | Ok resolved => resolved | Err _ => d_op d end
            else d_op d in
  let decision := if Result_Allow (d_result d) then "allow" else "deny" in
  emit (SpanSetAttributes ctx
    [("dockauthz.client", VString (d_name d));
     ("dockauthz.identity.auth_method", VString (d_method d));
     ("dockauthz.resource", VString (Operation_Resource op));
     ("dockauthz.action", VString (Operation_Action op));
     ("dockauthz.decision", VString decision);
     ("dockauthz.reason", VString (Result_Reason (d_result d)))]) ≫= λ _,
  Observer_Decision ctx decision (d_name d) (Operation_Resource op) (Operation_Action op) ≫= λ _,
  (if Result_ErrorType (d_result d) != "" then Observer_Error ctx (Result_ErrorType (d_result d))
   else mret ()) ≫= λ _,
  (if d_internal d then Observer_Internal ctx decision else mret ()) ≫= λ _,
  emit (LogInfo ctx "authorization decision"
    [("client", VString (d_name d)); ("identity", VString (d_cn d));
     ("resource", VString (Operation_Resource op)); ("resource_id", VString (Operation_ID op));
     ("action", VString (Operation_Action op)); ("decision", VString decision);
     ("reason", VString (Result_Reason (d_result d)))]).

(** The trace context: the one of the plugin's own HTTP request, or else the one that
    the daemon's client sent. *)
Definition request_context (ctx : Ctx) (req : Request) : Ctx :=
  if SpanContext_IsValid ctx then ctx else Extract ctx (range (Request_RequestHeaders req)).

Definition Authorize (p : Plugin) (ctx : Ctx) (req : Request) : M W Response :=
  with_span (request_context ctx req) "dockauthz.authorize" [] (λ ctx,
    d ← decide_request p ctx req;
    report ctx req d ≫= λ _,
    mret (mkResponse (Result_Allow (d_result d)) (Result_Reason (d_result d)))).

Definition AuthZReq (p : Plugin) (req : Request) : M W Response := Authorize p background req.
Definition AuthZRes (p : Plugin) (req : Request) : M W Response := mret (mkResponse true "").
End Authorize.

(** ** Specification *)

(** The request carries the internal token's header, in some spelling. *)
Definition token_present (req : Request) : Prop :=
  ∃ key value, internal_header (Request_RequestHeaders req) key value.
(** ... exactly once, with the right value. *)
Definition token_valid (token : Token) (req : Request) : Prop :=
  ∃ key, internal_header (Request_RequestHeaders req) key (Token_value token) ∧
    ∀ key' value', internal_header (Request_RequestHeaders req) key' value' → key' = key.

(** What the holder of the token may do: inspect one object. *)
Definition InternalInspect (token : Token) (req : Request) : Prop :=
  token_valid token req ∧ ∃ op,
    Resolve (Request_RequestMethod req) (Request_RequestURI req) = Ok op ∧
    Operation_Action op = ActionInspect ∧ Operation_Query op = ∅.

(** An entry of a client's policy that matches an operation. *)
Definition Matches (permissions : PermissionMap) (op : Operation) (p : Permission) : Prop :=
  ∃ resource action actions, resource ∈ [Operation_Resource op; "*"] ∧ action ∈ [Operation_Action op; "*"] ∧
    permissions !! resource = Some actions ∧ actions !! action = Some p.

Definition Administrator (permissions : PermissionMap) : Prop :=
  ∃ actions, permissions !! "*" = Some actions ∧ actions !! "*" = Some (mkPermission None None None).

(** ** Lemmas *)
Lemma elem_of_lookup_permission permissions resource action p :
  p ∈ lookup_permission permissions resource action ↔
  ∃ actions, permissions !! resource = Some actions ∧ actions !! action = Some p.
Proof.
  unfold lookup_permission. destruct (permissions !! resource) as [actions|]; cbn; [|set_solver].
  destruct (actions !! action) as [q|] eqn:Hq; cbn; [|set_solver].
  rewrite list_elem_of_singleton. naive_solver.
Qed.

Lemma elem_of_matching permissions op p : p ∈ matching permissions op ↔ Matches permissions op p.
Proof.
  unfold matching, Matches. setoid_rewrite list_elem_of_bind. setoid_rewrite list_elem_of_bind.
  setoid_rewrite elem_of_lookup_permission. naive_solver.
Qed.

Lemma full_administrator_spec permissions :
  full_administrator permissions = true ↔ Administrator permissions.
Proof.
  unfold full_administrator, Administrator. destruct (permissions !! "*") as [actions|]; cbn; [|naive_solver].
  destruct (actions !! "*") as [p|] eqn:Hp; cbn; [rewrite Unconditional_spec|]; naive_solver.
Qed.

Section New.
Context `{!MapRange}.

Lemma add_clients_lookup (entries : list (string * Config.Client)) m cn c :
  NoDup (client_cn <$> entries.*2) →
  foldl add_client m entries !! cn = Some c ↔
  (∃ name cl, (name, cl) ∈ entries ∧ client_cn cl = cn ∧ c = mkclient name (Client_Permissions cl)) ∨
  (cn ∉ client_cn <$> entries.*2) ∧ m !! cn = Some c.
Proof.
  revert m. induction entries as [|[name cl] entries IH]; intros m; cbn [foldl fmap list_fmap].
  { intros _. set_solver. }
  intros [Hfresh Hnd]%NoDup_cons. rewrite (IH _ Hnd). unfold add_client; cbn [fst snd].
  rewrite lookup_insert_Some, not_elem_of_cons. setoid_rewrite elem_of_cons. split.
  - intros [?|[Hnin [[<- <-]|[Hne Hm]]]]; naive_solver.
  - intros [(n & c' & [[= -> ->]|Hin] & <- & ->)|[[Hne Hnin] Hm]]; [right|naive_solver..].
    split; [done|]. by left.
Qed.

Lemma New_Ok cfg token cfg' plugin :
  New cfg token = (cfg', Ok plugin) ↔
  cfg' = Config_defaults cfg ∧ ValidConfig cfg' ∧
  plugin = mkPlugin (Authentication_Unidentified (Config_Authentication cfg))
             (foldl add_client ∅ (range (Config_Clients cfg))) token.
Proof.
  unfold New. destruct (Config_Validate cfg) as [cfg1 [e|]] eqn:Hval.
  - split; [done|]. intros (-> & Hvalid & _).
    assert (Config_Validate cfg = (Config_defaults cfg, None)) by (by apply Config_Validate_None).
    congruence.
  - apply Config_Validate_None in Hval as [-> Hvalid]. naive_solver.
Qed.

Lemma New_clients cfg token cfg' plugin :
  New cfg token = (cfg', Ok plugin) → ∀ cn c,
  Plugin_clients plugin !! cn = Some c ↔
  ∃ name cl, Config_Clients cfg' !! name = Some cl ∧ client_cn cl = cn ∧
    c = mkclient name (Client_Permissions cl).
Proof.
  intros (-> & Hvalid & ->)%New_Ok cn c. cbn [Plugin_clients].
  change (Config_Clients (Config_defaults cfg)) with (Config_Clients cfg).
  rewrite add_clients_lookup.
  - setoid_rewrite elem_of_range. rewrite lookup_empty. naive_solver.
  - apply range_NoDup_values. apply (config_cns _ Hvalid).
Qed.

(** C13. The constructor accepts exactly the valid policies, and its client table maps a
    certificate's common name to the one client of the policy that has it: no client is
    lost or replaced, in whatever order Go enumerates the clients. *)
Theorem New_spec cfg token cfg' plugin :
  New cfg token = (cfg', Ok plugin) ↔
  cfg' = Config_defaults cfg ∧ ValidConfig cfg' ∧
  Plugin_unidentified plugin = Authentication_Unidentified (Config_Authentication cfg) ∧
  Plugin_token plugin = token ∧
  ∀ cn c, Plugin_clients plugin !! cn = Some c ↔
    ∃ name cl, Config_Clients cfg' !! name = Some cl ∧ client_cn cl = cn ∧
      c = mkclient name (Client_Permissions cl).
Proof.
  split.
  - intros Hnew. pose proof (New_clients _ _ _ _ Hnew).
    apply New_Ok in Hnew as (-> & ? & ->). by split_and!.
  - intros (-> & Hvalid & Hun & Htok & Hclients). apply New_Ok. split_and!; [done..|].
    destruct plugin as [un clients tok]; cbn in *. subst. f_equal.
    apply map_eq. intros cn. apply option_eq. intros c. rewrite Hclients.
    rewrite add_clients_lookup, lookup_empty.
    + setoid_rewrite elem_of_range. naive_solver.
    + apply range_NoDup_values. apply (config_cns _ Hvalid).
Qed.
End New.

Section Authorize.
Context `{!MapRange, !DockerJson, !Otel} {W : Type} `{!Reader W}.

(** The context of the spans below the request's own. *)
Definition inner_context (ctx : Ctx) (req : Request) : Ctx :=
  Tracer_Start (request_context ctx req) "dockauthz.authorize" [].
Definition policy_context (ctx : Ctx) (req : Request) : Ctx :=
  Tracer_Start (inner_context ctx req) "dockauthz.policy.evaluate" [].

(** What the policy of one client allows: everything to a full administrator, otherwise
    the operations that one matching permission grants on its own. *)
Definition ClientAllows (c : client) (ctx : Ctx) (req : Request) (w : W) : Prop :=
  Administrator (client_permissions c) ∨
  ∃ op before p after,
    Resolve (Request_RequestMethod req) (Request_RequestURI req) = Ok op ∧
    matching (client_permissions c) op = before ++ p :: after ∧
    Grants ctx p op (Request_RequestBody req) (Request_RequestHeaders req)
      (world_after ctx op (Request_RequestBody req) (Request_RequestHeaders req) before w).

Definition Authorized (p : Plugin) (ctx : Ctx) (req : Request) (w : W) : Prop :=
  InternalInspect (Plugin_token p) req ∨
  ¬ token_present req ∧
    ((Anonymous req ∧ Plugin_unidentified p = "allow") ∨
     ∃ cn c, Authenticated req cn ∧ Plugin_clients p !! cn = Some c ∧ ClientAllows c ctx req w).

Lemma Check_present p req :
  (Check_headers (Plugin_token p) (Request_RequestHeaders req)).1 = true ↔ token_present req.
Proof. apply Check_headers_iff. Qed.
Lemma Check_valid p req :
  (Check_headers (Plugin_token p) (Request_RequestHeaders req)).2 = true ↔ token_valid (Plugin_token p) req.
Proof. apply Check_headers_iff. Qed.

Lemma token_valid_present token req : token_valid token req → token_present req.
Proof. intros (key & Hkey & _). by exists key, (Token_value token). Qed.

Lemma decide_internal_spec token valid req :
  (valid = true ↔ token_valid token req) →
  Result_Allow (d_result (decide_internal valid req)) = true ↔ InternalInspect token req.
Proof.
  intros Hvalid. unfold decide_internal, InternalInspect. cbv zeta. rewrite <- Hvalid.
  destruct (Resolve _ _) as [op|e].
  - destruct valid; cbn; [|naive_solver].
    case_bool_decide as Haction; cbn; [|naive_solver].
    destruct (Nat.eqb_spec (size (Operation_Query op)) 0) as [Hq|Hq]; cbn.
    + apply map_size_empty_inv in Hq. naive_solver.
    + split; [done|]. intros (_ & ? & [= <-] & _ & Hempty). by rewrite Hempty in Hq.
  - rewrite andb_false_r. cbn. naive_solver.
Qed.

Lemma decide_client_spec ctx cn c req w :
  Result_Allow (d_result (result_of (decide_client ctx cn c req) w)) = true ↔
  ClientAllows c (Tracer_Start ctx "dockauthz.policy.evaluate" []) req w.
Proof.
  unfold decide_client, ClientAllows. cbv zeta. rewrite <- full_administrator_spec.
  destruct (full_administrator _); [split; [by left|done]|].
  destruct (Resolve _ _) as [op|e]; [|split; [done|naive_solver]]. run. cbn [d_result].
  rewrite Evaluate_Allow. cbv zeta. naive_solver.
Qed.

Lemma decide_request_spec p ctx req w :
  Result_Allow (d_result (result_of (decide_request p ctx req) w)) = true ↔
  Authorized p (Tracer_Start ctx "dockauthz.policy.evaluate" []) req w.
Proof.
  unfold decide_request, Authorized.
  pose proof (Check_present p req) as Hpresent. pose proof (Check_valid p req) as Hvalid.
  destruct (Check_headers _ _) as [present valid]; cbn [fst snd] in Hpresent, Hvalid.
  destruct present.
  { run. rewrite (decide_internal_spec _ _ _ Hvalid). naive_solver. }
  assert (Habsent : ¬ token_present req) by (by rewrite <- Hpresent).
  assert (Hno : ¬ InternalInspect (Plugin_token p) req).
  { intros [?%token_valid_present _]. done. }
  pose proof (CommonName_Ok req) as Hcn. destruct (CommonName req) as [cn|e] eqn:Hname.
  - destruct (proj1 (Hcn cn) eq_refl) as [[-> Hanon]|Hauth].
    + rewrite bool_decide_eq_true_2 by done. run. cbn [d_result Result_Allow].
      rewrite bool_decide_eq_true.
      pose proof (Anonymous_not_Authenticated req). naive_solver.
    + rewrite bool_decide_eq_false_2 by apply Hauth.
      assert (Hother : ¬ Anonymous req) by (intros ?; by eapply Anonymous_not_Authenticated).
      assert (Hsame : ∀ cn', Authenticated req cn' → cn' = cn).
      { intros cn' Hauth'. assert (Ok cn = Ok cn') by (apply Hcn; by right). congruence. }
      destruct (Plugin_clients p !! cn) as [c|] eqn:Hc; [rewrite decide_client_spec|cbn]; split.
      * intros Hallow. right. split; [done|]. right. by exists cn, c.
      * intros [?|[_ [[? _]|(cn' & c' & Hauth' & Hc' & Hallow)]]]; [done..|].
        rewrite (Hsame cn' Hauth') in Hc'. congruence.
      * done.
      * intros [?|[_ [[? _]|(cn' & c' & Hauth' & Hc' & _)]]]; [done..|].
        rewrite (Hsame cn' Hauth') in Hc'. congruence.
  - cbn. split; [done|]. intros [?|[_ [[Hanon _]|(cn & c & Hauth & _)]]]; [done|..].
    + discriminate (proj2 (Hcn "") (or_introl (conj eq_refl Hanon))).
    + discriminate (proj2 (Hcn cn) (or_intror Hauth)).
Qed.

Lemma Authorize_Allow p ctx req w :
  Response_Allow (result_of (Authorize p ctx req) w) = true ↔
  Authorized p (policy_context ctx req) req w.
Proof. unfold Authorize. run. cbn [Response_Allow]. by rewrite decide_request_spec. Qed.

Lemma world_report ctx req d (w : W) : world_of (report ctx req d) w = w.
Proof.
  unfold report, Observer_Decision, Observer_Error, Observer_Internal. cbv zeta. run.
  destruct (_ != ""), (d_internal d); by run.
Qed.

Lemma Authorize_internal_world p ctx req w : token_present req → world_of (Authorize p ctx req) w = w.
Proof.
  intros Hpresent%(Check_present p). unfold Authorize. run. rewrite world_report.
  unfold decide_request. destruct (Check_headers _ _) as [present valid]; cbn [fst] in Hpresent.
  subst. by run.
Qed.

(** C7. A request is allowed exactly when it is a valid internal inspection, or carries
    no internal token at all and is either anonymous under an allowing policy or comes
    from an authenticated client of the policy that is a full administrator or has a
    matching permission that grants the operation on its own. *)
Theorem Authorize_spec p ctx req w :
  Response_Allow (result_of (Authorize p ctx req) w) = true ↔
  Authorized p (policy_context ctx req) req w.
Proof. apply Authorize_Allow. Qed.

(** C10. The plugin's own inspections do not recurse: the daemon's authorization callback
    for a request that the client builds is allowed without asking the daemon anything,
    given that injecting a trace context leaves the token's header alone. *)
Theorem Authorize_own_inspection p c ctx0 ctx req method uri op hreq w :
  (∀ ctx headers key, EqualFold key InternalHeader = true → Inject ctx headers !! key = headers !! key) →
  Resolve method uri = Ok op → Client_token c = Plugin_token p →
  inspect_request c ctx0 op = Ok hreq →
  Request_RequestMethod req = Http_Method hreq → Http_URL hreq = "http://docker" +:+ Request_RequestURI req →
  Request_RequestHeaders req = Http_Header hreq →
  Response_Allow (result_of (Authorize p ctx req) w) = true ∧ world_of (Authorize p ctx req) w = w.
Proof.
  intros Hinject Hop Htoken Hreq Hmethod Huri Hheaders.
  assert (Haction : Operation_Action op ≠ ActionList ∧ Operation_Action op ≠ ActionCreate).
  { split; intros Ha; [destruct (Resolve_inspect_collection _ _ _ Hop (or_introl Ha)) as [e He]
      |destruct (Resolve_inspect_collection _ _ _ Hop (or_intror Ha)) as [e He]];
      unfold inspect_request in Hreq; by rewrite He in Hreq. }
  destruct Haction as [Hlist Hcreate].
  rewrite (inspect_request_resolved c ctx0 _ _ _ Hop Hlist Hcreate) in Hreq. injection Hreq as <-.
  cbn [Http_Method Http_URL Http_Header] in *. injection Huri as Huri.
  change (inspect_path op = Request_RequestURI req) in Huri.
  assert (Hvalid : token_valid (Plugin_token p) req).
  { unfold token_valid, internal_header. rewrite Hheaders. exists InternalHeader.
    split; [split; [|done]|].
    - by rewrite Hinject, Htoken, lookup_singleton_eq.
    - intros key value [Hk Hfold]. rewrite Hinject in Hk by done.
      by apply lookup_singleton_Some in Hk as [<- _]. }
  split; [|by eapply Authorize_internal_world, token_valid_present].
  apply Authorize_Allow. left. split; [done|]. exists (inspected op).
  split; [|done]. rewrite Hmethod, <- Huri. by eapply Resolve_inspect.
Qed.

(** C15. A request with any internal token header never reaches the identity, the policy
    or the daemon: it is allowed only as a valid inspection and changes nothing. *)
Theorem Authorize_internal p ctx req w :
  token_present req →
  (Response_Allow (result_of (Authorize p ctx req) w) = true ↔ InternalInspect (Plugin_token p) req) ∧
  world_of (Authorize p ctx req) w = w.
Proof.
  intros Hpresent. split; [|by apply Authorize_internal_world].
  rewrite Authorize_Allow. unfold Authorized. naive_solver.
Qed.
End Authorize.

(** ** Refinement: the plugin implements the policy document *)
Definition ConfigAllows `{!DockerJson, !Otel} {W} `{!Reader W} (cfg : Config) (token : Token)
    (ctx : Ctx) (req : Request) (w : W) : Prop :=
  InternalInspect token req ∨
  ¬ token_present req ∧
    ((Anonymous req ∧ Authentication_Unidentified (Config_Authentication cfg) = "allow") ∨
     ∃ name cl, Config_Clients cfg !! name = Some cl ∧ Authenticated req (client_cn cl) ∧
       (Administrator (Client_Permissions cl) ∨
        ∃ op p, Resolve (Request_RequestMethod req) (Request_RequestURI req) = Ok op ∧
          Matches (Client_Permissions cl) op p ∧
          Grants ctx p op (Request_RequestBody req) (Request_RequestHeaders req) w)).

Section refinement.
Context `{!MapRange, !DockerJson, !Otel} {W : Type} `{!Reader W}.

Lemma ClientAllows_stable c ctx req w :
  (∀ op, stable ctx op) →
  ClientAllows c ctx req w ↔
  Administrator (client_permissions c) ∨
  ∃ op p, Resolve (Request_RequestMethod req) (Request_RequestURI req) = Ok op ∧
    Matches (client_permissions c) op p ∧
    Grants ctx p op (Request_RequestBody req) (Request_RequestHeaders req) w.
Proof.
  intros Hst. unfold ClientAllows. apply or_iff_compat_l. split.
  - intros (op & before & p & after & Hop & Hm & Hp). exists op, p. split_and!; [done| |].
    + apply elem_of_matching. rewrite Hm. set_solver.
    + by eapply Grants_stable.
  - intros (op & p & Hop & Hm & Hp).
    apply elem_of_matching, list_elem_of_split in Hm as (before & after & Hm).
    exists op, before, p, after. split_and!; [done..|]. by eapply Grants_stable.
Qed.

Lemma New_refines cfg token cfg' plugin ctx req w :
  New cfg token = (cfg', Ok plugin) → (∀ op, stable (policy_context ctx req) op) →
  Response_Allow (result_of (Authorize plugin ctx req) w) = true ↔
  ConfigAllows cfg' token (policy_context ctx req) req w.
Proof.
  intros Hnew Hst. pose proof (New_clients _ _ _ _ Hnew) as Hclients.
  apply New_Ok in Hnew as (-> & _ & ->). rewrite Authorize_Allow. unfold Authorized, ConfigAllows.
  cbn [Plugin_token Plugin_unidentified Plugin_clients] in *.
  change (Config_Authentication (Config_defaults cfg)) with (Config_Authentication cfg).
  apply or_iff_compat_l, and_iff_compat_l, or_iff_compat_l. split.
  - intros (cn & c & Hauth & (name & cl & Hcl & <- & ->)%Hclients & Hallow).
    exists name, cl. split_and!; [done..|]. by apply (ClientAllows_stable _ _ _ _ Hst) in Hallow.
  - intros (name & cl & Hcl & Hauth & Hallow).
    exists (client_cn cl), (mkclient name (Client_Permissions cl)). split_and!; [done| |].
    + apply Hclients. eauto.
    + by apply (ClientAllows_stable _ _ _ _ Hst).
Qed.

(** C2. The plugin implements the policy document: built from a policy, it allows a
    request exactly when the document read as written allows it, as long as the resource
    does not change between two looks at it. *)
Theorem Plugin_refines_policy cfg token cfg' plugin ctx req w :
  New cfg token = (cfg', Ok plugin) → (∀ op, stable (policy_context ctx req) op) →
  Response_Allow (result_of (Authorize plugin ctx req) w) = true ↔
  ConfigAllows cfg' token (policy_context ctx req) req w.
Proof. apply New_refines. Qed.
End refinement.

(** ** The report *)
Section report.
Context `{!MapRange, !DockerJson, !Otel} {W : Type} `{!Reader W, !QuietReader W}.

Lemma decide_request_emits (P : event → Prop) p ctx req :
  span_free P →
  (∀ ctx op, Resolve (Request_RequestMethod req) (Request_RequestURI req) = Ok op → emits P (Inspect (W := W) ctx op)) →
  emits P (decide_request p ctx req).
Proof.
  intros Hspan Hinspect.
  unfold decide_request. destruct (Check_headers _ _) as [[|] valid]; [apply emits_ret|].
  destruct (CommonName req) as [cn|]; [|apply emits_ret]. destruct (cn == ""); [apply emits_ret|].
  destruct (Plugin_clients p !! cn); [|apply emits_ret]. unfold decide_client. cbv zeta.
  destruct (full_administrator _); [apply emits_ret|].
  destruct (Resolve _ _) as [op|]; [|apply emits_ret].
  apply emits_bind; [apply Evaluate_emits; auto|intros; apply emits_ret].
Qed.

Lemma decide_request_quiet p ctx req : quiet (decide_request (W := W) p ctx req).
Proof.
  apply decide_request_emits; [apply unreported_span_free|]. intros ctx' op _. apply Inspect_quiet.
Qed.

Lemma decide_request_internal p ctx req (w : W) :
  d_internal (result_of (decide_request p ctx req) w) =
  (Check_headers (Plugin_token p) (Request_RequestHeaders req)).1.
Proof.
  unfold decide_request. destruct (Check_headers _ _) as [[|] valid]; [done|].
  destruct (CommonName req) as [cn|]; [|done]. destruct (cn == ""); [done|].
  destruct (Plugin_clients p !! cn); [|done]. unfold decide_client. cbv zeta.
  destruct (full_administrator _); [done|]. destruct (Resolve _ _); [|done]. by run.
Qed.

Definition decision_label (allowed : bool) : string := if allowed then "allow" else "deny".

(** C16. Every decision is reported once, whatever path it took: one duration sample, one
    count and one audit record, all in the request's span and all with the decision (and
    the record with the reason) that the daemon receives; an internal request is counted
    once more as such. *)
Theorem Authorize_reported p ctx req (w : W) :
  let response := result_of (Authorize p ctx req) w in
  let inner := inner_context ctx req in
  let decision := ("decision", VString (decision_label (Response_Allow response))) in
  ∃ name cn op,
    reported (trace_of (Authorize p ctx req) w) =
    [MetricRecord inner durations
       [decision; ("resource", VString (Operation_Resource op)); ("action", VString (Operation_Action op))];
     MetricAdd inner decisions
       [decision; ("resource", VString (Operation_Resource op)); ("action", VString (Operation_Action op));
        ("client", VString name)]] ++
    (if (Check_headers (Plugin_token p) (Request_RequestHeaders req)).1
     then [MetricAdd inner internals [decision]] else []) ++
    [LogInfo inner "authorization decision"
       [("client", VString name); ("identity", VString cn);
        ("resource", VString (Operation_Resource op)); ("resource_id", VString (Operation_ID op));
        ("action", VString (Operation_Action op)); decision; ("reason", VString (Response_Msg response))]].
Proof.
  cbv zeta. unfold Authorize. run. fold (inner_context ctx req).
  rewrite (reported_app [_] _ : reported (_ :: _) = _), !reported_app, (quiet_reported _ _ (decide_request_quiet _ _ _)),
    <- (decide_request_internal p (inner_context ctx req) req w).
  destruct (result_of (decide_request p (inner_context ctx req) req) w) as [name cn method op0 result int].
  set (op := if Operation_Resource op0 == ResourceUnknown
    then match Resolve (Request_RequestMethod req) (Request_RequestURI req) with
         | Ok resolved => resolved | Err _ => op0 end else op0).
  exists name, cn, op. unfold report, Observer_Decision, Observer_Error, Observer_Internal. cbv zeta.
  cbn [d_name d_cn d_method d_op d_result d_internal]. fold op. run. unfold decision_label.
  destruct (_ != ""), int; by run.
Qed.
End report.

(** ** The plugin of the example policy, with its deployer and its own inspections *)
Module Example.
Export Policy.Example.
Definition token : Token := mkToken "0123".
Definition plugin : Plugin :=
  mkPlugin "deny"
    {["deployer" := mkclient "deployer" (Client_Permissions Config.Example.deployer)]} token.
Definition deploy : Request :=
  mkRequest "" "TLS" "POST" "/v1.53/services/abc/update?version=42" "{new image}" ∅
    [Some (mkPeerCertificate "deployer")].
Definition inspection : Request :=
  mkRequest "" "" "GET" "/v1.53/services/abc" ""
    {["Traceparent" := "dockauthz.authorize"; InternalHeader := "0123"]} [].

Lemma Plugin_refines_policy_witness :
  New Config.Example.policy token = (Config.Example.loaded, Ok plugin) ∧
  ConfigAllows Config.Example.loaded token (policy_context background deploy) deploy 0.
Proof.
  assert (Hnew : New Config.Example.policy token = (Config.Example.loaded, Ok plugin))
    by (vm_compute; reflexivity).
  split; [exact Hnew|].
  assert (Hallow : Response_Allow (result_of (Authorize plugin background deploy) 0) = true)
    by (vm_compute; reflexivity).
  assert (Hstable : ∀ op, stable (W := nat) (policy_context background deploy) op)
    by (intros op w1 w2; reflexivity).
  exact (proj1 (Plugin_refines_policy _ _ _ _ background deploy 0 Hnew Hstable) Hallow).
Defined.

Lemma inject_frame (ctx : Ctx) headers key :
  EqualFold key InternalHeader = true → Inject ctx headers !! key = headers !! key.
Proof.
  intros Hkey. destruct ctx as [|span ctx]; [done|]. cbn [Inject otel].
  apply lookup_insert_ne. by intros <-.
Qed.

Lemma Authorize_own_inspection_witness :
  (∀ ctx headers key, EqualFold key InternalHeader = true → Inject ctx headers !! key = headers !! key) ∧
  Response_Allow (result_of (Authorize plugin background inspection) 0) = true ∧
  world_of (Authorize plugin background inspection) 0 = 0.
Proof.
  split; [exact inject_frame|].
  assert (Hop : Resolve "POST" "/v1.53/services/abc/update?version=42" = Ok example_update)
    by (vm_compute; reflexivity).
  assert (Hreq : inspect_request (DockerApi.New "/var/run/docker.sock" token) ["dockauthz.authorize"] example_update =
    Ok (mkHttpRequest "GET" "http://docker/v1.53/services/abc" (Request_RequestHeaders inspection)))
    by (vm_compute; reflexivity).
  exact (Authorize_own_inspection plugin (DockerApi.New "/var/run/docker.sock" token) ["dockauthz.authorize"] background
    inspection _ _ example_update _ 0 inject_frame Hop eq_refl Hreq eq_refl eq_refl eq_refl).
Defined.

Definition forged : Request :=
  mkRequest "" "" "POST" "/v1.53/services/abc/update?version=42" ""
    {["x-dockauthz-internal-token" := "0123"]} [].
Lemma Authorize_internal_witness :
  token_present forged ∧
  (Response_Allow (result_of (Authorize plugin background forged) 0) = true ↔
   InternalInspect token forged) ∧
  world_of (Authorize plugin background forged) 0 = 0.
Proof.
  assert (Hpresent : token_present forged).
  { exists "x-dockauthz-internal-token", "0123". split; reflexivity. }
  split; [exact Hpresent|]. exact (Authorize_internal plugin background forged 0 Hpresent).
Defined.

#[export] Instance daemon_quiet : QuietReader nat.
Proof. intros ctx op. apply emits_lift. Qed.
Lemma Authorize_reported_witness :
  QuietReader nat ∧ length (reported (trace_of (Authorize plugin background deploy) 0)) = 3.
Proof.
  split; [exact daemon_quiet|].
  destruct (Authorize_reported plugin background deploy 0) as (name & cn & op & ->).
  reflexivity.
Defined.
End Example.
