(* ===== verification/Privacy.v ===== *)
(** * What the metrics reveal

    internal/telemetry/observer.go promises bounded dimensions: no path, body or resource
    ID becomes a metric attribute.  Here over the whole path of a request, from
    [Authorize] to the inspections of the daemon by [Client_Inspect]. *)
From S2P Require Import Prelude GoString NetHttp Operation Observer Identity DockerApi Policy Authz.

(** The constants of the sources that metrics may carry. *)
Definition metric_words : list string :=
  ["allow"; "deny"; "success"; "error"; "unknown"; "unidentified"; "internal"; "resolver";
   "policy"; "docker_lookup"; "mutation";
   "service"; "secret"; "task"; "node"; "list"; "inspect"; "create"; "update"; "delete"].
Definition word (names : list string) (s : string) : Prop := s ∈ metric_words ∨ s ∈ names.
Definition Bounded `{!Otel} (names : list string) (e : event) : Prop :=
  match e with
  | MetricRecord _ _ attrs | MetricAdd _ _ attrs =>
      Forall (λ attr, ∃ s, attr.2 = VString s ∧ word names s) attrs
  | _ => True
  end.
(** The names that the policy gives its clients. *)
Definition client_names (p : Plugin) : list string := (λ c, client_name c.2) <$> map_to_list (Plugin_clients p).

Section bounded.
Context `{!Otel} (names : list string).

Lemma Bounded_span_free : span_free (Bounded names).
Proof. done. Qed.

Lemma Bounded_attrs ctx instrument (attrs : list (string * string)) :
  Forall (λ attr, word names attr.2) attrs →
  Bounded names (MetricRecord ctx instrument (prod_map id VString <$> attrs)) ∧
  Bounded names (MetricAdd ctx instrument (prod_map id VString <$> attrs)).
Proof.
  intros Hattrs. cbn. rewrite !Forall_fmap. split; (eapply Forall_impl; [exact Hattrs|]);
    intros [key s] Hs; by exists s.
Qed.
End bounded.

Lemma metric_word names s : s ∈ metric_words → word names s.
Proof. by left. Qed.

Lemma Resolve_words names method uri op :
  Resolve method uri = Ok op → word names (Operation_Resource op) ∧ word names (Operation_Action op).
Proof.
  intros (_ & _ & _ & rest & rawQuery & found & path & segments & _ & _ & _ & _ & _ & _ & Hroute)%Resolve_Ok.
  assert (Hcollection : ∀ c r, collection c r → word names r).
  { intros c r Hc. left. destruct Hc; set_solver. }
  destruct Hroute; (split; [try by eapply Hcollection|left; set_solver]). left; set_solver.
Qed.

(** Attributes whose values are words. *)
Ltac words := repeat first [apply List.Forall_nil | apply List.Forall_cons; [assumption|]].

Section privacy.
Context `{!MapRange, !DockerJson, !Otel} {W : Type} `{!RoundTripper W}.
Context (c : DockerApi.Client) (p : Plugin).
#[local] Instance reader : Reader W := client_reader c.
Abbreviation names := (client_names p).

Lemma Inspect_bounded ctx op : word names (Operation_Resource op) → emits (Bounded names) (Inspect (W := W) ctx op).
Proof.
  intros Hword. apply Client_Inspect_emits; [apply Bounded_span_free|..].
  - intros ctx'. apply (Bounded_attrs names ctx' lookup_durations [("resource", Operation_Resource op)]); words.
  - intros ctx' outcome Houtcome.
    apply (Bounded_attrs names ctx' lookups [("resource", Operation_Resource op); ("result", outcome)]).
    assert (Hout : word names outcome) by (left; set_solver). words.
Qed.

(** What the deferred report reads: the name of a client of the policy, and a category of
    errors. *)
Definition reportable (d : Decision) : Prop :=
  word names (d_name d) ∧ (Result_ErrorType (d_result d) = "" ∨ word names (Result_ErrorType (d_result d))) ∧
  word names (Operation_Resource (d_op d)) ∧ word names (Operation_Action (d_op d)).

Lemma error_type_word r : typed_error r → Result_ErrorType r = "" ∨ word names (Result_ErrorType r).
Proof.
  unfold typed_error, error_types. intros [->|Hin]%elem_of_cons; [by left|right; left]. set_solver.
Qed.

Lemma unknown_op_words : word names (Operation_Resource unknown_op) ∧ word names (Operation_Action unknown_op).
Proof. split; left; set_solver. Qed.

Lemma decide_request_reportable ctx req : returns (W := W) reportable (decide_request p ctx req).
Proof.
  unfold decide_request. destruct (Check_headers _ _) as [[|] valid].
  { apply returns_ret. unfold decide_internal, reportable. cbv zeta. cbn [d_name d_result d_op].
    split; [left; set_solver|]. split.
    - destruct (_ && _); [by left|right; left; set_solver].
    - destruct (Resolve _ _) as [op|] eqn:Hop; [by eapply Resolve_words|apply unknown_op_words]. }
  destruct (CommonName req) as [cn|e].
  2: { apply returns_ret. split; [left; set_solver|]. split; [right; left; set_solver|apply unknown_op_words]. }
  destruct (cn == "").
  { apply returns_ret. split; [left; set_solver|]. split; [by left|apply unknown_op_words]. }
  destruct (Plugin_clients p !! cn) as [cl|] eqn:Hcl.
  2: { apply returns_ret. split; [left; set_solver|]. split; [by left|apply unknown_op_words]. }
  assert (Hname : word names (client_name cl)).
  { right. unfold client_names. apply list_elem_of_fmap. exists (cn, cl). split; [done|].
    by apply elem_of_map_to_list. }
  unfold decide_client. cbv zeta. destruct (full_administrator _).
  { apply returns_ret. split; [done|]. split; [by left|apply unknown_op_words]. }
  destruct (Resolve _ _) as [op|] eqn:Hop.
  - eapply returns_bind; [apply Evaluate_typed|]. intros r Hr. apply returns_ret.
    split; [done|]. split; [by apply error_type_word|by eapply Resolve_words].
  - apply returns_ret. split; [done|]. split; [right; left; set_solver|apply unknown_op_words].
Qed.

Lemma report_bounded ctx req d : reportable d → emits (W := W) (Bounded names) (report ctx req d).
Proof.
  intros (Hname & Herror & Hresource & Haction). unfold report.
  set (op := if _ == _ then _ else _).
  assert (Hop : word names (Operation_Resource op) ∧ word names (Operation_Action op)).
  { unfold op. case_bool_decide; [|done].
    destruct (Resolve _ _) as [resolved|] eqn:Hr; [by eapply Resolve_words|done]. }
  destruct Hop as [Hresource' Haction']. set (decision := if Result_Allow _ then _ else _).
  assert (Hdecision : word names decision) by (unfold decision; left; destruct (Result_Allow _); set_solver).
  cbv zeta. apply emits_bind; [by apply emits_emit|intros _].
  apply emits_bind; [|intros _; apply emits_bind; [|intros _; apply emits_bind; [|intros _; by apply emits_emit]]].
  - apply emits_bind; [|intros _]; apply emits_emit.
    + apply (Bounded_attrs names ctx durations [("decision", decision);
        ("resource", Operation_Resource op); ("action", Operation_Action op)]); words.
    + apply (Bounded_attrs names ctx decisions [("decision", decision);
        ("resource", Operation_Resource op); ("action", Operation_Action op); ("client", d_name d)]); words.
  - case_bool_decide as Hnone; cbn [negb]; [apply emits_ret|]. destruct Herror as [?|Herror]; [done|].
    apply emits_emit.
    apply (Bounded_attrs names ctx errors [("type", Result_ErrorType (d_result d))]); words.
  - destruct (d_internal d); [|apply emits_ret]. apply emits_emit.
    apply (Bounded_attrs names ctx internals [("decision", decision)]); words.
Qed.

(** C18. Metrics are bounded: whatever the request and whatever the daemon answers, every
    attribute of every sample that an authorization records, its inspections included, is
    a constant of the program or the name of a client in the policy. *)
Theorem Authorize_metrics_bounded ctx req (w : W) :
  Forall (Bounded (client_names p)) (trace_of (Authorize p ctx req) w).
Proof.
  revert w. apply emits_span; [apply Bounded_span_free|]. intros inner.
  eapply emits_bind_returns; [|apply decide_request_reportable|].
  - apply decide_request_emits; [apply Bounded_span_free|]. intros ctx' op Hop.
    apply Inspect_bounded. by eapply Resolve_words.
  - intros d Hd. apply emits_bind; [by apply report_bounded|intros _; apply emits_ret].
Qed.
End privacy.
