(* ===== verification/Transport.v ===== *)
(** * Package transport: the HTTP adapter

    internal/transport/server.go, [Server.ServeHTTP]: the readiness probe, the bounded
    and strict decoding of Docker's envelope with its peer certificates, and the call of
    the plugin.  JSON, PEM and X.509 decoding are the class [Wire]. *)
From S2P Require Import Prelude GoString GoIO SpecJson Config Observer Identity DockerApi Policy Authz.

(** ** Data *)

(** The decoded envelope: the request without its certificates, and those as raw JSON. *)
Record Envelope := mkEnvelope { Envelope_Request : Request; Envelope_Peer : list string }.
Record Block := mkBlock { Block_Type : string; Block_Bytes : string }.

(** encoding/json with unknown fields refused ([Some (None, _)] for a null value),
    json.Unmarshal into bytes, pem.Decode and x509.ParseCertificate. *)
Class Wire := {
  decode_wire : string → option (ptr Envelope * string);
  unmarshal_bytes : string → option string;
  pem_decode : string → ptr Block * string;
  parse_certificate : string → option PeerCertificate
}.

(** http.Request; the server is the one in its context, if there is one. *)
Record HttpCall := mkHttpCall {
  call_Method : string;
  call_Path : string;
  call_Header : list (string * string);
  call_Body : io_reader;
  call_Server : option nat
}.
(** What is written: the status, and the response that the body encodes. *)
Record Reply := mkReply { reply_Status : Z; reply_Body : option Response }.

Definition maxEnvelopeSize : Z := Z.shiftl 16 20.
Definition maxPeers : nat := 16.
Definition AuthZApiRequest : string := "AuthZPlugin.AuthZReq".
Definition AuthZApiResponse : string := "AuthZPlugin.AuthZRes".

(** deny() *)
Definition deny_reply (status : Z) : Reply :=
  mkReply status (Some (mkResponse false "invalid authorization envelope")).

Section Transport.
Context `{!Wire}.

(** Decoding through http.MaxBytesReader.  A body that is longer than the limit or that
    fails never reaches the end of the input that the second Decode requires. *)
Definition decode_body (body : io_reader) : option Envelope :=
  if reader_fails body || (maxEnvelopeSize <? byte_length (reader_data body))%Z then None
  else match decode_wire (reader_data body) with
  | Some (Some wire, rest) =>
      if negb (json_eof rest) || (maxPeers <? length (Envelope_Peer wire))%nat then None else Some wire
  | _ => None
  end.

(** One certificate of the envelope. *)
Definition decode_peer (raw : string) : option PeerCertificate :=
  match unmarshal_bytes raw with
  | None => None
  | Some certPEM =>
      match pem_decode certPEM with
      | (Some block, rest) =>
          if (Block_Type block != "CERTIFICATE") || (rest != "") then None
          else parse_certificate (Block_Bytes block)
      | (None, _) => None
      end
  end.
Fixpoint decode_peers (certs : list (ptr PeerCertificate)) (peers : list string) :
    option (list (ptr PeerCertificate)) :=
  match peers with
  | [] => Some certs
  | raw :: peers' =>
      match decode_peer raw with
      | None => None
      | Some cert => decode_peers (certs ++ [Some cert]) peers'
      end
  end.
Definition set_certificates (certs : list (ptr PeerCertificate)) (req : Request) : Request :=
  mkRequest (Request_User req) (Request_UserAuthNMethod req) (Request_RequestMethod req)
    (Request_RequestURI req) (Request_RequestBody req) (Request_RequestHeaders req) certs.

Context `{!MapRange, !DockerJson, !Otel} {W : Type} `{!Reader W}.

(** The select with a default: the channel keeps the first server it is sent. *)
Definition signal_ready (ready server : option nat) : option nat :=
  match ready, server with None, Some s => Some s | _, _ => ready end.

(** (s *Server) ServeHTTP: the reply and the readiness channel afterwards. *)
Definition ServeHTTP (plugin : Plugin) (ctx : Ctx) (ready : option nat) (r : HttpCall) :
    M W (Reply * option nat) :=
  if (call_Path r == "/dockauthz.ready") && (call_Method r == "GET")
  then mret (mkReply 204 None, signal_ready ready (call_Server r))
  else if (call_Method r != "POST")
          || ((call_Path r != "/" +:+ AuthZApiRequest) && (call_Path r != "/" +:+ AuthZApiResponse))
  then mret (deny_reply 404, ready)
  else match decode_body (call_Body r) with
  | None => mret (deny_reply 200, ready)
  | Some wire =>
      let request := Envelope_Request wire in
      if (call_Path r == "/" +:+ AuthZApiRequest)
         && ((Request_RequestMethod request == "") || (Request_RequestURI request == ""))
      then mret (deny_reply 200, ready)
      else match decode_peers (Request_RequestPeerCertificates request) (Envelope_Peer wire) with
      | None => mret (deny_reply 200, ready)
      | Some certs =>
          let request := set_certificates certs request in
          let ctx := Extract ctx (call_Header r) in
          response ← (if call_Path r == "/" +:+ AuthZApiRequest
                      then Authorize plugin ctx request else AuthZRes plugin request);
          mret (mkReply 200 (Some response), ready)
      end
  end.

(** ** Specification *)

(** One peer of the envelope is a JSON encoding of exactly one PEM certificate. *)
Definition PeerOf (raw : string) (cert : PeerCertificate) : Prop :=
  ∃ certPEM block, unmarshal_bytes raw = Some certPEM ∧ pem_decode certPEM = (Some block, "") ∧
    Block_Type block = "CERTIFICATE" ∧ parse_certificate (Block_Bytes block) = Some cert.

(** A well-formed envelope, with its request as the plugin sees it. *)
Record ValidEnvelope (body : io_reader) (req : Request) : Prop := {
  envelope_complete : reader_fails body = false;
  envelope_bounded : (byte_length (reader_data body) <= maxEnvelopeSize)%Z;
  envelope_decoded : ∃ wire rest certs,
    decode_wire (reader_data body) = Some (Some wire, rest) ∧ json_eof rest = true ∧
    length (Envelope_Peer wire) ≤ maxPeers ∧
    Forall2 PeerOf (Envelope_Peer wire) certs ∧
    req = set_certificates
      (Request_RequestPeerCertificates (Envelope_Request wire) ++ (Some <$> certs)) (Envelope_Request wire)
}.

Definition reply_allows (reply : Reply) : bool :=
  match reply_Body reply with Some response => Response_Allow response | None => false end.

(** ** Lemmas *)
Lemma decode_peer_Some raw cert : decode_peer raw = Some cert ↔ PeerOf raw cert.
Proof.
  unfold decode_peer, PeerOf. destruct (unmarshal_bytes raw) as [pem|];
    [|split; [done|by intros (? & ? & [=] & _)]].
  destruct (pem_decode pem) as [[block|] rest] eqn:Hpem;
    [|split; [done|intros (? & ? & [= <-] & Hb & _); congruence]].
  destruct (_ || _) eqn:Hguard.
  - split; [done|]. intros (? & b & [= <-] & Hb & Htype & _). rewrite Hpem in Hb.
    injection Hb as -> ->. by rewrite Htype in Hguard.
  - apply orb_false_iff in Hguard as [Ht%negb_false_iff Hr%negb_false_iff].
    apply bool_decide_eq_true in Ht, Hr. split.
    + intros Hcert. exists pem, block. rewrite Hr in Hpem. by split_and!.
    + intros (? & b & [= <-] & Hb & _ & Hcert). congruence.
Qed.

Lemma decode_peers_Some certs0 peers certs :
  decode_peers certs0 peers = Some certs ↔
  ∃ parsed, Forall2 PeerOf peers parsed ∧
    certs = certs0 ++ (Some <$> parsed).
Proof.
  revert certs0. induction peers as [|raw peers IH]; intros certs0; cbn [decode_peers].
  - split.
    + intros [= <-]. exists []. by rewrite app_nil_r.
    + intros (parsed & ->%Forall2_nil_inv_l & ->). by rewrite app_nil_r.
  - destruct (decode_peer raw) as [cert|] eqn:Hraw.
    + rewrite IH. split.
      * intros (parsed & Hall & ->). exists (cert :: parsed).
        split; [by constructor; [apply decode_peer_Some|]|].
        by rewrite <- app_assoc.
      * intros (parsed & (c & parsed' & Hc & Hall & ->)%Forall2_cons_inv_l & ->).
        apply decode_peer_Some in Hc. exists parsed'. split; [done|].
        assert (c = cert) as -> by congruence. by rewrite <- app_assoc.
    + split; [done|]. intros (parsed & (c & parsed' & Hc%decode_peer_Some & _)%Forall2_cons_inv_l & _). congruence.
Qed.

Lemma decode_body_Some body wire :
  decode_body body = Some wire ↔
  reader_fails body = false ∧ (byte_length (reader_data body) <= maxEnvelopeSize)%Z ∧
  ∃ rest, decode_wire (reader_data body) = Some (Some wire, rest) ∧ json_eof rest = true ∧
    length (Envelope_Peer wire) ≤ maxPeers.
Proof.
  unfold decode_body. destruct (reader_fails body); cbn [orb]; [naive_solver|].
  destruct (Z.ltb_spec maxEnvelopeSize (byte_length (reader_data body))) as [Hlt|Hle].
  { split; [done|]. intros (_ & ? & _). lia. }
  destruct (decode_wire _) as [[[w|] rest]|]; [|naive_solver..].
  destruct (json_eof rest) eqn:Heof; cbn [negb orb].
  - destruct (Nat.ltb_spec maxPeers (length (Envelope_Peer w))) as [Hl|Hl].
    + split; [done|]. intros (_ & _ & ? & [= -> ->] & _ & ?). lia.
    + naive_solver.
  - split; [done|]. intros (_ & _ & ? & [= -> ->] & ? & _). congruence.
Qed.

Lemma ValidEnvelope_decode body req :
  ValidEnvelope body req ↔ ∃ wire certs, decode_body body = Some wire ∧
    decode_peers (Request_RequestPeerCertificates (Envelope_Request wire)) (Envelope_Peer wire) = Some certs ∧
    req = set_certificates certs (Envelope_Request wire).
Proof.
  setoid_rewrite decode_body_Some. setoid_rewrite decode_peers_Some. split.
  - intros [Hfails Hlen (wire & rest & certs & Hdec & Heof & Hpeers & Hall & ->)].
    exists wire. eexists. split_and!; eauto.
  - intros (wire & certs & (Hfails & Hlen & rest & Hdec & Heof & Hpeers) & (parsed & Hall & ->) & ->).
    split; [done..|]. by exists wire, rest, parsed.
Qed.

Definition is_probe (r : HttpCall) : Prop := call_Path r = "/dockauthz.ready" ∧ call_Method r = "GET".
Definition is_request (r : HttpCall) : Prop := call_Method r = "POST" ∧ call_Path r = "/" +:+ AuthZApiRequest.
Definition is_response (r : HttpCall) : Prop := call_Method r = "POST" ∧ call_Path r = "/" +:+ AuthZApiResponse.
(** The request that an authorization call delivers to the plugin. *)
Definition delivers (r : HttpCall) (req : Request) : Prop :=
  is_request r ∧ ValidEnvelope (call_Body r) req ∧
  Request_RequestMethod req ≠ "" ∧ Request_RequestURI req ≠ "".

(** The three kinds of calls that are answered with more than a denial. *)
Lemma ServeHTTP_cases plugin ctx ready r :
  (is_probe r ∧ ServeHTTP plugin ctx ready r = mret (mkReply 204 None, signal_ready ready (call_Server r))) ∨
  (∃ req, delivers r req ∧ ServeHTTP plugin ctx ready r =
     (response ← Authorize plugin (Extract ctx (call_Header r)) req; mret (mkReply 200 (Some response), ready))) ∨
  (∃ req, is_response r ∧ ValidEnvelope (call_Body r) req ∧ ServeHTTP plugin ctx ready r =
     (response ← AuthZRes plugin req; mret (mkReply 200 (Some response), ready))) ∨
  (¬ is_probe r ∧ (∀ req, ¬ delivers r req) ∧ (∀ req, ¬ (is_response r ∧ ValidEnvelope (call_Body r) req)) ∧
   ∃ status, ServeHTTP plugin ctx ready r = mret (deny_reply status, ready)).
Proof.
  destruct r as [method path header body server]. unfold ServeHTTP, delivers, is_probe, is_request, is_response.
  cbn [call_Method call_Path call_Header call_Body call_Server].
  setoid_rewrite ValidEnvelope_decode.
  destruct (decide (path = "/dockauthz.ready" ∧ method = "GET")) as [[-> ->]|Hprobe]; [by left|right].
  rewrite (proj2 (andb_false_iff _ _)) by (rewrite !bool_decide_eq_false; by apply not_and_l).
  destruct (decide (method = "POST" ∧ (path = "/" +:+ AuthZApiRequest ∨ path = "/" +:+ AuthZApiResponse)))
    as [[-> Hpath]|Hroute].
  - rewrite (bool_decide_eq_true_2 ("POST" = "POST")) by done. cbn [negb orb].
    rewrite (proj2 (andb_false_iff (path != "/" +:+ AuthZApiRequest) _))
      by (rewrite !negb_false_iff, !bool_decide_eq_true; done).
    destruct (decode_body body) as [wire|]; [|right; right; naive_solver].
    case_bool_decide as Hreq; cbn [andb].
    + destruct ((_ == "") || _) eqn:Hempty.
      * right; right. split; [done|]. rewrite orb_true_iff, !bool_decide_eq_true in Hempty.
        split; [|split; [|eauto]].
        -- intros req (_ & (w & certs & [= <-] & _ & ->) & Hm & Hu). by destruct Hempty.
        -- intros req [[_ Hp] _]. rewrite Hreq in Hp. by vm_compute in Hp.
      * rewrite orb_false_iff, !bool_decide_eq_false in Hempty.
        destruct (decode_peers _ _) as [certs|] eqn:Hcerts.
        -- left. eexists. split; [|reflexivity]. split; [done|]. split; [|done]. by exists wire, certs.
        -- right; right. split; [done|]. split; [|split; [|eauto]]; naive_solver.
    + destruct Hpath as [?|Hpath]; [done|].
      destruct (decode_peers _ _) as [certs|] eqn:Hcerts.
      * right; left. eexists. split; [done|]. split; [by exists wire, certs|reflexivity].
      * right; right. split; [done|]. split; [|split; [|eauto]]; naive_solver.
  - rewrite (proj2 (orb_true_iff _ _)); [right; right; naive_solver|].
    rewrite andb_true_iff, !negb_true_iff, !bool_decide_eq_false.
    destruct (decide (method = "POST")); [right|by left]. split; intros ?; apply Hroute; auto.
Qed.

Lemma not_response_of_request r : is_request r → ¬ is_response r.
Proof. intros [_ Hp] [_ Hp']. rewrite Hp in Hp'. by vm_compute in Hp'. Qed.
Lemma not_probe r : is_probe r → ¬ is_request r ∧ ¬ is_response r.
Proof. intros [_ Hg]. split; intros [Hp _]; rewrite Hg in Hp; by vm_compute in Hp. Qed.
Lemma delivers_inj r req req' : delivers r req → delivers r req' → req = req'.
Proof.
  intros (_ & (w & c & Hw & Hc & ->)%ValidEnvelope_decode & _)
    (_ & (w' & c' & Hw' & Hc' & ->)%ValidEnvelope_decode & _). congruence.
Qed.

Lemma ServeHTTP_allows plugin ctx ready r w :
  reply_allows (result_of (ServeHTTP plugin ctx ready r) w).1 = true ↔
  (∃ req, is_response r ∧ ValidEnvelope (call_Body r) req) ∨
  (∃ req, delivers r req ∧
     Response_Allow (result_of (Authorize plugin (Extract ctx (call_Header r)) req) w) = true).
Proof.
  destruct (ServeHTTP_cases plugin ctx ready r)
    as [[Hprobe ->]|[(req & Hreq & ->)|[(req & Hres & Hvalid & ->)|(_ & Hreq & Hres & status & ->)]]].
  - run. split; [done|]. apply not_probe in Hprobe as [? ?].
    intros [(? & ? & _)|(? & [? _] & _)]; done.
  - run. unfold reply_allows; cbn [reply_Body fst]. split.
    + intros Hallow. right. by exists req.
    + intros [(? & Hres & _)|(req' & Hreq' & Hallow)].
      * destruct Hreq as [Hreq _]. by apply not_response_of_request in Hreq.
      * by rewrite (delivers_inj r req req').
  - run. unfold AuthZRes. run. split; [|done]. intros _. left. by exists req.
  - run. split; [done|]. intros [(? & ? & ?)|(? & ? & _)]; naive_solver.
Qed.

(** C14. Fail closed: the adapter answers allow exactly to a POST of a well-formed
    envelope, either to the response callback or to the request callback for a request
    with a method and a URI that the plugin authorizes. *)
Theorem ServeHTTP_spec plugin ctx ready r w :
  reply_allows (result_of (ServeHTTP plugin ctx ready r) w).1 = true ↔
  (∃ req, is_response r ∧ ValidEnvelope (call_Body r) req) ∨
  (∃ req, delivers r req ∧
     Response_Allow (result_of (Authorize plugin (Extract ctx (call_Header r)) req) w) = true).
Proof. apply ServeHTTP_allows. Qed.

(** C30. Only a delivered request reaches the plugin: every other call, however malformed,
    leaves Docker alone and reports nothing, and only the readiness probe signals. *)
Theorem ServeHTTP_inert plugin ctx ready r w :
  (∀ req, ¬ delivers r req) →
  world_of (ServeHTTP plugin ctx ready r) w = w ∧ trace_of (ServeHTTP plugin ctx ready r) w = [] ∧
  ((result_of (ServeHTTP plugin ctx ready r) w).2 = ready ∨ is_probe r).
Proof.
  intros Hnone. destruct (ServeHTTP_cases plugin ctx ready r)
    as [[Hprobe ->]|[(req & Hreq & _)|[(req & _ & _ & ->)|(_ & _ & _ & status & ->)]]].
  - run. auto.
  - by apply Hnone in Hreq.
  - run. unfold AuthZRes. run. auto.
  - run. auto.
Qed.
End Transport.

(** ** Example calls *)
Module Example.
Export Authz.Example.
(** Decoders that know one envelope, with the deployer's certificate. *)
#[export] Instance wire : Wire := {|
  decode_wire data :=
    if data == "{deploy}"
    then Some (Some (mkEnvelope (set_certificates [] Authz.Example.deploy) ["cert"]), "") else None;
  unmarshal_bytes raw := Some raw;
  pem_decode data := (Some (mkBlock "CERTIFICATE" data), "");
  parse_certificate data := Some (mkPeerCertificate "deployer")
|}.
Definition call (method path body : string) : HttpCall :=
  mkHttpCall method path [] (mkReader body false) (Some 7).

Example deploy_allowed :
  (result_of (ServeHTTP plugin background None (call "POST" "/AuthZPlugin.AuthZReq" "{deploy}")) 0).1 =
  mkReply 200 (Some (mkResponse true "permission constraints satisfied")).
Proof. vm_compute. reflexivity. Qed.

Lemma ServeHTTP_inert_witness :
  let r := call "GET" "/AuthZPlugin.AuthZReq" "{deploy}" in
  (∀ req, ¬ delivers r req) ∧ world_of (ServeHTTP plugin background None r) 0 = 0.
Proof.
  intros r.
  assert (Hnone : ∀ req, ¬ delivers r req) by (intros req [[Hmethod _] _]; discriminate Hmethod).
  split; [exact Hnone|]. exact (proj1 (ServeHTTP_inert plugin background None r 0 Hnone)).
Defined.
End Example.
