(* ===== verification/ServeUnix.v ===== *)
(** * Package transport: start-up and shutdown

    internal/transport/server.go, [Server.ServeUnix], as step relations: the goroutine that
    runs the helper, the loop that waits for its server to answer the readiness probe, and
    the drain on cancellation.  A select is a choice of any step that is enabled.  The
    steps are those of the program, those of its timers, and those of the environment: the
    helper's listening, failing and returning, requests, probes and the cancellation of the
    context.  Building the readiness request cannot fail, its URL being a constant; a probe
    that fails changes nothing. *)
From stdpp Require Import relations.
From Stdlib Require Import Wellfounded Relation_Operators.
From S2P Require Import Prelude Transport.

(** ** Data *)

(** What the helper's ServeUnix can return. *)
Inductive serve_error := ErrServerClosed | ServeFailed (e : error).
#[export] Instance serve_error_eq_dec : EqDecision serve_error.
Proof. solve_decision. Defined.
(** The helper's goroutine: its server exists once the socket does.  A server whose listener
    was closed by Shutdown or Close is about to return. *)
Inductive helper :=
| NotListening
| Listening (server : nat)
| Closing (server : nat)
| Returned (server : option nat) (err : option serve_error).
(** Where ServeUnix itself stands; [Exit] carries its result. *)
Inductive phase :=
| Waiting
| Serving (server : nat)
| Stopping (server : nat)                   (* inside server.Shutdown *)
| Draining                                  (* at <-done *)
| Exit (result : option serve_error).
(** What ServeUnix does, for the record: a result taken from done, and its calls. *)
Inductive event :=
| Received (err : option serve_error)
| Shutdown (server : nat)
| ShutdownReturned (ok : bool)
| Close (server : nat).

Record State := mkState {
  st_phase : phase;
  st_helper : helper;
  st_done : option (option serve_error);   (* the channel done, of capacity 1 *)
  st_ready : option nat;                    (* the channel s.ready, of capacity 1 *)
  st_cancelled : bool;                      (* ctx.Done() *)
  st_open : nat;                            (* requests that the helper's server has open *)
  st_events : list event
}.
Definition initial (cancelled : bool) : State := mkState Waiting NotListening None None cancelled 0 [].

Definition server_of (h : helper) : option nat :=
  match h with NotListening => None | Listening s | Closing s => Some s | Returned s _ => s end.

(** Shutdown or Close of [server]: when that is the helper's, its listener is closed at once. *)
Definition close_listener (server : nat) (h : helper) : helper :=
  match h with Listening s => if s == server then Closing s else h | _ => h end.

(** errors.Is(err, http.ErrServerClosed) after the drain. *)
Definition drained (err : option serve_error) : option serve_error :=
  match err with Some ErrServerClosed => None | _ => err end.

(** ** Steps *)
Inductive environment : State → State → Prop :=
| env_listen s done ready c n tr ph :
    environment (mkState ph NotListening done ready c n tr) (mkState ph (Listening s) done ready c n tr)
| env_return h err ready c n tr ph :
    (h = NotListening ∨ ∃ s, h = Listening s) → err ≠ Some ErrServerClosed →
    environment (mkState ph h None ready c n tr)
                (mkState ph (Returned (server_of h) err) (Some err) ready c n tr)
| env_cancel h done ready c n tr ph :
    environment (mkState ph h done ready c n tr) (mkState ph h done ready true n tr)
| env_request s done ready c n tr ph :
    environment (mkState ph (Listening s) done ready c n tr) (mkState ph (Listening s) done ready c (S n) tr)
| env_finish h done ready c n tr ph :
    environment (mkState ph h done ready c (S n) tr) (mkState ph h done ready c n tr)
(* a readiness probe, of the tick or of anyone else, answered by ServeHTTP *)
| env_probe s done ready c n tr ph :
    environment (mkState ph (Listening s) done ready c n tr)
                (mkState ph (Listening s) done (signal_ready ready (Some s)) c n tr).

Inductive program : State → State → Prop :=
(* the select of the loop *)
| wait_done h err ready c n tr :
    program (mkState Waiting h (Some err) ready c n tr)
            (mkState (Exit err) h None ready c n (tr ++ [Received err]))
| wait_cancelled h done ready n tr :
    program (mkState Waiting h done ready true n tr) (mkState (Exit None) h done ready true n tr)
| wait_ready h done s c n tr :
    program (mkState Waiting h done (Some s) c n tr) (mkState (Serving s) h done None c n tr)
(* the final select *)
| serve_done s h err ready c n tr :
    program (mkState (Serving s) h (Some err) ready c n tr)
            (mkState (Exit err) h None ready c n (tr ++ [Received err]))
| serve_cancelled s h done ready n tr :
    program (mkState (Serving s) h done ready true n tr)
            (mkState (Stopping s) (close_listener s h) done ready true n (tr ++ [Shutdown s]))
(* Shutdown returns once no request is open, and the helper's result is awaited *)
| stop_drained s h done ready c tr :
    program (mkState (Stopping s) h done ready c 0 tr)
            (mkState Draining h done ready c 0 (tr ++ [ShutdownReturned true]))
| drain_done h err ready c n tr :
    program (mkState Draining h (Some err) ready c n tr)
            (mkState (Exit (drained err)) h None ready c n (tr ++ [Received err]))
(* the goroutine of the helper, whose Serve returns once its listener is closed *)
| helper_closed s done ready c n tr ph :
    program (mkState ph (Closing s) done ready c n tr)
            (mkState ph (Returned (Some s) (Some ErrServerClosed)) (Some (Some ErrServerClosed)) ready c n tr).

(** A timer may fire at any time; Shutdown fails when its context is done, or when closing
    the listener does, and the requests that are open are then cut off. *)
Inductive timer : State → State → Prop :=
| wait_expired h done ready c n tr :
    timer (mkState Waiting h done ready c n tr)
          (mkState (Exit (Some (ServeFailed "plugin socket startup timed out"))) h done ready c n tr)
| stop_expired s h done ready c n tr :
    timer (mkState (Stopping s) h done ready c n tr)
          (mkState (Exit (Some (ServeFailed "plugin shutdown timed out")))
             (close_listener s h) done ready c 0 (tr ++ [ShutdownReturned false; Close s])).

Definition step (st st' : State) : Prop := environment st st' ∨ program st st' ∨ timer st st'.
Definition reachable (st : State) : Prop := ∃ cancelled, rtc step (initial cancelled) st.
Definition exited (st : State) : Prop := ∃ result, st_phase st = Exit result.

(** ** Specification *)

(** [eventually other fair P st]: every run from [st] comes to [P] that is fair to the steps
    of [fair], that is, that takes one of them after finitely many steps of [other] as long
    as one is enabled.  Until then one always is, whatever the other steps do.  (A select
    that prefers the tick to the cancellation for ever is not fair.) *)
Inductive eventually (other fair : relation State) (P : State → Prop) (st : State) : Prop :=
  eventually_intro :
    (∀ st', rtc other st st' →
       P st' ∨ (∃ next, fair st' next) ∧ ∀ next, fair st' next → eventually other fair P next) →
    eventually other fair P st.

(** The environment while the helper does not return by itself. *)
Definition steady (st st' : State) : Prop := environment st st' ∧ st_done st' = st_done st.
(** The helper's server is [s], and it does not listen any more. *)
Definition stopped (s : nat) (h : helper) : Prop := h = Closing s ∨ ∃ err, h = Returned (Some s) err.
(** A request is answered once no more come in. *)
Definition answered (st st' : State) : Prop :=
  ∃ s n, stopped s (st_helper st) ∧ st_open st = S n ∧
    st' = mkState (st_phase st) (st_helper st) (st_done st) (st_ready st) (st_cancelled st) n (st_events st).

(** How ServeUnix ends, by what it did and whether it was cancelled. *)
Inductive Outcome : list event → bool → option serve_error → Prop :=
| outcome_cancelled : Outcome [] true None
| outcome_startup c : Outcome [] c (Some (ServeFailed "plugin socket startup timed out"))
| outcome_helper err c : Outcome [Received err] c err
| outcome_timeout s :
    Outcome [Shutdown s; ShutdownReturned false; Close s] true
      (Some (ServeFailed "plugin shutdown timed out"))
| outcome_drained s :
    Outcome [Shutdown s; ShutdownReturned true; Received (Some ErrServerClosed)] true None
| outcome_failed s err :
    err ≠ Some ErrServerClosed → Outcome [Shutdown s; ShutdownReturned true; Received err] true err.

(** ** Invariant *)

(** The result of the helper is in the channel until ServeUnix takes it. *)
Definition pending (h : helper) : option (option serve_error) :=
  match h with Returned _ err => Some err | _ => None end.
(** The states by phase, with what ServeUnix has done to get there. *)
Inductive Inv : State → Prop :=
| at_waiting h ready c n :
    (∀ s, ready = Some s → server_of h = Some s) → Inv (mkState Waiting h (pending h) ready c n [])
| at_serving s h ready c n :
    server_of h = Some s → Inv (mkState (Serving s) h (pending h) ready c n [])
| at_stopping s h ready n :
    stopped s h → Inv (mkState (Stopping s) h (pending h) ready true n [Shutdown s])
| at_draining s h ready :
    stopped s h → Inv (mkState Draining h (pending h) ready true 0 [Shutdown s; ShutdownReturned true])
| at_cancelled h ready n : Inv (mkState (Exit None) h (pending h) ready true n [])
| at_startup h ready c n :
    Inv (mkState (Exit (Some (ServeFailed "plugin socket startup timed out"))) h (pending h) ready c n [])
| at_helper s err ready c n : Inv (mkState (Exit err) (Returned s err) None ready c n [Received err])
| at_timeout s h ready :
    stopped s h →
    Inv (mkState (Exit (Some (ServeFailed "plugin shutdown timed out"))) h (pending h) ready true 0
           [Shutdown s; ShutdownReturned false; Close s])
| at_drained s err ready :
    Inv (mkState (Exit (drained err)) (Returned (Some s) err) None ready true 0
           [Shutdown s; ShutdownReturned true; Received err]).

Lemma Inv_initial cancelled : Inv (initial cancelled).
Proof. by constructor. Qed.

Lemma stopped_close s h : server_of h = Some s → stopped s (close_listener s h).
Proof.
  unfold stopped. destruct h as [|s'|s'|s' err]; cbn; [done|..]; intros [= ->]; [|by left|right; by exists err].
  rewrite bool_decide_eq_true_2 by done. by left.
Qed.
Lemma pending_close s h : pending (close_listener s h) = pending h.
Proof. destruct h; cbn; [done| |done..]. by case_bool_decide. Qed.
Lemma stopped_closed s h : stopped s h → close_listener s h = h.
Proof. by intros [->|[err ->]]. Qed.
Lemma stopped_Returned s s' : stopped s (Closing s') → stopped s (Returned (Some s') (Some ErrServerClosed)).
Proof. intros [[= ->]|[err [=]]]. right. by eexists. Qed.

Lemma stopped_Closing s : stopped s (Closing s).
Proof. by left. Qed.
Lemma stopped_result s err : stopped s (Returned (Some s) err).
Proof. right. by exists err. Qed.
Lemma own_probe (s : nat) ready :
  (∀ s', ready = Some s' → Some s = Some s') → ∀ s', signal_ready ready (Some s) = Some s' → Some s = Some s'.
Proof. intros Hready s'. destruct ready; [apply Hready|by intros [= <-]]. Qed.
Lemma own_probe_eq (s : nat) ready :
  (∀ s', ready = Some s' → s = s') → ∀ s', signal_ready ready (Some s) = Some s' → s = s'.
Proof. intros Hready s'. destruct ready; [apply Hready|by intros [= <-]]. Qed.
Lemma own_listen (ready : option nat) (s : nat) :
  (∀ s', ready = Some s' → None = Some s') → ∀ s', ready = Some s' → Some s = Some s'.
Proof. by intros Hready s' ?%Hready. Qed.
Create HintDb shutdown.
#[export] Hint Resolve stopped_Closing stopped_result stopped_close own_probe own_listen : shutdown.

(** After a step from a state of the invariant: which state it is. *)
Ltac find_state :=
  first [apply at_waiting|apply at_serving|apply at_stopping|apply at_draining|apply at_cancelled
        |apply at_startup|apply at_helper|apply at_timeout|apply at_drained].
Ltac by_states :=
  repeat match goal with
  | H : _ ∨ _ |- _ => destruct H
  | H : ∃ _, _ |- _ => destruct H
  | H : stopped _ _ |- _ => destruct H as [?|[? ?]]
  end; simplify_eq/=; try (find_state; eauto with shutdown; done).

Lemma Inv_environment st st' : Inv st → environment st st' → Inv st'.
Proof. intros Hinv Hstep. destruct Hinv; inversion Hstep; subst; by_states. Qed.

Lemma Inv_timer st st' : Inv st → timer st st' → Inv st'.
Proof. intros Hinv Hstep. destruct Hinv; inversion Hstep; subst; by_states. Qed.

Lemma Inv_program st st' : Inv st → program st st' → Inv st'.
Proof.
  intros Hinv Hstep. destruct Hinv; inversion Hstep; subst; by_states.
  - destruct h; simplify_eq/=. by apply at_helper.
  - destruct h; simplify_eq/=. by apply at_helper.
  - rewrite <- (pending_close s h). apply at_stopping. by apply stopped_close.
Qed.

Lemma Inv_step st st' : Inv st → step st st' → Inv st'.
Proof. intros Hinv [?|[?|?]]; eauto using Inv_environment, Inv_program, Inv_timer. Qed.

Lemma reachable_Inv st : reachable st → Inv st.
Proof.
  intros (cancelled & Hsteps). pose proof (Inv_initial cancelled) as Hinv. revert Hinv.
  induction Hsteps as [|x y z Hstep _ IH]; [done|]. intros Hinv. by eapply IH, Inv_step.
Qed.

Lemma drained_outcome s err :
  Outcome [Shutdown s; ShutdownReturned true; Received err] true (drained err).
Proof.
  destruct (decide (err = Some ErrServerClosed)) as [->|Hne]; [constructor|].
  replace (drained err) with err; [by constructor|]. by destruct err as [[]|].
Qed.

(** ** Properties *)


(** *** Liveness *)
Section eventually.
Context (other fair : relation State) (I P : State → Prop) {A : Type} (R : relation A) (m : State → A).
Context (R_wf : well_founded R).
Context (Hother : ∀ st st', I st → other st st' → I st' ∧ (m st' = m st ∨ R (m st') (m st))).
Context (Hfair : ∀ st st', I st → fair st st' → I st' ∧ R (m st') (m st)).
Context (Henabled : ∀ st, I st → P st ∨ ∃ next, fair st next).

(** A measure that the other steps do not raise and the fair ones lower. *)
Lemma eventually_measure st : I st → eventually other fair P st.
Proof.
  remember (m st) as a eqn:Ha. revert st Ha.
  induction (R_wf a) as [a _ IH]; intros st -> Hst. constructor. intros st' Hsteps.
  assert (Hlower : (I st' ∧ m st' = m st) ∨ ∃ y, I y ∧ R (m y) (m st) ∧ rtc other y st').
  { clear IH. induction Hsteps as [|x y z Hstep Hsteps IHsteps]; [by left|].
    destruct (Hother _ _ Hst Hstep) as [Hy [Heq|Hlt]]; [rewrite <- Heq; by apply IHsteps|].
    right. by exists y. }
  destruct Hlower as [[Hst' Heq]|(y & Hy & Hlt & Hrest)].
  - destruct (Henabled _ Hst') as [?|Hnext]; [by left|right].
    split; [done|]. intros next Hstep. destruct (Hfair _ _ Hst' Hstep) as [Hi Hlt].
    eapply IH; [|done|done]. by rewrite <- Heq.
  - destruct (IH _ Hlt y eq_refl Hy) as [Heventually]. by apply Heventually.
Qed.
End eventually.

(** How far it is to the exit, and what has to happen on the way. *)
Definition rank (ph : phase) : nat :=
  match ph with Waiting => 4 | Serving _ => 3 | Stopping _ => 2 | Draining => 1 | Exit _ => 0 end.
Definition closing (h : helper) : nat := match h with Closing _ => 1 | _ => 0 end.
Definition distance (st : State) : nat := 2 * rank (st_phase st) + closing (st_helper st).

Lemma closing_close s h : closing (close_listener s h) ≤ 1.
Proof. destruct h; cbn; try lia. case_bool_decide; cbn; lia. Qed.

Lemma environment_distance st st' : environment st st' → distance st' = distance st.
Proof. destruct 1; unfold distance; cbn; try done. by destruct H as [->|[? ->]]. Qed.
Lemma program_distance st st' : program st st' → distance st' < distance st.
Proof.
  destruct 1; unfold distance; cbn; try lia. pose proof (closing_close s h). lia.
Qed.
Lemma timer_distance st st' : timer st st' → distance st' < distance st.
Proof. destruct 1; unfold distance; cbn; try lia. pose proof (closing_close s h). lia. Qed.

Lemma stays_cancelled st st' : step st st' → st_cancelled st = true → st_cancelled st' = true.
Proof. intros [[]|[[]|[]]]; done. Qed.

(** A cancelled ServeUnix is never stuck. *)
Lemma cancelled_enabled st :
  Inv st → st_cancelled st = true → exited st ∨ ∃ next, program st next ∨ timer st next.
Proof.
  unfold exited. intros Hinv Hc. destruct Hinv; cbn in *; subst; try (left; by eexists); right.
  - eexists. left. apply wait_cancelled.
  - eexists. left. apply serve_cancelled.
  - eexists. right. apply stop_expired.
  - match goal with H : stopped _ _ |- _ => destruct H as [->|[err ->]] end.
    + eexists. left. apply helper_closed.
    + eexists. left. apply drain_done.
Qed.

(** The states on the way to a clean exit. *)
Inductive Clean : State → Prop :=
| clean_waiting s ready n : (∀ s', ready = Some s' → s = s') → Clean (mkState Waiting (Listening s) None ready true n [])
| clean_serving s ready n : Clean (mkState (Serving s) (Listening s) None ready true n [])
| clean_stopping s h ready n :
    h = Closing s ∨ h = Returned (Some s) (Some ErrServerClosed) →
    Clean (mkState (Stopping s) h (pending h) ready true n [Shutdown s])
| clean_draining s h ready :
    h = Closing s ∨ h = Returned (Some s) (Some ErrServerClosed) →
    Clean (mkState Draining h (pending h) ready true 0 [Shutdown s; ShutdownReturned true])
| clean_exit h done ready n tr : Clean (mkState (Exit None) h done ready true n tr).

(** The distance, and then the open requests once no more come in. *)
Definition waiting_for (h : helper) (n : nat) : nat := match h with Closing _ | Returned _ _ => n | _ => 0 end.
Definition remaining (st : State) : nat * nat := (distance st, waiting_for (st_helper st) (st_open st)).
Definition before : relation (nat * nat) := slexprod nat nat lt lt.

Ltac find_clean :=
  first [apply clean_waiting|apply clean_serving|apply clean_stopping|apply clean_draining|apply clean_exit].

Lemma Clean_steady st st' :
  Clean st → steady st st' → Clean st' ∧ (remaining st' = remaining st ∨ before (remaining st') (remaining st)).
Proof.
  intros Hclean [Hstep Hdone]. unfold remaining. rewrite (environment_distance _ _ Hstep).
  destruct Hclean; inversion Hstep; subst; by_states; (split; [find_clean; eauto|try (by left)]).
  - by apply own_probe_eq.
  - right. apply right_slex; cbn; lia.
  - right. apply right_slex; cbn; lia.
  - destruct h; [by left|by left|right; apply right_slex; cbn; lia..].
Qed.

Lemma Clean_fair st st' :
  Clean st → program st st' ∨ answered st st' → Clean st' ∧ before (remaining st') (remaining st).
Proof.
  intros Hclean [Hstep|(s & n & Hstopped & Hopen & ->)]; unfold remaining.
  - pose proof (program_distance _ _ Hstep) as Hlt. split; [|by apply left_slex].
    destruct Hclean; inversion Hstep; subst; by_states; try (find_clean; eauto).
    + match goal with H : ∀ s', _ → s = s' |- _ => rewrite (H _ eq_refl) end. apply clean_serving.
    + rewrite bool_decide_eq_true_2 by done. apply (clean_stopping s (Closing s)). by left.
  - split.
    + destruct Hclean; cbn in *; simplify_eq; by_states; find_clean; eauto.
    + apply right_slex. rewrite Hopen. cbn. destruct Hstopped as [->|[err ->]]; cbn; lia.
Qed.

Lemma Clean_enabled st :
  Clean st → st_phase st = Exit None ∨ ∃ next, program st next ∨ answered st next.
Proof.
  destruct 1 as [s ready n Hready|s ready n|s h ready [|n] Hh|s h ready Hh|h done ready n tr]; [right..|by left].
  - eexists. left. apply wait_cancelled.
  - eexists. left. apply serve_cancelled.
  - eexists. left. apply stop_drained.
  - eexists. right. exists s, n. split; [|done]. destruct Hh as [->| ->]; [by left|right; by eexists].
  - destruct Hh as [->| ->]; eexists; left; [apply helper_closed|apply drain_done].
Qed.

Lemma Clean_listening st s :
  Inv st → st_cancelled st = true → st_helper st = Listening s → ¬ exited st → Clean st.
Proof.
  unfold exited. intros Hinv Hc Hs Hrun.
  destruct Hinv; cbn in *; subst; try (by destruct Hrun; eexists); try (by_states; fail).
  - apply clean_waiting. intros s' Hs'. match goal with H : ∀ _, _ |- _ => by apply H in Hs' as [= ->] end.
  - simplify_eq/=. apply clean_serving.
Qed.

(** C40. After a cancellation ServeUnix returns, whatever the environment does: it is never
    stuck, and nothing can keep it from the exit but the steps that it or its timers are
    about to take.  If its server listens, the helper does not return by itself and no
    timer fires, it returns without an error, once the open requests are answered. *)
Theorem shutdown_returns st :
  reachable st → st_cancelled st = true →
  eventually environment (λ a b, program a b ∨ timer a b) exited st ∧
  (∀ s, st_helper st = Listening s → ¬ exited st →
     eventually steady (λ a b, program a b ∨ answered a b) (λ st', st_phase st' = Exit None) st).
Proof.
  intros Hinv%reachable_Inv Hc. split.
  - apply (eventually_measure _ _ (λ st, Inv st ∧ st_cancelled st = true) _ lt distance); [apply lt_wf|..|done].
    + intros a b [Ha Hca] Hstep. split; [|left; by apply environment_distance].
      split; [by eapply Inv_environment|]. eapply stays_cancelled; [by left|done].
    + intros a b [Ha Hca] [Hstep|Hstep]; (split; [split|]).
      * by eapply Inv_program.
      * eapply stays_cancelled; [by right; left|done].
      * by apply program_distance.
      * by eapply Inv_timer.
      * eapply stays_cancelled; [by right; right|done].
      * by apply timer_distance.
    + intros a [Ha Hca]. by apply cancelled_enabled.
  - intros s Hs Hrun. apply (eventually_measure _ _ Clean _ before remaining).
    + apply wf_slexprod; apply lt_wf.
    + apply Clean_steady.
    + apply Clean_fair.
    + apply Clean_enabled.
    + by eapply Clean_listening.
Qed.

(** ** Example: a start and a shutdown *)
Definition serving_7 (cancelled : bool) : State :=
  mkState (Serving 7) (Listening 7) None None cancelled 0 [].
Definition drained_7 : State :=
  mkState (Exit None) (Returned (Some 7) (Some ErrServerClosed)) None None true 0
    [Shutdown 7; ShutdownReturned true; Received (Some ErrServerClosed)].

Lemma serving_7_reachable cancelled : reachable (serving_7 cancelled).
Proof.
  exists cancelled. eapply rtc_l; [left; apply (env_listen 7)|].
  eapply rtc_l; [left; apply env_probe|]. eapply rtc_l; [right; left; apply wait_ready|apply rtc_refl].
Defined.
Lemma drained_7_reachable : reachable drained_7.
Proof.
  destruct (serving_7_reachable true) as [c Hsteps]. exists c. etrans; [exact Hsteps|].
  eapply rtc_l; [right; left; apply serve_cancelled|].
  eapply rtc_l; [right; left; apply stop_drained|].
  eapply rtc_l; [right; left; apply helper_closed|].
  eapply rtc_l; [right; left; apply drain_done|apply rtc_refl].
Defined.

Lemma shutdown_returns_witness :
  reachable (serving_7 true) ∧
  eventually steady (λ a b, program a b ∨ answered a b) (λ st', st_phase st' = Exit None) (serving_7 true).
Proof.
  split; [exact (serving_7_reachable true)|].
  apply (shutdown_returns (serving_7 true) (serving_7_reachable true) eq_refl) with (s := 7).
  - reflexivity.
  - intros [result Hresult]. discriminate Hresult.
Defined.
