(* ===== verification/PkiBundle.v ===== *)
(** * Package pki: publishing a certificate bundle

    internal/pki/pki.go, [writeBundle], over a model of the output directory: its files by
    name, with their contents and modes.  Any system call may fail, as the class [Host]
    decides; a write that fails may have written anything. *)
From S2P Require Import Prelude GoString.

(** ** The directory *)
Record file := mkFile { file_data : string; file_mode : Z }.
Abbreviation directory := (gmap string file) (only parsing).
Inductive call := Lstat | MkdirAll | CreateTemp | Write | Chmod | Sync | Close | Link | Rename | Remove.

(** 0600 and 0644. *)
Definition mode_0600 : Z := 6 * 64.
Definition mode_0644 : Z := 6 * 64 + 4 * 8 + 4.

(** [Fs_calls] counts the system calls so far, so that each one has its own fate. *)
Record Fs := mkFs { Fs_dir : directory; Fs_calls : nat }.

Definition temp_prefix : string := ".dockauthz-pki-".
Class Host := {
  fails : call → nat → bool;
  partial_write : nat → string → string;
  temp_name : directory → nat → string;
  (* os.CreateTemp *)
  temp_fresh : ∀ d n, d !! temp_name d n = None;
  temp_prefixed : ∀ d n, HasPrefix (temp_name d n) temp_prefix = true
}.

Section calls.
Context `{!Host}.

(** One system call: whether it succeeded, and the directory afterwards. *)
Definition syscall (c : call) (success failure : directory → directory) (s : Fs) : bool * Fs :=
  if fails c (Fs_calls s) then (false, mkFs (failure (Fs_dir s)) (S (Fs_calls s)))
  else (true, mkFs (success (Fs_dir s)) (S (Fs_calls s))).
(** os.Lstat: [Some true] for a file, [Some false] when there is none. *)
Definition os_Lstat (name : string) (s : Fs) : option bool * Fs :=
  let '(ok, s) := syscall Lstat id id s in
  (if (ok : bool) then Some (bool_decide (is_Some (Fs_dir s !! name))) else None, s).
Definition os_MkdirAll : Fs → bool * Fs := syscall MkdirAll id id.
Definition os_CreateTemp (s : Fs) : option string * Fs :=
  let name := temp_name (Fs_dir s) (Fs_calls s) in
  let '(ok, s) := syscall CreateTemp (<[name := mkFile "" mode_0600]>) id s in
  (if (ok : bool) then Some name else None, s).
(** Write, Chmod, Sync and Close of the open file [name]. *)
Definition set_data (name data : string) (d : directory) : directory :=
  alter (λ f, mkFile data (file_mode f)) name d.
Definition set_mode (name : string) (mode : Z) (d : directory) : directory :=
  alter (λ f, mkFile (file_data f) mode) name d.
Definition file_Write (name data : string) (s : Fs) : bool * Fs :=
  syscall Write (set_data name data) (set_data name (partial_write (Fs_calls s) data)) s.
Definition file_Chmod (name : string) (mode : Z) : Fs → bool * Fs :=
  syscall Chmod (set_mode name mode) id.
Definition file_Sync : Fs → bool * Fs := syscall Sync id id.
Definition file_Close : Fs → bool * Fs := syscall Close id id.
(** Link refuses an existing target; Rename replaces it. *)
Definition os_Link (old new : string) (s : Fs) : bool * Fs :=
  match Fs_dir s !! old, Fs_dir s !! new with
  | Some f, None => syscall Link (<[new := f]>) id s
  | _, _ => (false, mkFs (Fs_dir s) (S (Fs_calls s)))
  end.
Definition os_Rename (old new : string) (s : Fs) : bool * Fs :=
  match Fs_dir s !! old with
  | Some f => syscall Rename (λ d, <[new := f]> (delete old d)) id s
  | None => (false, mkFs (Fs_dir s) (S (Fs_calls s)))
  end.
Definition os_Remove (name : string) (s : Fs) : Fs := (syscall Remove (delete name) id s).2.
Definition remove_all (names : list string) (s : Fs) : Fs := foldl (λ s name, os_Remove name s) s names.
End calls.

(** ** writeBundle *)
Record output := mkOutput { output_name : string; output_data : string; output_mode : Z }.

(** file.name == filepath.Base(file.name) *)
Definition is_base (name : string) : bool :=
  (name == "/") || (name != "") && negb (contains_byte "/" name).

Section writeBundle.
Context `{!Host}.

(** The first loop: write every file under a temporary name. *)
Definition stage_file (name : string) (o : output) (s : Fs) : bool * Fs :=
  let '(written, s) := file_Write name (output_data o) s in
  let '(moded, s) := file_Chmod name (output_mode o) s in
  let '(synced, s) := file_Sync s in
  let '(closed, s) := file_Close s in
  (written && moded && synced && closed, s).
Fixpoint stage_files (temps : list string) (files : list output) (s : Fs) :
    option error * list string * Fs :=
  match files with
  | [] => (None, temps, s)
  | o :: files' =>
      let '(name, s) := os_CreateTemp s in
      match name with
      | None => (Some "cannot stage certificate bundle", temps, s)
      | Some name =>
          let temps := temps ++ [name] in
          let '(ok, s) := stage_file name o s in
          if (ok : bool) then stage_files temps files' s
          else (Some "cannot write certificate bundle", temps, s)
      end
  end.

(** The second loop: publish them under their names. *)
Fixpoint publish_files (force : bool) (created : list string) (staged : list (string * output)) (s : Fs) :
    option error * Fs :=
  match staged with
  | [] => (None, s)
  | (temp, o) :: staged' =>
      let target := output_name o in
      let '(ok, s) := if force then os_Rename temp target s else os_Link temp target s in
      if (ok : bool) then publish_files force (created ++ [target]) staged' s
      else (Some "cannot publish certificate bundle; existing files require --force",
            if force then s else remove_all created s)
  end.

Definition writeBundle (files : list output) (force : bool) (s : Fs) : option error * Fs :=
  let '(ok, s) := os_MkdirAll s in
  if negb ok then (Some "cannot create certificate directory", s)
  else if negb (forallb (λ o, is_base (output_name o)) files)
  then (Some "invalid certificate bundle filename", s)
  else
    let '(err, temps, s) := stage_files [] files s in
    let '(err, s) := match err with
                     | Some e => (Some e, s)
                     | None => publish_files force [] (zip temps files) s
                     end in
    (err, remove_all temps s).
End writeBundle.

(** ** Specification *)
Definition is_temp (name : string) : Prop := HasPrefix name temp_prefix = true.
(** The file that an output becomes. *)
Definition complete (o : output) : file := mkFile (output_data o) (output_mode o).

(** ** Lemmas *)
Section lemmas.
Context `{!Host}.

Lemma syscall_cases c success failure s :
  (syscall c success failure s = (true, mkFs (success (Fs_dir s)) (S (Fs_calls s)))) ∨
  (syscall c success failure s = (false, mkFs (failure (Fs_dir s)) (S (Fs_calls s)))).
Proof. unfold syscall. destruct (fails c (Fs_calls s)); auto. Qed.

(** Only the file that is written changes. *)
Lemma stage_file_other name o s ok s' k :
  stage_file name o s = (ok, s') → k ≠ name → Fs_dir s' !! k = Fs_dir s !! k.
Proof.
  unfold stage_file, file_Write, file_Chmod, file_Sync, file_Close, syscall. intros Hs Hk.
  repeat case_match; simplify_eq/=; unfold set_data, set_mode, id;
    by rewrite ?lookup_alter_ne.
Qed.

Lemma stage_file_complete name o s s' f :
  stage_file name o s = (true, s') → Fs_dir s !! name = Some f →
  Fs_dir s' !! name = Some (complete o).
Proof.
  unfold stage_file, file_Write, file_Chmod, file_Sync, file_Close, syscall. intros Hs Hf.
  repeat case_match; simplify_eq/=. unfold set_data, set_mode, id.
  by rewrite !lookup_alter_eq, Hf.
Qed.

(** Complete temporary files stay complete while nothing touches them. *)
Lemma complete_keep (d d' : directory) temps files :
  (∀ t, t ∈ temps → d' !! t = d !! t) →
  Forall2 (λ t o, d !! t = Some (complete o)) temps files →
  Forall2 (λ t o, d' !! t = Some (complete o)) temps files.
Proof.
  intros Hkeep. induction 1 as [|t o temps files Ht _ IH]; [done|]. constructor.
  - rewrite Hkeep; [done|left].
  - apply IH. intros t' Ht'. apply Hkeep. by right.
Qed.

(** The state while the bundle is staged in the directory [d0]: the temporary files are
    new, the first of them are complete, and nothing else has changed. *)
Record Staging (d0 : directory) (temps : list string) (staged : list output) (s : Fs) : Prop := {
  staging_rest : ∀ k, k ∉ temps → Fs_dir s !! k = d0 !! k;
  staging_new : ∀ t, t ∈ temps → is_temp t ∧ d0 !! t = None;
  staging_distinct : NoDup temps;
  staging_complete : ∃ done rest, temps = done ++ rest ∧
    Forall2 (λ t o, Fs_dir s !! t = Some (complete o)) done staged
}.

Lemma Staging_initial s : Staging (Fs_dir s) [] [] s.
Proof.
  split; [done|by intros t []%not_elem_of_nil|constructor|]. by exists [], [].
Qed.

Lemma os_CreateTemp_spec s name s' :
  os_CreateTemp s = (name, s') →
  match name with
  | None => Fs_dir s' = Fs_dir s
  | Some name => is_temp name ∧ Fs_dir s !! name = None ∧ ∃ f, Fs_dir s' = <[name := f]> (Fs_dir s)
  end.
Proof.
  unfold os_CreateTemp. cbv zeta.
  destruct (syscall_cases CreateTemp (<[temp_name (Fs_dir s) (Fs_calls s) := mkFile "" mode_0600]>) id s)
    as [-> | ->]; intros [= <- <-]; [|done]. cbn [Fs_dir].
  split_and!; [apply temp_prefixed|apply temp_fresh|by eexists].
Qed.

Lemma stage_files_spec d0 temps staged files s err temps' s' :
  Staging d0 temps staged s → length staged = length temps →
  stage_files temps files s = (err, temps', s') →
  match err with
  | None => Staging d0 temps' (staged ++ files) s' ∧ length temps' = length (staged ++ files)
  | Some _ => ∃ staged', Staging d0 temps' staged' s'
  end.
Proof.
  revert temps staged s. induction files as [|o files IH]; intros temps staged s Hst Hlen; cbn [stage_files].
  { intros [= <- <- <-]. by rewrite app_nil_r. }
  destruct (os_CreateTemp s) as [[name|] s1] eqn:Hcreate; apply os_CreateTemp_spec in Hcreate.
  - destruct Hcreate as (Htemp & Hfresh & f & Hs1).
    destruct (stage_file name o s1) as [ok s2] eqn:Hfile.
    destruct Hst as [Hrest Hnew Hnd (done & rest & -> & Hdone)].
    apply Forall2_length in Hdone as Hl. rewrite length_app in Hlen. assert (rest = []) as ->.
    { apply length_zero_iff_nil. lia. }
    rewrite app_nil_r in *.
    assert (Hnin : name ∉ done).
    { intros Hin. destruct (list_elem_of_lookup_1 _ _ Hin) as [i Hi].
      destruct (Forall2_lookup_l _ _ _ _ _ Hdone Hi) as (? & _ & Hc). congruence. }
    assert (Hother : ∀ k, k ≠ name → Fs_dir s2 !! k = Fs_dir s !! k).
    { intros k Hk. rewrite (stage_file_other _ _ _ _ _ _ Hfile Hk), Hs1. by apply lookup_insert_ne. }
    assert (Hbase : Staging d0 (done ++ [name]) staged s2).
    { split.
      - intros k [Hk Hkn]%not_elem_of_app. rewrite Hother by set_solver. by apply Hrest.
      - intros t [Ht| ->%list_elem_of_singleton]%elem_of_app; [by apply Hnew|].
        split; [done|]. by rewrite <- Hrest.
      - apply NoDup_app. split_and!; [done|set_solver|apply NoDup_singleton].
      - exists done, [name]. split; [done|]. eapply complete_keep; [|exact Hdone].
        intros t Ht. apply Hother. by intros ->. }
    destruct ok; [|by intros [= <- <- <-]; eauto].
    intros Hrun. apply (IH _ (staged ++ [o])) in Hrun.
    + by rewrite <- app_assoc in Hrun.
    + destruct Hbase as [? ? ? _]. split; [done..|]. exists (done ++ [name]), [].
      split; [by rewrite app_nil_r|]. apply Forall2_app.
      * eapply complete_keep; [|exact Hdone]. intros t Ht. apply Hother. by intros ->.
      * constructor; [|done]. eapply stage_file_complete; [exact Hfile|].
        rewrite Hs1. apply lookup_insert_eq.
    + rewrite !length_app. simpl. lia.
  - intros [= <- <- <-]. exists staged. destruct Hst as [Hrest Hnew Hnd Hdone].
    split; rewrite ?Hcreate; auto.
Qed.

(** *** Removing *)
Definition reliable_remove : Prop := ∀ n, fails Remove n = false.

Lemma os_Remove_lookup name s k :
  Fs_dir (os_Remove name s) !! k = Fs_dir s !! k ∨ (k = name ∧ Fs_dir (os_Remove name s) !! k = None).
Proof.
  unfold os_Remove. destruct (syscall_cases Remove (delete name) id s) as [-> | ->]; cbn [snd Fs_dir]; [|by left].
  destruct (decide (k = name)) as [->|Hk]; [right|left]; by rewrite ?lookup_delete_eq, ?lookup_delete_ne.
Qed.

Lemma remove_all_lookup names s k :
  Fs_dir (remove_all names s) !! k = Fs_dir s !! k ∨ (k ∈ names ∧ Fs_dir (remove_all names s) !! k = None).
Proof.
  unfold remove_all. revert s. induction names as [|name names IH]; intros s; cbn [foldl]; [by left|].
  destruct (IH (os_Remove name s)) as [->|[Hin ->]]; [|right; split; [by right|done]].
  destruct (os_Remove_lookup name s k) as [->|[-> ->]]; [by left|right; split; [left|done]].
Qed.

Lemma remove_all_gone names s k :
  reliable_remove → k ∈ names → Fs_dir (remove_all names s) !! k = None.
Proof.
  intros Hrel. unfold remove_all. revert s. induction names as [|name names IH]; intros s; cbn [foldl].
  { by intros []%not_elem_of_nil. }
  intros [->|Hin]%elem_of_cons; [|by apply IH].
  destruct (remove_all_lookup names (os_Remove name s) name) as [Heq|[_ Heq]]; unfold remove_all in Heq; rewrite Heq; [|done].
  unfold os_Remove, syscall. rewrite Hrel. cbn [snd Fs_dir]. apply lookup_delete_eq.
Qed.

(** *** Publishing

    The state after the targets [created] have been published over the directory [d1]. *)
Record Publishing (force : bool) (d1 : directory) (temps : list string) (all : list output)
    (created : list string) (s : Fs) : Prop := {
  publishing_rest : ∀ k, k ∉ temps → k ∉ created → Fs_dir s !! k = d1 !! k;
  publishing_new : ∀ k, k ∈ created → (force = false → d1 !! k = None) ∧
    ∃ o, o ∈ all ∧ output_name o = k ∧ Fs_dir s !! k = Some (complete o)
}.

(** The outcome of publishing one file. *)
Lemma publish_file (force : bool) temp o s ok s' :
  (if force then os_Rename temp (output_name o) s else os_Link temp (output_name o) s) = (ok, s') →
  Fs_dir s !! temp = Some (complete o) → temp ≠ output_name o →
  if (ok : bool) then
    Fs_dir s' !! output_name o = Some (complete o) ∧
    (force = false → Fs_dir s !! output_name o = None) ∧
    (∀ k, k ≠ temp → k ≠ output_name o → Fs_dir s' !! k = Fs_dir s !! k)
  else Fs_dir s' = Fs_dir s.
Proof.
  intros Hcall Htemp Hne. destruct force.
  - unfold os_Rename in Hcall. rewrite Htemp in Hcall.
    destruct (syscall_cases Rename (λ d, <[output_name o := complete o]> (delete temp d)) id s) as [Hs|Hs];
      rewrite Hs in Hcall; injection Hcall as <- <-; [|done]. cbn [Fs_dir].
    split_and!; [apply lookup_insert_eq|done|].
    intros k Hk Hko. by rewrite lookup_insert_ne, lookup_delete_ne.
  - unfold os_Link in Hcall. rewrite Htemp in Hcall.
    destruct (Fs_dir s !! output_name o) eqn:Htarget; [by injection Hcall as <- <-|].
    destruct (syscall_cases Link (<[output_name o := complete o]>) id s) as [Hs|Hs];
      rewrite Hs in Hcall; injection Hcall as <- <-; [|done]. cbn [Fs_dir].
    split_and!; [apply lookup_insert_eq|done|]. intros k _ Hko. by apply lookup_insert_ne.
Qed.

Lemma publish_files_spec force d1 temps all created staged s err s' :
  Publishing force d1 temps all created s →
  (∀ t o, (t, o) ∈ staged → t ∈ temps ∧ o ∈ all ∧ Fs_dir s !! t = Some (complete o)) →
  NoDup staged.*1 → (∀ o, o ∈ all → output_name o ∉ temps) →
  publish_files force created staged s = (err, s') →
  match err with
  | None => Publishing force d1 temps all (created ++ (output_name <$> staged.*2)) s'
  | Some _ =>
      (∀ k, k ∉ temps → Fs_dir s' !! k = d1 !! k ∨
         (force = false → d1 !! k = None) ∧
         ∃ o, o ∈ all ∧ output_name o = k ∧ Fs_dir s' !! k = Some (complete o)) ∧
      (force = false → reliable_remove → ∀ k, k ∉ temps → Fs_dir s' !! k = d1 !! k)
  end.
Proof.
  intros Hpub Hstaged Hnd Htargets. revert created s Hpub Hstaged.
  induction staged as [|[t o] staged IH]; intros created s [Hrest Hnew] Hstaged; cbn [publish_files].
  { intros [= <- <-]. cbn. rewrite app_nil_r. by split. }
  cbv zeta. cbn in Hnd. apply NoDup_cons in Hnd as [Hfresh Hnd].
  destruct (Hstaged t o) as (Ht & Ho & Hc); [left|].
  assert (Hne : t ≠ output_name o) by (intros ->; by apply (Htargets o)).
  destruct (if force then _ else _) as [ok s1] eqn:Hcall.
  pose proof (publish_file _ _ _ _ _ _ Hcall Hc Hne) as Hone. destruct ok.
  - destruct Hone as (Hdone & Hwas & Hother). intros Hrun.
    apply (IH Hnd (created ++ [output_name o])) in Hrun.
    + cbn [snd fmap list_fmap]. by rewrite <- app_assoc in Hrun.
    + split.
      * intros k Hk [Hkc Hko]%not_elem_of_app. rewrite Hother; [by apply Hrest|by intros ->|set_solver].
      * intros k Hk. destruct (decide (k = output_name o)) as [->|Hko].
        -- split; [|by exists o]. intros Hforce. specialize (Hwas Hforce).
           destruct (decide (output_name o ∈ created)) as [Hin|Hin].
           { destruct (Hnew _ Hin) as (_ & o' & _ & _ & Ho'). congruence. }
           rewrite <- Hrest; [done|by apply Htargets|done].
        -- apply elem_of_app in Hk as [Hk|Hk]; [|set_solver].
           destruct (Hnew k Hk) as (? & o' & Ho' & Hname & Hc').
           split; [done|]. exists o'. rewrite Hother; [done| |done].
           intros ->. rewrite <- Hname in Ht. by apply (Htargets o').
    + intros t' o' Hin. destruct (Hstaged t' o') as (Ht' & Ho' & Hc'); [by right|].
      split_and!; [done..|]. rewrite Hother; [done| |].
      * intros ->. apply Hfresh. apply list_elem_of_fmap. by exists (t, o').
      * intros ->. by apply (Htargets o).
  - intros [= <- <-]. destruct force.
    + split; [|done]. intros k Hk. rewrite Hone.
      destruct (decide (k ∈ created)) as [Hin|Hin]; [right|left; auto].
      by destruct (Hnew k Hin).
    + assert (Hout : ∀ k, k ∉ temps → k ∉ created → Fs_dir (remove_all created s1) !! k = d1 !! k).
      { intros k Hk Hin. destruct (remove_all_lookup created s1 k) as [->|[? _]]; [|done].
        rewrite Hone. auto. }
      split.
      * intros k Hk. destruct (decide (k ∈ created)) as [Hin|Hin]; [|left; auto].
        destruct (Hnew k Hin) as (Hno & o' & ? & ? & Hc').
        destruct (remove_all_lookup created s1 k) as [->|[_ ->]]; [|left; by rewrite Hno].
        right. split; [done|]. exists o'. by rewrite Hone.
      * intros _ Hrel k Hk. destruct (decide (k ∈ created)) as [Hin|Hin]; [|auto].
        rewrite remove_all_gone by done. symmetry. by apply Hnew.
Qed.

(** *** The three ways in which writeBundle ends *)
Lemma writeBundle_cases files force s err s' :
  writeBundle files force s = (err, s') →
  (is_Some err ∧ Fs_dir s' = Fs_dir s) ∨
  (∃ temps staged s1, is_Some err ∧ Staging (Fs_dir s) temps staged s1 ∧ s' = remove_all temps s1) ∨
  (∃ temps s1 s2, Staging (Fs_dir s) temps files s1 ∧ length temps = length files ∧
     publish_files force [] (zip temps files) s1 = (err, s2) ∧ s' = remove_all temps s2).
Proof.
  unfold writeBundle, os_MkdirAll.
  assert (Hmk : ∃ ok n, syscall MkdirAll id id s = (ok, mkFs (Fs_dir s) n)).
  { destruct (syscall_cases MkdirAll id id s) as [-> | ->]; by eexists _, _. }
  destruct Hmk as (ok & n & ->). destruct ok; cbn [negb]; [|intros [= <- <-]; eauto].
  destruct (forallb _ files); cbn [negb]; [|intros [= <- <-]; eauto].
  destruct (stage_files [] files _) as [[err1 temps] s1] eqn:Hstage.
  apply (stage_files_spec (Fs_dir s) [] []) in Hstage; [|apply (Staging_initial (mkFs (Fs_dir s) n))|done].
  destruct err1 as [e|].
  - intros [= <- <-]. destruct Hstage as [staged Hst]. right; left. by exists temps, staged, s1.
  - destruct Hstage as [Hst Hlen]. destruct (publish_files _ _ _ _) as [err2 s2] eqn:Hpub.
    intros [= <- <-]. right; right. by exists temps, s1, s2.
Qed.

(** Publishing from a fully staged directory. *)
Lemma publish_staged force d0 temps files s1 err s2 :
  Staging d0 temps files s1 → length temps = length files →
  (∀ o, o ∈ files → ¬ is_temp (output_name o)) →
  publish_files force [] (zip temps files) s1 = (err, s2) →
  match err with
  | None => Publishing force d0 temps files (output_name <$> files) s2
  | Some _ =>
      (∀ k, k ∉ temps → Fs_dir s2 !! k = d0 !! k ∨
         (force = false → d0 !! k = None) ∧
         ∃ o, o ∈ files ∧ output_name o = k ∧ Fs_dir s2 !! k = Some (complete o)) ∧
      (force = false → reliable_remove → ∀ k, k ∉ temps → Fs_dir s2 !! k = d0 !! k)
  end.
Proof.
  intros [Hrest Hnew Hnd (done & rest & -> & Hdone)] Hlen Hnames Hpub.
  apply Forall2_length in Hdone as Hl. rewrite length_app in Hlen.
  assert (rest = []) as -> by (apply length_zero_iff_nil; lia). rewrite app_nil_r in *.
  apply (publish_files_spec force d0 done files) in Hpub.
  - destruct err; [exact Hpub|]. rewrite snd_zip in Hpub by lia. exact Hpub.
  - split; [auto|]. by intros k []%not_elem_of_nil.
  - intros t o Hin. split; [by eapply elem_of_zip_l|]. split; [by eapply elem_of_zip_r|].
    clear -Hin Hdone. induction Hdone as [|x y l k Hxy _ IH]; cbn in Hin; [by apply not_elem_of_nil in Hin|].
    by apply elem_of_cons in Hin as [[= -> ->]|Hin]; [|apply IH].
  - by rewrite fst_zip by lia.
  - intros o Ho Hin. apply (Hnames o Ho). by apply Hnew.
Qed.

Lemma remove_temps temps (P : string → Prop) s k :
  (∀ t, t ∈ temps → is_temp t ∧ P t) → ¬ is_temp k → Fs_dir (remove_all temps s) !! k = Fs_dir s !! k.
Proof. intros Htemps Hk. destruct (remove_all_lookup temps s k) as [?|[[? _]%Htemps _]]; done. Qed.

(** *** The outcome of writeBundle *)
Lemma writeBundle_outcome files force s err s' :
  (∀ o, o ∈ files → ¬ is_temp (output_name o)) → NoDup (output_name <$> files) →
  writeBundle files force s = (err, s') →
  (∀ k, ¬ is_temp k → Fs_dir s' !! k = Fs_dir s !! k ∨
     ∃ o, o ∈ files ∧ output_name o = k ∧ Fs_dir s' !! k = Some (complete o)) ∧
  (err = None → ∀ o, o ∈ files → Fs_dir s' !! output_name o = Some (complete o)) ∧
  (reliable_remove → ∀ k, is_temp k → Fs_dir s' !! k = Fs_dir s !! k).
Proof.
  intros Hnames Hnd [[[e ->] Heq]|[(temps & staged & s1 & [e ->] & Hst & ->)|
    (temps & s1 & s2 & Hst & Hlen & Hpub & ->)]]%writeBundle_cases.
  - rewrite Heq. split_and!; auto; done.
  - destruct Hst as [Hrest Hnew _ _]. split_and!; [|done|].
    + intros k Hk. left. rewrite (remove_temps temps _ _ _ Hnew Hk). apply Hrest.
      by intros [? _]%Hnew.
    + intros Hrel k _. destruct (decide (k ∈ temps)) as [Hin|Hin].
      * rewrite remove_all_gone by done. symmetry. by apply Hnew.
      * destruct (remove_all_lookup temps s1 k) as [->|[? _]]; [by apply Hrest|done].
  - pose proof (publish_staged _ _ _ _ _ _ _ Hst Hlen Hnames Hpub) as Hspec.
    destruct Hst as [_ Hnew _ _].
    assert (Hvalues : (∀ k, k ∉ temps → Fs_dir s2 !! k = Fs_dir s !! k ∨
      ∃ o, o ∈ files ∧ output_name o = k ∧ Fs_dir s2 !! k = Some (complete o)) ∧
      (err = None → ∀ o, o ∈ files → Fs_dir s2 !! output_name o = Some (complete o))).
    { destruct err as [e|]; [split; [|done]; intros k Hk; destruct (proj1 Hspec k Hk) as [?|[_ ?]]; auto|].
      destruct Hspec as [Hrest Hpub']. split.
      - intros k Hk. destruct (decide (k ∈ output_name <$> files)) as [Hin|Hin]; [right|left; auto].
        by apply Hpub'.
      - intros _ o Ho. destruct (Hpub' (output_name o)) as (_ & o' & Ho' & Hname & ->).
        { by apply list_elem_of_fmap_2. }
        f_equal. f_equal. by apply (NoDup_fmap_eq output_name files). }
    destruct Hvalues as [Hany Hall]. split_and!.
    + intros k Hk. rewrite (remove_temps temps _ _ _ Hnew Hk). apply Hany. by intros [? _]%Hnew.
    + intros Herr o Ho. rewrite (remove_temps temps _ _ _ Hnew (Hnames o Ho)). by apply Hall.
    + intros Hrel k Hk. destruct (decide (k ∈ temps)) as [Hin|Hin].
      * rewrite remove_all_gone by done. symmetry. by apply Hnew.
      * destruct (remove_all_lookup temps s2 k) as [->|[? _]]; [|done].
        destruct (Hany k Hin) as [?|(o & Ho & <- & _)]; [done|]. by apply Hnames in Ho.
Qed.

Lemma writeBundle_unforced files s err s' :
  (∀ o, o ∈ files → ¬ is_temp (output_name o)) →
  writeBundle files false s = (err, s') →
  (∀ k f, Fs_dir s !! k = Some f → Fs_dir s' !! k = Some f) ∧
  (is_Some err → reliable_remove → Fs_dir s' = Fs_dir s).
Proof.
  intros Hnames [[_ Heq]|[(temps & staged & s1 & _ & [Hrest Hnew _ _] & ->)|
    (temps & s1 & s2 & Hst & Hlen & Hpub & ->)]]%writeBundle_cases.
  - by rewrite Heq.
  - split.
    + intros k f Hk. assert (Hin : k ∉ temps) by (intros [_ ?]%Hnew; congruence).
      destruct (remove_all_lookup temps s1 k) as [->|[? _]]; [by rewrite Hrest|done].
    + intros _ Hrel. apply map_eq. intros k. destruct (decide (k ∈ temps)) as [Hin|Hin].
      * rewrite remove_all_gone by done. symmetry. by apply Hnew.
      * destruct (remove_all_lookup temps s1 k) as [->|[? _]]; [by apply Hrest|done].
  - pose proof (publish_staged _ _ _ _ _ _ _ Hst Hlen Hnames Hpub) as Hspec.
    destruct Hst as [_ Hnew _ _]. split.
    + intros k f Hk. assert (Hin : k ∉ temps) by (intros [_ ?]%Hnew; congruence).
      destruct (remove_all_lookup temps s2 k) as [->|[? _]]; [|done]. destruct err as [e|].
      * destruct (proj1 Hspec k Hin) as [->|[Hnone _]]; [done|]. by rewrite Hnone in Hk.
      * destruct Hspec as [Hrest Hpub']. destruct (decide (k ∈ output_name <$> files)) as [Hc|Hc].
        -- destruct (Hpub' k Hc) as [Hnone _]. by rewrite Hnone in Hk.
        -- by rewrite Hrest.
    + intros [e ->] Hrel. apply map_eq. intros k. destruct (decide (k ∈ temps)) as [Hin|Hin].
      * rewrite remove_all_gone by done. symmetry. by apply Hnew.
      * destruct (remove_all_lookup temps s2 k) as [->|[? _]]; [by apply Hspec|done].
Qed.
(** C34. A bundle is published atomically, file by file, whatever system calls fail: every
    name outside the temporary ones holds its old file or the complete new one with its
    mode, and success means that every output does.  Where removing files works, no
    temporary file is left behind. *)
Theorem writeBundle_atomic files force s err s' :
  (∀ o, o ∈ files → ¬ is_temp (output_name o)) → NoDup (output_name <$> files) →
  writeBundle files force s = (err, s') →
  (∀ k, ¬ is_temp k → Fs_dir s' !! k = Fs_dir s !! k ∨
     ∃ o, o ∈ files ∧ output_name o = k ∧ Fs_dir s' !! k = Some (complete o)) ∧
  (err = None → ∀ o, o ∈ files → Fs_dir s' !! output_name o = Some (complete o)) ∧
  (reliable_remove → ∀ k, is_temp k → Fs_dir s' !! k = Fs_dir s !! k).
Proof. apply writeBundle_outcome. Qed.

(** Without --force nothing that exists is replaced, removed or changed, whatever
    system calls fail; and a bundle that fails to publish leaves the directory exactly as
    it was, where removing files works. *)
Theorem writeBundle_preserves files s err s' :
  (∀ o, o ∈ files → ¬ is_temp (output_name o)) →
  writeBundle files false s = (err, s') →
  (∀ k f, Fs_dir s !! k = Some f → Fs_dir s' !! k = Some f) ∧
  (is_Some err → reliable_remove → Fs_dir s' = Fs_dir s).
Proof. apply writeBundle_unforced. Qed.
End lemmas.

(** ** Example: a server bundle into a directory that has a file of that name *)
Module Example.
Definition fresh_suffix (d : directory) : string :=
  fresh (set_map (D := gset string) (str_drop 15) (dom d)).
Definition temp (d : directory) (n : nat) : string := temp_prefix +:+ fresh_suffix d.
Lemma temp_is_fresh d n : d !! temp d n = None.
Proof.
  apply not_elem_of_dom. intros Hin.
  apply (is_fresh (set_map (D := gset string) (str_drop 15) (dom d))).
  apply elem_of_map. exists (temp d n). split; [|done]. unfold temp. reflexivity.
Qed.
Lemma temp_is_prefixed d n : HasPrefix (temp d n) temp_prefix = true.
Proof. apply HasPrefix_spec. by eexists. Qed.
(** Every call succeeds. *)
#[export] Instance host : Host := {|
  fails c n := false;
  partial_write n data := data;
  temp_name := temp;
  temp_fresh := temp_is_fresh;
  temp_prefixed := temp_is_prefixed
|}.
Definition bundle : list output :=
  [mkOutput "server-cert.pem" "certificate" mode_0644; mkOutput "server-key.pem" "key" mode_0600].
Definition existing : directory := {["server-key.pem" := mkFile "old key" mode_0600]}.

Lemma example_names o : o ∈ bundle → ¬ is_temp (output_name o).
Proof. unfold bundle. intros [->|[->|[]%not_elem_of_nil]%elem_of_cons]%elem_of_cons; vm_compute; congruence. Qed.
Lemma example_distinct : NoDup (output_name <$> bundle).
Proof. vm_compute. repeat constructor; set_solver. Qed.

Lemma writeBundle_atomic_witness :
  let '(err, s') := writeBundle bundle true (mkFs existing 0) in
  err = None ∧ Fs_dir s' !! "server-key.pem" = Some (mkFile "key" mode_0600).
Proof.
  destruct (writeBundle bundle true (mkFs existing 0)) as [err s'] eqn:Hrun.
  assert (Hnone : err = None).
  { assert (Hv : (writeBundle bundle true (mkFs existing 0)).1 = None) by (vm_compute; reflexivity).
    by rewrite Hrun in Hv. }
  split; [exact Hnone|].
  pose proof (proj1 (proj2 (writeBundle_atomic bundle true _ _ _ example_names example_distinct Hrun)) Hnone)
    as Hall.
  apply (Hall (mkOutput "server-key.pem" "key" mode_0600)). right. left.
Defined.

Lemma writeBundle_preserves_witness :
  let '(err, s') := writeBundle bundle false (mkFs existing 0) in
  is_Some err ∧ Fs_dir s' = existing.
Proof.
  destruct (writeBundle bundle false (mkFs existing 0)) as [err s'] eqn:Hrun.
  assert (Herr : is_Some err).
  { assert (Hv : is_Some (writeBundle bundle false (mkFs existing 0)).1)
      by (vm_compute; eexists; reflexivity).
    by rewrite Hrun in Hv. }
  split; [exact Herr|].
  apply (proj2 (writeBundle_preserves bundle _ _ _ example_names Hrun) Herr). intros n. reflexivity.
Defined.
End Example.
