(* ===== verification/Pki.v ===== *)
(** * Package pki: issuing certificates

    internal/pki/pki.go: the checks of the options, the certificate that is requested, the
    loading of the signing CA, and [Generate].  The crypto packages are the class [Crypto]
    and the files that are only read the function [read_file]. *)
From S2P Require Import Prelude GoString PkiBundle.

(** ** Data *)
Record Options := mkOptions {
  Options_Kind : string;
  Options_Name : string;
  Options_Days : Z;
  Options_DNS : list string;
  Options_IP : list string;
  Options_CACert : string;
  Options_CAKey : string;
  Options_Out : string;
  Options_Force : bool
}.
Definition certKindCA : string := "ca".
Definition certKindServer : string := "server".
Definition certKindClient : string := "client".
Definition defaultDays : Z := 365.
Definition defaultCADays : Z := 3650.
Definition maxDays : Z := 36500.
Definition serialBits : Z := 159.
Definition keyBits : Z := 3072.

(** crypto/x509: key usage is a bit set, instants are nanoseconds. *)
Definition KeyUsageDigitalSignature : Z := Z.shiftl 1 0.
Definition KeyUsageKeyEncipherment : Z := Z.shiftl 1 2.
Definition KeyUsageCertSign : Z := Z.shiftl 1 5.
Definition KeyUsageCRLSign : Z := Z.shiftl 1 6.
Inductive ExtKeyUsage := ExtKeyUsageServerAuth | ExtKeyUsageClientAuth.
Record Certificate := mkCertificate {
  SerialNumber : Z;
  CommonName : string;
  NotBefore : Z;
  NotAfter : Z;
  IsCA : bool;
  BasicConstraintsValid : bool;
  KeyUsage : Z;
  ExtKeyUsages : list ExtKeyUsage;
  DNSNames : list string;
  IPAddresses : list string
}.

(** ** validDNS *)
Definition HasSuffix (s suffix : string) : bool :=
  (String.length suffix <=? String.length s)%nat
  && (str_drop (String.length s - String.length suffix) s == suffix).
Definition TrimSuffix (s suffix : string) : string :=
  if HasSuffix s suffix then str_take (String.length s - String.length suffix) s else s.
Definition is_ldh (c : ascii) : bool := is_alnum c || Ascii.eqb c "-".
Definition first_byte (s : string) : option ascii := String.get 0 s.
Definition last_byte (s : string) : option ascii := String.get (String.length s - 1) s.
Definition bad_label (label : string) : bool :=
  (String.length label =? 0)%nat || (63 <? String.length label)%nat
  || (first_byte label == Some "-"%char) || (last_byte label == Some "-"%char)
  || str_any (λ c, negb (is_ldh c)) label.
Definition validDNS (value : string) : bool :=
  if (String.length value =? 0)%nat || (253 <? String.length value)%nat then false
  else
    let value := TrimSuffix value "." in
    let value := TrimPrefix value "*." in
    negb (existsb bad_label (Split "." value)).

(** ** The crypto packages *)
Record Block := mkBlock { Block_Type : string; Block_Bytes : string }.
Class Crypto := {
  PrivateKey : Type;
  PublicKey : Type;
  Public : PrivateKey → PublicKey;
  PublicKey_Equal : PublicKey → PublicKey → bool;
  Validate_key : PrivateKey → bool;
  rand_Int : Z → option Z;
  GenerateKey : Z → option PrivateKey;
  CreateCertificate : Certificate → Certificate → PublicKey → PrivateKey → option string;
  MarshalPKCS8PrivateKey : PrivateKey → option string;
  ParsePKCS1PrivateKey : string → option PrivateKey;
  (* an RSA key, or a key of another kind *)
  ParsePKCS8PrivateKey : string → option (ptr PrivateKey);
  (* a certificate, with its key when that is an RSA key *)
  ParseCertificate : string → option (Certificate * ptr PublicKey);
  pem_Decode : string → ptr Block * string;
  pem_Encode : Block → string;
  (* net.ParseIP *)
  ParseIP : string → option string
}.

Section Generate.
Context `{!Crypto, !Host}.

(** ** Options *)
Definition effective_days (o : Options) : Z :=
  if Options_Days o == 0%Z then (if Options_Kind o == certKindCA then defaultCADays else defaultDays)
  else Options_Days o.

Fixpoint parse_ips (values : list string) : option (list string) :=
  match values with
  | [] => Some []
  | value :: values' => ip ← ParseIP value; ips ← parse_ips values'; Some (ip :: ips)
  end.

(** The checks at the beginning of Generate, and the parsed addresses. *)
Definition check_options (o : Options) : result (list string) :=
  if (Options_Kind o != certKindCA) && (Options_Kind o != certKindServer)
     && (Options_Kind o != certKindClient)
  then Err "certificate kind must be ca, server or client"
  else if (TrimSpace (Options_Name o) == "") || (Options_Out o == "")
  then Err "--name and --out are required"
  else if (effective_days o <? 1)%Z || (maxDays <? effective_days o)%Z
  then Err "--days must be between 1 and 36500"
  else if (Options_Kind o == certKindServer)
          && (length (Options_DNS o) + length (Options_IP o) =? 0)%nat
  then Err "server certificate requires at least one --dns or --ip SAN"
  else match parse_ips (Options_IP o) with
  | None => Err "invalid IP SAN"
  | Some ips =>
      if negb (forallb validDNS (Options_DNS o)) then Err "invalid DNS SAN" else Ok ips
  end.

Definition cert_name (kind : string) : string :=
  if kind == certKindServer then "server-cert.pem"
  else if kind == certKindCA then "ca.pem" else "cert.pem".
Definition key_name (kind : string) : string :=
  if kind == certKindServer then "server-key.pem"
  else if kind == certKindCA then "ca-key.pem" else "key.pem".
Definition output_names (kind : string) : list string :=
  [cert_name kind; key_name kind] ++ (if kind != certKindCA then ["ca.pem"] else []).

(** The check for existing outputs, without --force. *)
Fixpoint check_existing (names : list string) (s : Fs) : option error * Fs :=
  match names with
  | [] => (None, s)
  | name :: names' =>
      let '(exists_, s) := os_Lstat name s in
      match exists_ with
      | Some true => (Some "output file exists; use --force to replace it", s)
      | None => (Some "cannot inspect output path", s)
      | Some false => check_existing names' s
      end
  end.

(** ** The certificate *)
Definition Minute : Z := 60 * 1000000000.
Definition Hour : Z := 60 * Minute.
(** time.Duration(o.Days) * 24 * time.Hour, with its wrap-around. *)
Definition lifetime (days : Z) : Z := wrap64 (wrap64 (days * 24) * Hour).

Definition template (o : Options) (now serial : Z) (ips : list string) : Certificate :=
  let kind := Options_Kind o in
  {| SerialNumber := serial + 1;
     CommonName := Options_Name o;
     NotBefore := now - 5 * Minute;
     NotAfter := now + lifetime (effective_days o);
     IsCA := kind == certKindCA;
     BasicConstraintsValid := true;
     KeyUsage :=
       if kind == certKindCA then Z.lor KeyUsageCertSign KeyUsageCRLSign
       else if kind == certKindServer then Z.lor KeyUsageDigitalSignature KeyUsageKeyEncipherment
       else KeyUsageDigitalSignature;
     ExtKeyUsages :=
       if kind == certKindCA then []
       else if kind == certKindServer then [ExtKeyUsageServerAuth] else [ExtKeyUsageClientAuth];
     DNSNames := if kind == certKindServer then Options_DNS o else [];
     IPAddresses := if kind == certKindServer then ips else [] |}.

(** ** loadCA *)
Definition fail_ca {A} : result A := Err "invalid CA certificate or signing key".
(** A CERTIFICATE block of a CA that may sign, and its key. *)
Definition load_certificate (certPEM : string) : result (Certificate * ptr PublicKey) :=
  match pem_Decode certPEM with
  | (Some block, rest) =>
      if (Block_Type block != "CERTIFICATE") || negb (String.length (TrimSpace rest) =? 0)%nat
      then fail_ca
      else match ParseCertificate (Block_Bytes block) with
      | None => fail_ca
      | Some (cert, pub) =>
          if negb (IsCA cert) || negb (BasicConstraintsValid cert)
             || (Z.land (KeyUsage cert) KeyUsageCertSign == 0%Z)
          then fail_ca else Ok (cert, pub)
      end
  | (None, _) => fail_ca
  end.
Definition parse_key (block : Block) : ptr PrivateKey :=
  if Block_Type block == "RSA PRIVATE KEY" then ParsePKCS1PrivateKey (Block_Bytes block)
  else if Block_Type block == "PRIVATE KEY" then
    match ParsePKCS8PrivateKey (Block_Bytes block) with Some key => key | None => None end
  else None.
Definition load_key (keyPEM : string) : result PrivateKey :=
  match pem_Decode keyPEM with
  | (Some block, rest) =>
      if negb (String.length (TrimSpace rest) =? 0)%nat then fail_ca
      else match parse_key block with
      | None => fail_ca
      | Some key => if negb (Validate_key key) then fail_ca else Ok key
      end
  | (None, _) => fail_ca
  end.
Definition loadCA (read_file : string → option string) (certPath keyPath : string) :
    result (Certificate * PrivateKey * string) :=
  match read_file certPath with
  | None => fail_ca
  | Some certPEM =>
      try loaded := load_certificate certPEM in
      match read_file keyPath with
      | None => fail_ca
      | Some keyPEM =>
          try key := load_key keyPEM in
          match loaded.2 with
          | None => fail_ca
          | Some pub =>
              if negb (PublicKey_Equal pub (Public key)) then fail_ca
              else Ok (loaded.1, key, certPEM)
          end
      end
  end.

(** ** Generate *)

(** The signed certificate and its key, in PEM, for a parent and a signer. *)
Definition issue (cert : Certificate) (parent : ptr (Certificate * PrivateKey)) :
    result (string * string) :=
  match GenerateKey keyBits with
  | None => Err "cannot generate RSA private key"
  | Some key =>
      let '(parent, signer) := default (cert, key) parent in
      match CreateCertificate cert parent (Public key) signer with
      | None => Err "cannot sign certificate"
      | Some der =>
          match MarshalPKCS8PrivateKey key with
          | None => Err "cannot encode private key"
          | Some keyDER =>
              Ok (pem_Encode (mkBlock "CERTIFICATE" der), pem_Encode (mkBlock "PRIVATE KEY" keyDER))
          end
      end
  end.

Definition bundle (kind certPEM keyPEM caPEM : string) : list output :=
  [mkOutput (cert_name kind) certPEM mode_0644; mkOutput (key_name kind) keyPEM mode_0600]
  ++ (if kind != certKindCA then [mkOutput "ca.pem" caPEM mode_0644] else []).

(** From the options to the files, when nothing is in the way. *)
Definition build (read_file : string → option string) (o : Options) (now : Z) (ips : list string) :
    result (list output) :=
  let kind := Options_Kind o in
  match rand_Int (Z.shiftl 1 serialBits) with
  | None => Err "cannot generate certificate serial"
  | Some serial =>
      let cert := template o now serial ips in
      if kind == certKindCA then
        try pems := issue cert None in
        Ok (bundle kind pems.1 pems.2 "")
      else
        try ca := loadCA read_file (Options_CACert o) (Options_CAKey o) in
        let '(parent, signer, caPEM) := ca in
        if (now <? NotBefore parent)%Z || (NotAfter parent <? NotAfter cert)%Z
        then Err "requested lifetime is outside CA validity"
        else
          try pems := issue cert (Some (parent, signer)) in
          Ok (bundle kind pems.1 pems.2 caPEM)
  end.

(** Generate, in the output directory. *)
Definition Generate (read_file : string → option string) (o : Options) (now : Z) (s : Fs) :
    option error * Fs :=
  match check_options o with
  | Err e => (Some e, s)
  | Ok ips =>
      let '(err, s) := if negb (Options_Force o) then check_existing (output_names (Options_Kind o)) s
                       else (None, s) in
      match err with
      | Some e => (Some e, s)
      | None =>
          match build read_file o now ips with
          | Err e => (Some e, s)
          | Ok files => writeBundle files (Options_Force o) s
          end
      end
  end.
End Generate.

(** ** Specification *)

(** A DNS label: letters, digits and inner hyphens, of at most 63 bytes. *)
Record Label (label : string) : Prop := {
  label_length : 1 ≤ String.length label ≤ 63;
  label_bytes : str_all is_ldh label = true;
  label_first : first_byte label ≠ Some "-"%char;
  label_last : last_byte label ≠ Some "-"%char
}.
(** A host name: labels between dots, an optional wildcard in front and root dot behind. *)
Definition DNSName (value : string) : Prop :=
  String.length value ≤ 253 ∧
  ∃ wildcard root labels, labels ≠ [] ∧ Forall Label labels ∧
    value = (if wildcard : bool then "*." else "") +:+ Join "." labels +:+ (if root : bool then "." else "").

(** Requests that Generate can serve. *)
Record ValidOptions `{!Crypto} (o : Options) (ips : list string) : Prop := {
  options_kind : Options_Kind o ∈ [certKindCA; certKindServer; certKindClient];
  options_name : TrimSpace (Options_Name o) ≠ "";
  options_out : Options_Out o ≠ "";
  options_days : (1 ≤ effective_days o ≤ maxDays)%Z;
  options_san : Options_Kind o = certKindServer → Options_DNS o ≠ [] ∨ Options_IP o ≠ [];
  options_ip : Forall2 (λ value ip, ParseIP value = Some ip) (Options_IP o) ips;
  options_dns : Forall DNSName (Options_DNS o)
}.

(** ** validDNS *)
Lemma bad_label_spec label : bad_label label = false ↔ Label label.
Proof.
  unfold bad_label. rewrite !orb_false_iff, Nat.eqb_neq, Nat.ltb_ge, !bool_decide_eq_false,
    str_any_negb.
  split; [intros [[[[? ?] ?] ?] ?]; split; done || lia|]. intros [[? ?] ? ? ?]. split_and!; done || lia.
Qed.

Lemma Label_no_dot label : Label label → contains_byte "." label = false.
Proof.
  intros [_ Hbytes _ _]. revert Hbytes. apply str_all_any. intros c Hc.
  by destruct c as [[] [] [] [] [] [] [] []].
Qed.

Lemma HasSuffix_dot s : HasSuffix s "." = true ↔ ∃ t, s = t +:+ ".".
Proof.
  unfold HasSuffix. split.
  - intros [Hlen%Nat.leb_le Hs%bool_decide_eq_true]%andb_true_iff. cbn in Hlen, Hs.
    exists (str_take (String.length s - 1) s). rewrite <- Hs. symmetry. apply str_take_drop.
  - intros [t ->]. rewrite str_length_app. cbn [String.length].
    rewrite (proj2 (Nat.leb_le _ _)) by lia. cbn [andb]. apply bool_decide_eq_true.
    replace (String.length t + 1 - 1) with (String.length t) by lia. by apply str_drop_app.
Qed.

Lemma TrimSuffix_dot t : TrimSuffix (t +:+ ".") "." = t.
Proof.
  unfold TrimSuffix. rewrite (proj2 (HasSuffix_dot _)) by eauto.
  rewrite str_length_app. cbn [String.length].
  replace (String.length t + 1 - 1) with (String.length t) by lia. apply str_take_app.
Qed.

Lemma TrimSuffix_other s : (∀ t, s ≠ t +:+ ".") → TrimSuffix s "." = s.
Proof.
  intros Hno. unfold TrimSuffix. destruct (HasSuffix s ".") eqn:Hs; [|done].
  apply HasSuffix_dot in Hs as [t Ht]. by apply Hno in Ht.
Qed.

Lemma TrimPrefix_other s prefix : (∀ t, s ≠ prefix +:+ t) → TrimPrefix s prefix = s.
Proof.
  intros Hno. unfold TrimPrefix. destruct (HasPrefix s prefix) eqn:Hs; [|done].
  apply HasPrefix_spec in Hs as [t Ht]. by apply Hno in Ht.
Qed.

(** Nonempty parts without dots, joined: no dot at either end. *)
Definition dotless (part : string) : Prop := part ≠ "" ∧ contains_byte "." part = false.

Lemma Label_dotless label : Label label → dotless label.
Proof. intros H. split; [|by apply Label_no_dot]. intros ->. destruct (label_length _ H) as [Hlen _]. by inversion Hlen. Qed.

Lemma Split_dotless parts :
  parts ≠ [] → Forall dotless parts → Split "." (Join "." parts) = parts.
Proof.
  intros Hne Hall. apply Split_Join; [done|]. eapply Forall_impl; [exact Hall|]. by intros ? [_ ?].
Qed.

Lemma Split_trailing sep t : Split sep (t +:+ String sep "") = Split sep t ++ [""].
Proof.
  induction t as [|c t IH].
  - simpl. by rewrite Ascii.eqb_refl.
  - rewrite str_app_cons. cbn [Split]. rewrite IH. destruct (Ascii.eqb c sep); [done|].
    pose proof (Split_ne_nil sep t). by destruct (Split sep t).
Qed.

Lemma dotless_no_suffix parts t :
  parts ≠ [] → Forall dotless parts → Join "." parts ≠ t +:+ ".".
Proof.
  intros Hne Hall Heq. apply (f_equal (Split ".")) in Heq.
  rewrite (Split_dotless _ Hne Hall), Split_trailing in Heq. rewrite Heq in Hall.
  apply Forall_app in Hall as [_ [[Hempty _] _]%Forall_cons]. done.
Qed.

Lemma dotless_no_wildcard labels t :
  labels ≠ [] → Forall Label labels → Join "." labels ≠ "*." +:+ t.
Proof.
  intros Hne Hall Heq. apply (f_equal (Split ".")) in Heq.
  rewrite Split_dotless in Heq; [|done|eapply Forall_impl; [exact Hall|apply Label_dotless]].
  change ("*." +:+ t) with ("*" +:+ String "." t) in Heq. rewrite Split_app in Heq by done.
  rewrite Heq in Hall. apply Forall_cons in Hall as [[_ Hbytes _ _] _]. done.
Qed.

Lemma labels_spec s : negb (existsb bad_label (Split "." s)) = true ↔ Forall Label (Split "." s).
Proof.
  rewrite negb_true_iff, <- not_true_iff_false, existsb_elem_of, Forall_forall.
  setoid_rewrite <- bad_label_spec. setoid_rewrite <- not_true_iff_false. naive_solver.
Qed.

Lemma validDNS_DNSName value : validDNS value = true ↔ DNSName value.
Proof.
  unfold validDNS, DNSName. split.
  - destruct (_ || _) eqn:Hlen; [done|]. apply orb_false_iff in Hlen as [_ Hlen%Nat.ltb_ge].
    cbv zeta. intros Hlabels%labels_spec. split; [done|].
    assert (Hroot : ∃ root : bool, value = TrimSuffix value "." +:+ (if root then "." else "")).
    { destruct (HasSuffix value ".") eqn:Hs.
      - apply HasSuffix_dot in Hs as [t ->]. exists true. by rewrite TrimSuffix_dot.
      - exists false. unfold TrimSuffix. by rewrite Hs, str_app_nil_r. }
    destruct Hroot as [root Hroot]. set (v := TrimSuffix value ".") in *.
    assert (Hwild : ∃ w : bool, v = (if w then "*." else "") +:+ TrimPrefix v "*.").
    { destruct (HasPrefix v "*.") eqn:Hp.
      - apply HasPrefix_spec in Hp as [t Ht]. rewrite Ht. exists true. by rewrite TrimPrefix_app.
      - exists false. unfold TrimPrefix. by rewrite Hp. }
    destruct Hwild as [w Hwild].
    exists w, root, (Split "." (TrimPrefix v "*.")). split; [apply Split_ne_nil|]. split; [done|].
    by rewrite Join_Split, <- str_app_assoc, <- Hwild.
  - intros (Hlen & w & root & labels & Hne & Hall & Hvalue).
    assert (Hdotless : Forall dotless labels) by (eapply Forall_impl; [exact Hall|apply Label_dotless]).
    set (v := (if w then "*." else "") +:+ Join "." labels).
    assert (Hv : ∀ t, v ≠ t +:+ ".").
    { intros t. unfold v. destruct w; [|by apply dotless_no_suffix].
      change ("*." +:+ Join "." labels) with ("*" +:+ String "." (Join "." labels)).
      rewrite <- Join_cons by done. apply dotless_no_suffix; [done|]. by constructor. }
    assert (Htrim : TrimSuffix value "." = v).
    { rewrite Hvalue, <- str_app_assoc. fold v. destruct root; [apply TrimSuffix_dot|].
      rewrite str_app_nil_r. by apply TrimSuffix_other. }
    assert (Hprefix : TrimPrefix v "*." = Join "." labels).
    { unfold v. destruct w; [apply TrimPrefix_app|]. apply TrimPrefix_other.
      intros t. by apply dotless_no_wildcard. }
    assert (Hnonempty : String.length value ≠ 0).
    { destruct value; [|done]. rewrite <- Htrim in Hprefix.
      destruct labels as [|l labels]; [done|]. apply Forall_cons in Hdotless as [[Hl _] _].
      destruct l; [done|]. by destruct labels. }
    rewrite (proj2 (orb_false_iff _ _)) by (rewrite Nat.eqb_neq, Nat.ltb_ge; split; [done|lia]).
    cbv zeta. rewrite Htrim, Hprefix. apply labels_spec. by rewrite Split_dotless.
Qed.

(** C37. A DNS name is accepted exactly when it is at most 253 bytes of dot-separated labels,
    each of 1 to 63 letters, digits and inner hyphens, with at most a "*." in front and at
    most one dot behind. *)
Theorem validDNS_spec value : validDNS value = true ↔ DNSName value.
Proof. apply validDNS_DNSName. Qed.

(** ** Options *)
Section properties.
Context `{!Crypto, !Host}.

Lemma parse_ips_Some values ips :
  parse_ips values = Some ips ↔ Forall2 (λ value ip, ParseIP value = Some ip) values ips.
Proof.
  revert ips. induction values as [|value values IH]; intros ips; cbn [parse_ips].
  { split; [by intros [= <-]|]. by intros ->%Forall2_nil_inv_l. }
  destruct (ParseIP value) as [ip|] eqn:Hip; cbn.
  - destruct (parse_ips values) as [ips'|] eqn:Hips; cbn.
    + split.
      * intros [= <-]. constructor; [done|]. by apply IH.
      * intros (ip' & l & Hip' & Hl & ->)%Forall2_cons_inv_l. apply IH in Hl. congruence.
    + split; [done|]. intros (ip' & l & Hip' & Hl & ->)%Forall2_cons_inv_l. by apply IH in Hl.
  - split; [done|]. intros (ip' & l & Hip' & _ & _)%Forall2_cons_inv_l. congruence.
Qed.

Lemma dns_all names : forallb validDNS names = true ↔ Forall DNSName names.
Proof. rewrite forallb_elem_of, Forall_forall. by setoid_rewrite validDNS_DNSName. Qed.

Lemma check_options_Ok o ips : check_options o = Ok ips ↔ ValidOptions o ips.
Proof.
  unfold check_options. split.
  - destruct (_ && _ && _) eqn:Hkind; [done|].
    rewrite !andb_false_iff, !negb_false_iff, !bool_decide_eq_true in Hkind.
    destruct (_ || _) eqn:Hname; [done|]. rewrite orb_false_iff, !bool_decide_eq_false in Hname.
    destruct (_ || _) eqn:Hdays; [done|]. rewrite orb_false_iff, !Z.ltb_ge in Hdays.
    destruct (_ && _) eqn:Hsan; [done|].
    rewrite andb_false_iff, bool_decide_eq_false, Nat.eqb_neq in Hsan.
    destruct (parse_ips _) as [ips'|] eqn:Hips; [|done].
    destruct (forallb _ _) eqn:Hdns; [|done]. intros [= ->].
    split; [|tauto|tauto|lia| |by apply parse_ips_Some|by apply dns_all].
    + set_solver.
    + intros Hserver. destruct Hsan as [|Hsan]; [done|].
      destruct (Options_DNS o); [|by left]. destruct (Options_IP o); [done|by right].
  - intros [Hkind Hname Hout Hdays Hsan Hips Hdns].
    rewrite (proj2 (andb_false_iff _ _)), (bool_decide_eq_false_2 _ Hname),
      (bool_decide_eq_false_2 _ Hout).
    + rewrite (proj2 (orb_false_iff (_ <? 1)%Z _)) by (rewrite !Z.ltb_ge; lia). cbn [orb].
      rewrite (proj2 (parse_ips_Some _ _) Hips), (proj2 (dns_all _) Hdns).
      case_bool_decide as Hs; [|done]. destruct (Hsan Hs) as [?|?].
      * by destruct (Options_DNS o).
      * destruct (Options_IP o); [done|]. cbn [length].
        by rewrite Nat.add_succ_r.
    + rewrite andb_false_iff, !negb_false_iff, !bool_decide_eq_true. set_solver.
Qed.

(** ** The certificate *)
Lemma lifetime_exact days : (1 <= days <= maxDays)%Z → lifetime days = (days * 24 * Hour)%Z.
Proof. unfold lifetime, maxDays, Hour, Minute. intros Hd.
  rewrite (wrap64_id (days * 24)) by lia. apply wrap64_id. lia. Qed.

(** What a certificate is good for follows its kind: only a CA may sign, only a
    server or a client certificate authenticates, each in its own role; and its lifetime
    is the requested number of days exactly, 36500 of them being within a 64-bit
    duration. *)
Theorem template_profile o now serial ips :
  ValidOptions o ips →
  let cert := template o now serial ips in
  (IsCA cert = true ↔ Options_Kind o = certKindCA) ∧
  (Z.land (KeyUsage cert) KeyUsageCertSign ≠ 0%Z ↔ Options_Kind o = certKindCA) ∧
  (ExtKeyUsageServerAuth ∈ ExtKeyUsages cert ↔ Options_Kind o = certKindServer) ∧
  (ExtKeyUsageClientAuth ∈ ExtKeyUsages cert ↔ Options_Kind o = certKindClient) ∧
  (DNSNames cert ≠ [] ∨ IPAddresses cert ≠ [] ↔ Options_Kind o = certKindServer) ∧
  NotAfter cert = (now + effective_days o * 24 * Hour)%Z.
Proof.
  intros [Hkind _ _ Hdays Hsan Hips _]. cbv zeta. unfold template; cbn.
  rewrite (lifetime_exact _ Hdays).
  destruct o as [kind name days dns ip cacert cakey out force]; cbn in *.
  apply elem_of_cons in Hkind as [->|[->|[->|[]%not_elem_of_nil]%elem_of_cons]%elem_of_cons].
  - change (certKindCA == certKindCA) with true. change (certKindCA == certKindServer) with false.
    split_and!; try done; split; try done; set_solver.
  - change (certKindServer == certKindCA) with false.
    change (certKindServer == certKindServer) with true.
    split_and!; try done; split; try done; try set_solver. intros _.
    destruct (Hsan eq_refl) as [?|Hip]; [by left|right].
    intros ->. by apply Forall2_nil_inv_r in Hips.
  - change (certKindClient == certKindCA) with false.
    change (certKindClient == certKindServer) with false.
    split_and!; try done; split; try done; set_solver.
Qed.
End properties.

(** ** Loading the signing CA *)

(** A file with one PEM block and nothing else but white space. *)
Definition OnePem `{!Crypto} (data : string) (block : Block) : Prop :=
  ∃ rest, pem_Decode data = (Some block, rest) ∧ TrimSpace rest = "".

(** A certificate that may sign, with the RSA key that belongs to it. *)
Record SigningCA `{!Crypto} (read_file : string → option string) (certPath keyPath : string)
    (cert : Certificate) (key : PrivateKey) (certPEM : string) : Prop := {
  ca_certificate : read_file certPath = Some certPEM ∧ ∃ der,
    OnePem certPEM (mkBlock "CERTIFICATE" der) ∧
    ∃ pub, ParseCertificate der = Some (cert, Some pub) ∧ PublicKey_Equal pub (Public key) = true;
  ca_signs : IsCA cert = true ∧ BasicConstraintsValid cert = true ∧
    Z.land (KeyUsage cert) KeyUsageCertSign ≠ 0%Z;
  ca_key : ∃ keyPEM block, read_file keyPath = Some keyPEM ∧ OnePem keyPEM block ∧
    (Block_Type block = "RSA PRIVATE KEY" ∧ ParsePKCS1PrivateKey (Block_Bytes block) = Some key ∨
     Block_Type block = "PRIVATE KEY" ∧ ParsePKCS8PrivateKey (Block_Bytes block) = Some (Some key)) ∧
    Validate_key key = true
}.

Section loading.
Context `{!Crypto, !Host}.

Lemma blank_spec rest : negb (String.length (TrimSpace rest) =? 0)%nat = false ↔ TrimSpace rest = "".
Proof. rewrite negb_false_iff, Nat.eqb_eq. by destruct (TrimSpace rest). Qed.

Lemma load_certificate_Ok certPEM cert pub :
  load_certificate certPEM = Ok (cert, pub) ↔
  ∃ der, OnePem certPEM (mkBlock "CERTIFICATE" der) ∧ ParseCertificate der = Some (cert, pub) ∧
    IsCA cert = true ∧ BasicConstraintsValid cert = true ∧ Z.land (KeyUsage cert) KeyUsageCertSign ≠ 0%Z.
Proof.
  unfold load_certificate, OnePem. split.
  - destruct (pem_Decode certPEM) as [[[ty der]|] rest] eqn:Hpem; [|done].
    cbn [Block_Type Block_Bytes]. destruct (_ || _) eqn:Hguard; [done|].
    apply orb_false_iff in Hguard as [Hty%negb_false_iff Hrest%blank_spec].
    apply bool_decide_eq_true in Hty as ->.
    destruct (ParseCertificate der) as [[c p]|] eqn:Hparse; [|done].
    destruct (_ || _ || _) eqn:Hca; [done|]. intros [= -> ->].
    rewrite !orb_false_iff, !negb_false_iff, bool_decide_eq_false in Hca.
    exists der. split_and!; try tauto. by exists rest.
  - intros (der & (rest & -> & Hrest) & Hparse & HCA & Hbasic & Husage).
    cbn [Block_Type Block_Bytes]. rewrite bool_decide_eq_true_2 by done. cbn [negb orb].
    rewrite (proj2 (blank_spec rest) Hrest), Hparse, HCA, Hbasic. cbn [negb orb].
    by rewrite bool_decide_eq_false_2.
Qed.

Lemma parse_key_Some block key :
  parse_key block = Some key ↔
  Block_Type block = "RSA PRIVATE KEY" ∧ ParsePKCS1PrivateKey (Block_Bytes block) = Some key ∨
  Block_Type block = "PRIVATE KEY" ∧ ParsePKCS8PrivateKey (Block_Bytes block) = Some (Some key).
Proof.
  unfold parse_key. case_bool_decide as Hrsa.
  { split; [by left|]. intros [[_ ?]|[Ht _]]; [done|]. rewrite Hrsa in Ht. done. }
  case_bool_decide as Hpkcs8.
  - split; [intros Hk; right; split; [done|]; destruct (ParsePKCS8PrivateKey _); congruence|].
    intros [[? _]|[_ ->]]; done.
  - split; [done|]. by intros [[? _]|[? _]].
Qed.

Lemma load_key_Ok keyPEM key :
  load_key keyPEM = Ok key ↔
  ∃ block, OnePem keyPEM block ∧
    (Block_Type block = "RSA PRIVATE KEY" ∧ ParsePKCS1PrivateKey (Block_Bytes block) = Some key ∨
     Block_Type block = "PRIVATE KEY" ∧ ParsePKCS8PrivateKey (Block_Bytes block) = Some (Some key)) ∧
    Validate_key key = true.
Proof.
  unfold load_key, OnePem. setoid_rewrite <- parse_key_Some. split.
  - destruct (pem_Decode keyPEM) as [[block|] rest] eqn:Hpem; [|done].
    destruct (negb (String.length _ =? 0)%nat) eqn:Hrest; [done|]. apply blank_spec in Hrest.
    destruct (parse_key block) as [k|] eqn:Hk; [|done].
    destruct (Validate_key k) eqn:Hv; [|done]. intros [= ->].
    exists block. split_and!; [by exists rest|done..].
  - intros (block & (rest & -> & Hrest) & Hk & Hv).
    by rewrite (proj2 (blank_spec rest) Hrest), Hk, Hv.
Qed.

Lemma loadCA_Ok read_file certPath keyPath cert key certPEM :
  loadCA read_file certPath keyPath = Ok (cert, key, certPEM) ↔
  SigningCA read_file certPath keyPath cert key certPEM.
Proof.
  unfold loadCA. split.
  - destruct (read_file certPath) as [pem|] eqn:Hcert; [|done].
    intros ([c p] & (der & Hpem & Hparse & Hsigns)%load_certificate_Ok & Hload)%result_bind_Ok.
    destruct (read_file keyPath) as [keyPEM|] eqn:Hkey; [|done].
    apply result_bind_Ok in Hload as (k & (block & Hblock & Hk)%load_key_Ok & Hload).
    cbn [fst snd] in Hload. destruct p as [pub|]; [|done].
    destruct (PublicKey_Equal pub (Public k)) eqn:Hequal; [|done]. injection Hload as -> -> ->.
    split; [|done|].
    + split; [done|]. exists der. split; [done|]. by exists pub.
    + by exists keyPEM, block.
  - intros [(-> & der & Hpem & pub & Hparse & Hequal) Hsigns (keyPEM & block & -> & Hblock & Hk)].
    apply result_bind_Ok. exists (cert, Some pub).
    split; [apply load_certificate_Ok; by exists der|].
    apply result_bind_Ok. exists key. split; [apply load_key_Ok; by exists block|].
    cbn [fst snd]. by rewrite Hequal.
Qed.

(** C35. The signing CA is accepted exactly when its certificate file is one CERTIFICATE
    block of a CA that may sign and its key file one block with the valid RSA key of that
    certificate. *)
Theorem loadCA_spec read_file certPath keyPath cert key certPEM :
  loadCA read_file certPath keyPath = Ok (cert, key, certPEM) ↔
  SigningCA read_file certPath keyPath cert key certPEM.
Proof. apply loadCA_Ok. Qed.
End loading.

(** ** Generate *)

(** The files of a certificate of [o]: it is signed by its own key when it is a CA, and
    by a CA that may sign and outlives it otherwise. *)
Definition Issued `{!Crypto} (read_file : string → option string) (o : Options) (now : Z)
    (ips : list string) (files : list output) : Prop :=
  ∃ serial key der keyDER parent signer caPEM,
    let cert := template o now serial ips in
    rand_Int (2 ^ 159) = Some serial ∧ GenerateKey 3072 = Some key ∧
    (if Options_Kind o == certKindCA then parent = cert ∧ signer = key
     else SigningCA read_file (Options_CACert o) (Options_CAKey o) parent signer caPEM ∧
          (NotBefore parent <= now)%Z ∧ (NotAfter cert <= NotAfter parent)%Z) ∧
    CreateCertificate cert parent (Public key) signer = Some der ∧
    MarshalPKCS8PrivateKey key = Some keyDER ∧
    files = bundle (Options_Kind o) (pem_Encode (mkBlock "CERTIFICATE" der))
              (pem_Encode (mkBlock "PRIVATE KEY" keyDER)) caPEM.

Section generating.
Context `{!Crypto, !Host}.

Lemma issue_Ok cert parent pems :
  issue cert parent = Ok pems ↔
  ∃ key der keyDER, GenerateKey 3072 = Some key ∧
    CreateCertificate cert (default (cert, key) parent).1 (Public key) (default (cert, key) parent).2
      = Some der ∧
    MarshalPKCS8PrivateKey key = Some keyDER ∧
    pems = (pem_Encode (mkBlock "CERTIFICATE" der), pem_Encode (mkBlock "PRIVATE KEY" keyDER)).
Proof.
  unfold issue, keyBits. split.
  - destruct (GenerateKey 3072) as [key|] eqn:Hkey; [|done].
    destruct (default (cert, key) parent) as [p signer] eqn:Hp.
    destruct (CreateCertificate _ _ _ _) as [der|] eqn:Hder; [|done].
    destruct (MarshalPKCS8PrivateKey key) as [keyDER|] eqn:Hmarshal; [|done].
    intros [= <-]. exists key, der, keyDER. by rewrite Hp.
  - intros (key & der & keyDER & -> & Hder & Hmarshal & ->).
    destruct (default (cert, key) parent) as [p signer]. cbn [fst snd] in Hder.
    by rewrite Hder, Hmarshal.
Qed.

Lemma build_Ok read_file o now ips files :
  build read_file o now ips = Ok files ↔ Issued read_file o now ips files.
Proof.
  unfold build, Issued. cbv zeta. change (Z.shiftl 1 serialBits) with (2 ^ 159)%Z.
  destruct (rand_Int (2 ^ 159)) as [serial|]; [|split; [done|by intros (? & ? & ? & ? & ? & ? & ? & ? & _)]].
  case_bool_decide as Hkind.
  - rewrite Hkind. split.
    + intros (pems & (key & der & keyDER & Hkey & Hder & Hmarshal & ->)%issue_Ok & [= <-])%result_bind_Ok.
      exists serial, key, der, keyDER, (template o now serial ips), key, "". split_and!; done.
    + intros (serial' & key & der & keyDER & parent & signer & caPEM & [= <-] & Hkey & [-> ->] & Hder &
        Hmarshal & ->).
      apply result_bind_Ok. eexists. split; [apply issue_Ok; by exists key, der, keyDER|].
      cbn [fst snd]. f_equal.
  - split.
    + intros ([[parent signer] caPEM] & Hca%loadCA_Ok & Hrun)%result_bind_Ok.
      destruct (_ || _) eqn:Hlife; [done|]. rewrite orb_false_iff, !Z.ltb_ge in Hlife.
      apply result_bind_Ok in Hrun as
        (pems & (key & der & keyDER & Hkey & Hder & Hmarshal & ->)%issue_Ok & [= <-]).
      exists serial, key, der, keyDER, parent, signer, caPEM. split_and!; tauto || done.
    + intros (serial' & key & der & keyDER & parent & signer & caPEM & [= <-] & Hkey &
        (Hca & Hbefore & Hafter) & Hder & Hmarshal & ->).
      apply result_bind_Ok. exists (parent, signer, caPEM). split; [by apply loadCA_Ok|].
      rewrite (proj2 (orb_false_iff _ _)) by (rewrite !Z.ltb_ge; done).
      apply result_bind_Ok. eexists. split; [apply issue_Ok; by exists key, der, keyDER|done].
Qed.

(** *** The files of a bundle *)
Lemma bundle_names kind certPEM keyPEM caPEM :
  output_name <$> bundle kind certPEM keyPEM caPEM = output_names kind.
Proof. unfold bundle, output_names. by case_bool_decide. Qed.

Lemma output_names_spec kind :
  NoDup (output_names kind) ∧ ∀ name, name ∈ output_names kind → ¬ is_temp name.
Proof.
  assert (Hnames : output_names kind ∈
    [["server-cert.pem"; "server-key.pem"; "ca.pem"]; ["ca.pem"; "ca-key.pem"];
     ["cert.pem"; "key.pem"; "ca.pem"]]).
  { unfold output_names, cert_name, key_name.
    destruct (decide (kind = certKindServer)) as [->|Hs]; [left|].
    rewrite !(bool_decide_eq_false_2 _ Hs). right.
    destruct (decide (kind = certKindCA)) as [->|Hc]; [left|right].
    rewrite !(bool_decide_eq_false_2 _ Hc). left. }
  split.
  - repeat (apply elem_of_cons in Hnames as [->|Hnames]; [vm_compute; repeat constructor; set_solver|]).
    by apply not_elem_of_nil in Hnames.
  - apply Forall_forall.
    repeat (apply elem_of_cons in Hnames as [->|Hnames]; [repeat constructor; by vm_compute|]).
    by apply not_elem_of_nil in Hnames.
Qed.

Lemma check_existing_spec names s err s' :
  check_existing names s = (err, s') →
  Fs_dir s' = Fs_dir s ∧ (err = None → ∀ name, name ∈ names → Fs_dir s !! name = None).
Proof.
  revert s. induction names as [|name names IH]; intros s; cbn [check_existing].
  { intros [= <- <-]. split; [done|]. by intros _ ? ?%not_elem_of_nil. }
  unfold os_Lstat. destruct (syscall_cases Lstat id id s) as [-> | ->]; [|by intros [= <- <-]].
  cbn [Fs_dir]. unfold id. case_bool_decide as Hname; [by intros [= <- <-]|].
  intros [Hdir Hnames]%IH. split; [done|]. intros Herr k [->|Hk]%elem_of_cons; [|by apply Hnames].
  by apply eq_None_not_Some.
Qed.

(** The ways in which Generate ends. *)
Lemma Generate_cases read_file o now s err s' :
  Generate read_file o now s = (err, s') →
  (is_Some err ∧ Fs_dir s' = Fs_dir s) ∨
  ∃ ips files s1, ValidOptions o ips ∧ Issued read_file o now ips files ∧ Fs_dir s1 = Fs_dir s ∧
    (Options_Force o = false → ∀ name, name ∈ output_names (Options_Kind o) → Fs_dir s !! name = None) ∧
    writeBundle files (Options_Force o) s1 = (err, s').
Proof.
  unfold Generate.
  destruct (check_options o) as [ips|e] eqn:Hoptions; [|by intros [= <- <-]; left].
  apply check_options_Ok in Hoptions.
  assert (Hcheck : ∃ e s1, (if negb (Options_Force o) then check_existing (output_names (Options_Kind o)) s
      else (None, s)) = (e, s1) ∧ Fs_dir s1 = Fs_dir s ∧
      (e = None → Options_Force o = false → ∀ name, name ∈ output_names (Options_Kind o) →
         Fs_dir s !! name = None)).
  { destruct (Options_Force o); cbn [negb]; [by eexists _, _|].
    destruct (check_existing _ s) as [e s1] eqn:He. exists e, s1.
    apply check_existing_spec in He as [Hd Hn]. split; [done|]. split; [exact Hd|].
    intros -> _. by apply Hn. }
  destruct Hcheck as (e & s1 & -> & Hdir & Hnames).
  destruct e as [e|]; [intros [= <- <-]; left; by split|].
  destruct (build read_file o now ips) as [files|e] eqn:Hbuild; [|intros [= <- <-]; left; by split].
  apply build_Ok in Hbuild. intros Hwrite. right. exists ips, files, s1. split_and!; auto.
Qed.

Lemma Issued_names read_file o now ips files :
  Issued read_file o now ips files →
  NoDup (output_name <$> files) ∧ ∀ f, f ∈ files → ¬ is_temp (output_name f).
Proof.
  intros (serial & key & der & keyDER & parent & signer & caPEM & _ & _ & _ & _ & _ & ->).
  rewrite bundle_names. destruct (output_names_spec (Options_Kind o)) as [? Hnames].
  split; [done|]. intros f Hf. apply Hnames. rewrite <- (bundle_names _ (pem_Encode (mkBlock "CERTIFICATE" der))
    (pem_Encode (mkBlock "PRIVATE KEY" keyDER)) caPEM). by apply list_elem_of_fmap_2.
Qed.

(** The new state of the directory after a successful run. *)
Lemma Generate_success read_file o now s s' :
  Generate read_file o now s = (None, s') →
  ∃ ips files, ValidOptions o ips ∧ Issued read_file o now ips files ∧
    (∀ f, f ∈ files → Fs_dir s' !! output_name f = Some (complete f)) ∧
    (∀ name, name ∉ output_names (Options_Kind o) → ¬ is_temp name → Fs_dir s' !! name = Fs_dir s !! name) ∧
    (Options_Force o = false → ∀ name, name ∈ output_names (Options_Kind o) → Fs_dir s !! name = None).
Proof.
  intros [[[? [=]] _]|(ips & files & s1 & Hvalid & Hissued & Hdir & Hnone & Hwrite)]%Generate_cases.
  destruct (Issued_names _ _ _ _ _ Hissued) as [Hnd Hnames].
  destruct (writeBundle_outcome _ _ _ _ _ Hnames Hnd Hwrite) as (Hany & Hall & _).
  exists ips, files. split_and!; [done|done|by apply Hall| |done].
  intros name Hname Htemp. rewrite <- Hdir. destruct (Hany name Htemp) as [?|(f & Hf & <- & _)]; [done|].
  destruct Hname. destruct Hissued as (serial & key & der & keyDER & parent & signer & caPEM & _ & _ & _ & _ & _ & ->).
  rewrite <- (bundle_names (Options_Kind o) (pem_Encode (mkBlock "CERTIFICATE" der))
    (pem_Encode (mkBlock "PRIVATE KEY" keyDER)) caPEM). by apply list_elem_of_fmap_2.
Qed.

(** C32. When Generate succeeds, the options were valid; the certificate is the requested
    one, signed by its own key when it is a CA and otherwise by a CA that may sign, is valid
    now and outlives it; every file of the bundle is complete under its name, the private
    key readable by its owner only; and no other file has changed. *)
Theorem Generate_spec read_file o now s s' :
  Generate read_file o now s = (None, s') →
  ∃ ips files, ValidOptions o ips ∧ Issued read_file o now ips files ∧
    (∀ f, f ∈ files → Fs_dir s' !! output_name f = Some (mkFile (output_data f) (output_mode f))) ∧
    (∃ key, Fs_dir s' !! key_name (Options_Kind o) = Some (mkFile key mode_0600)) ∧
    (∀ name, name ∉ output_names (Options_Kind o) → ¬ is_temp name → Fs_dir s' !! name = Fs_dir s !! name).
Proof.
  intros (ips & files & Hvalid & Hissued & Hfiles & Hrest & _)%Generate_success.
  exists ips, files. split_and!; [done..| |done].
  destruct Hissued as (serial & key & der & keyDER & parent & signer & caPEM & _ & _ & _ & _ & _ & ->).
  exists (pem_Encode (mkBlock "PRIVATE KEY" keyDER)).
  apply (Hfiles (mkOutput (key_name (Options_Kind o)) (pem_Encode (mkBlock "PRIVATE KEY" keyDER)) mode_0600)).
  unfold bundle. right. left.
Qed.

(** C33. Without --force, Generate never replaces, removes or changes a file that exists,
    and when it fails it leaves the directory exactly as it was, where removing files
    works; whatever system calls fail. *)
Theorem Generate_preserves read_file o now s err s' :
  Options_Force o = false → Generate read_file o now s = (err, s') →
  (∀ name f, Fs_dir s !! name = Some f → Fs_dir s' !! name = Some f) ∧
  (is_Some err → reliable_remove → Fs_dir s' = Fs_dir s).
Proof.
  intros Hforce [[_ Heq]|(ips & files & s1 & _ & Hissued & Hdir & _ & Hwrite)]%Generate_cases.
  { by rewrite Heq. }
  destruct (Issued_names _ _ _ _ _ Hissued) as [_ Hnames]. rewrite Hforce in Hwrite.
  rewrite <- Hdir. by eapply writeBundle_unforced.
Qed.

(** *** A generated CA can be used *)

(** What a certificate says of its template: instants are kept to the second. *)
Definition seconds (t : Z) : Z := 1000000000 * (t / 1000000000).
Definition parsed (cert : Certificate) : Certificate :=
  {| SerialNumber := SerialNumber cert; CommonName := CommonName cert;
     NotBefore := seconds (NotBefore cert); NotAfter := seconds (NotAfter cert);
     IsCA := IsCA cert; BasicConstraintsValid := BasicConstraintsValid cert;
     KeyUsage := KeyUsage cert; ExtKeyUsages := ExtKeyUsages cert;
     DNSNames := DNSNames cert; IPAddresses := IPAddresses cert |}.
(** The templates of authorities, which have a positive serial number, state their basic
    constraints, use the nine bits of the key usage extension, and name no host. *)
Record Authority (cert : Certificate) : Prop := {
  authority_serial : (0 < SerialNumber cert)%Z;
  authority_ca : IsCA cert = true;
  authority_basic : BasicConstraintsValid cert = true;
  authority_usage : (0 <= KeyUsage cert < 2 ^ 9)%Z;
  authority_names : ExtKeyUsages cert = [] ∧ DNSNames cert = [] ∧ IPAddresses cert = []
}.

(** What the crypto packages document: rand.Int stays below its bound; PEM and, for valid
    keys, PKCS8 decode what they encode; a generated key is valid; a certificate that was
    signed for an authority parses to what its template said and the key it was made for.
    A key is the tuple of its numbers. *)
Record CryptoLaws : Prop := {
  rand_range : ∀ max n, rand_Int max = Some n → (0 <= n < max)%Z;
  pem_roundtrip : ∀ ty bytes, ty ∈ ["CERTIFICATE"; "PRIVATE KEY"] →
    pem_Decode (pem_Encode (mkBlock ty bytes)) = (Some (mkBlock ty bytes), "");
  generated_valid : ∀ key, GenerateKey keyBits = Some key → Validate_key key = true;
  pkcs8_roundtrip : ∀ key der, Validate_key key = true → MarshalPKCS8PrivateKey key = Some der →
    ParsePKCS8PrivateKey der = Some (Some key);
  certificate_roundtrip : ∀ cert key der, Authority cert → Validate_key key = true →
    CreateCertificate cert cert (Public key) key = Some der →
    ParseCertificate der = Some (parsed cert, Some (Public key));
  public_refl : ∀ pub, PublicKey_Equal pub pub = true
}.

Lemma template_authority o now serial ips :
  Options_Kind o = certKindCA → (0 <= serial)%Z → Authority (template o now serial ips).
Proof.
  intros Hkind Hserial. unfold template. rewrite Hkind. split; cbn; [lia|done|done| |done].
  split; vm_compute; congruence.
Qed.

(** C36. A CA that Generate has written is one that loadCA accepts: its files, read back,
    give the certificate that was requested, under the serial number that was drawn and to
    the second, with the key of 3072 bits that was generated. *)
Theorem Generate_loadCA read_file read_file' o now s s' certPath keyPath :
  CryptoLaws → Options_Kind o = certKindCA → Generate read_file o now s = (None, s') →
  read_file' certPath = file_data <$> Fs_dir s' !! "ca.pem" →
  read_file' keyPath = file_data <$> Fs_dir s' !! "ca-key.pem" →
  ∃ serial ips key certPEM,
    loadCA read_file' certPath keyPath = Ok (parsed (template o now serial ips), key, certPEM) ∧
    rand_Int (2 ^ 159) = Some serial ∧ GenerateKey 3072 = Some key ∧
    Fs_dir s' !! "ca.pem" = Some (mkFile certPEM mode_0644).
Proof.
  intros Hlaws Hkind (ips & files & _ & Hissued & Hfiles & _)%Generate_success Hcert Hkey.
  destruct Hissued as (serial & key & der & keyDER & parent & signer & caPEM & Hserial & Hgen & Hsigner & Hder &
    Hmarshal & ->).
  rewrite Hkind in Hfiles, Hsigner. cbn in Hsigner. destruct Hsigner as [-> ->].
  pose proof (Hfiles (mkOutput "ca.pem" (pem_Encode (mkBlock "CERTIFICATE" der)) mode_0644) (list_elem_of_here _ _)) as Hcertfile.
  pose proof (Hfiles (mkOutput "ca-key.pem" (pem_Encode (mkBlock "PRIVATE KEY" keyDER)) mode_0600)
    (list_elem_of_further _ _ _ (list_elem_of_here _ _))) as Hkeyfile.
  cbn [output_name] in Hcertfile, Hkeyfile. rewrite Hcertfile in Hcert. rewrite Hkeyfile in Hkey.
  pose proof (generated_valid Hlaws _ Hgen) as Hvalid.
  pose proof (proj1 (rand_range Hlaws _ _ Hserial)) as Hpositive.
  pose proof (certificate_roundtrip Hlaws _ _ _ (template_authority o now serial ips Hkind Hpositive) Hvalid Hder) as Hparse.
  exists serial, ips, key, (pem_Encode (mkBlock "CERTIFICATE" der)). split_and!; [|done|done|exact Hcertfile].
  apply loadCA_Ok. split.
  - split; [exact Hcert|]. exists der. split.
    + exists "". split; [|done]. apply (pem_roundtrip Hlaws). left.
    + exists (Public key). split; [done|apply (public_refl Hlaws)].
  - unfold parsed, template; cbn. by rewrite Hkind.
  - exists (pem_Encode (mkBlock "PRIVATE KEY" keyDER)), (mkBlock "PRIVATE KEY" keyDER).
    split; [exact Hkey|]. split; [exists ""; split; [|done]; apply (pem_roundtrip Hlaws); right; left|].
    split; [right; split; [done|]; by apply (pkcs8_roundtrip Hlaws)|done].
Qed.
End generating.

(** ** Example: a CA, and a server certificate that it signs

    A toy crypto whose certificates are the encoded fields of their template. *)
Module Example.
Fixpoint digits (p : positive) : string :=
  match p with xH => "" | xO p => String "0" (digits p) | xI p => String "1" (digits p) end.
Fixpoint undigits (s : string) : positive :=
  match s with
  | EmptyString => xH
  | String c s => if Ascii.eqb c "0" then xO (undigits s) else xI (undigits s)
  end.
Lemma undigits_digits p : undigits (digits p) = p.
Proof. induction p as [p IH|p IH|]; cbn; by rewrite ?IH. Qed.

Definition is_server_auth (u : ExtKeyUsage) : bool :=
  match u with ExtKeyUsageServerAuth => true | ExtKeyUsageClientAuth => false end.
Definition der (c : Certificate) (pub : string) : string :=
  digits (encode (SerialNumber c, CommonName c, NotBefore c, NotAfter c, IsCA c, BasicConstraintsValid c,
    KeyUsage c, is_server_auth <$> ExtKeyUsages c, DNSNames c, IPAddresses c, pub)).
Definition parse (s : string) : option (Certificate * option string) :=
  '(serial, name, before, after, ca, basic, usage, ext, dns, ips, pub) ← decode (undigits s);
  Some (mkCertificate serial name before after ca basic usage
    ((λ b : bool, if b then ExtKeyUsageServerAuth else ExtKeyUsageClientAuth) <$> ext) dns ips, Some pub).
Definition pem_types : list string := ["CERTIFICATE"; "PRIVATE KEY"].
Definition pem (b : Block) : string := Block_Type b +:+ ":" +:+ Block_Bytes b.
Definition unpem (data : string) : ptr Block * string :=
  if HasPrefix data "CERTIFICATE:" then (Some (mkBlock "CERTIFICATE" (str_drop 12 data)), "")
  else if HasPrefix data "PRIVATE KEY:" then (Some (mkBlock "PRIVATE KEY" (str_drop 12 data)), "")
  else (None, data).

#[local] Existing Instance PkiBundle.Example.host.
#[export] Instance crypto : Crypto := {|
  PrivateKey := string;
  PublicKey := string;
  Public key := key;
  PublicKey_Equal a b := a == b;
  Validate_key key := key == "the key";
  rand_Int max := if (41 <? max)%Z then Some 41%Z else None;
  GenerateKey bits := if (1024 <=? bits)%Z then Some "the key" else None;
  CreateCertificate cert parent pub signer := Some (der (parsed cert) pub);
  MarshalPKCS8PrivateKey key := Some key;
  ParsePKCS1PrivateKey s := None;
  ParsePKCS8PrivateKey s := Some (Some s);
  ParseCertificate := parse;
  pem_Decode := unpem;
  pem_Encode := pem;
  ParseIP value := if value == "127.0.0.1" then Some "7F000001" else None
|}.

Lemma laws : CryptoLaws.
Proof.
  split.
  - cbn. intros max n. destruct (Z.ltb_spec 41 max); [|done]. intros [= <-]. lia.
  - intros ty bytes [->|[->|[]%not_elem_of_nil]%elem_of_cons]%elem_of_cons; destruct bytes; reflexivity.
  - by intros key [= <-].
  - by intros key d _ [= ->].
  - intros cert key d [_ _ _ _ (Hext & Hdns & Hips)] _ [= <-]. cbn. unfold parse, der.
    rewrite undigits_digits, decode_encode. cbn. destruct cert; cbn in *. by rewrite Hext, Hdns, Hips.
  - intros pub. by apply bool_decide_eq_true.
Qed.

Definition ca_options : Options := mkOptions certKindCA "Example CA" 0 [] [] "" "" "out" false.
Definition server_options : Options :=
  mkOptions certKindServer "host" 365 ["*.example.com"] ["127.0.0.1"] "ca.pem" "ca-key.pem" "out" false.
Definition now : Z := 1000000.
Definition no_file (path : string) : option string := None.
(** The CA's directory, and its files. *)
Definition ca_state : Fs := (Generate no_file ca_options now (mkFs ∅ 0)).2.
Definition ca_file (path : string) : option string := file_data <$> Fs_dir ca_state !! path.

Lemma run_snd {A B} (p : A * B) a : p.1 = a → p = (a, p.2).
Proof. destruct p. by intros <-. Qed.

Lemma template_profile_witness :
  ExtKeyUsages (template server_options now 41 ["7F000001"]) = [ExtKeyUsageServerAuth] ∧
  (ExtKeyUsageClientAuth ∈ ExtKeyUsages (template server_options now 41 ["7F000001"]) ↔
   certKindServer = certKindClient).
Proof.
  split; [reflexivity|].
  apply (template_profile server_options now 41 ["7F000001"]).
  apply check_options_Ok. vm_compute. reflexivity.
Defined.

Lemma Generate_spec_witness :
  ∃ key, Fs_dir (Generate ca_file server_options now (mkFs ∅ 0)).2 !! "server-key.pem"
    = Some (mkFile key mode_0600).
Proof.
  destruct (Generate_spec ca_file server_options now (mkFs ∅ 0)
    (Generate ca_file server_options now (mkFs ∅ 0)).2) as (ips & files & _ & _ & _ & Hkey & _).
  - apply run_snd. vm_compute. reflexivity.
  - exact Hkey.
Defined.

Lemma Generate_preserves_witness :
  is_Some (Generate no_file ca_options now ca_state).1 ∧
  Fs_dir (Generate no_file ca_options now ca_state).2 = Fs_dir ca_state.
Proof.
  assert (Herr : is_Some (Generate no_file ca_options now ca_state).1).
  { vm_compute. eexists. reflexivity. }
  split; [exact Herr|].
  apply (Generate_preserves no_file ca_options now ca_state _ _ eq_refl (surjective_pairing _)); [exact Herr|].
  intros n. reflexivity.
Defined.

Lemma Generate_loadCA_witness :
  ∃ serial ips key certPEM,
    loadCA ca_file "ca.pem" "ca-key.pem" = Ok (parsed (template ca_options now serial ips), key, certPEM) ∧
    rand_Int (2 ^ 159) = Some serial ∧ GenerateKey 3072 = Some key ∧
    Fs_dir ca_state !! "ca.pem" = Some (mkFile certPEM mode_0644).
Proof.
  apply (Generate_loadCA no_file ca_file ca_options now (mkFs ∅ 0) ca_state "ca.pem" "ca-key.pem" laws).
  - reflexivity.
  - apply run_snd. vm_compute. reflexivity.
  - reflexivity.
  - reflexivity.
Defined.
End Example.
