(* ===== verification/Cli.v ===== *)
(** * Package pki: the command line

    internal/pki/cli.go and cmd/dockauthz-cert/main.go: [Run] turns arguments into the
    options of [Generate], and reports the result. *)
From S2P Require Import Prelude GoString GoFlag PkiBundle Pki.

(** ** Assignments to the options *)
Definition empty_options (kind : string) : Options := mkOptions kind "" 0 [] [] "" "" "" false.
Definition set_Name (v : string) (o : Options) : Options :=
  mkOptions (Options_Kind o) v (Options_Days o) (Options_DNS o) (Options_IP o) (Options_CACert o)
    (Options_CAKey o) (Options_Out o) (Options_Force o).
Definition set_Out (v : string) (o : Options) : Options :=
  mkOptions (Options_Kind o) (Options_Name o) (Options_Days o) (Options_DNS o) (Options_IP o)
    (Options_CACert o) (Options_CAKey o) v (Options_Force o).
Definition set_Days (v : Z) (o : Options) : Options :=
  mkOptions (Options_Kind o) (Options_Name o) v (Options_DNS o) (Options_IP o) (Options_CACert o)
    (Options_CAKey o) (Options_Out o) (Options_Force o).
Definition set_Force (v : bool) (o : Options) : Options :=
  mkOptions (Options_Kind o) (Options_Name o) (Options_Days o) (Options_DNS o) (Options_IP o)
    (Options_CACert o) (Options_CAKey o) (Options_Out o) v.
Definition set_CACert (v : string) (o : Options) : Options :=
  mkOptions (Options_Kind o) (Options_Name o) (Options_Days o) (Options_DNS o) (Options_IP o) v
    (Options_CAKey o) (Options_Out o) (Options_Force o).
Definition set_CAKey (v : string) (o : Options) : Options :=
  mkOptions (Options_Kind o) (Options_Name o) (Options_Days o) (Options_DNS o) (Options_IP o)
    (Options_CACert o) v (Options_Out o) (Options_Force o).
(** repeated.Set *)
Definition add_DNS (v : string) (o : Options) : Options :=
  mkOptions (Options_Kind o) (Options_Name o) (Options_Days o) (Options_DNS o ++ [v]) (Options_IP o)
    (Options_CACert o) (Options_CAKey o) (Options_Out o) (Options_Force o).
Definition add_IP (v : string) (o : Options) : Options :=
  mkOptions (Options_Kind o) (Options_Name o) (Options_Days o) (Options_DNS o) (Options_IP o ++ [v])
    (Options_CACert o) (Options_CAKey o) (Options_Out o) (Options_Force o).

Definition StringVar (set : string → Options → Options) : flag := ValueFlag (λ v o, Some (set v o)).
(** The flags of a command. *)
Definition formal (kind name : string) : option flag :=
  if name == "name" then Some (StringVar set_Name)
  else if name == "out" then Some (StringVar set_Out)
  else if name == "days" then Some (ValueFlag (λ v o, days ← ParseInt v; Some (set_Days days o)))
  else if name == "force" then Some (BoolFlag (λ v o, force ← ParseBool v; Some (set_Force force o)))
  else if (name == "ca-cert") && (kind != "ca") then Some (StringVar set_CACert)
  else if (name == "ca-key") && (kind != "ca") then Some (StringVar set_CAKey)
  else if (name == "dns") && (kind == "server") then Some (StringVar add_DNS)
  else if (name == "ip") && (kind == "server") then Some (StringVar add_IP)
  else None.
(** The variables before Parse: -days has a default. *)
Definition initial_options (kind : string) : Options :=
  set_Days (if kind == "ca" then 3650 else 365)%Z (empty_options kind).

Section Run.
Context `{!Crypto, !Host}.

(** Run: the error, what it prints, and the directory.  [stdout] is the result of writing
    to standard output. *)
Definition Run (read_file : string → option string) (now : Z) (stdout : option error)
    (args : list string) (s : Fs) : option error * list string * Fs :=
  match args with
  | [] => (Some "usage: dockauthz-cert ca|server|client [flags]", [], s)
  | kind :: args =>
      if (kind != "ca") && (kind != "server") && (kind != "client")
      then (Some "unknown certificate command", [], s)
      else match Parse (formal kind) args (initial_options kind) with
      | Err e => (Some e, [], s)
      | Ok (o, rest) =>
          if negb (length rest =? 0)%nat then (Some "unexpected positional arguments", [], s)
          else if (Options_Days o <=? 0)%Z then (Some "--days must be positive", [], s)
          else match Generate read_file o now s with
          | (Some e, s) => (Some e, [], s)
          | (None, s) => (stdout, ["Certificate bundle created in " +:+ Options_Out o], s)
          end
      end
  end.

(** The command: its exit status, and what it prints on the two streams. *)
Definition main (read_file : string → option string) (now : Z) (stdout : option error)
    (args : list string) (s : Fs) : Z * list string * list string * Fs :=
  let '(err, out, s) := Run read_file now stdout args s in
  match err with
  | None => (0%Z, out, [], s)
  | Some e => if e != ErrHelp then (1%Z, out, [e], s) else (0%Z, out, [], s)
  end.

(** ** Specification *)

(** Arguments that ask for [o]: a command and spellings of assignments that make it, with
    nothing but a final "--" after them. *)
Definition Asks (args : list string) (o : Options) : Prop :=
  ∃ kind assigns flags tail, args = kind :: flags ++ tail ∧ kind ∈ ["ca"; "server"; "client"] ∧
    Spells (formal kind) assigns flags ∧ assign (formal kind) assigns (initial_options kind) = Some o ∧
    (tail = [] ∨ tail = ["--"]).

Lemma kind_spec kind :
  (kind != "ca") && (kind != "server") && (kind != "client") = false ↔ kind ∈ ["ca"; "server"; "client"].
Proof.
  rewrite !andb_false_iff, !negb_false_iff, !bool_decide_eq_true, !elem_of_cons.
  pose proof (not_elem_of_nil kind). tauto.
Qed.

Lemma stops_empty tail : stops tail [] ↔ tail = [] ∨ tail = ["--"].
Proof.
  unfold stops. split.
  - intros [[? _]|[?|(s & args & -> & _ & ?)]]; [by left|by right|done].
  - intros [->| ->]; [by left|by right; left].
Qed.

(** What Parse makes of the arguments is what they ask for. *)
Lemma Asks_Parse kind args o :
  kind ∈ ["ca"; "server"; "client"] →
  Asks (kind :: args) o ↔ Parse (formal kind) args (initial_options kind) = Ok (o, []).
Proof.
  intros Hkind. rewrite parse_Ok. unfold Asks. setoid_rewrite stops_empty. split.
  - intros (kind' & assigns & flags & tail & [= <- ->] & _ & ? & ? & ?). by exists assigns, flags, tail.
  - intros (assigns & flags & tail & -> & ? & ? & ?). by exists kind, assigns, flags, tail.
Qed.

(** The command for [o], whose days are spelled [days]. *)
Definition render (o : Options) (days : string) : list string :=
  Options_Kind o :: ["--" +:+ "name" +:+ "=" +:+ Options_Name o; "--" +:+ "out" +:+ "=" +:+ Options_Out o;
    "--" +:+ "days" +:+ "=" +:+ days]
  ++ (if Options_Force o then ["--" +:+ "force"] else [])
  ++ (if Options_Kind o != "ca"
      then ["--" +:+ "ca-cert" +:+ "=" +:+ Options_CACert o; "--" +:+ "ca-key" +:+ "=" +:+ Options_CAKey o] else [])
  ++ (if Options_Kind o == "server"
      then ((λ v, "--" +:+ "dns" +:+ "=" +:+ v) <$> Options_DNS o) ++ ((λ v, "--" +:+ "ip" +:+ "=" +:+ v) <$> Options_IP o)
      else []).
(** Options that have no setting for another command. *)
Definition Proper_options (o : Options) : Prop :=
  Options_Kind o ∈ ["ca"; "server"; "client"] ∧
  (Options_Kind o = "ca" → Options_CACert o = "" ∧ Options_CAKey o = "") ∧
  (Options_Kind o ≠ "server" → Options_DNS o = [] ∧ Options_IP o = []).

Lemma Spells_app (kind : string) assigns assigns' flags flags' :
  Spells (formal kind) assigns flags → Spells (formal kind) assigns' flags' →
  Spells (formal kind) (assigns ++ assigns') (flags ++ flags').
Proof. induction 1; intros; [done|..]; by econstructor; auto. Qed.
Lemma assign_app (kind : string) assigns assigns' o o' :
  assign (formal kind) assigns o = Some o' →
  assign (formal kind) (assigns ++ assigns') o = assign (formal kind) assigns' o'.
Proof.
  revert o. induction assigns as [|[name value] assigns IH]; intros o; cbn [assign app]; [by intros [= ->]|].
  destruct (formal kind name); cbn; [|done]. destruct (flag_set _ _ _); cbn; [|done]. apply IH.
Qed.

(** A repeated flag. *)
Lemma Spells_repeated kind name f values :
  flag_name name → formal kind name = Some f →
  Spells (formal kind) (pair name <$> values) ((λ v, "--" +:+ name +:+ "=" +:+ v) <$> values).
Proof.
  intros Hname Hf. induction values as [|v values IH]; cbn; [constructor|].
  eapply spells_equals; [right; left|done..].
Qed.
Lemma assign_DNS values o :
  assign (formal "server") (pair "dns" <$> values) o = Some (mkOptions (Options_Kind o) (Options_Name o)
    (Options_Days o) (Options_DNS o ++ values) (Options_IP o) (Options_CACert o) (Options_CAKey o)
    (Options_Out o) (Options_Force o)).
Proof.
  revert o. induction values as [|v values IH]; intros o; cbn [fmap list_fmap assign].
  { rewrite app_nil_r. by destruct o. }
  change (formal "server" "dns") with (Some (StringVar add_DNS)). cbn. rewrite IH. cbn.
  by rewrite <- app_assoc.
Qed.
Lemma assign_IP values o :
  assign (formal "server") (pair "ip" <$> values) o = Some (mkOptions (Options_Kind o) (Options_Name o)
    (Options_Days o) (Options_DNS o) (Options_IP o ++ values) (Options_CACert o) (Options_CAKey o)
    (Options_Out o) (Options_Force o)).
Proof.
  revert o. induction values as [|v values IH]; intros o; cbn [fmap list_fmap assign].
  { rewrite app_nil_r. by destruct o. }
  change (formal "server" "ip") with (Some (StringVar add_IP)). cbn. rewrite IH. cbn.
  by rewrite <- app_assoc.
Qed.

(** The assignments of [render]. *)
Definition assignments (o : Options) (days : string) : list (string * string) :=
  [("name", Options_Name o); ("out", Options_Out o); ("days", days)]
  ++ (if Options_Force o then [("force", "true")] else [])
  ++ (if Options_Kind o != "ca" then [("ca-cert", Options_CACert o); ("ca-key", Options_CAKey o)] else [])
  ++ (if Options_Kind o == "server"
      then (pair "dns" <$> Options_DNS o) ++ (pair "ip" <$> Options_IP o) else []).

Lemma assign_cons kind name value assigns f o o' :
  formal kind name = Some f → flag_set f value o = Some o' →
  assign (formal kind) ((name, value) :: assigns) o = assign (formal kind) assigns o'.
Proof. intros Hf Ho. cbn [assign]. rewrite Hf. cbn. by rewrite Ho. Qed.
(** Assignments of constant flags, the one of -days by [Hdays]. *)
Ltac assign_flags Hdays :=
  repeat (etrans; [eapply assign_cons; [reflexivity|cbn; rewrite ?Hdays; reflexivity]|]).
Ltac spell_flags :=
  repeat first
    [ apply spells_nil
    | eapply spells_equals; [right; left|split_and!; done|reflexivity|]
    | eapply spells_bool; [right; left|split_and!; done|reflexivity|] ].

Lemma render_Spells o days :
  Options_Kind o ∈ ["ca"; "server"; "client"] →
  ∃ flags, render o days = Options_Kind o :: flags ∧ Spells (formal (Options_Kind o)) (assignments o days) flags.
Proof.
  intros Hkind. eexists. split; [reflexivity|]. unfold assignments.
  repeat apply (Spells_app (Options_Kind o)).
  - by spell_flags.
  - destruct (Options_Force o); by spell_flags.
  - repeat (apply elem_of_cons in Hkind as [->|Hkind]; [by spell_flags|]). by apply not_elem_of_nil in Hkind.
  - case_bool_decide as Hserver; [|apply spells_nil]. rewrite Hserver.
    apply (Spells_app "server"); eapply Spells_repeated; try reflexivity; split_and!; done.
Qed.

Lemma render_Asks o days :
  Proper_options o → ParseInt days = Some (Options_Days o) → Asks (render o days) o.
Proof.
  intros (Hkind & Hca & Hserver) Hdays. destruct (render_Spells o days Hkind) as (flags & -> & Hspells).
  exists (Options_Kind o), (assignments o days), flags, [].
  split_and!; [by rewrite app_nil_r|done|done| |by left].
  destruct o as [kind name n dns ip cacert cakey out force]; unfold assignments; cbn in *.
  apply elem_of_cons in Hkind as [->|[->|[->|[]%not_elem_of_nil]%elem_of_cons]%elem_of_cons].
  - destruct (Hca eq_refl) as [-> ->]. destruct Hserver as [-> ->]; [done|].
    destruct force; cbn [app]; assign_flags Hdays; reflexivity.
  - clear Hca Hserver Hspells. change ("server" != "ca") with true. change ("server" == "server") with true.
    destruct force; cbn [app]; assign_flags Hdays;
      (etrans; [apply (assign_app "server" _ _ _ _ (assign_DNS dns _))|]); rewrite assign_IP; reflexivity.
  - clear Hca. destruct Hserver as [-> ->]; [done|].
    destruct force; cbn [app]; assign_flags Hdays; reflexivity.
Qed.

Lemma Run_Asks read_file now stdout args o s :
  Asks args o → (0 < Options_Days o)%Z → Run read_file now stdout args s =
    match Generate read_file o now s with
    | (Some e, s) => (Some e, [], s)
    | (None, s) => (stdout, ["Certificate bundle created in " +:+ Options_Out o], s)
    end.
Proof.
  intros Hasks Hdays. pose proof Hasks as (kind & ? & flags & tail & -> & Hkind & _).
  cbn [Run]. rewrite (proj2 (kind_spec kind) Hkind). apply (Asks_Parse _ _ _ Hkind) in Hasks as ->.
  cbn [length Nat.eqb negb]. by destruct (Z.leb_spec (Options_Days o) 0); [lia|].
Qed.

Lemma Run_refuses read_file now stdout args s :
  (¬ ∃ o, Asks args o ∧ (0 < Options_Days o)%Z) → ∃ e, Run read_file now stdout args s = (Some e, [], s).
Proof.
  intros Hno. destruct args as [|kind args]; [by eexists|]. cbn [Run].
  destruct (_ && _ && _) eqn:Hkind; [by eexists|]. apply kind_spec in Hkind.
  destruct (Parse _ _ _) as [[o rest]|e] eqn:Hparse; [|by eexists].
  destruct rest as [|r rest]; cbn [length Nat.eqb negb]; [|by eexists].
  destruct (Z.leb_spec (Options_Days o) 0) as [Hdays|Hdays]; [by eexists|].
  destruct Hno. exists o. by split; [apply Asks_Parse|].
Qed.

(** C38. The command line reaches Generate with exactly the options that the arguments
    spell, in any of the spellings of package flag, and every set of options of a command
    can be spelled; any other arguments fail without touching the file system. *)
Theorem Run_spec read_file now stdout s :
  (∀ args o, Asks args o → (0 < Options_Days o)%Z → Run read_file now stdout args s =
     match Generate read_file o now s with
     | (Some e, s) => (Some e, [], s)
     | (None, s) => (stdout, ["Certificate bundle created in " +:+ Options_Out o], s)
     end) ∧
  (∀ args, (¬ ∃ o, Asks args o ∧ (0 < Options_Days o)%Z) →
     ∃ e, Run read_file now stdout args s = (Some e, [], s)) ∧
  (∀ o days, Proper_options o → ParseInt days = Some (Options_Days o) → Asks (render o days) o).
Proof. split_and!; [intros; by apply Run_Asks|intros; by apply Run_refuses|apply render_Asks]. Qed.
End Run.

(** ** Example: a server certificate, with flags in several spellings *)
Module Example.
#[local] Existing Instance Pki.Example.crypto.
#[local] Existing Instance PkiBundle.Example.host.
Definition arguments : list string :=
  ["server"; "-name"; "host"; "--out=out"; "-days=0x16d"; "--dns"; "*.example.com"; "-ip=127.0.0.1";
   "--ca-cert=ca.pem"; "-ca-key"; "ca-key.pem"; "--"].

Lemma arguments_asked : Asks arguments Pki.Example.server_options.
Proof. apply Asks_Parse; [right; left|]. vm_compute. reflexivity. Qed.

Lemma Run_spec_witness :
  (Run Pki.Example.ca_file Pki.Example.now None arguments (mkFs ∅ 0)).1 =
    (None, ["Certificate bundle created in out"]) ∧
  Asks (render Pki.Example.server_options "365") Pki.Example.server_options.
Proof.
  destruct (Run_spec Pki.Example.ca_file Pki.Example.now None (mkFs ∅ 0)) as (Hrun & _ & Hrender). split.
  - rewrite (Hrun arguments _ arguments_asked) by (vm_compute; reflexivity). vm_compute. reflexivity.
  - apply Hrender; [|vm_compute; reflexivity]. split_and!; [right; left|done|].
    intros []. reflexivity.
Defined.
End Example.
