(* ===== verification/Main.v ===== *)
(** * Command dockauthz

    cmd/dockauthz/main.go: [run] loads the policy, sets up telemetry, makes the token, the
    client and the plugin, and serves; its deferred calls run in reverse order on every
    way out.  What it does to the rest of the process is a list of effects. *)
From S2P Require Import Prelude GoString GoFlag NetHttp ConfigTelemetry Setup Observer Config DockerApi Policy Authz.
From S2P Require Import GoIO Identity Swarm Mutation SpecJson Transport.

(** ** Data *)
Definition DefaultPath : string := "/etc/dockauthz/config.yaml".
Definition docker_socket : string := "/var/run/docker.sock".
Definition plugin_socket : string := "/run/docker/plugins/dockauthz.sock".

Section run.
Context `{!MapRange, !Yaml, !Exporters}.

Inductive effect :=
| Notify                                  (* signal.NotifyContext *)
| Log (msg : string)
| Serve (socket : string) (client : DockerApi.Client) (p : Plugin)   (* transport.New, ServeUnix *)
| Close (client : DockerApi.Client)       (* CloseIdleConnections *)
| Shutdown (r : Runtime)                  (* tel.Shutdown *)
| Stop.                                   (* stop of NotifyContext *)

(** How run ends: the flag package may exit, otherwise it returns. *)
Inductive ending := Exit (status : Z) | Returned (err : option error).

Definition formal (name : string) : option flag :=
  if name == "config" then Some (ValueFlag (λ v (_ : string), Some v)) else None.

(** The deferred function: flush telemetry, and log when that fails. *)
Definition flush (shutdown : Runtime → option error) (r : Runtime) : list effect :=
  Shutdown r :: match shutdown r with Some _ => [Log "telemetry shutdown failed"] | None => [] end.

Definition set_Telemetry (t : ptr Telemetry) (cfg : Config) : Config :=
  mkConfig (Config_Authentication cfg) t (Config_Clients cfg).

(** run, for the process's arguments, files and random bytes; [serve] is what ServeUnix
    returns for a plugin and [shutdown] what the flush of a runtime does. *)
Definition run (args : list string) (open : string → option io_reader) (version : string)
    (random : option (Vector.t Ascii.ascii 32)) (serve : Plugin → option error)
    (shutdown : Runtime → option error) : outcome (ending * list effect) :=
  match GoFlag.Parse formal args DefaultPath with
  | Err e => Return (Exit (if e == ErrHelp then 0 else 2)%Z, [])
  | Ok (path, rest) =>
      if negb (length rest =? 0)%nat then Return (Returned (Some "unexpected positional arguments"), [])
      else match Load open path with
      | Panic => Panic
      | Return (Err e) => Return (Returned (Some e), [])
      | Return (Ok cfg) =>
          match Setup (Config_Telemetry cfg) version with
          | Panic => Panic
          | Return (t, _, Err e) => Return (Returned (Some e), [Notify; Stop])
          | Return (t, _, Ok tel) =>
              let cfg := set_Telemetry t cfg in
              match NewToken random with
              | None =>
                  Return (Returned (Some "cannot create internal authorization token"),
                    [Notify] ++ flush shutdown tel ++ [Stop])
              | Some token =>
                  let client := DockerApi.New docker_socket token in
                  match (New cfg token).2 with
                  | Err e =>
                      Return (Returned (Some e),
                        [Notify; Close client] ++ flush shutdown tel ++ [Stop])
                  | Ok plugin =>
                      Return (Returned (serve plugin),
                        [Notify; Log "starting dockauthz"; Serve plugin_socket client plugin; Close client]
                        ++ flush shutdown tel ++ [Stop])
                  end
              end
          end
      end
  end.

(** main: the exit status, with the error logged. *)
Definition main (args : list string) (open : string → option io_reader) (version : string)
    (random : option (Vector.t Ascii.ascii 32)) (serve : Plugin → option error)
    (shutdown : Runtime → option error) : outcome (Z * list effect) :=
  match run args open version random serve shutdown with
  | Panic => Panic
  | Return (Exit status, effects) => Return (status, effects)
  | Return (Returned (Some _), effects) => Return (1%Z, effects ++ [Log "dockauthz stopped"])
  | Return (Returned None, effects) => Return (0%Z, effects)
  end.

(** ** Specification *)

(** The configuration file that the arguments name, the last one if several. *)
Definition Names (args : list string) (path : string) : Prop :=
  ∃ assigns flags tail, args = flags ++ tail ∧ Spells formal assigns flags ∧
    assign formal assigns DefaultPath = Some path ∧ (tail = [] ∨ tail = ["--"]).

(** What a run that serves does until it stops. *)
Definition serving (client : DockerApi.Client) (plugin : Plugin) : list effect :=
  [Notify; Log "starting dockauthz"; Serve plugin_socket client plugin; Close client].

(** The policy as it is after loading is set up, and accepted, without a change. *)
Lemma Setup_loaded open path cfg version :
  Load open path = Return (Ok cfg) →
  ∃ handled r, Setup (Config_Telemetry cfg) version = Return (Config_Telemetry cfg, handled, Ok r) ∧
    ∀ t, Config_Telemetry cfg = Some t → Configures t version handled r.
Proof.
  intros (r0 & _ & [_ _ _ _ (cfg0 & _ & ->) Hvalid])%Load_Ok. cbn [Config_Telemetry Config_defaults].
  destruct (Config_Telemetry cfg0) as [t|] eqn:Ht; cbn [fmap option_fmap option_map].
  - assert (Hvalidt : ValidTelemetry (Telemetry_defaults (Telemetry_defaults t))).
    { rewrite Telemetry_defaults_idem. apply (config_telemetry _ Hvalid). cbn. by rewrite Ht. }
    destruct (Setup_valid (Telemetry_defaults t) version Hvalidt) as (handled & r & Hsetup & Hconf).
    rewrite Telemetry_defaults_idem in Hsetup, Hconf. exists handled, r. split; [done|].
    by intros _ [= <-].
  - by eexists _, _.
Qed.

Lemma set_Telemetry_id cfg : set_Telemetry (Config_Telemetry cfg) cfg = cfg.
Proof. by destruct cfg. Qed.

Lemma New_loaded open path cfg token :
  Load open path = Return (Ok cfg) → ∃ plugin, New cfg token = (cfg, Ok plugin).
Proof.
  intros Hload. unfold New. rewrite (Load_revalidates _ _ open path cfg Hload). by eexists.
Qed.

Lemma Names_Parse args path : Names args path ↔ GoFlag.Parse formal args DefaultPath = Ok (path, []).
Proof.
  rewrite GoFlag.parse_Ok. unfold Names. split.
  - intros (assigns & flags & tail & ? & ? & ? & Htail). exists assigns, flags, tail.
    split_and!; [done..|]. destruct Htail as [->| ->]; [by left|by right; left].
  - intros (assigns & flags & tail & ? & ? & ? & Hstops). exists assigns, flags, tail.
    split_and!; [done..|]. destruct Hstops as [[? _]|[?|(s & l & -> & _ & ?)]]; [by left|by right|done].
Qed.

(** A run whose files and random bytes are there reaches the plugin. *)
Lemma run_serving args open version random serve shutdown path cfg token :
  Names args path → Load open path = Return (Ok cfg) → NewToken random = Some token →
  ∃ plugin handled tel, New cfg token = (cfg, Ok plugin) ∧
    Setup (Config_Telemetry cfg) version = Return (Config_Telemetry cfg, handled, Ok tel) ∧
    run args open version random serve shutdown = Return (Returned (serve plugin),
      serving (DockerApi.New docker_socket token) plugin
      ++ flush shutdown tel ++ [Stop]).
Proof.
  intros Hpath%Names_Parse Hload Htoken.
  destruct (Setup_loaded open path cfg version Hload) as (handled & tel & Hsetup & _).
  destruct (New_loaded open path cfg token Hload) as [plugin Hnew].
  exists plugin, handled, tel. split_and!; [done..|].
  unfold run. rewrite Hpath. cbn [length Nat.eqb negb]. rewrite Hload, Hsetup, Htoken, set_Telemetry_id.
  by rewrite Hnew.
Qed.

(** The other ways in which it ends. *)
Lemma run_not_serving args open version random serve shutdown ending effects :
  run args open version random serve shutdown = Return (ending, effects) →
  (∃ path cfg token, Names args path ∧ Load open path = Return (Ok cfg) ∧ NewToken random = Some token) ∨
  ending ≠ Returned None ∧ (effects = [] ∨ ∃ tel, effects = [Notify] ++ flush shutdown tel ++ [Stop]) ∨
  ending = Exit 0 ∧ effects = [].
Proof.
  unfold run. destruct (GoFlag.Parse formal args DefaultPath) as [[path rest]|e] eqn:Hparse.
  2: { intros [= <- <-]. case_bool_decide; [by right; right|]. right; left. split; [done|by left]. }
  destruct rest as [|r rest]; cbn [length Nat.eqb negb].
  2: { intros [= <- <-]. right; left. split; [done|by left]. }
  apply Names_Parse in Hparse.
  destruct (Load open path) as [[cfg|e]|] eqn:Hload; [| |done].
  2: { intros [= <- <-]. right; left. split; [done|by left]. }
  destruct (Setup_loaded open path cfg version Hload) as (handled & tel & -> & _).
  rewrite set_Telemetry_id. destruct (NewToken random) as [token|] eqn:Htoken.
  - intros _. left. by exists path, cfg, token.
  - intros [= <- <-]. right; left. split; [done|]. right. by exists tel.
Qed.

(** C17. The process serves exactly when its arguments name a policy that loads and its
    token can be made, with the plugin of that very policy: neither the set-up of
    telemetry nor the constructor can refuse a policy that was loaded.  Whatever it has
    acquired it releases, in reverse order, on every way out. *)
Theorem run_spec args open version random serve shutdown :
  (∀ path cfg token, Names args path → Load open path = Return (Ok cfg) → NewToken random = Some token →
     ∃ plugin handled tel, New cfg token = (cfg, Ok plugin) ∧
       Setup (Config_Telemetry cfg) version = Return (Config_Telemetry cfg, handled, Ok tel) ∧
       run args open version random serve shutdown = Return (Returned (serve plugin),
         serving (DockerApi.New docker_socket token) plugin
         ++ flush shutdown tel ++ [Stop])) ∧
  (∀ ending effects, run args open version random serve shutdown = Return (ending, effects) →
     (∃ path cfg token, Names args path ∧ Load open path = Return (Ok cfg) ∧ NewToken random = Some token) ∨
     ending ≠ Returned None ∧ (effects = [] ∨ ∃ tel, effects = [Notify] ++ flush shutdown tel ++ [Stop]) ∨
     ending = Exit 0 ∧ effects = []).
Proof. split; [intros; by eapply run_serving|intros ? ?; apply run_not_serving]. Qed.
End run.

Section policy.
Context `{!MapRange, !Yaml, !Exporters, !DockerJson, !Otel, !Wire} {W : Type} `{!RoundTripper W}.

Lemma released_not_serve shutdown tel socket client plugin :
  Serve socket client plugin ∉ flush shutdown tel ++ [Stop].
Proof.
  unfold flush. intros [Hin|Hin%list_elem_of_singleton]%elem_of_app; [|done].
  apply elem_of_cons in Hin as [[=]|Hin].
  destruct (shutdown tel); [by apply list_elem_of_singleton in Hin|by apply not_elem_of_nil in Hin].
Qed.

Lemma served_plugin shutdown tel socket client plugin client' plugin' :
  Serve socket client' plugin' ∈ serving client plugin ++ flush shutdown tel ++ [Stop] →
  socket = plugin_socket ∧ client' = client ∧ plugin' = plugin.
Proof.
  intros [Hin|?%released_not_serve]%elem_of_app; [|done].
  do 2 (apply elem_of_cons in Hin as [[=]|Hin]).
  apply elem_of_cons in Hin as [[= -> -> ->]|Hin]; [done|]. by apply list_elem_of_singleton in Hin.
Qed.

(** C1. From the policy file to the answer on the wire: whatever plugin a run of the command
    serves, inspecting the daemon through the client that it was given, an HTTP call is
    answered with allow exactly when it is a well-formed response callback, or delivers a
    request that the document at the path that the arguments name, with the token that was
    drawn, allows, as long as a resource does not change between two looks at it. *)
Theorem run_serves_policy args open version random serve shutdown ending effects socket client plugin
    (ctx : Ctx) (ready : option nat) (call : HttpCall) (w : W) :
  let reader : Reader W := client_reader client in
  run args open version random serve shutdown = Return (ending, effects) →
  Serve socket client plugin ∈ effects →
  (∀ ctx op, stable (W := W) ctx op) →
  socket = plugin_socket ∧ ending = Returned (serve plugin) ∧
  ∃ path cfg token, Names args path ∧ Load open path = Return (Ok cfg) ∧ NewToken random = Some token ∧
    client = DockerApi.New docker_socket token ∧
    (reply_allows (result_of (ServeHTTP plugin ctx ready call) w).1 = true ↔
     (∃ req, is_response call ∧ ValidEnvelope (call_Body call) req) ∨
     ∃ req, delivers call req ∧
       ConfigAllows cfg token (policy_context (Extract ctx (call_Header call)) req) req w).
Proof.
  intros reader Hrun Hserve Hstable.
  destruct (run_not_serving _ _ _ _ _ _ _ _ Hrun) as [(path & cfg & token & Hpath & Hload & Htoken)|
    [(_ & [->|[tel ->]])|[_ ->]]].
  - destruct (run_serving args open version random serve shutdown _ _ _ Hpath Hload Htoken)
      as (plugin' & handled & tel & Hnew & _ & Heq).
    rewrite Heq in Hrun. injection Hrun as <- Heffects. rewrite <- Heffects in Hserve.
    apply served_plugin in Hserve as (-> & Hclient & ->). split_and!; [done..|].
    exists path, cfg, token. split_and!; [done..|]. rewrite ServeHTTP_allows. apply or_iff_compat_l.
    split; intros (req & Hreq & Hallow); exists req; (split; [done|]);
      by apply (New_refines cfg token cfg _ _ req w Hnew (Hstable _)).
  - by apply not_elem_of_nil in Hserve.
  - apply elem_of_app in Hserve as [Hserve%list_elem_of_singleton|?%released_not_serve]; done.
  - by apply not_elem_of_nil in Hserve.
Qed.
End policy.

(** ** Example: the policy of [Config.Example] at another path, and a daemon with one service *)
Module Example.
Export Transport.Example.
#[local] Existing Instance Config.Example.order.
#[local] Existing Instance Config.Example.decoder.
#[local] Instance exporters : Exporters := {|
  SpanExporter := unit; MetricExporter := unit;
  tg_New _ := Some (); th_New _ := None; mg_New _ := Some (); mh_New _ := None
|}.
Definition team (spec : ServiceSpec) : ServiceSpec :=
  mkServiceSpec (mkAnnotations "" (Some {["team" := "web"]})) (ServiceSpec_TaskTemplate spec)
    (ServiceSpec_Mode spec) (ServiceSpec_UpdateConfig spec) (ServiceSpec_RollbackConfig spec)
    (ServiceSpec_EndpointSpec spec).
#[local] Instance team_json : DockerJson := {|
  service_target := λ body,
    if body == "{current}" then Some (team Mutation.Example.current, "")
    else if body == "{new image}" then Some (team Mutation.Example.new_image, "") else None;
  secret_target := λ body, None; node_target := λ body, None; task_target := λ body, None;
  decode_envelope := λ body,
    if body == "{service abc}" then Some (DockerApi.mkEnvelope "abc" 42 "{current}", "") else None
|}.
(** The daemon answers with the service, and counts the requests. *)
#[local] Instance dockerd : RoundTripper nat := {|
  RoundTrip _ req w :=
    (if Http_URL req == "http://docker/v1.53/services/abc"
     then Some (mkHttpResponse 200 "" (mkReader "{service abc}" false)) else None, S w);
  Redirected _ _ := None
|}.
Definition arguments : list string := ["--config"; "/tmp/policy.yaml"].
Definition example_run : outcome (ending * list effect) :=
  run arguments Config.Example.file "1.0" (Some zero_bytes) (λ _, None) (λ _, None).
Definition fresh : Token := mkToken (EncodeToString (Vector.to_list zero_bytes)).
Definition served : Plugin := mkPlugin "deny" (Plugin_clients plugin) fresh.
Definition docker_client : DockerApi.Client := DockerApi.New docker_socket fresh.

Lemma arguments_named : Names arguments "/tmp/policy.yaml".
Proof. apply Names_Parse. vm_compute. reflexivity. Qed.
Lemma example_loaded : Load Config.Example.file "/tmp/policy.yaml" = Return (Ok Config.Example.loaded).
Proof. vm_compute. reflexivity. Qed.

Lemma run_spec_witness :
  ∃ plugin handled tel, New Config.Example.loaded fresh = (Config.Example.loaded, Ok plugin) ∧
    Setup (Config_Telemetry Config.Example.loaded) "1.0"
      = Return (Config_Telemetry Config.Example.loaded, handled, Ok tel) ∧
    example_run = Return (Returned None,
      serving docker_client plugin ++ flush (λ _, None) tel ++ [Stop]).
Proof.
  exact (proj1 (run_spec arguments Config.Example.file "1.0" (Some zero_bytes) (λ _, None) (λ _, None))
    _ _ _ arguments_named example_loaded eq_refl).
Defined.

Lemma docker_stable ctx op :
  let reader : Reader nat := client_reader docker_client in stable (W := nat) ctx op.
Proof.
  intros reader w1 w2. unfold Inspect, reader, client_reader.
  rewrite !result_Client_Inspect. unfold round_trip.
  destruct (inspect_request _ _ _) as [req|e]; [|done].
  rewrite !result_mbind, !result_ret, !result_lift.
  rewrite !(Do_refuses _ _ _ (New_refuses docker_socket fresh)). unfold RoundTrip, dockerd.
  by case_bool_decide.
Qed.

Lemma run_serves_policy_witness :
  let reader : Reader nat := client_reader docker_client in
  delivers (call "POST" "/AuthZPlugin.AuthZReq" "{deploy}") deploy ∧
  ConfigAllows Config.Example.loaded fresh (policy_context background deploy) deploy 0.
Proof.
  intros reader. set (r := call "POST" "/AuthZPlugin.AuthZReq" "{deploy}").
  destruct example_run as [[ending effects]|] eqn:Hrun; [|vm_compute in Hrun; discriminate Hrun].
  assert (Hserve : Serve plugin_socket docker_client served ∈ effects).
  { vm_compute in Hrun. injection Hrun as <- <-. do 2 right. left. }
  destruct (run_serves_policy arguments Config.Example.file "1.0" (Some zero_bytes) (λ _, None) (λ _, None)
    ending effects plugin_socket docker_client served background None r 0 Hrun Hserve docker_stable)
    as (_ & _ & path & cfg & token & Hpath & Hload & Htoken & _ & Hallow).
  apply Names_Parse in Hpath.
  assert (path = "/tmp/policy.yaml") as -> by (vm_compute in Hpath; by injection Hpath as <-).
  rewrite example_loaded in Hload. injection Hload as <-. injection Htoken as <-.
  assert (Hreply : reply_allows (result_of (ServeHTTP served background None r) 0).1 = true)
    by (vm_compute; reflexivity).
  apply Hallow in Hreply as [(req & [_ Hpath'] & _)|(req & Hreq & Hconfig)]; [by vm_compute in Hpath'|].
  assert (Hdeploy : delivers r deploy).
  { split; [split; reflexivity|]. split; [|split; discriminate]. apply ValidEnvelope_decode.
    exists (mkEnvelope (set_certificates [] deploy) ["cert"]), [Some (mkPeerCertificate "deployer")].
    vm_compute. split_and!; reflexivity. }
  rewrite (delivers_inj _ _ _ Hreq Hdeploy) in Hconfig. split; [exact Hdeploy|exact Hconfig].
Defined.
End Example.
